(* ===== verification/_CoqProject ===== *)
-Q . S2P
Prelude.v
StringC.v
Mmu.v
Kernel.v
Kalloc.v
ShMem.v
ShMemSpec.v
Syscall.v
Vm.v
PageTable.v
VmMap.v
VmUser.v
VmSetup.v
VmGrow.v
VmLife.v
UserMem.v
Effect.v
Proc.v
ProcTable.v
ProcRefine.v
Trap.v
Mmap.v
Spinlock.v
Monitor.v
Sleeplock.v
Pipe.v
Block.v
Bcache.v
Log.v
LogSpace.v
Bio.v
Ide.v
Fs.v
Safe.v
FsBlock.v
FsInode.v
FsMap.v
FsFile.v
FsDir.v
FsSafe.v
FsExample.v
File.v
Exec.v
Sysfile.v
Umalloc.v
ULib.v
Grep.v
Sh.v
ShRun.v
Kbd.v
Console.v
Mkfs.v
