(* ===== verification/Prelude.v ===== *)
(** * A verification development for xv6-upgrade

    xv6-upgrade is a small Unix for the x86, the teaching system xv6 with
    demand paging, mmap and shared pages added.  The kernel (src/*.c) runs
    user programs in page tables of their own; a trap enters the kernel, which
    works on memory, processes and files and gives the processor on.  This
    library models the kernel, the tool that makes its file system, and the
    parts of the user programs that compute something, and proves what makes
    each of them correct.

    ** How the C code is modelled

    A [uint] is a [Z] in [[0, 2^32)], with [u32] after every operation that the
    code does at 32 bits, an [int] the same bits read with [s32]; memory is a
    function from addresses to bytes.  A function that changes state is a
    program of the monad [M S A] of this file: it returns, panics, faults on a
    bad address, goes to sleep on a channel, or is still looping when the fuel
    of the model runs out ([outcome]).  [runs c s Q] says that [c] returns from
    [s] with [Q]; the panics, faults and sleeps of the code are outcomes, so a
    theorem with [runs] excludes them all.  Code that sleeps with a spin lock
    held is cut at the sleeps into critical sections, which [Monitor]
    interleaves between any number of processes, with kills.

    ** The files, and the code each of them models

    - [Prelude]: integers, bytes, memory, the monad, its rules and tactics.
    - Memory.  [Mmu] (mmu.h, memlayout.h), [Kernel] (the state shared by the
      components: memory, free list, process table, shared pages), [Kalloc]
      (kalloc.c), [ShMem] and [ShMemSpec] (sh_mem.c and its specification),
      [StringC] (string.c), [Vm] (vm.c without seginit), [PageTable], [VmMap],
      [VmUser], [VmSetup], [VmGrow] (the page table as a map of pages, who owns
      which frame, and each operation against it), [VmLife] (the theorems about
      address spaces), [Mmap] (mmap and munmap).
    - Processes.  [Proc] (proc.c, sysproc.c), [ProcTable] (the table as a
      state machine), [Effect] and [ProcRefine] (every call of proc.c takes
      steps of that machine), [Syscall] and [UserMem] (syscall.c: arguments
      read from user memory), [Trap] (trap.c, and the dispatch of syscall.c).
    - Locks and waiting.  [Spinlock] (spinlock.c, as single memory accesses of
      many processors), [Monitor] (sleep and wakeup of proc.c), [Sleeplock]
      (sleeplock.c), [Pipe] (pipe.c).
    - The disk and the log.  [Block] (blocks as bytes), [Bcache] (what the
      buffer cache promises), [Bio] (bio.c, buf.h and memide.c, which keep the
      promise), [Ide] (ide.c, the driver of a real drive), [Log] (log.c and
      crashes), [LogSpace] (the counting of log.c under concurrency).
    - The file system.  [Fs] (fs.c: every function), [Safe] and [FsSafe]
      (termination and typing of all of it), [FsBlock], [FsInode], [FsMap],
      [FsFile], [FsDir] (the layers, from the bitmap up to directories),
      [FsExample] (a small file system for the witnesses), [File] (file.c,
      pipealloc and pipeclose), [Exec] (exec.c and loaduvm), [Sysfile]
      (sysfile.c), [Mkfs] (mkfs.c).
    - User programs.  [Umalloc] (umalloc.c), [ULib] (ulib.c, printf.c), [Grep]
      (grep.c), [Sh] (the parser of sh.c), [ShRun] (runcmd of sh.c).
    - The terminal.  [Kbd] (kbd.c, kbd.h), [Console] (console.c).

    Definitions have the names of the C functions; a loop body or a part of a
    function that has a definition of its own is named after it
    ([balloc_iter], [iderw_wait]).  State that several files of the kernel
    share is one record: [Kernel.kernel] for memory and processes, [Fs.fs]
    over [Log.logged] over [Bcache.blocks] for the file system, and both with
    the file table in [File].

    ** What the theorems show

    - Pages ([Kalloc], [VmLife], [Trap], [Mmap], [ShMemSpec]): the free list
      never loses or duplicates a page under any use; building, growing,
      shrinking and freeing an address space gives back exactly the pages it
      took; a page fault on a lazy page maps one private page (which is not
      zeroed); the table of shared pages is a reference-counting map.
    - Processes ([ProcRefine], [ProcTable]): an invariant of the process table
      in every reachable state, and what goes wrong after a fork without
      memory, where a freed slot keeps its pid.
    - User memory ([UserMem]): arguments are accepted exactly when they lie
      inside the process.
    - Waiting ([Spinlock], [Sleeplock], [Pipe], [LogSpace]): mutual exclusion
      for every interleaving of processors and processes, no lost wakeups,
      pipes as queues, and log space that suffices for eight blocks an
      operation.  [LogSpace] also has a run in which the ten blocks
      that begin_op reserves for each operation overflow the log of mkfs.
    - The disk ([Bio], [Ide], [Log]): thirty recycled buffers are
      indistinguishable from the blocks; the driver makes every transfer once,
      in order, and wakes every caller; a transaction is all or nothing
      across crashes at any write, those during recovery included.
    - Files ([FsSafe], [FsBlock], [FsInode], [FsFile], [FsDir], [Mkfs]):
      whatever is on the disk, every call ends and keeps the types of its
      data; on a consistent disk, each layer does what the one above expects:
      allocation, inodes that read back, reading and writing as on a list of
      bytes, names that are found once linked; and mkfs makes such a disk with
      the files it was given.
    - User programs ([Umalloc], [Sh], [ShRun], [Grep], [ULib]): allocated
      blocks are disjoint and kept; the parser inverts printing; the programs
      of a command get the descriptors its pipes and redirections say; the
      matcher decides the pattern language and grep prints the matching lines;
      numbers read back as printed.
    - The terminal ([Console], [Kbd]): the ring of characters with its
      wrapping indices is line editing on a queue.

    ** Bounds and fuel

    [loop] takes a number of rounds; running out is the outcome [Spin], which
    no theorem about [runs] admits.  The rounds are computed from the data: the
    blocks of the disk for [balloc], the inodes for [ialloc], the entries of a
    directory, the blocks of a transfer, the length of a path or a command
    line, the slots of a table plus one, the drive's [patience] for the polls of
    [idewait], the heap's size for the walk over free blocks.  [FsSafe] shows that no
    call of the file system runs out from any state; elsewhere the theorems of
    each operation do.  Constants are those of param.h and mkfs.c.

    ** Assumptions

    Code outside the repository is a class or an argument: the drive of [Ide],
    device files in [Fs], the devices that [Trap] calls.  The file
    system's calls run one at a time between sleeps of the buffer cache, as
    the sleep locks make them do for one inode; their concurrency is treated
    where it is decided, in [Sleeplock], [LogSpace], [Pipe] and [Ide].

    ** Not modelled

    - What only programs the processor or devices: seginit, tvinit, idtinit,
      uart.c, lapic.c, ioapic.c, picirq.c, the tables of mp.c.  Their effect is
      on registers that no model reads.
    - Assembly (bootasm.S, entry.S, entryother.S, initcode.S, swtch.S,
      trapasm.S, ucrt0.S, usys.S, vectors.pl), bootmain.c and main.c.  The
      models use what it does: swtch ends a critical section, a trap comes
      with a frame.
    - Functions that only print or exit (procdump, panic, fork1), and stat and
      putc of the user library, which only make system calls.
    - User programs that are a few system calls on their arguments (cat, echo,
      init, kill, ln, ls, mkdir, rm, wc, zombie, greet, helloworld, the mains of
      sh and grep) and the test programs; the calls are modelled. *)

From stdpp Require Import base numbers list list_numbers sets strings.
From Stdlib Require Import ZArith Lia Btauto.

#[global] Open Scope Z_scope.

(** ** Machine integers

    A C [uint] is a [Z] in [[0, 2^32)]; every arithmetic step that the C code
    performs at 32 bits is followed by [u32].  A C [int] is recovered from its
    bit pattern with [s32]. *)
Definition u32 (x : Z) : Z := x `mod` 4294967296.
Definition s32 (x : Z) : Z :=
  let y := u32 x in if y <? 2147483648 then y else y - 4294967296.
Definition u8 (x : Z) : Z := x `mod` 256.
Definition s8 (x : Z) : Z := let y := u8 x in if y <? 128 then y else y - 256.
Definition u16 (x : Z) : Z := x `mod` 65536.
Definition s16 (x : Z) : Z := let y := u16 x in if y <? 32768 then y else y - 65536.

(** ** Bytes and little-endian words *)
Fixpoint le_combine (l : list Z) : Z :=
  match l with
  | [] => 0
  | b :: l' => b + 256 * le_combine l'
  end.

Fixpoint le_split (n : nat) (v : Z) : list Z :=
  match n with
  | O => []
  | S n' => v `mod` 256 :: le_split n' (v `div` 256)
  end.

(** Byte-addressed memory: total, since every kernel address is backed. *)
Definition mem := Z -> Z.

Definition rd32 (m : mem) (a : Z) : Z :=
  le_combine [m a; m (a + 1); m (a + 2); m (a + 3)].

(** [*(uint* )a = v]. *)
Definition wr32 (m : mem) (a v : Z) : mem :=
  fun x =>
    if (a <=? x) && (x <? a + 4)
    then (v `div` 256 ^ (x - a)) `mod` 256 else m x.

(** [*(char* )a = v]. *)
Definition wr8 (m : mem) (a v : Z) : mem :=
  fun x => if x =? a then u8 v else m x.

(** A run of bytes stored from address [a] on. *)
Definition wr_bytes (m : mem) (a : Z) (bs : list Z) : mem := fun x =>
  if (a <=? x) && (x <? a + Z.of_nat (length bs)) then default 0 (bs !! Z.to_nat (x - a)) else m x.

(** The whole effect of [memset(dst, c, n)] and [memmove(dst, src, n)]; the
    loops of string.c are proved to compute these in the file [StringC]. *)
Definition fill (m : mem) (dst c n : Z) : mem :=
  fun x => if (dst <=? x) && (x <? dst + n) then u8 c else m x.
Definition copy (m : mem) (dst src n : Z) : mem :=
  fun x => if (dst <=? x) && (x <? dst + n) then m (src + (x - dst)) else m x.

(** ** Outcomes of kernel code

    C code either returns, calls [panic] (which never returns), dereferences
    an invalid address, goes to sleep on a channel, or is still looping when
    the model's fuel runs out. *)
Inductive outcome (S A : Type) : Type :=
| Ret (a : A) (s : S)
| Panic (msg : string) (s : S)
| Fault (why : string) (s : S)
| Sleep (chan : Z) (s : S)
| Spin.
Arguments Ret {S A} a s.
Arguments Panic {S A} msg s.
Arguments Fault {S A} why s.
Arguments Sleep {S A} chan s.
Arguments Spin {S A}.

Definition M (S A : Type) : Type := S -> outcome S A.

Definition ret {S A} (a : A) : M S A := fun s => Ret a s.
Definition bind {S A B} (c : M S A) (f : A -> M S B) : M S B :=
  fun s =>
    match c s with
    | Ret a s' => f a s'
    | Panic msg s' => Panic msg s'
    | Fault w s' => Fault w s'
    | Sleep ch s' => Sleep ch s'
    | Spin => Spin
    end.
Definition panic {S A} (msg : string) : M S A := fun s => Panic msg s.
Definition fault {S A} (why : string) : M S A := fun s => Fault why s.
Definition get {S} : M S S := fun s => Ret s s.
Definition gets {S A} (f : S -> A) : M S A := fun s => Ret (f s) s.
Definition modify {S} (f : S -> S) : M S unit := fun s => Ret tt (f s).
Definition when {S} (b : bool) (c : M S unit) : M S unit :=
  if b then c else ret tt.

Declare Scope xv6_scope.
Delimit Scope xv6_scope with xv6.
Notation "x <- c ;; k" := (bind c (fun x => k))
  (at level 100, c at next level, right associativity) : xv6_scope.
Notation "c ;;; k" := (bind c (fun _ => k))
  (at level 100, right associativity) : xv6_scope.
#[global] Open Scope xv6_scope.

(** A C loop: the body maps the loop variables to either their next values
    or the value the loop ends with. *)
Fixpoint loop {S X R} (fuel : nat) (body : X -> M S (X + R)) (x : X) : M S R :=
  match fuel with
  | O => fun _ => Spin
  | Datatypes.S n =>
      r <- body x ;;
      match r with
      | inl x' => loop n body x'
      | inr v => ret v
      end
  end.

(** [for(x in l) body]: [Some r] leaves the loop early with [r]. *)
Fixpoint for_each {S X R} (l : list X) (body : X -> M S (option R)) : M S (option R) :=
  match l with
  | [] => ret None
  | x :: l' =>
      r <- body x ;;
      match r with
      | Some v => ret (Some v)
      | None => for_each l' body
      end
  end.

(** A [for] loop whose body never leaves early. *)
Fixpoint for_all {S X} (l : list X) (body : X -> M S unit) : M S unit :=
  match l with
  | [] => ret tt
  | x :: l' => body x ;;; for_all l' body
  end.

(** Run code over one component of a larger state. *)
Definition zoom {S T A} (g : S -> T) (p : T -> S -> S) (c : M T A) : M S A := fun s =>
  match c (g s) with
  | Ret a t => Ret a (p t s)
  | Panic msg t => Panic msg (p t s)
  | Fault w t => Fault w (p t s)
  | Sleep ch t => Sleep ch (p t s)
  | Spin => Spin
  end.

(** ** Total-correctness triples

    [runs c s Q]: started in [s], [c] returns (no panic, no fault, no sleep,
    no missing fuel) with a result and state that satisfy [Q]. *)
Definition runs {S A} (c : M S A) (s : S) (Q : A -> S -> Prop) : Prop :=
  exists a s', c s = Ret a s' /\ Q a s'.

(** ** Lemmas on integers and bytes *)
Lemma u32_small x : 0 <= x < 4294967296 -> u32 x = x.
Proof. intros. by apply Z.mod_small. Qed.

Lemma u32_range x : 0 <= u32 x < 4294967296.
Proof. unfold u32. by apply Z.mod_pos_bound. Qed.

Lemma u32_idemp x : u32 (u32 x) = u32 x.
Proof. apply u32_small, u32_range. Qed.

Lemma s32_small x : 0 <= x < 2147483648 -> s32 x = x.
Proof.
  intros. unfold s32. rewrite u32_small by lia.
  destruct (Z.ltb_spec x 2147483648); lia.
Qed.

Lemma s32_range x : -2147483648 <= s32 x < 2147483648.
Proof.
  unfold s32. pose proof (u32_range x).
  destruct (Z.ltb_spec (u32 x) 2147483648); lia.
Qed.

Lemma length_le_split n v : length (le_split n v) = n.
Proof. revert v. induction n; intros; simpl; auto. Qed.

Lemma le_split_bytes n v : Forall (fun b => 0 <= b < 256) (le_split n v).
Proof.
  revert v. induction n; intros v; simpl; constructor; auto.
  apply Z.mod_pos_bound. lia.
Qed.

Lemma le_combine_split n v : le_combine (le_split n v) = v `mod` 256 ^ (Z.of_nat n).
Proof.
  revert v. induction n as [|n IH]; intros v.
  - simpl. by rewrite Z.mod_1_r.
  - cbn [le_split le_combine]. rewrite IH.
    rewrite Nat2Z.inj_succ, Z.pow_succ_r by lia.
    rewrite Z.rem_mul_r by lia. reflexivity.
Qed.

Lemma le_combine_range l :
  Forall (fun b => 0 <= b < 256) l -> 0 <= le_combine l < 256 ^ (Z.of_nat (length l)).
Proof.
  induction 1 as [|b l Hb _ IH]; cbn [le_combine length]; [lia|].
  rewrite Nat2Z.inj_succ, Z.pow_succ_r by lia. lia.
Qed.

Lemma le_split_combine l :
  Forall (fun b => 0 <= b < 256) l -> le_split (length l) (le_combine l) = l.
Proof.
  induction 1 as [|b l Hb _ IH]; cbn [le_combine length le_split]; [done|].
  rewrite (Z.mul_comm 256), Z.mod_add, Z.mod_small, Z.div_add, Z.div_small by lia.
  by rewrite Z.add_0_l, IH.
Qed.

(** ** Memory lemmas *)
Definition bytes_ok (m : mem) : Prop := forall x, 0 <= m x < 256.

Lemma rd32_range m a : bytes_ok m -> 0 <= rd32 m a < 4294967296.
Proof.
  intros H. unfold rd32.
  apply (le_combine_range [m a; m (a + 1); m (a + 2); m (a + 3)]).
  repeat constructor; apply H.
Qed.

Lemma rd32_ext m m' a :
  (forall x, a <= x < a + 4 -> m' x = m x) -> rd32 m' a = rd32 m a.
Proof. intros H. unfold rd32. rewrite !H by lia. reflexivity. Qed.

Lemma rd32_wr32_same m a v : rd32 (wr32 m a v) a = u32 v.
Proof.
  assert (E : forall i, 0 <= i < 4 ->
    wr32 m a v (a + i) = (v `div` 256 ^ i) `mod` 256).
  { intros i Hi. unfold wr32.
    destruct (Z.leb_spec a (a + i)), (Z.ltb_spec (a + i) (a + 4)); try lia.
    simpl. by replace (a + i - a) with i by lia. }
  pose proof (E 0 ltac:(lia)) as E0. rewrite Z.add_0_r in E0.
  unfold rd32. rewrite E0, !E by lia. unfold u32.
  change 4294967296 with (256 ^ Z.of_nat 4). rewrite <- (le_combine_split 4 v).
  cbn [le_split le_combine]. rewrite !Z.div_div by lia.
  change (256 ^ 0) with 1. by rewrite Z.div_1_r.
Qed.

Lemma wr32_out m a v x : x < a \/ a + 4 <= x -> wr32 m a v x = m x.
Proof.
  intros H. unfold wr32.
  destruct (Z.leb_spec a x), (Z.ltb_spec x (a + 4)); simpl; lia || done.
Qed.

Lemma rd32_wr32_diff m a b v : b + 4 <= a \/ a + 4 <= b ->
  rd32 (wr32 m a v) b = rd32 m b.
Proof. intros H. apply rd32_ext. intros x Hx. apply wr32_out. lia. Qed.

Lemma wr32_bytes m a v : bytes_ok m -> bytes_ok (wr32 m a v).
Proof.
  intros H x. unfold wr32. destruct (_ && _); [|apply H].
  apply Z.mod_pos_bound. lia.
Qed.

Lemma fill_in m d c n x : d <= x < d + n -> fill m d c n x = u8 c.
Proof.
  intros. unfold fill.
  destruct (Z.leb_spec d x), (Z.ltb_spec x (d + n)); simpl; lia || done.
Qed.

Lemma fill_out m d c n x : x < d \/ d + n <= x -> fill m d c n x = m x.
Proof.
  intros. unfold fill.
  destruct (Z.leb_spec d x), (Z.ltb_spec x (d + n)); simpl; lia || done.
Qed.

Lemma fill_bytes m d c n : bytes_ok m -> bytes_ok (fill m d c n).
Proof.
  intros H x. unfold fill. destruct (_ && _); [|apply H].
  apply Z.mod_pos_bound. lia.
Qed.

Lemma rd32_fill_zero m d n a : d <= a -> a + 4 <= d + n -> rd32 (fill m d 0 n) a = 0.
Proof. intros. unfold rd32. rewrite !fill_in by lia. reflexivity. Qed.

Lemma rd32_fill_out m d c n a : a + 4 <= d \/ d + n <= a ->
  rd32 (fill m d c n) a = rd32 m a.
Proof. intros H. apply rd32_ext. intros x Hx. apply fill_out. lia. Qed.

Lemma copy_in m d s n x : d <= x < d + n -> copy m d s n x = m (s + (x - d)).
Proof.
  intros. unfold copy.
  destruct (Z.leb_spec d x), (Z.ltb_spec x (d + n)); simpl; lia || done.
Qed.

Lemma copy_out m d s n x : x < d \/ d + n <= x -> copy m d s n x = m x.
Proof.
  intros. unfold copy.
  destruct (Z.leb_spec d x), (Z.ltb_spec x (d + n)); simpl; lia || done.
Qed.

Lemma copy_bytes m d s n : bytes_ok m -> bytes_ok (copy m d s n).
Proof. intros H x. unfold copy. destruct (_ && _); apply H. Qed.

Lemma rd32_copy_in m d s n a : d <= a -> a + 4 <= d + n ->
  rd32 (copy m d s n) a = rd32 m (s + (a - d)).
Proof.
  intros. unfold rd32. rewrite !copy_in by lia.
  by replace (s + (a + 1 - d)) with (s + (a - d) + 1) by lia;
     replace (s + (a + 2 - d)) with (s + (a - d) + 2) by lia;
     replace (s + (a + 3 - d)) with (s + (a - d) + 3) by lia.
Qed.

Lemma rd32_copy_out m d s n a : a + 4 <= d \/ d + n <= a ->
  rd32 (copy m d s n) a = rd32 m a.
Proof. intros H. apply rd32_ext. intros x Hx. apply copy_out. lia. Qed.

#[global] Arguments rd32 : simpl never.
#[global] Arguments wr32 : simpl never.
#[global] Arguments fill : simpl never.
#[global] Arguments copy : simpl never.
#[global] Arguments u32 : simpl never.
#[global] Arguments s32 : simpl never.

Create HintDb xv6_mem discriminated.
#[export] Hint Resolve wr32_bytes fill_bytes copy_bytes rd32_range : xv6_mem.

(** ** Rules for [runs] *)
Section runs_rules.
Context {S : Type}.

Lemma runs_ret {A} (a : A) s (Q : A -> S -> Prop) : Q a s -> runs (ret a) s Q.
Proof. intros H. exists a, s. done. Qed.

Lemma runs_bind {A B} (c : M S A) (f : A -> M S B) s Q :
  runs c s (fun a s' => runs (f a) s' Q) -> runs (bind c f) s Q.
Proof.
  intros (a & s' & E & b & s'' & E' & HQ). exists b, s''.
  unfold bind. by rewrite E.
Qed.

Lemma runs_conseq {A} (c : M S A) s (P Q : A -> S -> Prop) :
  runs c s P -> (forall a s', P a s' -> Q a s') -> runs c s Q.
Proof. intros (a & s' & E & HP) H. exists a, s'. auto. Qed.

Lemma runs_get s (Q : S -> S -> Prop) : Q s s -> runs get s Q.
Proof. intros. by exists s, s. Qed.

Lemma runs_gets {A} (f : S -> A) s (Q : A -> S -> Prop) :
  Q (f s) s -> runs (gets f) s Q.
Proof. intros. by exists (f s), s. Qed.

Lemma runs_modify (f : S -> S) s (Q : unit -> S -> Prop) :
  Q tt (f s) -> runs (modify f) s Q.
Proof. intros. by exists tt, (f s). Qed.

Lemma runs_when (b : bool) (c : M S unit) s (Q : unit -> S -> Prop) :
  (b = true -> runs c s Q) -> (b = false -> Q tt s) -> runs (when b c) s Q.
Proof. destruct b; simpl; intros; [auto|apply runs_ret; auto]. Qed.

(** A loop returns when an invariant holds and a measure decreases. *)
Lemma runs_loop {X R} (I : X -> S -> Prop) (meas : X -> nat)
    (body : X -> M S (X + R)) (Q : R -> S -> Prop) fuel x s :
  (forall x s, I x s -> runs (body x) s (fun r s' =>
     match r with
     | inl x' => I x' s' /\ (meas x' < meas x)%nat
     | inr v => Q v s'
     end)) ->
  I x s -> (meas x < fuel)%nat -> runs (loop fuel body x) s Q.
Proof.
  intros Hb. revert x s. induction fuel as [|n IH]; intros x s HI Hm; [lia|].
  simpl. apply runs_bind. eapply runs_conseq; [by apply Hb|].
  intros [x'|v] s'; simpl; [intros [HI' Hm']|intros HQ].
  - apply IH; [done|lia].
  - by apply runs_ret.
Qed.

Lemma runs_for_each {X R} (I : list X -> S -> Prop) (l : list X)
    (body : X -> M S (option R)) (Q : option R -> S -> Prop) s :
  (forall pre x post s, l = pre ++ x :: post -> I pre s ->
     runs (body x) s (fun r s' =>
       match r with
       | None => I (pre ++ [x]) s'
       | Some v => Q (Some v) s'
       end)) ->
  (forall s, I l s -> Q None s) ->
  I [] s -> runs (for_each l body) s Q.
Proof.
  intros Hb Hend HI.
  assert (G : forall post pre s, l = pre ++ post -> I pre s ->
            runs (for_each post body) s Q).
  { induction post as [|x post IH]; intros pre s0 El HI0; simpl.
    - apply runs_ret, Hend. by rewrite El, app_nil_r.
    - apply runs_bind. eapply runs_conseq; [by eapply Hb|].
      intros [v|] s1; simpl; intros H1; [by apply runs_ret|].
      apply (IH (pre ++ [x])); [|done]. by rewrite <- app_assoc. }
  by apply (G l []).
Qed.

Lemma runs_for_all {X} (I : list X -> S -> Prop) (l : list X)
    (body : X -> M S unit) (Q : unit -> S -> Prop) s :
  (forall pre x post s, l = pre ++ x :: post -> I pre s ->
     runs (body x) s (fun _ s' => I (pre ++ [x]) s')) ->
  (forall s, I l s -> Q tt s) ->
  I [] s -> runs (for_all l body) s Q.
Proof.
  intros Hb Hend HI.
  assert (G : forall post pre s, l = pre ++ post -> I pre s ->
            runs (for_all post body) s Q).
  { induction post as [|x post IH]; intros pre s0 El HI0; simpl.
    - apply runs_ret, Hend. by rewrite El, app_nil_r.
    - apply runs_bind. eapply runs_conseq; [by eapply Hb|].
      intros [] s1 H1. apply (IH (pre ++ [x])); [|done]. by rewrite <- app_assoc. }
  by apply (G l []).
Qed.

Lemma runs_zoom {T A} (g : S -> T) (p : T -> S -> S) (c : M T A) s (Q : A -> S -> Prop) :
  runs c (g s) (fun a t => Q a (p t s)) -> runs (zoom g p c) s Q.
Proof. intros (a & t & E & HQ). exists a, (p t s). unfold zoom. by rewrite E. Qed.

(** What a triple says about the run itself. *)
Lemma runs_elim {A} (c : M S A) s (Q : A -> S -> Prop) a s' :
  runs c s Q -> c s = Ret a s' -> Q a s'.
Proof. intros (b & s1 & E & HQ) E'. congruence. Qed.
End runs_rules.

(** One step of symbolic execution in a [runs] goal; [xv6_unf] lists the
    one-line accessors that it may unfold. *)
Create HintDb xv6_unf.
Ltac rstep :=
  lazymatch goal with
  | |- runs (bind _ _) _ _ => apply runs_bind; rstep
  | |- runs (ret _) _ _ => apply runs_ret
  | |- runs get _ _ => apply runs_get
  | |- runs (gets _) _ _ => apply runs_gets
  | |- runs (modify _) _ _ => apply runs_modify
  | |- runs (loop _ _ _) _ _ => idtac
  | |- runs (for_each _ _) _ _ => idtac
  | |- runs (for_all _ _) _ _ => idtac
  | |- _ => try (progress autounfold with xv6_unf; rstep)
  end.
Ltac rsteps := repeat (progress rstep; cbv beta).

(** Run the call at the head of the goal with an equation for it. *)
Tactic Notation "reqn" uconstr(L) :=
  try apply runs_bind; eexists _, _; split; [eapply L|].

(** Use a proved triple for the call at the head of the goal. *)
Tactic Notation "rcall" uconstr(L) :=
  first [apply runs_bind; eapply runs_conseq; [eapply L|]
        |eapply runs_conseq; [eapply L|]].

(** [lia] on goals with divisions by literals. *)
Ltac dlia := Z.to_euclidean_division_equations; lia.

(** Reduce the boolean comparisons of the code to propositions. *)
Ltac zbool :=
  repeat match goal with
  | H : (_ && _)%bool = true |- _ => apply andb_true_iff in H; destruct H
  | H : (_ || _)%bool = false |- _ => apply orb_false_iff in H; destruct H
  | H : negb _ = true |- _ => apply negb_true_iff in H
  | H : negb _ = false |- _ => apply negb_false_iff in H
  | H : (_ =? _) = true |- _ => apply Z.eqb_eq in H
  | H : (_ =? _) = false |- _ => apply Z.eqb_neq in H
  | H : (_ <? _) = true |- _ => apply Z.ltb_lt in H
  | H : (_ <? _) = false |- _ => apply Z.ltb_ge in H
  | H : (_ <=? _) = true |- _ => apply Z.leb_le in H
  | H : (_ <=? _) = false |- _ => apply Z.leb_gt in H
  end.

(** ** Lists *)
Lemma filter_bool_ext {A} (P Q : A -> bool) (l : list A) :
  (forall x, x ∈ l -> P x = Q x) ->
  filter (fun x => P x = true) l = filter (fun x => Q x = true) l.
Proof.
  induction l as [|x l IH]; intros E; [done|].
  rewrite !filter_cons, (E x), IH by (set_solver || (intros; apply E; by right)). done.
Qed.

Lemma filter_all {A} (P : A -> Prop) `{!forall x, Decision (P x)} (l : list A) :
  (forall x, x ∈ l -> P x) -> filter P l = l.
Proof.
  induction l as [|x l IH]; intros E; [done|].
  rewrite filter_cons_True by (apply E; by left). f_equal. apply IH. intros; apply E. by right.
Qed.

Lemma filter_ext_in {A} (P Q : A -> Prop) `{!forall x, Decision (P x), !forall x, Decision (Q x)} (l : list A) :
  (forall x, x ∈ l -> P x <-> Q x) -> filter P l = filter Q l.
Proof.
  induction l as [|x l IH]; intros E; [done|].
  assert (Ex : P x <-> Q x) by (apply E; by left).
  rewrite !filter_cons. repeat case_decide; try tauto; [f_equal|]; apply IH; intros; apply E; by right.
Qed.

Lemma filter_ne_length {A} `{!EqDecision A} (a : A) (l : list A) :
  NoDup l -> a ∈ l -> length l = S (length (filter (fun x => x ≠ a) l)).
Proof.
  intros Hnd (l1 & l2 & ->)%list_elem_of_split.
  apply NoDup_app in Hnd as (_ & Hd & [Hn2 _]%NoDup_cons).
  rewrite filter_app, filter_cons_False by naive_solver.
  rewrite !filter_all; [rewrite !length_app; simpl; lia| |].
  - intros x Hx ->. done.
  - intros x Hx ->. apply (Hd a Hx). by left.
Qed.

Lemma filter_none {A} (P : A -> bool) (l : list A) :
  (forall x, x ∈ l -> P x = false) -> filter (fun x => P x = true) l = [].
Proof.
  induction l as [|x l IH]; intros E; [done|].
  rewrite filter_cons_False by (rewrite E; [done|by left]). apply IH. intros; apply E. by right.
Qed.

Lemma filter_length_lt {A} (P Q : A -> bool) (l : list A) x :
  (forall y, y ∈ l -> P y = true -> Q y = true) -> x ∈ l -> P x = false -> Q x = true ->
  (length (filter (fun y => P y = true) l) < length (filter (fun y => Q y = true) l))%nat.
Proof.
  intros HPQ Hin HP HQ.
  assert (Hle : forall l', (forall y, y ∈ l' -> P y = true -> Q y = true) ->
    (length (filter (fun y => P y = true) l') <= length (filter (fun y => Q y = true) l'))%nat).
  { induction l' as [|y l' IH]; intros Hpq; [done|]. rewrite !filter_cons.
    specialize (IH ltac:(intros; apply Hpq; [by right|done])).
    pose proof (Hpq y ltac:(by left)).
    destruct (decide (P y = true)), (decide (Q y = true)); simpl; try lia. naive_solver. }
  apply list_elem_of_split in Hin as (l1 & l2 & ->). rewrite !filter_app, !length_app.
  rewrite filter_cons_False, filter_cons_True by congruence. simpl.
  pose proof (Hle l1 ltac:(intros; apply HPQ; [set_solver|done])).
  pose proof (Hle l2 ltac:(intros; apply HPQ; [set_solver|done])). lia.
Qed.

Lemma filter_insert_one {A} `{!EqDecision A} (P Q : A -> bool) (l : list A) i0 :
  NoDup l -> i0 ∈ l -> P i0 = false -> Q i0 = true ->
  (forall i, i ∈ l -> i <> i0 -> Q i = P i) ->
  length (filter (fun i => Q i = true) l) = S (length (filter (fun i => P i = true) l)).
Proof.
  induction l as [|x l IH]; intros Hnd Hin HP HQ Heq; [by apply not_elem_of_nil in Hin|].
  apply NoDup_cons in Hnd as [Hx Hnd].
  destruct (decide (x = i0)) as [->|Hne].
  - rewrite filter_cons_True, filter_cons_False by congruence. simpl. do 2 f_equal.
    apply filter_bool_ext. intros i Hi. apply Heq; [by right|congruence].
  - apply elem_of_cons in Hin as [->|Hin]; [done|].
    assert (IH' := IH Hnd Hin HP HQ ltac:(intros; apply Heq; [by right|done])).
    rewrite !filter_cons, (Heq x) by (by left || done).
    destruct (decide (P x = true)); simpl; congruence.
Qed.

Lemma list_alter_insert {A} (f : A -> A) (l : list A) i x :
  l !! i = Some x -> alter f i l = <[i := f x]> l.
Proof.
  revert i. induction l as [|y l IH]; intros [|i] Hx; simplify_eq/=; [done..|].
  f_equal. by apply IH.
Qed.
