(* ===== verification/StringC.v ===== *)
(** * string.c: the kernel's byte and string routines

    The loops of string.c over byte-addressed memory, and the proofs that they
    compute the whole-block operations [fill] and [copy] which the rest of the
    development uses for [memset] and [memmove], and the usual contracts of the
    string functions.  Counts are natural numbers, so every loop is structural
    in its count; [strlen] takes a bound on the string's length. *)
From stdpp Require Import base numbers list strings.
From Stdlib Require Import ZArith Lia.
From S2P Require Import Prelude.
#[local] Open Scope Z_scope.

(** ** x86 string stores (x86.h) *)
Fixpoint stosb (m : mem) (addr data : Z) (cnt : nat) : mem :=
  match cnt with
  | O => m
  | S n => stosb (wr8 m addr data) (addr + 1) data n
  end.
Fixpoint stosl (m : mem) (addr data : Z) (cnt : nat) : mem :=
  match cnt with
  | O => m
  | S n => stosl (wr32 m addr data) (addr + 4) data n
  end.

Definition memset_loop (m : mem) (dst c n : Z) : mem :=
  if (dst `mod` 4 =? 0) && (n `mod` 4 =? 0) then
    let c := Z.land c 0xFF in
    stosl m dst (Z.lor (Z.lor (Z.lor (Z.shiftl c 24) (Z.shiftl c 16)) (Z.shiftl c 8)) c)
          (Z.to_nat (n / 4))
  else stosb m dst c (Z.to_nat n).

Fixpoint memcmp (m : mem) (s1 s2 : Z) (n : nat) : Z :=
  match n with
  | O => 0
  | S n => if m s1 =? m s2 then memcmp m (s1 + 1) (s2 + 1) n else m s1 - m s2
  end.

(** [*d++ = *s++], and [*--d = *--s], [n] times. *)
Fixpoint copy_up (m : mem) (d s : Z) (n : nat) : mem :=
  match n with
  | O => m
  | S n => copy_up (wr8 m d (m s)) (d + 1) (s + 1) n
  end.
Fixpoint copy_down (m : mem) (d s : Z) (n : nat) : mem :=
  match n with
  | O => m
  | S n => copy_down (wr8 m (d - 1) (m (s - 1))) (d - 1) (s - 1) n
  end.

Definition memmove_loop (m : mem) (dst src n : Z) : mem :=
  if (src <? dst) && (dst <? src + n)
  then copy_down m (dst + n) (src + n) (Z.to_nat n)
  else copy_up m dst src (Z.to_nat n).

Definition memcpy (m : mem) (dst src n : Z) : mem := memmove_loop m dst src n.

Fixpoint strncmp (m : mem) (p q : Z) (n : nat) : Z :=
  match n with
  | O => 0
  | S n' =>
      if negb (m p =? 0) && (m p =? m q) then strncmp m (p + 1) (q + 1) n'
      else u8 (m p) - u8 (m q)
  end.

(** [while(n-- > 0) *s++ = 0;] *)
Fixpoint zero_up (m : mem) (s : Z) (n : nat) : mem :=
  match n with
  | O => m
  | S n => zero_up (wr8 m s 0) (s + 1) n
  end.
Fixpoint strncpy (m : mem) (s t : Z) (n : nat) : mem :=
  match n with
  | O => m
  | S n =>
      let m' := wr8 m s (m t) in
      if m t =? 0 then zero_up m' (s + 1) n else strncpy m' (s + 1) (t + 1) n
  end.

(** The loop of [safestrcpy] with [n] iterations left, then [*s = 0]. *)
Fixpoint safestrcpy_loop (m : mem) (s t : Z) (n : nat) : mem :=
  match n with
  | O => wr8 m s 0
  | S n =>
      let m' := wr8 m s (m t) in
      if m t =? 0 then wr8 m' (s + 1) 0 else safestrcpy_loop m' (s + 1) (t + 1) n
  end.
Definition safestrcpy (m : mem) (s t n : Z) : mem :=
  if n <=? 0 then m else safestrcpy_loop m s t (Z.to_nat (n - 1)).

Fixpoint strlen (m : mem) (s : Z) (bound : nat) : option Z :=
  match bound with
  | O => None
  | S b => if m s =? 0 then Some 0 else option_map (Z.add 1) (strlen m (s + 1) b)
  end.

(** ** memset *)
Lemma wr8_same m a v : wr8 m a v a = u8 v.
Proof. unfold wr8. by rewrite Z.eqb_refl. Qed.

Lemma wr8_other m a v x : x <> a -> wr8 m a v x = m x.
Proof. intros Hne. unfold wr8. by rewrite (proj2 (Z.eqb_neq _ _) Hne). Qed.

Lemma stosb_fill n : forall m addr data x,
  stosb m addr data n x = fill m addr data (Z.of_nat n) x.
Proof.
  induction n as [|n IH]; intros m addr data x; cbn [stosb].
  - by rewrite fill_out by lia.
  - rewrite IH. destruct (decide (addr + 1 <= x < addr + 1 + Z.of_nat n)) as [Hin|Hout].
    + by rewrite !fill_in by lia.
    + rewrite fill_out by lia. destruct (decide (x = addr)) as [->|Hne].
      * by rewrite wr8_same, fill_in by lia.
      * by rewrite wr8_other, fill_out by lia.
Qed.

Lemma stosl_fill w c n : (forall i, 0 <= i < 4 -> (w `div` 256 ^ i) `mod` 256 = u8 c) ->
  forall m addr x, stosl m addr w n x = fill m addr c (4 * Z.of_nat n) x.
Proof.
  intros Hw. induction n as [|n IH]; intros m addr x; cbn [stosl].
  - by rewrite fill_out by lia.
  - rewrite IH. destruct (decide (addr + 4 <= x < addr + 4 + 4 * Z.of_nat n)) as [Hin|Hout].
    + by rewrite !fill_in by lia.
    + rewrite fill_out by lia. destruct (decide (addr <= x < addr + 4)) as [Hx|Hx].
      * rewrite fill_in by lia. unfold wr32.
        destruct (Z.leb_spec addr x), (Z.ltb_spec x (addr + 4)); try lia. cbn [andb].
        apply Hw. lia.
      * by rewrite wr32_out, fill_out by lia.
Qed.

(** The word that [memset] stores is the byte four times. *)
Lemma splat_bytes c i : 0 <= i < 4 ->
  let b := Z.land c 0xFF in
  (Z.lor (Z.lor (Z.lor (Z.shiftl b 24) (Z.shiftl b 16)) (Z.shiftl b 8)) b `div` 256 ^ i) `mod` 256 = u8 c.
Proof.
  intros Hi b. assert (Hb : b = u8 c) by (unfold b, u8; apply (Z.land_ones c 8); lia).
  assert (Hr : 0 <= b < 256) by (rewrite Hb; unfold u8; apply Z.mod_pos_bound; lia).
  assert (Hbt : forall j, 8 <= j -> Z.testbit b j = false).
  { intros j Hj. destruct (Z.eq_dec b 0) as [->|]; [apply Z.bits_0|].
    apply Z.bits_above_log2; [lia|].
    assert (Z.log2 b < 8); [|lia]. apply Z.log2_lt_pow2; lia. }
  rewrite <- Hb. change 256 with (2 ^ 8) at 1. rewrite <- Z.pow_mul_r by lia.
  rewrite <- Z.shiftr_div_pow2 by lia. change 256 with (2 ^ 8). rewrite <- Z.land_ones by lia.
  apply Z.bits_inj'. intros j Hj. rewrite Z.land_spec, Z.shiftr_spec by lia.
  rewrite Z.testbit_ones_nonneg by lia.
  destruct (Z.ltb_spec j 8) as [Hj8|Hj8]; [|by rewrite andb_false_r, Hbt].
  rewrite andb_true_r, !Z.lor_spec, !Z.shiftl_spec by lia.
  assert (Hneg : forall z, z < 0 -> Z.testbit b z = false) by (intros; by apply Z.testbit_neg_r).
  assert (i = 0 \/ i = 1 \/ i = 2 \/ i = 3) as [->|[->|[->| ->]]] by lia;
    repeat match goal with
    | |- context [Z.testbit b ?z] =>
        first [rewrite (Hneg z) by lia | rewrite (Hbt z) by lia
              | progress replace z with j by lia]
    end; by rewrite ?orb_false_r.
Qed.

Lemma memset_loop_fill m dst c n x : 0 <= n -> memset_loop m dst c n x = fill m dst c n x.
Proof.
  intros Hn. unfold memset_loop. destruct (_ && _) eqn:E.
  - zbool. rewrite (stosl_fill _ c) by (intros; by apply splat_bytes).
    rewrite Z2Nat.id by (apply Z.div_pos; lia). f_equal. dlia.
  - rewrite stosb_fill, Z2Nat.id by lia. done.
Qed.

(** ** memmove *)
Lemma copy_up_eq n : forall m d s x, bytes_ok m -> (d <= s \/ s + Z.of_nat n <= d) ->
  copy_up m d s n x = copy m d s (Z.of_nat n) x.
Proof.
  induction n as [|n IH]; intros m d s x Hb Hd; cbn [copy_up].
  - by rewrite copy_out by lia.
  - assert (Hu : u8 (m s) = m s) by (unfold u8; apply Z.mod_small, Hb).
    assert (Hb' : bytes_ok (wr8 m d (m s))).
    { intros y. unfold wr8. destruct (y =? d); [rewrite Hu|]; apply Hb. }
    rewrite IH by (done || lia).
    destruct (decide (d + 1 <= x < d + 1 + Z.of_nat n)) as [Hin|Hout].
    + rewrite !copy_in by lia. rewrite wr8_other by lia. f_equal. lia.
    + rewrite copy_out by lia. destruct (decide (x = d)) as [->|Hne].
      * rewrite wr8_same, Hu, copy_in by lia. f_equal. lia.
      * by rewrite wr8_other, copy_out by lia.
Qed.

Lemma copy_down_eq n : forall m d s x, bytes_ok m -> s <= d ->
  copy_down m d s n x = copy m (d - Z.of_nat n) (s - Z.of_nat n) (Z.of_nat n) x.
Proof.
  induction n as [|n IH]; intros m d s x Hb Hd; cbn [copy_down].
  - by rewrite copy_out by lia.
  - assert (Hu : u8 (m (s - 1)) = m (s - 1)) by (unfold u8; apply Z.mod_small, Hb).
    assert (Hb' : bytes_ok (wr8 m (d - 1) (m (s - 1)))).
    { intros y. unfold wr8. destruct (y =? d - 1); [rewrite Hu|]; apply Hb. }
    rewrite IH by (done || lia).
    destruct (decide (d - 1 - Z.of_nat n <= x < d - 1)) as [Hin|Hout].
    + rewrite !copy_in by lia. rewrite wr8_other by lia. f_equal. lia.
    + rewrite copy_out by lia. destruct (decide (x = d - 1)) as [->|Hne].
      * rewrite wr8_same, Hu, copy_in by lia. f_equal. lia.
      * by rewrite wr8_other, copy_out by lia.
Qed.

Lemma memmove_loop_copy m dst src n x : bytes_ok m -> 0 <= n ->
  memmove_loop m dst src n x = copy m dst src n x.
Proof.
  intros Hb Hn. unfold memmove_loop. destruct (_ && _) eqn:E.
  - zbool. rewrite copy_down_eq, Z2Nat.id by (done || lia). f_equal; lia.
  - rewrite copy_up_eq; [by rewrite Z2Nat.id by lia|done|].
    apply andb_false_iff in E. rewrite !Z.ltb_ge in E. lia.
Qed.

(** ** String functions *)

(** The number of bytes before the first NUL at [t], at most [n]. *)
Fixpoint slen (m : mem) (t : Z) (n : nat) : nat :=
  match n with
  | O => O
  | S n => if m t =? 0 then O else S (slen m (t + 1) n)
  end.

Lemma slen_le m t n : (slen m t n <= n)%nat.
Proof. revert t. induction n as [|n IH]; intros t; simpl; [lia|]. destruct (_ =? _); [lia|]. specialize (IH (t + 1)). lia. Qed.

Lemma slen_nonzero m t n i : 0 <= i < Z.of_nat (slen m t n) -> m (t + i) <> 0.
Proof.
  revert t i. induction n as [|n IH]; intros t i Hi; simpl in Hi; [lia|].
  destruct (Z.eqb_spec (m t) 0) as [E|E]; [simpl in Hi; lia|].
  destruct (Z.eq_dec i 0) as [->|Hne]; [by rewrite Z.add_0_r|].
  replace (t + i) with (t + 1 + (i - 1)) by lia. apply IH. lia.
Qed.

Lemma slen_ext m m' t n : (forall i, 0 <= i < Z.of_nat n -> m' (t + i) = m (t + i)) ->
  slen m' t n = slen m t n.
Proof.
  revert t. induction n as [|n IH]; intros t E; simpl; [done|].
  pose proof (E 0 ltac:(lia)) as E0. rewrite Z.add_0_r in E0. rewrite E0.
  destruct (m t =? 0); [done|]. f_equal. apply IH. intros i Hi.
  replace (t + 1 + i) with (t + (1 + i)) by lia. apply E. lia.
Qed.

Lemma safestrcpy_loop_spec n : forall m s t, bytes_ok m ->
  (t + Z.of_nat n <= s \/ s + Z.of_nat n < t) ->
  let k := Z.of_nat (slen m t n) in
  let m' := safestrcpy_loop m s t n in
  (forall i, 0 <= i < k -> m' (s + i) = m (t + i)) /\ m' (s + k) = 0 /\
  (forall x, x < s \/ s + Z.of_nat n < x -> m' x = m x).
Proof.
  induction n as [|n IH]; intros m s t Hb Hd; cbn [slen safestrcpy_loop].
  - split; [lia|]. split; [by rewrite Z.add_0_r, wr8_same|]. intros x Hx. apply wr8_other. lia.
  - assert (Hu : u8 (m t) = m t) by (unfold u8; apply Z.mod_small, Hb).
    destruct (Z.eqb_spec (m t) 0) as [E0|E0].
    + split; [lia|]. split.
      * rewrite Z.add_0_r, wr8_other, wr8_same by lia. by rewrite E0.
      * intros x Hx. rewrite !wr8_other by lia. done.
    + set (m1 := wr8 m s (m t)).
      assert (Hb1 : bytes_ok m1).
      { intros y. unfold m1, wr8. destruct (y =? s); [rewrite Hu|]; apply Hb. }
      assert (Es : slen m1 (t + 1) n = slen m (t + 1) n).
      { apply slen_ext. intros i Hi. apply wr8_other. lia. }
      destruct (IH m1 (s + 1) (t + 1) Hb1 ltac:(lia)) as (A & B & C). rewrite Es in A, B.
      split; [|split].
      * intros i Hi. destruct (Z.eq_dec i 0) as [->|Hne].
        -- rewrite !Z.add_0_r, C by lia. unfold m1. by rewrite wr8_same.
        -- replace (s + i) with (s + 1 + (i - 1)) by lia. rewrite A by lia.
           replace (t + i) with (t + 1 + (i - 1)) by lia. apply wr8_other.
           pose proof (slen_le m (t + 1) n). lia.
      * rewrite Nat2Z.inj_succ. replace (s + Z.succ _) with (s + 1 + Z.of_nat (slen m (t + 1) n)) by lia.
        done.
      * intros x Hx. rewrite C by lia. apply wr8_other. lia.
Qed.

Lemma strncmp_zero n : forall m p q, bytes_ok m ->
  strncmp m p q n = 0 <->
  (slen m p n = slen m q n /\ forall i, 0 <= i < Z.of_nat (slen m p n) -> m (p + i) = m (q + i)).
Proof.
  induction n as [|n IH]; intros m p q Hb; cbn [strncmp slen]; [split; [intros; split; lia|done]|].
  assert (Hu : forall x, u8 (m x) = m x) by (intros x; unfold u8; apply Z.mod_small, Hb).
  destruct (Z.eqb_spec (m p) 0) as [Ep|Ep]; cbn [negb andb].
  - rewrite !Hu, Ep. destruct (Z.eqb_spec (m q) 0) as [Eq|Eq].
    + rewrite Eq. split; [intros; split; lia|done].
    + split; [lia|]. intros [? _]. lia.
  - destruct (Z.eqb_spec (m p) (m q)) as [Epq|Epq].
    + rewrite <- Epq, (proj2 (Z.eqb_neq _ _) Ep), (IH m (p + 1) (q + 1) Hb). split.
      * intros [E A]. split; [lia|]. intros i Hi. destruct (Z.eq_dec i 0) as [->|]; [by rewrite !Z.add_0_r|].
        replace (p + i) with (p + 1 + (i - 1)) by lia. replace (q + i) with (q + 1 + (i - 1)) by lia.
        apply A. lia.
      * intros [E A]. split; [lia|]. intros i Hi.
        replace (p + 1 + i) with (p + (1 + i)) by lia. replace (q + 1 + i) with (q + (1 + i)) by lia.
        apply A. lia.
    + rewrite !Hu. split; [lia|]. intros [E A]. destruct (Z.eqb_spec (m q) 0); [lia|].
      specialize (A 0 ltac:(lia)). rewrite !Z.add_0_r in A. done.
Qed.

(** C39. The loops of [memset] (word stores when everything is aligned, byte
    stores otherwise) and [memmove] (downwards when the blocks overlap that
    way, upwards otherwise) have exactly the effect of filling, respectively
    simultaneously copying, the whole block, for all addresses and overlaps. *)
Theorem mem_blocks_correct m dst src c n :
  bytes_ok m -> 0 <= n ->
  (forall x, memset_loop m dst c n x = fill m dst c n x) /\
  (forall x, memmove_loop m dst src n x = copy m dst src n x).
Proof. intros Hb Hn. split; intros x; [by apply memset_loop_fill|by apply memmove_loop_copy]. Qed.

(** [safestrcpy] into a disjoint buffer of [n > 0] bytes copies the longest
    prefix of the string that fits, terminates it with NUL inside the buffer,
    and writes nothing outside the buffer. *)
Theorem safestrcpy_correct m s t n :
  bytes_ok m -> 0 < n -> t + n <= s \/ s + n <= t ->
  let k := Z.of_nat (slen m t (Z.to_nat (n - 1))) in
  let m' := safestrcpy m s t n in
  k < n /\ (forall i, 0 <= i < k -> m' (s + i) = m (t + i) /\ m' (s + i) <> 0) /\ m' (s + k) = 0 /\
  (forall x, x < s \/ s + n <= x -> m' x = m x).
Proof.
  intros Hb Hn Hd k m'. unfold m', safestrcpy. destruct (Z.leb_spec n 0); [lia|].
  destruct (safestrcpy_loop_spec (Z.to_nat (n - 1)) m s t Hb) as (A & B & C); [lia|].
  pose proof (slen_le m t (Z.to_nat (n - 1))). fold k in A, B. split; [lia|]. split; [|split].
  - intros i Hi. rewrite A by lia. split; [done|]. by apply (slen_nonzero m t (Z.to_nat (n - 1))).
  - done.
  - intros x Hx. apply C. lia.
Qed.

(** [strncmp] returns 0 exactly when the two strings, cut at [n] bytes, have
    the same length and the same bytes. *)
Theorem strncmp_correct m p q n : bytes_ok m ->
  strncmp m p q n = 0 <->
  (slen m p n = slen m q n /\ forall i, 0 <= i < Z.of_nat (slen m p n) -> m (p + i) = m (q + i)).
Proof. apply strncmp_zero. Qed.

(** ** A concrete memory: "cat" at 100 and "cab" at 200 *)
Definition example_strings : mem := fun x =>
  if x =? 100 then 99 else if x =? 101 then 97 else if x =? 102 then 116
  else if x =? 200 then 99 else if x =? 201 then 97 else if x =? 202 then 98 else 0.

Lemma example_strings_ok : bytes_ok example_strings.
Proof. intros x. unfold example_strings. repeat destruct (_ =? _); lia. Qed.

Lemma mem_blocks_correct_witness :
  memmove_loop example_strings 101 100 3 103 = copy example_strings 101 100 3 103 /\
  copy example_strings 101 100 3 103 = 116.
Proof.
  split; [|reflexivity].
  apply (mem_blocks_correct example_strings 101 100 0 3); [apply example_strings_ok|lia].
Defined.

Lemma safestrcpy_correct_witness :
  safestrcpy example_strings 300 100 3 301 = 97 /\ safestrcpy example_strings 300 100 3 302 = 0.
Proof.
  destruct (safestrcpy_correct example_strings 300 100 3) as (_ & A & B & _);
    [apply example_strings_ok|lia|lia|].
  split; [apply (A 1); change (slen example_strings 100 (Z.to_nat (3 - 1))) with 2%nat; lia|exact B].
Defined.

Lemma strncmp_correct_witness :
  strncmp example_strings 100 200 2 = 0 /\ strncmp example_strings 100 200 3 <> 0.
Proof.
  split.
  - apply (strncmp_correct example_strings 100 200 2 example_strings_ok).
    split; [reflexivity|]. intros i Hi.
    change (slen example_strings 100 2) with 2%nat in Hi.
    assert (i = 0 \/ i = 1) as [->| ->] by lia; reflexivity.
  - vm_compute. congruence.
Defined.
