(* ===== verification/Mmu.v ===== *)
(** * mmu.h and memlayout.h: the layout of addresses and page-table entries

    The macros are written with the bit operations of the header; the lemmas
    below give them their arithmetic reading, which the page-table proofs use. *)
From stdpp Require Import base numbers list.
From Stdlib Require Import ZArith Lia.
From S2P Require Import Prelude.
#[local] Open Scope Z_scope.

Definition PGSIZE : Z := 4096.
Definition NPDENTRIES : Z := 1024.
Definition NPTENTRIES : Z := 1024.
Definition PTXSHIFT : Z := 12.
Definition PDXSHIFT : Z := 22.

Definition PTE_P : Z := 0x001.
Definition PTE_W : Z := 0x002.
Definition PTE_U : Z := 0x004.
Definition PTE_PS : Z := 0x080.
Definition PTE_LAZY : Z := 0x200.
Definition PTE_COW : Z := 0x400.

Definition EXTMEM : Z := 0x100000.
Definition PHYSTOP : Z := 0xE000000.
Definition DEVSPACE : Z := 0xFE000000.
Definition KERNBASE : Z := 0x80000000.
Definition KERNLINK : Z := KERNBASE + EXTMEM.

Definition V2P (a : Z) : Z := u32 (a - KERNBASE).
Definition P2V (a : Z) : Z := u32 (a + KERNBASE).

Definition PDX (va : Z) : Z := Z.land (Z.shiftr va PDXSHIFT) 0x3FF.
Definition PTX (va : Z) : Z := Z.land (Z.shiftr va PTXSHIFT) 0x3FF.
Definition PGADDR (d t o : Z) : Z :=
  u32 (Z.lor (Z.lor (Z.shiftl d PDXSHIFT) (Z.shiftl t PTXSHIFT)) o).

Definition PGROUNDUP (sz : Z) : Z := Z.land (u32 (sz + PGSIZE - 1)) (u32 (Z.lnot (PGSIZE - 1))).
Definition PGROUNDDOWN (a : Z) : Z := Z.land a (u32 (Z.lnot (PGSIZE - 1))).

Definition PTE_ADDR (pte : Z) : Z := Z.land pte (u32 (Z.lnot 0xFFF)).
Definition PTE_FLAGS (pte : Z) : Z := Z.land pte 0xFFF.

(** [if(x & flag)]. *)
Definition has (x flag : Z) : bool := negb (Z.land x flag =? 0).

(** The addresses that the linker script (kernel.ld) chooses: [data], the
    page-aligned start of the writable kernel image, and [end], the first
    address after it; the boot page table maps only the first 4 MB, so the
    kernel is linked below that. *)
Class KernelLayout := {
  data : Z;
  end_ : Z;
  data_aligned : data `mod` PGSIZE = 0;
  data_range : KERNLINK < data <= end_;
  end_range : end_ <= KERNBASE + 4 * 1024 * 1024;
}.

(** ** The arithmetic of the masks *)
Lemma land_mask12 x : 0 <= x < 4294967296 ->
  Z.land x (u32 (Z.lnot 4095)) = x - x `mod` 4096.
Proof.
  intros Hx. change (u32 (Z.lnot 4095)) with (Z.ldiff (Z.ones 32) (Z.ones 12)).
  assert (E : Z.land x (Z.ldiff (Z.ones 32) (Z.ones 12)) = Z.ldiff x (Z.ones 12)).
  { apply Z.bits_inj'. intros i Hi. rewrite Z.land_spec, !Z.ldiff_spec.
    destruct (Z.ltb_spec i 32).
    - rewrite (Z.ones_spec_low 32) by lia. by rewrite andb_true_l.
    - replace (Z.testbit x i) with false; [done|].
      symmetry. rewrite <- (Z.mod_small x (2 ^ 32)) by lia.
      by apply Z.mod_pow2_bits_high. }
  rewrite E, Z.ldiff_ones_r by lia.
  rewrite Z.shiftl_mul_pow2, Z.shiftr_div_pow2 by lia.
  change (2 ^ 12) with 4096. pose proof (Z.div_mod x 4096). lia.
Qed.

Lemma land_ones10 x : Z.land x 0x3FF = x `mod` 1024.
Proof. change 0x3FF with (Z.ones 10). by rewrite Z.land_ones. Qed.

Lemma land_ones12 x : Z.land x 0xFFF = x `mod` 4096.
Proof. change 0xFFF with (Z.ones 12). by rewrite Z.land_ones. Qed.

Lemma PDX_div va : PDX va = (va `div` 4194304) `mod` 1024.
Proof. unfold PDX, PDXSHIFT. by rewrite land_ones10, Z.shiftr_div_pow2. Qed.

Lemma PTX_div va : PTX va = (va `div` 4096) `mod` 1024.
Proof. unfold PTX, PTXSHIFT. by rewrite land_ones10, Z.shiftr_div_pow2. Qed.

Lemma PDX_range va : 0 <= PDX va < 1024.
Proof. rewrite PDX_div. by apply Z.mod_pos_bound. Qed.

Lemma PTX_range va : 0 <= PTX va < 1024.
Proof. rewrite PTX_div. by apply Z.mod_pos_bound. Qed.

Lemma PGROUNDDOWN_eq a : 0 <= a < 4294967296 -> PGROUNDDOWN a = a - a `mod` 4096.
Proof. apply land_mask12. Qed.

Lemma PTE_ADDR_eq a : 0 <= a < 4294967296 -> PTE_ADDR a = a - a `mod` 4096.
Proof. apply land_mask12. Qed.

Lemma PGROUNDUP_eq a : 0 <= a -> a + 4095 < 4294967296 ->
  PGROUNDUP a = (a + 4095) - (a + 4095) `mod` 4096.
Proof.
  intros. unfold PGROUNDUP, PGSIZE. change (4096 - 1) with 4095.
  replace (a + 4096 - 1) with (a + 4095) by lia.
  rewrite u32_small by lia. apply land_mask12. lia.
Qed.

Lemma PGROUNDUP_spec a : 0 <= a -> a + 4095 < 4294967296 ->
  a <= PGROUNDUP a < a + 4096 /\ PGROUNDUP a `mod` 4096 = 0.
Proof.
  intros. rewrite PGROUNDUP_eq by lia.
  pose proof (Z.mod_pos_bound (a + 4095) 4096). split; [lia|].
  rewrite Zminus_mod_idemp_r, Z.sub_diag. done.
Qed.

Lemma land_aligned_low pa f : pa `mod` 4096 = 0 -> 0 <= f < 4096 -> Z.land pa f = 0.
Proof.
  intros Ha Hf. apply Z.bits_inj'. intros i Hi. rewrite Z.land_spec, Z.bits_0.
  destruct (Z.ltb_spec i 12).
  - replace (Z.testbit pa i) with false; [done|].
    rewrite <- (Z.mod_pow2_bits_low pa 12) by lia.
    change (2 ^ 12) with 4096. by rewrite Ha, Z.bits_0.
  - rewrite <- (Z.mod_small f (2 ^ 12)) by lia.
    rewrite Z.mod_pow2_bits_high by lia. apply andb_false_r.
Qed.

Lemma lor_aligned_low pa f : pa `mod` 4096 = 0 -> 0 <= f < 4096 -> Z.lor pa f = pa + f.
Proof.
  intros Ha Hf. pose proof (Z.add_lor_land pa f) as E.
  rewrite land_aligned_low in E by done. lia.
Qed.

Lemma land_low_flag x flag : 0 <= flag < 4096 -> Z.land x flag = Z.land (x `mod` 4096) flag.
Proof.
  intros Hf. change 4096 with (2 ^ 12). rewrite <- Z.land_ones by lia.
  rewrite <- Z.land_assoc, (Z.land_comm (Z.ones 12)), Z.land_ones by lia.
  by rewrite (Z.mod_small flag) by lia.
Qed.

Lemma has_aligned pa f flag : pa `mod` 4096 = 0 -> 0 <= f < 4096 -> 0 <= flag < 4096 ->
  has (pa + f) flag = has f flag.
Proof.
  intros Ha Hf Hg. unfold has. rewrite (land_low_flag (pa + f)) by done.
  rewrite <- Zplus_mod_idemp_l, Ha, Z.add_0_l, Z.mod_small by lia. done.
Qed.

Lemma lor_flags a b : 0 <= a < 4096 -> 0 <= b < 4096 -> 0 <= Z.lor a b < 4096.
Proof.
  intros Ha Hb. split; [apply Z.lor_nonneg; lia|].
  apply (Z.log2_lt_cancel _ 4096). rewrite Z.log2_lor by lia. change (Z.log2 4096) with 12.
  assert (Hl : forall x, 0 <= x < 4096 -> Z.log2 x < 12).
  { intros x Hx. destruct (decide (x = 0)) as [->|]; [done|]. apply Z.log2_lt_pow2; lia. }
  pose proof (Hl a Ha). pose proof (Hl b Hb). lia.
Qed.

Lemma PTE_ADDR_aligned pa f : pa `mod` 4096 = 0 -> 0 <= pa -> pa + 4096 <= 4294967296 ->
  0 <= f < 4096 -> PTE_ADDR (pa + f) = pa.
Proof.
  intros Ha H0 H1 Hf. rewrite PTE_ADDR_eq by lia.
  rewrite <- Zplus_mod_idemp_l, Ha, Z.add_0_l, Z.mod_small by lia. lia.
Qed.

Lemma PTE_ADDR_range x : 0 <= x < 4294967296 ->
  0 <= PTE_ADDR x <= x /\ PTE_ADDR x `mod` 4096 = 0 /\ PTE_ADDR x + 4096 <= 4294967296.
Proof.
  intros H. rewrite PTE_ADDR_eq by done.
  pose proof (Z.mod_pos_bound x 4096 ltac:(lia)).
  assert (E : (x - x `mod` 4096) `mod` 4096 = 0)
    by (rewrite Zminus_mod_idemp_r, Z.sub_diag; done).
  split; [|split; [exact E|]].
  - pose proof (Z.mod_le x 4096). lia.
  - apply Z.mod_divide in E; [|lia]. destruct E as [q Eq]. rewrite Eq in *. lia.
Qed.

Lemma V2P_P2V a : 0 <= a < 4294967296 -> V2P (P2V a) = a.
Proof.
  intros. unfold V2P, P2V, u32. rewrite Zminus_mod_idemp_l.
  rewrite Z.mod_small; unfold KERNBASE; lia.
Qed.

Lemma P2V_V2P a : 0 <= a < 4294967296 -> P2V (V2P a) = a.
Proof.
  intros. unfold V2P, P2V, u32. rewrite Zplus_mod_idemp_l.
  rewrite Z.mod_small; unfold KERNBASE; lia.
Qed.

#[global] Arguments V2P : simpl never.
#[global] Arguments P2V : simpl never.
#[global] Arguments PDX : simpl never.
#[global] Arguments PTX : simpl never.
#[global] Arguments PGADDR : simpl never.
#[global] Arguments PGROUNDUP : simpl never.
#[global] Arguments PGROUNDDOWN : simpl never.
#[global] Arguments PTE_ADDR : simpl never.
#[global] Arguments PTE_FLAGS : simpl never.
#[global] Arguments has : simpl never.
