(* ===== verification/Kernel.v ===== *)
(** * The kernel state shared by the memory, process and trap components

    One record holds what the C code keeps in globals: physical memory (at its
    kernel-virtual address), kmem (kalloc.c), the shared-page table
    (sh_mem.c), ptable, the process of this CPU, %cr3, and the spinlocks this
    CPU holds. *)
From stdpp Require Import base numbers list strings.
From Stdlib Require Import ZArith Lia.
From S2P Require Import Prelude Mmu.
#[local] Open Scope Z_scope.

Definition NPROC : Z := 64.
Definition KSTACKSIZE : Z := 4096.
Definition NOFILE : Z := 16.
Definition N_SHARED_PAGES : Z := 64.

Inductive procstate := UNUSED | EMBRYO | SLEEPING | RUNNABLE | RUNNING | ZOMBIE.

#[global] Instance procstate_eq_dec : EqDecision procstate.
Proof. solve_decision. Defined.

(** A [struct proc*] is the index of its slot in [ptable.proc], or [None] for
    the null pointer; other pointers are addresses, 0 for null. *)
Record proc := mkproc {
  sz : Z;
  pgdir : Z;
  kstack : Z;
  state : procstate;
  pid : Z;
  parent : option nat;
  tf : Z;
  context : Z;
  chan : Z;
  killed : Z;
  ofile : list Z;
  cwd : Z;
  name : list Z;
  shm_idx : Z;
  shm_va : Z;
}.

Record shared_memory_t := mkshm { pa : Z; ref_cnt : Z }.

(** The spinlocks that the modelled code takes. *)
Inductive lockid := kmem_lock | shm_lock | ptable_lock | tickslock.

#[global] Instance lockid_eq_dec : EqDecision lockid.
Proof. solve_decision. Defined.

Record kernel := mkkernel {
  memory : mem;
  use_lock : bool;
  freelist : Z;
  shared_memory : list shared_memory_t;
  ptable : list proc;
  cpu_proc : option nat;
  cr3 : Z;
  kpgdir : Z;
  initproc : option nat;
  ticks : Z;
  held : list lockid;
}.

Definition set_memory (m : mem) (k : kernel) : kernel :=
  mkkernel m (use_lock k) (freelist k) (shared_memory k) (ptable k) (cpu_proc k)
           (cr3 k) (kpgdir k) (initproc k) (ticks k) (held k).
Definition set_use_lock (b : bool) (k : kernel) : kernel :=
  mkkernel (memory k) b (freelist k) (shared_memory k) (ptable k) (cpu_proc k)
           (cr3 k) (kpgdir k) (initproc k) (ticks k) (held k).
Definition set_freelist (r : Z) (k : kernel) : kernel :=
  mkkernel (memory k) (use_lock k) r (shared_memory k) (ptable k) (cpu_proc k)
           (cr3 k) (kpgdir k) (initproc k) (ticks k) (held k).
Definition set_shared_memory (t : list shared_memory_t) (k : kernel) : kernel :=
  mkkernel (memory k) (use_lock k) (freelist k) t (ptable k) (cpu_proc k)
           (cr3 k) (kpgdir k) (initproc k) (ticks k) (held k).
Definition set_ptable (t : list proc) (k : kernel) : kernel :=
  mkkernel (memory k) (use_lock k) (freelist k) (shared_memory k) t (cpu_proc k)
           (cr3 k) (kpgdir k) (initproc k) (ticks k) (held k).
Definition set_cpu_proc (p : option nat) (k : kernel) : kernel :=
  mkkernel (memory k) (use_lock k) (freelist k) (shared_memory k) (ptable k) p
           (cr3 k) (kpgdir k) (initproc k) (ticks k) (held k).
Definition set_cr3 (v : Z) (k : kernel) : kernel :=
  mkkernel (memory k) (use_lock k) (freelist k) (shared_memory k) (ptable k) (cpu_proc k)
           v (kpgdir k) (initproc k) (ticks k) (held k).
Definition set_kpgdir (v : Z) (k : kernel) : kernel :=
  mkkernel (memory k) (use_lock k) (freelist k) (shared_memory k) (ptable k) (cpu_proc k)
           (cr3 k) v (initproc k) (ticks k) (held k).
Definition set_initproc (p : option nat) (k : kernel) : kernel :=
  mkkernel (memory k) (use_lock k) (freelist k) (shared_memory k) (ptable k) (cpu_proc k)
           (cr3 k) (kpgdir k) p (ticks k) (held k).
Definition set_ticks (t : Z) (k : kernel) : kernel :=
  mkkernel (memory k) (use_lock k) (freelist k) (shared_memory k) (ptable k) (cpu_proc k)
           (cr3 k) (kpgdir k) (initproc k) t (held k).
Definition set_held (h : list lockid) (k : kernel) : kernel :=
  mkkernel (memory k) (use_lock k) (freelist k) (shared_memory k) (ptable k) (cpu_proc k)
           (cr3 k) (kpgdir k) (initproc k) (ticks k) h.

(** [acquire] and [release] as this CPU sees them (the spinning between CPUs
    is the subject of the file [Spinlock]): both panic when misused. *)
Definition acquire (l : lockid) : M kernel unit :=
  fun k => if decide (l ∈ held k) then Panic "acquire" k
           else Ret tt (set_held (l :: held k) k).
Definition release (l : lockid) : M kernel unit :=
  fun k => if decide (l ∈ held k)
           then Ret tt (set_held (filter (fun x => x ≠ l) (held k)) k)
           else Panic "release" k.

Definition store32 (a v : Z) : M kernel unit :=
  modify (fun k => set_memory (wr32 (memory k) a v) k).
Definition load32 (a : Z) : M kernel Z := gets (fun k => rd32 (memory k) a).
Definition memset (dst c n : Z) : M kernel unit :=
  modify (fun k => set_memory (fill (memory k) dst c n) k).
Definition memmove (dst src n : Z) : M kernel unit :=
  modify (fun k => set_memory (copy (memory k) dst src n) k).

Lemma filter_ne_notin (l : lockid) (h : list lockid) :
  l ∉ h -> filter (fun x => x ≠ l) (l :: h) = h.
Proof.
  intros Hn. rewrite filter_cons_False by naive_solver.
  induction h as [|x h IH]; [done|].
  apply not_elem_of_cons in Hn as [H1 H2].
  rewrite filter_cons_True by naive_solver. by rewrite IH.
Qed.

Lemma acquire_eq l k : l ∉ held k -> acquire l k = Ret tt (set_held (l :: held k) k).
Proof. intros. unfold acquire. by rewrite decide_False. Qed.

Lemma release_eq l k h : held k = l :: h -> l ∉ h -> release l k = Ret tt (set_held h k).
Proof.
  intros E Hn. unfold release. rewrite E, decide_True by apply list_elem_of_here.
  by rewrite filter_ne_notin.
Qed.

#[export] Hint Unfold store32 load32 memset memmove : xv6_unf.
