(* ===== verification/Kalloc.v ===== *)
(** * kalloc.c: the physical page allocator

    The free list is threaded through the free pages themselves: the first
    word of a free page is the address of the next one. *)
From stdpp Require Import base numbers list sets relations strings.
From Stdlib Require Import ZArith Lia.
From S2P Require Import Prelude Mmu Kernel.
#[local] Open Scope Z_scope.

Section kalloc.
Context `{KernelLayout}.

Definition kfree (v : Z) : M kernel unit :=
  if negb (v `mod` PGSIZE =? 0) || (v <? end_) || (PHYSTOP <=? V2P v)
  then panic "kfree"
  else
    memset v 1 PGSIZE ;;;
    ul <- gets use_lock ;;
    when ul (acquire kmem_lock) ;;;
    fl <- gets freelist ;;
    store32 v fl ;;;
    modify (set_freelist v) ;;;
    ul <- gets use_lock ;;
    when ul (release kmem_lock).

Definition kalloc : M kernel Z :=
  ul <- gets use_lock ;;
  when ul (acquire kmem_lock) ;;;
  r <- gets freelist ;;
  when (negb (r =? 0)) (nx <- load32 r ;; modify (set_freelist nx)) ;;;
  ul <- gets use_lock ;;
  when ul (release kmem_lock) ;;;
  ret r.

Definition freerange (vstart vend : Z) : M kernel unit :=
  loop (Z.to_nat (vend / PGSIZE + 1)) (fun p =>
    if u32 (p + PGSIZE) <=? vend
    then kfree p ;;; ret (inl (u32 (p + PGSIZE)))
    else ret (inr tt)) (PGROUNDUP vstart).

Definition kinit1 (vstart vend : Z) : M kernel unit :=
  modify (set_use_lock false) ;;;
  freerange vstart vend.

Definition kinit2 (vstart vend : Z) : M kernel unit :=
  freerange vstart vend ;;;
  modify (set_use_lock true).

(** ** The abstract allocator: a list of free pages *)

(** A page that [kfree] accepts. *)
Definition page_ok (p : Z) : Prop :=
  p `mod` PGSIZE = 0 /\ end_ <= p /\ p < KERNBASE + PHYSTOP.

(** The pages reachable from [p] through the next pointers are [l]. *)
Fixpoint chain (m : mem) (p : Z) (l : list Z) : Prop :=
  match l with
  | [] => p = 0
  | q :: l' => p = q /\ chain m (rd32 m q) l'
  end.

Record free_pages (k : kernel) (l : list Z) : Prop := {
  fp_chain : chain (memory k) (freelist k) l;
  fp_nodup : NoDup l;
  fp_ok : Forall page_ok l;
  fp_bytes : bytes_ok (memory k);
}.

Definition kfree_st (v : Z) (k : kernel) : kernel :=
  set_freelist v (set_memory (wr32 (fill (memory k) v 1 PGSIZE) v (freelist k)) k).
Definition kalloc_st (k : kernel) : kernel :=
  if freelist k =? 0 then k else set_freelist (rd32 (memory k) (freelist k)) k.

(** The [n] pages from [p] upwards. *)
Definition pages_from (p : Z) (n : nat) : list Z :=
  (fun i : nat => p + 4096 * Z.of_nat i) <$> seq 0 n.

(** ** Clients of the allocator

    One step of the system of the allocator and the code that uses it: a
    client takes a page, gives back a page it owns, or writes into one. *)
Inductive alloc_step : kernel * list Z -> kernel * list Z -> Prop :=
| step_alloc k k' p owned :
    kalloc k = Ret p k' -> p <> 0 -> alloc_step (k, owned) (k', p :: owned)
| step_alloc_fail k k' owned :
    kalloc k = Ret 0 k' -> alloc_step (k, owned) (k', owned)
| step_free k k' p o1 o2 :
    kfree p k = Ret tt k' -> alloc_step (k, o1 ++ p :: o2) (k', o1 ++ o2)
| step_write k p a v owned :
    p ∈ owned -> p <= a -> a + 4 <= p + PGSIZE ->
    alloc_step (k, owned) (set_memory (wr32 (memory k) a v) k, owned).

(** ** Pages and their framing *)
Lemma page_ok_range p : page_ok p ->
  KERNLINK < p /\ p + 4096 <= KERNBASE + PHYSTOP /\ p `mod` 4096 = 0.
Proof.
  intros (Ha & He & Hp). pose proof data_range. unfold PGSIZE in *.
  split; [lia|]. split; [|done].
  apply Z.mod_divide in Ha; [|lia]. destruct Ha as [q ->].
  unfold KERNBASE, PHYSTOP in *. lia.
Qed.

Lemma page_ok_u32 p : page_ok p -> 0 <= p < 4294967296.
Proof. intros Hp%page_ok_range. unfold KERNLINK, KERNBASE, PHYSTOP, EXTMEM in *. lia. Qed.

Lemma pages_disjoint p q : p `mod` 4096 = 0 -> q `mod` 4096 = 0 -> p <> q ->
  p + 4096 <= q \/ q + 4096 <= p.
Proof.
  intros Hp Hq Hne. apply Z.mod_divide in Hp, Hq; [|lia..].
  destruct Hp as [a ->], Hq as [b ->]. lia.
Qed.

Lemma aligned_add p i : p `mod` 4096 = 0 -> (p + 4096 * i) `mod` 4096 = 0.
Proof. intros Hp. by rewrite Z.mul_comm, Z.mod_add by done. Qed.

(** Memory agrees on the page [p]. *)
Definition same_page (m m' : mem) (p : Z) : Prop :=
  forall x, p <= x < p + 4096 -> m' x = m x.

Lemma chain_ext m m' p l : Forall page_ok l ->
  (forall q, q ∈ l -> same_page m m' q) -> chain m p l -> chain m' p l.
Proof.
  revert p. induction l as [|q l IH]; intros p Hok Hs; simpl; [done|].
  intros [-> Hc]. split; [done|].
  inversion Hok; subst.
  rewrite (rd32_ext m m' q).
  - apply IH; [done| |done]. intros r Hr. apply Hs. by right.
  - intros x Hx. apply (Hs q); [left|lia].
Qed.

(** ** What the two operations do to the state *)
Lemma kalloc_eq k : kmem_lock ∉ held k -> kalloc k = Ret (freelist k) (kalloc_st k).
Proof.
  intros Hh. unfold kalloc, kalloc_st, bind, gets, when, load32, modify, ret.
  destruct k as [m ul fl sh pt cp c3 kd ip tk hd]; cbn in *.
  destruct ul; cbn.
  - rewrite acquire_eq by done. cbn.
    destruct (fl =? 0); cbn; erewrite release_eq by done; done.
  - destruct (fl =? 0); done.
Qed.

Lemma kfree_eq v k : page_ok v -> kmem_lock ∉ held k -> kfree v k = Ret tt (kfree_st v k).
Proof.
  intros Hv Hh. unfold kfree, kfree_st.
  destruct Hv as (Ha & He & Hp).
  assert (E : (negb (v `mod` PGSIZE =? 0) || (v <? end_) || (PHYSTOP <=? V2P v)) = false).
  { rewrite Ha. pose proof data_range. unfold V2P, KERNLINK, KERNBASE, PHYSTOP, EXTMEM in *.
    rewrite u32_small by lia.
    destruct (Z.ltb_spec v end_), (Z.leb_spec 0xE000000 (v - 0x80000000)); simpl; lia || done. }
  rewrite E. unfold bind, gets, when, memset, store32, modify, ret.
  destruct k as [m ul fl sh pt cp c3 kd ip tk hd]; cbn in *.
  destruct ul; cbn; [|done].
  rewrite acquire_eq by done. cbn. erewrite release_eq by done. done.
Qed.

Lemma kfree_panics v k : ~ page_ok v -> 0 <= v < 4294967296 ->
  kfree v k = Panic "kfree" k.
Proof.
  intros Hv Hr. unfold kfree.
  destruct (negb (v `mod` PGSIZE =? 0) || (v <? end_) || (PHYSTOP <=? V2P v)) eqn:E; [done|].
  exfalso. apply Hv. zbool. pose proof data_range.
  unfold V2P, PHYSTOP, KERNLINK, KERNBASE, EXTMEM in *.
  rewrite u32_small in * by lia. split; [done|]. unfold KERNBASE, PHYSTOP. lia.
Qed.

(** ** The list view *)
Lemma kalloc_nil k : free_pages k [] -> freelist k = 0 /\ kalloc_st k = k.
Proof. intros [Hc _ _ _]. simpl in Hc. unfold kalloc_st. by rewrite Hc. Qed.

Lemma kalloc_cons k p l : free_pages k (p :: l) ->
  freelist k = p /\ page_ok p /\ (p ∉ l) /\ free_pages (kalloc_st k) l /\
  memory (kalloc_st k) = memory k.
Proof.
  intros [Hc Hnd Hok Hb]. simpl in Hc. destruct Hc as [Hp Hc].
  apply NoDup_cons in Hnd as [Hn Hnd]. inversion Hok; subst.
  assert (Hp0 : (freelist k =? 0) = false).
  { apply Z.eqb_neq. match goal with Hx : page_ok (freelist k) |- _ => apply page_ok_range in Hx end.
    unfold KERNLINK, KERNBASE, EXTMEM in *. lia. }
  unfold kalloc_st. rewrite Hp0. split_and!; try done.
  all: split; done.
Qed.

Lemma kfree_cons v k l : free_pages k l -> page_ok v -> v ∉ l ->
  free_pages (kfree_st v k) (v :: l).
Proof.
  intros [Hc Hnd Hok Hb] Hv Hn. split; cbn.
  - split; [done|]. rewrite rd32_wr32_same.
    assert (Hfl : 0 <= freelist k < 4294967296).
    { destruct l as [|q l]; simpl in Hc; [lia|]. destruct Hc as [-> _].
      inversion Hok; subst. by apply page_ok_u32. }
    rewrite u32_small by done.
    apply (chain_ext (memory k)); [done| |done].
    intros q Hq x Hx.
    assert (page_ok q) as Hqok by (eapply Forall_forall; eauto).
    destruct (pages_disjoint v q) as [Hd|Hd];
      [apply Hv | apply Hqok | congruence | |];
      rewrite wr32_out, fill_out by (unfold PGSIZE; lia); done.
  - by apply NoDup_cons.
  - by constructor.
  - auto with xv6_mem.
Qed.

Lemma kfree_frame v k q : page_ok v -> page_ok q -> v <> q ->
  same_page (memory k) (memory (kfree_st v k)) q.
Proof.
  intros Hv Hq Hne x Hx. cbn.
  destruct (pages_disjoint v q) as [Hd|Hd]; [apply Hv|apply Hq|done| |];
    rewrite wr32_out, fill_out by (unfold PGSIZE; lia); done.
Qed.

(** ** freerange *)
Lemma elem_of_pages_from p n q :
  q ∈ pages_from p n <-> exists i : nat, (i < n)%nat /\ q = p + 4096 * Z.of_nat i.
Proof.
  unfold pages_from. rewrite list_elem_of_fmap. split.
  - intros (i & -> & Hi%elem_of_seq). exists i. split; [lia|done].
  - intros (i & Hi & ->). exists i. split; [done|]. apply elem_of_seq. lia.
Qed.

Lemma pages_from_S p n : pages_from p (S n) = pages_from p n ++ [p + 4096 * Z.of_nat n].
Proof. unfold pages_from. by rewrite seq_S, fmap_app. Qed.

Lemma NoDup_pages_from p n : NoDup (pages_from p n).
Proof.
  unfold pages_from. apply NoDup_fmap_2_strong; [|apply NoDup_seq].
  intros x y _ _ E. lia.
Qed.

Lemma freerange_runs vstart vend k l (n : nat) :
  0 <= vstart -> vstart + 8192 < 4294967296 -> 0 <= vend -> vend + 4096 < 4294967296 ->
  (Z.of_nat n = Z.max 0 ((vend - PGROUNDUP vstart) / 4096)) ->
  free_pages k l -> kmem_lock ∉ held k ->
  (forall q, q ∈ pages_from (PGROUNDUP vstart) n -> page_ok q /\ q ∉ l) ->
  runs (freerange vstart vend) k (fun _ k' =>
    free_pages k' (reverse (pages_from (PGROUNDUP vstart) n) ++ l) /\
    held k' = held k /\ use_lock k' = use_lock k).
Proof.
  intros Hs0 Hs1 Hv0 Hv En Hfp Hh Hpg.
  destruct (PGROUNDUP_spec vstart) as [HP Ha]; [lia..|].
  set (P := PGROUNDUP vstart) in *.
  unfold freerange, PGSIZE.
  apply (runs_loop (fun x k' => exists i : nat, x = P + 4096 * Z.of_nat i /\ (i <= n)%nat /\
           free_pages k' (reverse (pages_from P i) ++ l) /\
           held k' = held k /\ use_lock k' = use_lock k)
         (fun x => Z.to_nat ((vend - x) / 4096))).
  - intros x k' (i & -> & Hi & Hf & Hhe & Hul).
    destruct (decide (i = n)) as [->|Hne].
    + assert (Hend : (u32 (P + 4096 * Z.of_nat n + 4096) <=? vend) = false).
      { apply Z.leb_gt.
        pose proof (Z.div_mod (vend - P) 4096). pose proof (Z.mod_pos_bound (vend - P) 4096).
        rewrite u32_small by lia. lia. }
      rewrite Hend. apply runs_ret. done.
    + assert (Hin : (u32 (P + 4096 * Z.of_nat i + 4096) <=? vend) = true).
      { apply Z.leb_le.
        pose proof (Z.div_mod (vend - P) 4096). pose proof (Z.mod_pos_bound (vend - P) 4096).
        rewrite u32_small by lia. lia. }
      assert (Hq : P + 4096 * Z.of_nat i ∈ pages_from P n)
        by (apply elem_of_pages_from; exists i; split; [lia|done]).
      destruct (Hpg _ Hq) as [Hok Hnl].
      rewrite Hin. apply runs_bind. exists tt, (kfree_st (P + 4096 * Z.of_nat i) k').
      split; [apply kfree_eq; [done|by rewrite Hhe]|]. apply runs_ret.
      apply Z.leb_le in Hin. pose proof (page_ok_range _ Hok).
      unfold KERNLINK, KERNBASE, PHYSTOP, EXTMEM in *.
      split.
      * exists (S i). rewrite u32_small by lia. split; [lia|]. split; [lia|].
        split; [|done]. rewrite pages_from_S, reverse_app. apply kfree_cons; [done..|].
        rewrite elem_of_app, elem_of_reverse, elem_of_pages_from.
        intros [(j & Hj & Ej)|Hl]; [lia|done].
      * rewrite u32_small in * by lia.
        apply Z2Nat.inj_lt; [apply Z.div_pos; lia..|].
        apply Z.div_lt_upper_bound; [lia|].
        pose proof (Z.div_mod (vend - (P + 4096 * Z.of_nat i)) 4096).
        pose proof (Z.mod_pos_bound (vend - (P + 4096 * Z.of_nat i)) 4096). lia.
  - exists 0%nat. simpl. split; [lia|]. split; [lia|]. done.
  - assert ((vend - P) / 4096 <= vend / 4096) by (apply Z.div_le_mono; lia).
    pose proof (Z.div_pos vend 4096). fold P. lia.
Qed.

(** Writing inside an owned page leaves the free list alone. *)
Lemma free_pages_write k l p a v : free_pages k l -> page_ok p -> p ∉ l ->
  p <= a -> a + 4 <= p + 4096 -> free_pages (set_memory (wr32 (memory k) a v) k) l.
Proof.
  intros [Hc Hnd Hok Hb] Hp Hn H1 H2. split; cbn; auto with xv6_mem.
  apply (chain_ext (memory k)); [done| |done].
  intros q Hq x Hx.
  assert (page_ok q) as Hqok by (eapply Forall_forall; eauto).
  destruct (pages_disjoint p q) as [Hd|Hd]; [apply Hp|apply Hqok|congruence| |];
    rewrite wr32_out by lia; done.
Qed.

(** The invariant of the allocator and its clients: the free pages and the
    owned pages together are always the same pages, each exactly once. *)
Definition alloc_inv (pages : list Z) (st : kernel * list Z) : Prop :=
  exists l, free_pages st.1 l /\ l ++ st.2 ≡ₚ pages /\ NoDup (l ++ st.2) /\
            Forall page_ok st.2 /\ kmem_lock ∉ held st.1.

Lemma held_kalloc_st k : held (kalloc_st k) = held k.
Proof. unfold kalloc_st. by destruct (freelist k =? 0). Qed.

Lemma alloc_step_inv pages st st' :
  alloc_inv pages st -> alloc_step st st' -> alloc_inv pages st'.
Proof.
  intros (l & Hf & Hperm & Hnd & Hok & Hh) Hs. destruct Hs as
    [k k' p o E Hp0 | k k' o E | k k' p o1 o2 E | k p a v o Hp H1 H2]; cbn [fst snd] in *.
  - rewrite kalloc_eq in E by done. inversion E; subst; clear E.
    destruct l as [|q l]; [apply kalloc_nil in Hf as [? _]; lia|].
    apply kalloc_cons in Hf as (-> & Hq & Hn & Hf & _).
    exists l. cbn. rewrite held_kalloc_st. split_and!; try done.
    + rewrite <- Hperm. symmetry. apply Permutation_middle.
    + rewrite <- Permutation_middle. done.
    + by constructor.
  - rewrite kalloc_eq in E by done. inversion E as [[E0 E1]]; subst; clear E.
    destruct l as [|q l].
    + apply kalloc_nil in Hf as Hf'. destruct Hf' as [_ Hst]. rewrite Hst. exists []. done.
    + apply kalloc_cons in Hf as (E & Hq & _). apply page_ok_range in Hq.
      unfold KERNLINK, KERNBASE, EXTMEM in *. lia.
  - apply Forall_app in Hok as [Ho1 Ho2]. inversion Ho2; subst.
    rewrite kfree_eq in E by done. inversion E; subst; clear E.
    assert (Em : (p :: l) ++ o1 ++ o2 ≡ₚ l ++ o1 ++ p :: o2).
    { simpl. rewrite <- (Permutation_middle o1), <- (Permutation_middle l). done. }
    exists (p :: l). cbn [fst snd]. split_and!; try done.
    + apply kfree_cons; [done..|]. intros Hl.
      apply NoDup_app in Hnd as (_ & Hd & _). apply (Hd p Hl). set_solver.
    + by rewrite Em.
    + by rewrite Em.
    + by apply Forall_app.
  - assert (page_ok p) by (eapply Forall_forall; eauto).
    exists l. split_and!; try done. eapply free_pages_write; eauto.
    intros Hl. apply NoDup_app in Hnd as (_ & Hd & _). by apply (Hd p Hl).
Qed.

Lemma end_roundup : end_ <= PGROUNDUP end_ < end_ + 4096 /\ PGROUNDUP end_ `mod` 4096 = 0.
Proof.
  pose proof data_range. pose proof end_range.
  unfold KERNLINK, KERNBASE, EXTMEM in *. apply PGROUNDUP_spec; lia.
Qed.

(** *** C1: no page is ever both free and owned *)
(** C1. In every state that the allocator and its clients can reach by
    [kalloc], [kfree] of owned pages and writes into owned pages, the free
    list is intact and every page is either free or owned by exactly one
    client: pages are neither lost, duplicated nor corrupted. *)
Theorem alloc_reachable_inv pages st st' :
  alloc_inv pages st -> rtc alloc_step st st' -> alloc_inv pages st'.
Proof. intros Hi Hs. induction Hs; eauto using alloc_step_inv. Qed.

(** C2. Boot: starting from an empty free list, [kinit1(end, P2V(4MB))]
    followed by [kinit2(P2V(4MB), P2V(PHYSTOP))] returns, turns locking on,
    and leaves every page between [end] and PHYSTOP on the free list exactly
    once, and nothing else. *)
Theorem kinit_frees_all_pages k :
  freelist k = 0 -> bytes_ok (memory k) -> kmem_lock ∉ held k ->
  runs (kinit1 end_ (P2V (4 * 1024 * 1024)) ;;;
        kinit2 (P2V (4 * 1024 * 1024)) (P2V PHYSTOP)) k
    (fun _ k' => use_lock k' = true /\ exists l, free_pages k' l /\
                 forall p, p ∈ l <-> page_ok p).
Proof.
  intros Hfl Hb Hh. pose proof data_range as Hd. pose proof end_range as He.
  pose proof end_roundup as [HP HPa].
  change (P2V (4 * 1024 * 1024)) with 2151677952. change (P2V PHYSTOP) with 2382364672.
  unfold KERNLINK, KERNBASE, EXTMEM in Hd, He.
  assert (E4 : PGROUNDUP 2151677952 = 2151677952) by reflexivity.
  assert (Hn2 : exists n2, Z.of_nat n2 = 56320) by (exists (Z.to_nat 56320); lia).
  destruct Hn2 as [n2 En2].
  apply runs_bind. unfold kinit1. rsteps.
  eapply runs_conseq.
  { apply (freerange_runs end_ 2151677952 (set_use_lock false k) []
             (Z.to_nat ((2151677952 - PGROUNDUP end_) / 4096))); try lia.
    - split; cbn; [done|constructor|constructor|done].
    - done.
    - intros q (i & Hi & ->)%elem_of_pages_from.
      pose proof (Z.div_mod (2151677952 - PGROUNDUP end_) 4096).
      pose proof (Z.mod_pos_bound (2151677952 - PGROUNDUP end_) 4096).
      split; [|set_solver]. unfold page_ok, KERNBASE, PHYSTOP, PGSIZE.
      split; [by apply aligned_add|lia]. }
  intros [] k1 (Hf1 & Hh1 & Hu1). unfold kinit2. apply runs_bind.
  eapply runs_conseq.
  { eapply (freerange_runs 2151677952 2382364672 k1 _ n2); [lia..| | exact Hf1 | |].
    - rewrite En2, E4. reflexivity.
    - by rewrite Hh1.
    - intros q (i & Hi & ->)%elem_of_pages_from. rewrite E4. split.
      + unfold page_ok, KERNBASE, PHYSTOP, PGSIZE.
        split; [by apply aligned_add|lia].
      + rewrite app_nil_r, elem_of_reverse, elem_of_pages_from. intros (j & Hj & Ej).
        pose proof (Z.div_mod (2151677952 - PGROUNDUP end_) 4096).
        pose proof (Z.mod_pos_bound (2151677952 - PGROUNDUP end_) 4096). lia. }
  intros [] k2 (Hf2 & Hh2 & Hu2). rstep. split; [done|].
  eexists. split.
  { destruct Hf2 as [C N O B]. split; [exact C|exact N|exact O|exact B]. }
  intros p. rewrite app_nil_r, elem_of_app, !elem_of_reverse, !elem_of_pages_from, E4. split.
  - intros [(i & Hi & ->)|(i & Hi & ->)];
      pose proof (Z.div_mod (2151677952 - PGROUNDUP end_) 4096);
      pose proof (Z.mod_pos_bound (2151677952 - PGROUNDUP end_) 4096);
      unfold page_ok, KERNBASE, PHYSTOP, PGSIZE;
      (split; [by apply aligned_add|lia]).
  - intros Hp. pose proof (page_ok_range p Hp) as (_ & Hp1 & Hp2).
    destruct Hp as (_ & Hp0 & _). unfold KERNBASE, PHYSTOP in *.
    apply Z.mod_divide in Hp2, HPa; [|lia..]. destruct Hp2 as [a ->], HPa as [b Eb].
    rewrite Eb in *. destruct (Z.le_gt_cases 2151677952 (a * 4096)).
    + left. exists (Z.to_nat (a - 525312)). lia.
    + right. exists (Z.to_nat (a - b)).
      pose proof (Z.div_mod (2151677952 - b * 4096) 4096).
      pose proof (Z.mod_pos_bound (2151677952 - b * 4096) 4096). lia.
Qed.

End kalloc.

(** ** A concrete layout and its witnesses *)
Definition example_layout : KernelLayout.
Proof.
  refine {| data := 0x80108000; end_ := 0x80115400 |};
    unfold PGSIZE, KERNLINK, KERNBASE, EXTMEM; first [reflexivity | lia].
Defined.

Definition boot_kernel : kernel :=
  {| memory := fun _ => 0; use_lock := false; freelist := 0; shared_memory := [];
     ptable := []; cpu_proc := None; cr3 := 0; kpgdir := 0; initproc := None;
     ticks := 0; held := [] |}.

(** A free list of [n] pages starting at [p], built the way [freerange] builds
    it, on top of the kernel [k]. *)
Definition pool (p : Z) (n : nat) (k : kernel) : kernel :=
  foldr kfree_st (set_freelist 0 k) (pages_from p n).

Lemma pool_free `{KernelLayout} p n k : bytes_ok (memory k) ->
  Forall page_ok (pages_from p n) -> free_pages (pool p n k) (pages_from p n).
Proof.
  intros Hb Hok. unfold pool. pose proof (NoDup_pages_from p n) as Hnd.
  induction (pages_from p n) as [|q l IH]; simpl.
  - split; [done|constructor|constructor|done].
  - apply NoDup_cons in Hnd as [Hq Hnd]. apply Forall_cons in Hok as [Hqo Hok].
    apply kfree_cons; [by apply IH|done|done].
Qed.

Lemma pool_frame `{KernelLayout} p n k q : page_ok q -> (q ∉ pages_from p n) ->
  Forall page_ok (pages_from p n) -> same_page (memory k) (memory (pool p n k)) q.
Proof.
  unfold pool. intros Hq. induction (pages_from p n) as [|r l IH]; simpl; intros Hn Hok; [done|].
  apply not_elem_of_cons in Hn as [Hn1 Hn2]. apply Forall_cons in Hok as [Hr Hok].
  intros x Hx. rewrite <- (IH Hn2 Hok x Hx). apply (kfree_frame r (foldr kfree_st (set_freelist 0 k) l) q); [done|done|congruence|done].
Qed.

Lemma pool_only p n k : exists m fl, pool p n k = set_freelist fl (set_memory m k).
Proof.
  unfold pool. induction (pages_from p n) as [|q l IH]; simpl.
  - exists (memory k), 0. by destruct k.
  - destruct IH as (m & fl & ->). eexists _, _. unfold kfree_st. by destruct k.
Qed.

Lemma pages_from_ok `{KernelLayout} p n : p `mod` 4096 = 0 -> end_ <= p ->
  p + 4096 * Z.of_nat n <= KERNBASE + PHYSTOP -> Forall page_ok (pages_from p n).
Proof.
  intros Ha He Hp. apply Forall_forall. intros q (i & Hi & ->)%elem_of_pages_from.
  unfold page_ok, PGSIZE, KERNBASE, PHYSTOP in *. split; [by apply aligned_add|]. lia.
Qed.

Lemma boot_bytes : bytes_ok (memory boot_kernel).
Proof. intros x. simpl. lia. Qed.

Lemma kinit_frees_all_pages_witness :
  runs (@kinit1 example_layout (@end_ example_layout) (P2V (4 * 1024 * 1024)) ;;;
        @kinit2 example_layout (P2V (4 * 1024 * 1024)) (P2V PHYSTOP)) boot_kernel
    (fun _ k' => use_lock k' = true /\ exists l, @free_pages example_layout k' l /\
                 forall p, p ∈ l <-> @page_ok example_layout p).
Proof.
  apply (@kinit_frees_all_pages example_layout boot_kernel);
    [reflexivity | apply boot_bytes | apply not_elem_of_nil].
Defined.

Section alloc_example.
#[local] Existing Instance example_layout.

Lemma alloc_reachable_inv_witness :
  let k := pool 0x80400000 4 boot_kernel in
  rtc alloc_step (k, []) (kalloc_st k, [0x80400000]) /\
  alloc_inv (pages_from 0x80400000 4) (kalloc_st k, [0x80400000]).
Proof.
  intros k.
  assert (Hf : free_pages k (pages_from 0x80400000 4)).
  { apply pool_free; [apply boot_bytes|]. apply pages_from_ok;
      [reflexivity|change end_ with 0x80115400; lia|unfold KERNBASE, PHYSTOP; lia]. }
  assert (Hs : rtc alloc_step (k, []) (kalloc_st k, [0x80400000])).
  { apply rtc_once. apply step_alloc; [|lia]. apply kalloc_eq, not_elem_of_nil. }
  split; [exact Hs|]. apply (alloc_reachable_inv _ (k, [])); [|exact Hs].
  exists (pages_from 0x80400000 4). cbn [fst snd]. rewrite app_nil_r.
  split; [exact Hf|]. split; [reflexivity|]. split; [apply NoDup_pages_from|].
  split; [constructor|apply not_elem_of_nil].
Defined.
End alloc_example.
