(* ===== verification/ShMem.v ===== *)
(** * sh_mem.c: the table of shared physical pages and their reference counts *)
From stdpp Require Import base numbers list sets strings.
From Stdlib Require Import ZArith Lia.
From S2P Require Import Prelude Mmu Kernel Kalloc.
#[local] Open Scope Z_scope.

Section shmem.
Context `{KernelLayout}.

(** [shared_memory[i]], and an assignment to it. *)
Definition shm_at (i : Z) : M kernel shared_memory_t :=
  fun k => match shared_memory k !! Z.to_nat i with
           | Some e => Ret e k
           | None => Fault "shared_memory index" k
           end.
Definition shm_put (i : Z) (e : shared_memory_t) : M kernel unit :=
  modify (fun k => set_shared_memory (<[Z.to_nat i := e]> (shared_memory k)) k).

Definition shm_init : M kernel unit :=
  for_all (seqZ 0 N_SHARED_PAGES) (fun i => shm_put i (mkshm 0 0)).

Definition shm_add (p : Z) : M kernel Z :=
  acquire shm_lock ;;;
  r <- loop (S (Z.to_nat N_SHARED_PAGES)) (fun '(i, free_idx) =>
    if i <? N_SHARED_PAGES then
      e <- shm_at i ;;
      if pa e =? p then
        shm_put i (mkshm (pa e) (s32 (ref_cnt e + 1))) ;;;
        release shm_lock ;;;
        ret (inr (inl i))
      else
        ret (inl (i + 1,
                  if (free_idx =? -1) && (ref_cnt e =? 0) then i else free_idx))
    else ret (inr (inr free_idx))) (0, -1) ;;
  match r with
  | inl i => ret i
  | inr free_idx =>
      if free_idx =? -1 then
        release shm_lock ;;;
        ret (-1)
      else
        shm_put free_idx (mkshm p 1) ;;;
        release shm_lock ;;;
        ret free_idx
  end.

Definition shm_remove (p : Z) : M kernel Z :=
  acquire shm_lock ;;;
  r <- for_each (seqZ 0 N_SHARED_PAGES) (fun i =>
    e <- shm_at i ;;
    if negb (pa e =? p) || (ref_cnt e =? 0) then ret None
    else
      shm_put i (mkshm (pa e) (s32 (ref_cnt e - 1))) ;;;
      e' <- shm_at i ;;
      (if ref_cnt e' =? 0 then
         shm_put i (mkshm 0 (ref_cnt e')) ;;;
         kfree (P2V p)
       else ret tt) ;;;
      release shm_lock ;;;
      ret (Some 0)) ;;
  match r with
  | Some v => ret v
  | None => release shm_lock ;;; ret (-1)
  end.

(** ** The abstract table: a reference count for each physical page *)
Definition entry_ok (e : shared_memory_t) : Prop :=
  (pa e = 0 /\ ref_cnt e = 0) \/ (pa e <> 0 /\ 0 < ref_cnt e < 2147483647).

Record shm_wf (t : list shared_memory_t) : Prop := {
  sw_len : length t = 64%nat;
  sw_ok : forall i e, t !! i = Some e -> entry_ok e;
  sw_inj : forall i j e e', t !! i = Some e -> t !! j = Some e' ->
           pa e <> 0 -> pa e = pa e' -> i = j;
}.

(** How many references the table records for the page at [p]. *)
Definition refs (t : list shared_memory_t) (p : Z) : Z :=
  match list_find (fun e => pa e = p) t with
  | Some (_, e) => ref_cnt e
  | None => 0
  end.

Lemma refs_lookup t i e : shm_wf t -> t !! i = Some e -> pa e <> 0 ->
  refs t (pa e) = ref_cnt e.
Proof.
  intros [_ _ Hinj] Hi Hp. unfold refs.
  destruct (list_find _ t) as [[j e']|] eqn:E.
  - apply list_find_Some in E as (Hj & Hpa & _).
    assert (i = j) as -> by (eapply Hinj; eauto). congruence.
  - apply list_find_None in E. rewrite Forall_forall in E.
    exfalso. eapply E; [|done]. apply list_elem_of_lookup. eauto.
Qed.

Lemma refs_none t p : (forall i e, t !! i = Some e -> pa e <> p) -> refs t p = 0.
Proof.
  intros Hn. unfold refs. destruct (list_find _ t) as [[j e']|] eqn:E; [|done].
  apply list_find_Some in E as (Hj & Hpa & _). by destruct (Hn j e').
Qed.

(** A slot's update changes the count of the pages it names and no other. *)
Lemma refs_insert_ne t i e e' q : shm_wf t -> shm_wf (<[i:=e']> t) ->
  t !! i = Some e -> q <> 0 -> q <> pa e -> q <> pa e' ->
  refs (<[i:=e']> t) q = refs t q.
Proof.
  intros Hwf Hwf' Hi Hq0 Hq Hq'.
  assert (Hl : (i < length t)%nat) by (eapply lookup_lt_Some; eauto).
  destruct (list_find (fun e0 => pa e0 = q) t) as [[j e0]|] eqn:Ef.
  - apply list_find_Some in Ef as (Hj & <- & _).
    assert (i <> j) by naive_solver.
    rewrite (refs_lookup t j e0) by done.
    apply (refs_lookup _ j); [done| |done]. by rewrite list_lookup_insert_ne.
  - apply list_find_None in Ef. rewrite Forall_lookup in Ef.
    rewrite !refs_none; [done|naive_solver|].
    intros j e0. rewrite list_lookup_insert_Some. naive_solver.
Qed.

Lemma shm_wf_insert t i e e' : shm_wf t -> t !! i = Some e -> entry_ok e' ->
  (pa e' <> 0 -> forall j e0, t !! j = Some e0 -> pa e0 = pa e' -> j = i) ->
  shm_wf (<[i:=e']> t).
Proof.
  intros [Hlen Hok Hinj] Hi He' Hu.
  assert (Hl : (i < length t)%nat) by (eapply lookup_lt_Some; eauto).
  split.
  - by rewrite length_insert.
  - intros j e0. rewrite list_lookup_insert_Some. naive_solver.
  - intros j1 j2 e1 e2. rewrite !list_lookup_insert_Some.
    intros [(<- & -> & _)|(Hne1 & H1)] [(<- & -> & _)|(Hne2 & H2)] Hp Epa; try done.
    + symmetry. eapply Hu; eauto.
    + eapply Hu; eauto. congruence.
    + eapply Hinj; eauto.
Qed.

(** Giving a slot to the page [p], or keeping it there, with count [c]. *)
Lemma slot_set t i e p c : shm_wf t -> t !! i = Some e -> p <> 0 -> 0 < c < 2147483647 ->
  pa e = p \/ (pa e = 0 /\ forall j e0, t !! j = Some e0 -> pa e0 <> p) ->
  shm_wf (<[i:=mkshm p c]> t) /\ <[i:=mkshm p c]> t !! i = Some (mkshm p c) /\
  refs (<[i:=mkshm p c]> t) p = c /\
  forall q, q <> 0 -> q <> p -> refs (<[i:=mkshm p c]> t) q = refs t q.
Proof.
  intros Hwf Hi Hp Hc Hu.
  assert (Hl : (i < length t)%nat) by (eapply lookup_lt_Some; eauto).
  assert (Hwf' : shm_wf (<[i:=mkshm p c]> t)).
  { eapply shm_wf_insert; eauto; [right; simpl; lia|]. simpl. intros _ j e0 Hj Ej.
    destruct Hu as [Hu|[_ Hu]]; [|by destruct (Hu j e0)].
    eapply (sw_inj t); eauto; congruence. }
  assert (Hlk : <[i:=mkshm p c]> t !! i = Some (mkshm p c))
    by (by rewrite list_lookup_insert_eq).
  split; [done|]. split; [done|]. split.
  - exact (refs_lookup _ _ _ Hwf' Hlk Hp).
  - intros q Hq0 Hqp. eapply refs_insert_ne; eauto.
    destruct Hu as [Hu|[Hu _]]; congruence.
Qed.

(** Emptying a slot. *)
Lemma slot_clear t i e : shm_wf t -> t !! i = Some e -> pa e <> 0 ->
  shm_wf (<[i:=mkshm 0 0]> t) /\ refs (<[i:=mkshm 0 0]> t) (pa e) = 0 /\
  forall q, q <> 0 -> q <> pa e -> refs (<[i:=mkshm 0 0]> t) q = refs t q.
Proof.
  intros Hwf Hi Hp.
  assert (Hwf' : shm_wf (<[i:=mkshm 0 0]> t)).
  { eapply shm_wf_insert; eauto; [by left|]. simpl. done. }
  split; [done|]. split.
  - apply refs_none. intros j e0. rewrite list_lookup_insert_Some.
    intros [(_ & <- & _)|(Hne & Hj)] Ej; simpl in *; [done|].
    apply Hne. eapply (sw_inj t); eauto.
  - intros q Hq0 Hqp. eapply refs_insert_ne; eauto.
Qed.

(** ** The two operations *)
#[local] Hint Unfold shm_put : xv6_unf.

Lemma shm_at_runs i e k : shared_memory k !! Z.to_nat i = Some e -> shm_at i k = Ret e k.
Proof. intros E. unfold shm_at. by rewrite E. Qed.

(** What the search loop of [shm_add] has established when it reaches slot [i]. *)
Definition searched (t : list shared_memory_t) (p i fi : Z) : Prop :=
  0 <= i <= 64 /\
  (forall j e, t !! j = Some e -> Z.of_nat j < i -> pa e <> p) /\
  ((fi = -1 /\ forall j e, t !! j = Some e -> Z.of_nat j < i -> ref_cnt e <> 0) \/
   (0 <= fi < 64 /\ exists e, t !! Z.to_nat fi = Some e /\ ref_cnt e = 0)).

Lemma searched_next t p i fi e : searched t p i fi -> i < 64 ->
  t !! Z.to_nat i = Some e -> pa e <> p ->
  searched t p (i + 1) (if (fi =? -1) && (ref_cnt e =? 0) then i else fi).
Proof.
  intros (Hi & Hnp & Hfi) Hlt He Hpe. split; [lia|]. split.
  { intros j e0 Hj Hji. destruct (decide (Z.of_nat j < i)); [by eapply Hnp|].
    assert (j = Z.to_nat i) as -> by lia. congruence. }
  destruct (Z.eqb_spec fi (-1)) as [->|Hn], (Z.eqb_spec (ref_cnt e) 0); cbn [andb].
  - right. split; [lia|]. eauto.
  - left. split; [done|]. intros j e0 Hj Hji.
    destruct Hfi as [[_ Hfi]|[? _]]; [|lia].
    destruct (decide (Z.of_nat j < i)); [by eapply Hfi|].
    assert (j = Z.to_nat i) as -> by lia. congruence.
  - destruct Hfi as [[? _]|Hfi]; [done|by right].
  - destruct Hfi as [[? _]|Hfi]; [done|by right].
Qed.

(** [shm_add] returns the slot it used, having counted one more reference to
    [p] and changed no other count; it fails exactly when [p] is not in the
    table and no slot is free, and then changes nothing. *)
Definition shm_add_post (p : Z) (k : kernel) (r : Z) (k' : kernel) : Prop :=
  (r = -1 /\ k' = k /\ refs (shared_memory k) p = 0 /\
   (forall i e, shared_memory k !! i = Some e -> 0 < ref_cnt e)) \/
  (exists t, 0 <= r < 64 /\ k' = set_shared_memory t k /\ shm_wf t /\
     t !! Z.to_nat r = Some (mkshm p (refs (shared_memory k) p + 1)) /\
     refs t p = refs (shared_memory k) p + 1 /\
     forall q, q <> 0 -> q <> p -> refs t q = refs (shared_memory k) q).

Lemma shm_add_runs p k : shm_wf (shared_memory k) -> p <> 0 ->
  refs (shared_memory k) p < 2147483646 -> shm_lock ∉ held k ->
  runs (shm_add p) k (shm_add_post p k).
Proof.
  intros Hwf Hp Hov Hh. set (t := shared_memory k) in *.
  pose proof (sw_len _ Hwf) as Hlen.
  unfold shm_add, N_SHARED_PAGES. reqn acquire_eq; [done|].
  set (k1 := set_held (shm_lock :: held k) k).
  assert (Ht : shared_memory k1 = t) by done.
  apply runs_bind.
  apply (runs_loop (fun '(i, fi) k' => k' = k1 /\ searched t p i fi)
                   (fun '(i, _) => Z.to_nat (64 - i))); [|split; [done|]|simpl; lia].
  2:{ split; [lia|]. split; [intros; lia|]. left. split; [done|intros; lia]. }
  intros [i fi] k' (-> & Hs). destruct (Z.ltb_spec i 64) as [Hlt|Hge].
  - assert (0 <= i) by apply Hs.
    destruct (lookup_lt_is_Some_2 t (Z.to_nat i)) as [e He]; [lia|].
    reqn shm_at_runs; [rewrite Ht; exact He|].
    destruct (Z.eqb_spec (pa e) p) as [Hpe|Hpe].
    + subst p. pose proof (refs_lookup t _ e Hwf He Hp) as Hr.
      destruct (sw_ok _ Hwf _ _ He) as [[? ?]|[? ?]]; [congruence|].
      rewrite s32_small by lia. rsteps. reqn release_eq; [done|done|]. rsteps.
      destruct (slot_set t (Z.to_nat i) e (pa e) (ref_cnt e + 1)) as (? & ? & ? & ?);
        [done|done|done|lia|by left|].
      right. exists (<[Z.to_nat i := mkshm (pa e) (ref_cnt e + 1)]> t).
      fold t. rewrite Hr. split; [lia|]. done.
    + apply runs_ret. split; [|lia]. split; [done|]. by apply searched_next.
  - apply runs_ret. destruct Hs as (Hi & Hnp & Hfi). assert (i = 64) as -> by lia.
    assert (Hno : forall j e, t !! j = Some e -> pa e <> p).
    { intros j e Hj. eapply Hnp; eauto. apply lookup_lt_Some in Hj. lia. }
    assert (Hr0 : refs t p = 0) by (by apply refs_none).
    destruct Hfi as [[-> Hfull]|[Hr (e & He & Hc)]].
    + rewrite Z.eqb_refl. reqn release_eq; [done|done|]. rsteps. left.
      split; [done|]. split; [by destruct k|]. split; [done|].
      fold t. intros j e Hj. assert (Z.of_nat j < 64) by (apply lookup_lt_Some in Hj; lia).
      specialize (Hfull j e Hj ltac:(done)).
      destruct (sw_ok _ Hwf _ _ Hj) as [[? ?]|[? ?]]; lia.
    + destruct (Z.eqb_spec fi (-1)); [lia|]. rsteps. reqn release_eq; [done|done|].
      rsteps. right. exists (<[Z.to_nat fi := mkshm p 1]> t). fold t. rewrite Hr0.
      destruct (slot_set t (Z.to_nat fi) e p 1) as (? & ? & ? & ?);
        [done|done|done|lia| |done].
      right. split; [|done]. destruct (sw_ok _ Hwf _ _ He) as [[? ?]|[? ?]]; [done|lia].
Qed.

(** [shm_remove] drops one reference; the last one empties the slot and gives
    the page back to the allocator, and a page without references is
    reported as an error. *)
Definition shm_remove_post (p : Z) (k : kernel) (r : Z) (k' : kernel) : Prop :=
  let n := refs (shared_memory k) p in
  exists t, shm_wf t /\
    (forall q, q <> 0 -> q <> p -> refs t q = refs (shared_memory k) q) /\
    refs t p = Z.max 0 (n - 1) /\
    ((n = 0 /\ r = -1 /\ k' = k /\ t = shared_memory k) \/
     (n = 1 /\ r = 0 /\ k' = set_shared_memory t (kfree_st (P2V p) k)) \/
     (1 < n /\ r = 0 /\ k' = set_shared_memory t k)).

Lemma shm_remove_runs p k : shm_wf (shared_memory k) -> p <> 0 ->
  (refs (shared_memory k) p = 1 -> page_ok (P2V p)) ->
  shm_lock ∉ held k -> kmem_lock ∉ held k ->
  runs (shm_remove p) k (shm_remove_post p k).
Proof.
  intros Hwf Hp Hpg Hh Hkm. pose proof (sw_len _ Hwf) as Hlen.
  unfold shm_remove, N_SHARED_PAGES. reqn acquire_eq; [done|].
  set (k1 := set_held (shm_lock :: held k) k). apply runs_bind.
  apply (runs_for_each (fun pre k' => k' = k1 /\
           forall j e, shared_memory k !! j = Some e -> (j < length pre)%nat -> pa e <> p)).
  - intros pre i post k' El (-> & Hpre).
    assert (Hi : i = Z.of_nat (length pre) /\ (length pre < 64)%nat).
    { assert (Hlk : seqZ 0 64 !! length pre = Some i) by (rewrite El; by apply list_lookup_middle).
      apply lookup_seqZ in Hlk. lia. }
    destruct Hi as [-> Hlt].
    destruct (lookup_lt_is_Some_2 (shared_memory k) (length pre)) as [e He]; [lia|].
    reqn shm_at_runs; [rewrite Nat2Z.id; exact He|].
    destruct (negb (pa e =? p) || (ref_cnt e =? 0)) eqn:Etst.
    + apply runs_ret. split; [done|]. intros j e0 Hj Hjl. rewrite length_app in Hjl; simpl in Hjl.
      destruct (decide (j = length pre)) as [->|]; [|by eapply Hpre; eauto; lia].
      assert (e0 = e) as -> by congruence.
      apply orb_true_iff in Etst as [Et|Et]; zbool; [done|].
      destruct (sw_ok _ Hwf _ _ He) as [[? ?]|[? ?]]; [congruence|lia].
    + zbool. destruct (sw_ok _ Hwf _ _ He) as [[? ?]|[Hpa Hrc]]; [congruence|].
      pose proof (refs_lookup _ _ _ Hwf He Hpa) as Hr. subst p.
      rewrite s32_small by lia. rsteps.
      reqn shm_at_runs; [cbn; rewrite Nat2Z.id, list_lookup_insert_eq by lia; done|].
      cbn [ref_cnt]. apply runs_bind.
      destruct (Z.eqb_spec (ref_cnt e - 1) 0) as [Hz|Hnz].
      * rsteps. reqn kfree_eq; [apply Hpg; lia|cbn; set_solver|].
        reqn release_eq; [done|done|]. rsteps. cbn.
        destruct (slot_clear _ _ _ Hwf He Hpa) as (? & ? & ?).
        exists (<[length pre:=mkshm 0 0]> (shared_memory k)). rewrite Hr.
        split; [done|]. split; [done|]. split; [lia|]. right. left.
        split; [lia|]. split; [done|].
        rewrite Nat2Z.id, list_insert_insert_eq, Hz. by destruct k.
      * rsteps. reqn release_eq; [done|done|]. rsteps.
        destruct (slot_set _ _ e (pa e) (ref_cnt e - 1) Hwf He) as (? & ? & ? & ?);
          [done|lia|by left|].
        exists (<[length pre:=mkshm (pa e) (ref_cnt e - 1)]> (shared_memory k)). rewrite Hr.
        split; [done|]. split; [done|]. split; [lia|]. right. right.
        split; [lia|]. split; [done|]. cbn. rewrite Nat2Z.id. by destruct k.
  - intros k' (-> & Hno). reqn release_eq; [done|done|]. rsteps.
    assert (Hr0 : refs (shared_memory k) p = 0).
    { apply refs_none. intros j e Hj. eapply Hno; eauto.
      rewrite length_seqZ. apply lookup_lt_Some in Hj. lia. }
    exists (shared_memory k). rewrite Hr0.
    split; [done|]. split; [done|]. split; [done|]. left. by destruct k.
  - split; [done|]. simpl. lia.
Qed.
End shmem.
