(* ===== verification/ShMemSpec.v ===== *)
(** * The shared-page table against its specification

    The promise of sh_mem.c: a bounded map from physical pages to reference
    counts, in which the last [shm_remove] of a page, and only that one, gives
    the page back to the allocator. *)
From stdpp Require Import base numbers list sets strings gmap.
From Stdlib Require Import ZArith Lia.
From S2P Require Import Prelude Mmu Kernel Kalloc ShMem.
#[local] Open Scope Z_scope.

Inductive shm_op := Add (p : Z) | Remove (p : Z).

Section spec.
Context `{KernelLayout}.

Definition run_op (o : shm_op) : M kernel Z :=
  match o with Add p => shm_add p | Remove p => shm_remove p end.

(** The specification: success, the new counts, the pages given back. *)
Definition spec_op (o : shm_op) (s : gmap Z Z) : bool * gmap Z Z * list Z :=
  match o with
  | Add p =>
      match s !! p with
      | Some n => (true, <[p := n + 1]> s, [])
      | None => if decide (size s < 64)%nat then (true, <[p := 1]> s, []) else (false, s, [])
      end
  | Remove p =>
      match s !! p with
      | Some n => if n =? 1 then (true, delete p s, [P2V p]) else (true, <[p := n - 1]> s, [])
      | None => (false, s, [])
      end
  end.

(** What a caller of [shm_add] owes: the page is its own, and the count has
    not reached the largest int. *)
Definition op_ok (o : shm_op) (s : gmap Z Z) (l : list Z) : Prop :=
  match o with
  | Add p => p <> 0 /\ page_ok (P2V p) /\ (P2V p ∉ l) /\
             (forall q, q ∈ dom s -> P2V q = P2V p -> q = p) /\
             forall n, s !! p = Some n -> n < 2147483646
  | Remove p => p <> 0
  end.

Record shm_sim (s : gmap Z Z) (l : list Z) (k : kernel) : Prop := {
  ss_wf : shm_wf (shared_memory k);
  ss_zero : s !! 0 = None;
  ss_refs : forall p, p <> 0 ->
     s !! p = if refs (shared_memory k) p =? 0 then None else Some (refs (shared_memory k) p);
  ss_free : free_pages k l;
  ss_own : forall p, p ∈ dom s -> page_ok (P2V p) /\ (P2V p ∉ l);
  ss_inj : forall p q, p ∈ dom s -> q ∈ dom s -> P2V p = P2V q -> p = q;
  ss_locks : (shm_lock ∉ held k) /\ (kmem_lock ∉ held k);
}.

Definition used (t : list shared_memory_t) : list shared_memory_t := filter (fun e => pa e <> 0) t.

Lemma refs_pos t p : shm_wf t -> p <> 0 ->
  refs t p <> 0 <-> exists i e, t !! i = Some e /\ pa e = p.
Proof.
  intros Hwf Hp. split.
  - intros Hr. unfold refs in Hr. destruct (list_find _ t) as [[i e]|] eqn:E; [|done].
    apply list_find_Some in E as (Hi & Hpa & _). eauto.
  - intros (i & e & Hi & <-). rewrite (refs_lookup t i e Hwf Hi Hp).
    destruct (sw_ok _ Hwf i e Hi) as [[? _]|[_ ?]]; [done|lia].
Qed.

Lemma used_nodup t :
  (forall i j e e', t !! i = Some e -> t !! j = Some e' -> pa e <> 0 -> pa e = pa e' -> i = j) ->
  NoDup (pa <$> used t).
Proof.
  induction t as [|e t IH]; intros Hinj; [constructor|].
  assert (Ht : NoDup (pa <$> used t)).
  { apply IH. intros i j a b Hi Hj Ha Eab.
    assert (S i = S j) by (by eapply Hinj). lia. }
  unfold used. rewrite filter_cons. destruct (decide (pa e <> 0)) as [Hp|]; [|done].
  rewrite fmap_cons. constructor; [|done]. intros (e' & Ee & Hin)%list_elem_of_fmap.
  apply list_elem_of_filter in Hin as [_ (j & Hj)%list_elem_of_lookup].
  assert (0%nat = S j) by (eapply Hinj; [reflexivity|exact Hj|done|done]). lia.
Qed.

(** The number of counted pages is the number of slots in use. *)
Lemma sim_size (s : gmap Z Z) t : shm_wf t -> s !! 0 = None ->
  (forall p, p <> 0 -> s !! p = if refs t p =? 0 then None else Some (refs t p)) ->
  size s = length (used t).
Proof.
  intros Hwf H0 Hs. rewrite <- size_dom.
  assert (Ed : dom s = list_to_set (C := gset Z) (pa <$> used t)).
  { apply set_eq. intros p. rewrite elem_of_dom, elem_of_list_to_set, list_elem_of_fmap.
    destruct (decide (p = 0)) as [->|Hp].
    - rewrite H0. split; [by intros [??]|]. intros (e & E & Hin).
      apply list_elem_of_filter in Hin as [? _]. congruence.
    - rewrite Hs by done. pose proof (refs_pos t p Hwf Hp) as Hr. split.
      + intros [n Hn]. destruct (Z.eqb_spec (refs t p) 0) as [|Hne]; [done|].
        apply Hr in Hne as (i & e & Hi & <-). exists e. split; [done|].
        apply list_elem_of_filter. split; [done|]. by eapply list_elem_of_lookup_2.
      + intros (e & -> & Hin). apply list_elem_of_filter in Hin as [_ Hin].
        apply list_elem_of_lookup in Hin as [i Hi].
        destruct (Z.eqb_spec (refs t (pa e)) 0) as [E|]; [|by eexists].
        exfalso. apply Hr in E; [done|]. eauto. }
  rewrite Ed, size_list_to_set; [by rewrite length_fmap|].
  apply used_nodup, (sw_inj _ Hwf).
Qed.

Lemma used_full t : shm_wf t -> (forall i e, t !! i = Some e -> 0 < ref_cnt e) ->
  length (used t) = 64%nat.
Proof.
  intros Hwf Hpos. rewrite <- (sw_len _ Hwf). unfold used. f_equal.
  assert (Hall : Forall (fun e => pa e <> 0) t).
  { apply Forall_lookup. intros i e Hi.
    destruct (sw_ok _ Hwf i e Hi) as [[_ ?]|[? _]]; [|done]. pose proof (Hpos i e Hi). lia. }
  clear Hpos Hwf. induction Hall as [|e t He _ IH]; [done|]. by rewrite filter_cons_True, IH.
Qed.

Lemma sim_bound s l k : shm_sim s l k -> (size s <= 64)%nat.
Proof.
  intros [Hwf H0 Hs _ _ _ _]. rewrite (sim_size s _ Hwf H0 Hs).
  rewrite <- (sw_len _ Hwf). apply length_filter.
Qed.

(** The counts after one page's count has changed to [n]. *)
Lemma refs_update (s : gmap Z Z) t t' p n : p <> 0 -> 0 < n ->
  (forall q, q <> 0 -> s !! q = if refs t q =? 0 then None else Some (refs t q)) ->
  refs t' p = n -> (forall q, q <> 0 -> q <> p -> refs t' q = refs t q) ->
  forall q, q <> 0 -> <[p:=n]> s !! q = if refs t' q =? 0 then None else Some (refs t' q).
Proof.
  intros Hp Hn Hs Hr Hrn q Hq. destruct (decide (q = p)) as [->|Hne].
  - rewrite lookup_insert_eq, Hr. destruct (Z.eqb_spec n 0); [lia|done].
  - by rewrite lookup_insert_ne, Hrn, Hs by done.
Qed.

Lemma add_sim p s l k : shm_sim s l k -> op_ok (Add p) s l ->
  runs (shm_add p) k (fun r k' => let '(ok, s', fr) := spec_op (Add p) s in
    (0 <=? r) = ok /\ shm_sim s' (fr ++ l) k').
Proof.
  intros Hsim (Hp & Hok & Hpl & Hpinj & Hov). pose proof Hsim as [Hwf H0 Hs Hf Hown Hinj [Hl1 Hl2]].
  set (n := refs (shared_memory k) p) in *. pose proof (Hs p Hp) as Hsp. fold n in Hsp.
  assert (Hn : 0 <= n).
  { destruct (Z.eq_dec n 0) as [E0|Hne]; [lia|]. apply (refs_pos _ _ Hwf Hp) in Hne as (i & e & Hi & Hpe).
    pose proof (sw_ok _ Hwf i e Hi) as Hoe. unfold n. rewrite <- Hpe.
    rewrite (refs_lookup _ i e) by (done || congruence). destruct Hoe as [[? ?]|[? ?]]; lia. }
  eapply runs_conseq; [apply (shm_add_runs p k); try done|].
  { fold n. destruct (Z.eqb_spec n 0) as [E0|]; [lia|]. by apply Hov. }
  intros r k' [(-> & -> & Hz & Hfull)|(t & Hr & -> & Hwf' & _ & Hrp & Hrn)].
  - fold n in Hz. rewrite Hz in Hsp. cbn [spec_op]. rewrite Hsp.
    rewrite decide_False; [done|].
    rewrite (sim_size s _ Hwf H0 Hs), used_full by done. lia.
  - fold n in Hrp.
    assert (Hs' : forall q, q <> 0 -> <[p:=n + 1]> s !! q = if refs t q =? 0 then None else Some (refs t q))
      by (apply (refs_update s (shared_memory k)); done || lia).
    assert (Hsim' : shm_sim (<[p := n + 1]> s) l (set_shared_memory t k)).
    { split; try done.
      - by rewrite lookup_insert_ne.
      - destruct Hf. split; done.
      - intros q. rewrite dom_insert_L, elem_of_union, elem_of_singleton.
        intros [->|Hq]; [done|by apply Hown].
      - intros a b. rewrite dom_insert_L, !elem_of_union, !elem_of_singleton.
        intros [->|Ha] [->|Hb] E; [done| | |by apply Hinj].
        + symmetry. by apply Hpinj.
        + by apply Hpinj. }
    assert (Er : (0 <=? r) = true) by (apply Z.leb_le; lia).
    cbn [spec_op]. rewrite Hsp. destruct (Z.eqb_spec n 0) as [En|En].
    + rewrite En in *. rewrite decide_True; [done|].
      pose proof (sim_bound _ _ _ Hsim') as Hb. rewrite map_size_insert_None in Hb by done. lia.
    + done.
Qed.

Lemma remove_sim p s l k : shm_sim s l k -> op_ok (Remove p) s l ->
  runs (shm_remove p) k (fun r k' => let '(ok, s', fr) := spec_op (Remove p) s in
    (0 <=? r) = ok /\ shm_sim s' (fr ++ l) k').
Proof.
  intros Hsim Hp. pose proof Hsim as [Hwf H0 Hs Hf Hown Hinj [Hl1 Hl2]].
  pose proof (Hs p Hp) as Hsp. set (n := refs (shared_memory k) p) in *.
  eapply runs_conseq; [apply (shm_remove_runs p k); try done|].
  { fold n. intros En. rewrite En in Hsp. apply Hown, elem_of_dom. by rewrite Hsp. }
  intros r k' (t & Hwf' & Hrn & Hrp & Hcase). fold n in Hrp, Hcase. cbn [spec_op]. rewrite Hsp.
  destruct Hcase as [(En & -> & -> & ->)|[(En & -> & ->)|(En & -> & ->)]].
  - rewrite En. done.
  - rewrite En in *. cbn [Z.eqb Pos.eqb]. split; [done|].
    assert (Hin : p ∈ dom s) by (apply elem_of_dom; by rewrite Hsp).
    destruct (Hown p Hin) as [Hpo Hpn]. cbn in Hrp.
    assert (Hf' : free_pages (kfree_st (P2V p) k) (P2V p :: l)) by (by apply kfree_cons).
    split; try done.
    + by rewrite lookup_delete_ne.
    + intros q Hq. destruct (decide (q = p)) as [->|Hne].
      * rewrite lookup_delete_eq. cbn. by rewrite Hrp.
      * rewrite lookup_delete_ne by done. cbn. by rewrite Hrn, Hs.
    + destruct Hf'. split; done.
    + intros q. rewrite dom_delete_L, elem_of_difference, elem_of_singleton. intros [Hq Hne].
      destruct (Hown q Hq) as [? ?]. split; [done|]. apply not_elem_of_cons. split; [|done].
      intros E. by apply Hne, Hinj.
    + intros a b. rewrite dom_delete_L, !elem_of_difference. intros [Ha _] [Hb _]. by apply Hinj.
  - assert (n <> 0 /\ n <> 1) as [Hn0 Hn1] by lia.
    rewrite (proj2 (Z.eqb_neq _ _) Hn0), (proj2 (Z.eqb_neq _ _) Hn1).
    split; [done|]. cbn [app].
    assert (Hdom : dom (<[p := n - 1]> s) = dom s).
    { rewrite dom_insert_L. assert (p ∈ dom s); [|set_solver].
      apply elem_of_dom. rewrite Hsp, (proj2 (Z.eqb_neq _ _) Hn0). done. }
    split.
    + done.
    + by rewrite lookup_insert_ne.
    + apply (refs_update s (shared_memory k)); [done|lia|done|cbn; lia|done].
    + destruct Hf. split; done.
    + intros q Hq. rewrite Hdom in Hq. by apply Hown.
    + intros a b. rewrite Hdom. apply Hinj.
    + done.
Qed.

(** ** Sequences of operations *)
Fixpoint run_ops (ops : list shm_op) : M kernel (list Z) :=
  match ops with
  | [] => ret []
  | o :: ops => r <- run_op o ;; rs <- run_ops ops ;; ret (r :: rs)
  end.

Fixpoint spec_ops (ops : list shm_op) (s : gmap Z Z) (l : list Z) : list bool * gmap Z Z * list Z :=
  match ops with
  | [] => ([], s, l)
  | o :: ops =>
      let '(b, s1, fr) := spec_op o s in
      let '(bs, s2, l2) := spec_ops ops s1 (fr ++ l) in
      (b :: bs, s2, l2)
  end.

Fixpoint ops_ok (ops : list shm_op) (s : gmap Z Z) (l : list Z) : Prop :=
  match ops with
  | [] => True
  | o :: ops =>
      op_ok o s l /\ let '(_, s1, fr) := spec_op o s in ops_ok ops s1 (fr ++ l)
  end.

Lemma op_sim o s l k : shm_sim s l k -> op_ok o s l ->
  runs (run_op o) k (fun r k' => let '(ok, s', fr) := spec_op o s in
    (0 <=? r) = ok /\ shm_sim s' (fr ++ l) k').
Proof. destruct o; [apply add_sim|apply remove_sim]. Qed.

(** C5. sh_mem.c implements its specification: over any sequence of
    [shm_add]s and [shm_remove]s the results, the recorded counts and the free
    list are those of a bounded map from pages to counts in which the last
    removal of a page, and no other operation, frees it. *)
Theorem shm_refines ops s l k : shm_sim s l k -> ops_ok ops s l ->
  runs (run_ops ops) k (fun rs k' => let '(bs, s', l') := spec_ops ops s l in
    map (fun r => 0 <=? r) rs = bs /\ shm_sim s' l' k').
Proof.
  revert s l k. induction ops as [|o ops IH]; intros s l k Hsim Hok; cbn.
  - by apply runs_ret.
  - destruct Hok as [Ho Hok]. apply runs_bind.
    eapply runs_conseq; [by apply (op_sim o s l)|]. cbv beta.
    destruct (spec_op o s) as [[b s1] fr]. intros r k1 [Hr Hsim1].
    apply runs_bind. eapply runs_conseq; [by apply (IH s1 (fr ++ l))|]. cbv beta.
    destruct (spec_ops ops s1 (fr ++ l)) as [[bs s2] l2]. intros rs k2 [Hrs Hsim2].
    apply runs_ret. split; [|done]. cbn. by rewrite Hr, Hrs.
Qed.
End spec.

(** ** A concrete run: two processes share a page, and the second one frees it *)
Section shm_example.
#[local] Existing Instance example_layout.

Definition shm_kernel : kernel :=
  set_shared_memory (replicate 64 (mkshm 0 0)) (pool 0x80400000 4 boot_kernel).

Lemma shm_refines_witness :
  runs (run_ops [Add 0x800000; Add 0x800000; Remove 0x800000; Remove 0x800000; Remove 0x800000])
    shm_kernel (fun rs k' => map (fun r => 0 <=? r) rs = [true; true; true; true; false] /\
      shm_sim ∅ (0x80800000 :: pages_from 0x80400000 4) k').
Proof.
  assert (Hok : page_ok 0x80800000).
  { unfold page_ok, PGSIZE, KERNBASE, PHYSTOP.
    split; [reflexivity|]. split; [|lia]. change end_ with 0x80115400. lia. }
  assert (Hn : 0x80800000 ∉ pages_from 0x80400000 4)
    by (intros (i & Hi & E)%elem_of_pages_from; lia).
  eapply runs_conseq.
  - apply (shm_refines _ ∅ (pages_from 0x80400000 4)).
    + split.
      * split; [reflexivity| |].
        -- intros i e Hi. apply lookup_replicate in Hi as [-> _]. by left.
        -- intros i j e e' Hi. apply lookup_replicate in Hi as [-> _]. done.
      * reflexivity.
      * intros p Hp. rewrite lookup_empty. rewrite refs_none; [done|].
        intros i e Hi. apply lookup_replicate in Hi as [-> _]. cbn. congruence.
      * assert (Hf : free_pages (pool 0x80400000 4 boot_kernel) (pages_from 0x80400000 4)).
        { apply pool_free; [apply boot_bytes|]. apply pages_from_ok;
            [reflexivity|change end_ with 0x80115400; lia|unfold KERNBASE, PHYSTOP; lia]. }
        destruct Hf. split; assumption.
      * intros p Hp. by apply elem_of_dom in Hp as [? ?].
      * intros p q Hp. by apply elem_of_dom in Hp as [? ?].
      * split; apply not_elem_of_nil.
    + cbn [ops_ok].
      change (spec_op (Add 0x800000) ∅) with (true, {[0x800000 := 1]} : gmap Z Z, @nil Z). cbv beta iota.
      change (spec_op (Add 0x800000) {[0x800000 := 1]}) with (true, {[0x800000 := 2]} : gmap Z Z, @nil Z).
      cbv beta iota.
      change (spec_op (Remove 0x800000) {[0x800000 := 2]}) with (true, {[0x800000 := 1]} : gmap Z Z, @nil Z).
      cbv beta iota.
      change (spec_op (Remove 0x800000) {[0x800000 := 1]}) with (true, ∅ : gmap Z Z, [0x80800000]).
      cbv beta iota.
      change (spec_op (Remove 0x800000) ∅) with (false, ∅ : gmap Z Z, @nil Z).
      split; [|split; [|done]]; (split; [done|split; [exact Hok|split; [exact Hn|split]]]).
      * intros q Hq. by apply elem_of_dom in Hq as [? ?].
      * intros n. by rewrite lookup_empty.
      * intros q Hq _. rewrite dom_singleton_L in Hq. by apply elem_of_singleton in Hq.
      * intros n. rewrite lookup_singleton_eq. intros E. injection E as <-. lia.
  - intros rs k'. exact (fun h => h).
Defined.
End shm_example.
