(* ===== verification/Syscall.v ===== *)
(** * syscall.c: fetching system-call arguments from user memory

    The kernel reads user memory through the current page table, so a read
    is a two-level walk from %cr3; touching a page that is not present
    faults. *)
From stdpp Require Import base numbers list sets strings.
From Stdlib Require Import ZArith Lia.
From S2P Require Import Prelude Mmu Kernel.
#[local] Open Scope Z_scope.

(** [myproc()], and the fields of the process it points to. *)
Definition myproc : M kernel proc :=
  fun k => match cpu_proc k with
           | None => Fault "myproc() is null" k
           | Some i => match ptable k !! i with
                       | Some p => Ret p k
                       | None => Fault "ptable index" k
                       end
           end.

(** The processor's address translation. *)
Definition translate (m : mem) (cr3 va : Z) : option Z :=
  let pde := rd32 m (P2V cr3 + 4 * PDX va) in
  if has pde PTE_P then
    let pte := rd32 m (P2V (PTE_ADDR pde) + 4 * PTX va) in
    if has pte PTE_P then Some (P2V (PTE_ADDR pte) + va `mod` PGSIZE) else None
  else None.

(** [*(uchar* )va] and [*(int* )va] on the current address space. *)
Definition uload8 (va : Z) : M kernel Z :=
  fun k => match translate (memory k) (cr3 k) va with
           | Some a => Ret (memory k a) k
           | None => Fault "page fault" k
           end.
Definition uload32 (va : Z) : M kernel Z :=
  b0 <- uload8 va ;;
  b1 <- uload8 (u32 (va + 1)) ;;
  b2 <- uload8 (u32 (va + 2)) ;;
  b3 <- uload8 (u32 (va + 3)) ;;
  ret (le_combine [b0; b1; b2; b3]).

(** The C functions return -1 or 0 and store through a pointer; here [None]
    is -1 and [Some v] is 0 with the stored value. *)
Definition fetchint (addr : Z) : M kernel (option Z) :=
  curproc <- myproc ;;
  if (sz curproc <=? addr) || (sz curproc <? u32 (addr + 4)) then ret None
  else v <- uload32 addr ;; ret (Some v).

(** Returns the address and the length of the string. *)
Definition fetchstr (addr : Z) : M kernel (option (Z * Z)) :=
  curproc <- myproc ;;
  if sz curproc <=? addr then ret None
  else
    let ep := sz curproc in
    loop (S (Z.to_nat (ep - addr))) (fun s =>
      if s <? ep then
        c <- uload8 s ;;
        if c =? 0 then ret (inr (Some (addr, s - addr)))
        else ret (inl (u32 (s + 1)))
      else ret (inr None)) addr.

(** Offset of [esp] in [struct trapframe] (x86.h). *)
Definition tf_eax : Z := 28.
Definition tf_esp : Z := 68.
Definition sizeof_trapframe : Z := 76.

Definition argint (n : Z) : M kernel (option Z) :=
  p <- myproc ;;
  esp <- load32 (tf p + tf_esp) ;;
  fetchint (u32 (esp + 4 + 4 * n)).

Definition argptr (n size : Z) : M kernel (option Z) :=
  curproc <- myproc ;;
  i <- argint n ;;
  match i with
  | None => ret None
  | Some i =>
      if (size <? 0) || (sz curproc <=? i) || (sz curproc <? u32 (i + size))
      then ret None else ret (Some i)
  end.

Definition argstr (n : Z) : M kernel (option (Z * Z)) :=
  a <- argint n ;;
  match a with
  | None => ret None
  | Some addr => fetchstr addr
  end.
