(* ===== verification/Vm.v ===== *)
(** * vm.c: page tables and the virtual memory of processes *)
From stdpp Require Import base numbers list sets strings.
From Stdlib Require Import ZArith Lia.
From S2P Require Import Prelude Mmu Kernel Kalloc ShMem Syscall.
#[local] Open Scope Z_scope.

Section vm.
Context `{KernelLayout}.

(** [pgdir[i]]. *)
Definition pde_addr (pgdir i : Z) : Z := pgdir + 4 * i.

Definition walkpgdir (pgdir va : Z) (alloc : bool) : M kernel Z :=
  let pde := pde_addr pgdir (PDX va) in
  e <- load32 pde ;;
  if has e PTE_P then ret (P2V (PTE_ADDR e) + 4 * PTX va)
  else if negb alloc then ret 0
  else
    pgtab <- kalloc ;;
    if pgtab =? 0 then ret 0
    else
      memset pgtab 0 PGSIZE ;;;
      store32 pde (Z.lor (Z.lor (Z.lor (V2P pgtab) PTE_P) PTE_W) PTE_U) ;;;
      ret (pgtab + 4 * PTX va).

Definition mappages (pgdir va size pa perm : Z) : M kernel Z :=
  let a := PGROUNDDOWN va in
  let last := PGROUNDDOWN (u32 (va + size - 1)) in
  loop (S (Z.to_nat (u32 (last - a) / PGSIZE))) (fun '(a, pa) =>
    pte <- walkpgdir pgdir a true ;;
    if pte =? 0 then ret (inr (-1))
    else
      v <- load32 pte ;;
      if has v PTE_P then panic "remap"
      else
        store32 pte (Z.lor (Z.lor pa perm) PTE_P) ;;;
        if a =? last then ret (inr 0)
        else ret (inl (u32 (a + PGSIZE), u32 (pa + PGSIZE)))) (a, pa).

Record kmap_entry := mkkmap { virt : Z; phys_start : Z; phys_end : Z; perm : Z }.

Definition kmap : list kmap_entry :=
  [ mkkmap KERNBASE 0 EXTMEM PTE_W;
    mkkmap KERNLINK (V2P KERNLINK) (V2P data) 0;
    mkkmap data (V2P data) PHYSTOP PTE_W;
    mkkmap DEVSPACE DEVSPACE 0 PTE_W ].

Definition deallocuvm_iter (pgdir oldsz newsz a : Z) : M kernel (Z + Z) :=
  if a <? oldsz then
    pte <- walkpgdir pgdir a false ;;
    p <- myproc ;;
    if negb (shm_idx p =? -1) && (a =? shm_va p) then
      (if pte =? 0 then fault "null pte" else ret tt) ;;;
      v <- load32 pte ;;
      _ <- shm_remove (PTE_ADDR v) ;;
      ret (inl (u32 (a + PGSIZE)))
    else if pte =? 0 then
      ret (inl (u32 (u32 (PGADDR (PDX a + 1) 0 0 - PGSIZE) + PGSIZE)))
    else
      v <- load32 pte ;;
      (if has v PTE_P then
         let pa := PTE_ADDR v in
         if pa =? 0 then panic "kfree"
         else kfree (P2V pa) ;;; store32 pte 0
       else ret tt) ;;;
      ret (inl (u32 (a + PGSIZE)))
  else ret (inr newsz).

Definition deallocuvm (pgdir oldsz newsz : Z) : M kernel Z :=
  if oldsz <=? newsz then ret oldsz
  else loop (Z.to_nat (oldsz / PGSIZE + 2)) (deallocuvm_iter pgdir oldsz newsz) (PGROUNDUP newsz).

Definition freevm (pgdir : Z) : M kernel unit :=
  if pgdir =? 0 then panic "freevm: no pgdir"
  else
    _ <- deallocuvm pgdir KERNBASE 0 ;;
    for_all (seqZ 0 NPDENTRIES) (fun i =>
      e <- load32 (pde_addr pgdir i) ;;
      when (has e PTE_P) (kfree (P2V (PTE_ADDR e)))) ;;;
    kfree pgdir.

Definition setupkvm : M kernel Z :=
  pgdir <- kalloc ;;
  if pgdir =? 0 then ret 0
  else
    memset pgdir 0 PGSIZE ;;;
    (if DEVSPACE <? P2V PHYSTOP then panic "PHYSTOP too high" else ret tt) ;;;
    r <- for_each kmap (fun k =>
      r <- mappages pgdir (virt k) (u32 (phys_end k - phys_start k)) (phys_start k) (perm k) ;;
      if r <? 0 then freevm pgdir ;;; ret (Some 0) else ret None) ;;
    match r with
    | Some v => ret v
    | None => ret pgdir
    end.

Definition switchkvm : M kernel unit := modify (fun k => set_cr3 (V2P (kpgdir k)) k).

Definition kvmalloc : M kernel unit :=
  d <- setupkvm ;;
  modify (set_kpgdir d) ;;;
  switchkvm.

(** The task-state segment that [switchuvm] also loads is processor state
    that no modelled code reads back. *)
Definition switchuvm (p : option proc) : M kernel unit :=
  match p with
  | None => panic "switchuvm: no process"
  | Some p =>
      if kstack p =? 0 then panic "switchuvm: no kstack"
      else if pgdir p =? 0 then panic "switchuvm: no pgdir"
      else modify (set_cr3 (V2P (pgdir p)))
  end.

Definition inituvm (pgdir init sz : Z) : M kernel unit :=
  if PGSIZE <=? sz then panic "inituvm: more than a page"
  else
    mem <- kalloc ;;
    (if mem =? 0 then fault "null page" else ret tt) ;;;
    memset mem 0 PGSIZE ;;;
    _ <- mappages pgdir 0 PGSIZE (V2P mem) (Z.lor PTE_W PTE_U) ;;
    memmove mem init sz.

Definition allocuvm_iter (pgdir oldsz newsz a : Z) : M kernel (Z + Z) :=
  if a <? newsz then
    mem <- kalloc ;;
    if mem =? 0 then
      _ <- deallocuvm pgdir newsz oldsz ;;
      ret (inr 0)
    else
      memset mem 0 PGSIZE ;;;
      r <- mappages pgdir a PGSIZE (V2P mem) (Z.lor PTE_W PTE_U) ;;
      if r <? 0 then
        _ <- deallocuvm pgdir newsz oldsz ;;
        kfree mem ;;;
        ret (inr 0)
      else ret (inl (u32 (a + PGSIZE)))
  else ret (inr newsz).

Definition allocuvm (pgdir oldsz newsz : Z) : M kernel Z :=
  if KERNBASE <=? newsz then ret 0
  else if newsz <? oldsz then ret oldsz
  else loop (Z.to_nat (newsz / PGSIZE + 2)) (allocuvm_iter pgdir oldsz newsz) (PGROUNDUP oldsz).

Definition allocuvm_lazy (pgdir oldsz newsz : Z) : M kernel Z :=
  if KERNBASE <=? newsz then ret 0
  else if newsz <? oldsz then ret oldsz
  else
    loop (Z.to_nat (newsz / PGSIZE + 2)) (fun a =>
      if a <? newsz then
        e <- load32 (pde_addr pgdir (PDX a)) ;;
        (if negb (has e PTE_P) then
           mem <- kalloc ;;
           if mem =? 0 then panic "allocuvm_lazy"
           else
             memset mem 0 PGSIZE ;;;
             store32 (pde_addr pgdir (PDX a))
                     (Z.lor (Z.lor (Z.lor (V2P mem) PTE_P) PTE_W) PTE_U)
         else ret tt) ;;;
        e <- load32 (pde_addr pgdir (PDX a)) ;;
        let pgtable := P2V (PTE_ADDR e) in
        store32 (pgtable + 4 * PTX a) 0 ;;;
        store32 (pgtable + 4 * PTX a) (Z.lor (Z.lor PTE_W PTE_U) PTE_LAZY) ;;;
        ret (inl (u32 (a + PGSIZE)))
      else ret (inr newsz)) (PGROUNDUP oldsz).

Definition clearpteu (pgdir uva : Z) : M kernel unit :=
  pte <- walkpgdir pgdir uva false ;;
  if pte =? 0 then panic "clearpteu"
  else
    v <- load32 pte ;;
    store32 pte (Z.land v (u32 (Z.lnot PTE_U))).

(** [memmove(dst, (void* )uva, PGSIZE)] for a page-aligned user address. *)
Definition memmove_from_user (dst uva n : Z) : M kernel unit :=
  fun k => match translate (memory k) (cr3 k) uva with
           | Some a => memmove dst a n k
           | None => Fault "page fault" k
           end.

(** One present page-table of the parent, for [copyuvm]. *)
Definition copy_pte (i pgtable new_pgtable j : Z) : M kernel (option unit) :=
  pte <- load32 (pgtable + 4 * j) ;;
  let flags := Z.land pte 0xfff in
  let uva := PGADDR i j 0 in
  p <- myproc ;;
  if Z.land flags (Z.lor PTE_P PTE_LAZY) =? 0 then ret None
  else if has flags PTE_LAZY then
    store32 (new_pgtable + 4 * j) flags ;;; ret None
  else if negb (shm_idx p =? -1) && (uva =? shm_va p) then
    store32 (new_pgtable + 4 * j) pte ;;;
    v <- load32 (pgtable + 4 * j) ;;
    _ <- shm_add (PTE_ADDR v) ;;
    ret None
  else
    mem <- kalloc ;;
    if mem =? 0 then ret (Some tt)
    else
      memmove_from_user mem (u32 (i * PGSIZE * NPTENTRIES + j * PGSIZE)) PGSIZE ;;;
      store32 (new_pgtable + 4 * j) (Z.lor (V2P mem) flags) ;;;
      ret None.

Definition copyuvm (pgdir sz : Z) : M kernel Z :=
  new_pgdir <- setupkvm ;;
  if new_pgdir =? 0 then ret 0
  else
    r <- for_each (seqZ 0 (KERNBASE / (PGSIZE * NPTENTRIES))) (fun i =>
      e <- load32 (pde_addr pgdir i) ;;
      if negb (has e PTE_P) then ret None
      else
        let pgtable := P2V (PTE_ADDR e) in
        new_pgtable <- kalloc ;;
        if new_pgtable =? 0 then ret (Some tt)
        else
          memmove new_pgtable pgtable PGSIZE ;;;
          r <- for_each (seqZ 0 NPTENTRIES) (copy_pte i pgtable new_pgtable) ;;
          match r with
          | Some v => ret (Some v)
          | None =>
              store32 (pde_addr new_pgdir i)
                      (Z.lor (Z.lor (Z.lor (V2P new_pgtable) PTE_P) PTE_W) PTE_U) ;;;
              ret None
          end) ;;
    match r with
    | Some _ => freevm new_pgdir ;;; ret 0
    | None => ret new_pgdir
    end.

Definition uva2ka (pgdir uva : Z) : M kernel Z :=
  pte <- walkpgdir pgdir uva false ;;
  (if pte =? 0 then fault "null pte" else ret tt) ;;;
  v <- load32 pte ;;
  if negb (has v PTE_P) then ret 0
  else if negb (has v PTE_U) then ret 0
  else ret (P2V (PTE_ADDR v)).

(** [buf] is the bytes still to be copied, [len] of them. *)
Definition copyout_iter (pgdir : Z) (st : Z * list Z) : M kernel (Z * list Z + Z) :=
  let '(va, buf) := st in
  let len := Z.of_nat (length buf) in
  if 0 <? len then
    let va0 := PGROUNDDOWN va in
    pa0 <- uva2ka pgdir va0 ;;
    if pa0 =? 0 then ret (inr (-1))
    else
      let n := PGSIZE - (va - va0) in
      let n := if len <? n then len else n in
      modify (fun k => set_memory
        (wr_bytes (memory k) (pa0 + (va - va0)) (take (Z.to_nat n) buf)) k) ;;;
      ret (inl (u32 (va0 + PGSIZE), drop (Z.to_nat n) buf))
  else ret (inr 0).

Definition copyout (pgdir va : Z) (p : list Z) : M kernel Z :=
  loop (S (length p)) (copyout_iter pgdir) (va, p).

(** ** The system calls of vm.c *)

(** The three counting system calls differ only in what they test. *)
Definition count_ptes (pgdir flags : Z) : M kernel Z :=
  k <- get ;;
  let m := memory k in
  ret (foldr Z.add 0 ((fun i =>
    let e := rd32 m (pde_addr pgdir i) in
    if has e PTE_P then
      foldr Z.add 0 ((fun j =>
        if Z.land (rd32 m (P2V (PTE_ADDR e) + 4 * j)) flags =? 0 then 0 else 1)
        <$> seqZ 0 NPTENTRIES)
    else 0) <$> seqZ 0 (NPDENTRIES / 2))).

Definition sys_numvp : M kernel Z :=
  p <- myproc ;;
  cnt <- count_ptes (pgdir p) (Z.lor PTE_P PTE_LAZY) ;;
  ret (cnt + 1).

Definition sys_numpp : M kernel Z :=
  p <- myproc ;;
  cnt <- count_ptes (pgdir p) PTE_P ;;
  ret (cnt + 1).

Definition sys_getptsize : M kernel Z :=
  p <- myproc ;;
  k <- get ;;
  ret (foldr Z.add 0 ((fun i =>
         if has (rd32 (memory k) (pde_addr (pgdir p) i)) PTE_P then 1 else 0)
         <$> seqZ 0 NPDENTRIES) + 1).

Definition mmap_iter (d last p : Z) : M kernel (Z + Z) :=
  if p <? last then
    pte <- walkpgdir d p true ;;
    (if pte =? 0 then fault "null pte" else ret tt) ;;;
    v <- load32 pte ;;
    if has v PTE_P then ret (inr (-1))
    else
      store32 pte (Z.lor 0 PTE_LAZY) ;;;
      ret (inl (u32 (p + PGSIZE)))
  else ret (inr 0).

Definition sys_mmap : M kernel Z :=
  a0 <- argint 0 ;;
  match a0 with
  | None => ret (-1)
  | Some start =>
      a1 <- argint 1 ;;
      match a1 with
      | None => ret (-1)
      | Some n =>
          curr_proc <- myproc ;;
          if s32 n <? 0 then ret (-1)
          else if negb (Z.land start 0xfff =? 0) then ret (-1)
          else if KERNBASE <? u32 (start + PGROUNDUP n) then ret (-1)
          else
            r <- loop (Z.to_nat (u32 (start + PGROUNDUP n) / PGSIZE + 1))
                   (mmap_iter (pgdir curr_proc) (u32 (start + PGROUNDUP n))) start ;;
            if r <? 0 then ret r
            else
              switchuvm (Some curr_proc) ;;;
              ret 0
      end
  end.

(** [sys_munmap] has no return statement on its success path: the value is
    whatever %eax holds, so it is a parameter here. *)
Definition sys_munmap (eax : Z) : M kernel Z :=
  a0 <- argint 0 ;;
  match a0 with
  | None => ret (-1)
  | Some start =>
      a1 <- argint 1 ;;
      match a1 with
      | None => ret (-1)
      | Some n =>
          if s32 n <? 0 then ret (-1)
          else if negb (Z.land start 0xfff =? 0) then ret (-1)
          else if KERNBASE <? u32 (start + PGROUNDUP n) then ret (-1)
          else
            curr_proc <- myproc ;;
            r <- loop (Z.to_nat (u32 (start + PGROUNDUP n) / PGSIZE + 1)) (fun addr =>
              if addr <? u32 (start + PGROUNDUP n) then
                pte <- walkpgdir (pgdir curr_proc) addr false ;;
                if pte =? 0 then ret (inr (-1))
                else
                  v <- load32 pte ;;
                  when (has v PTE_P) (kfree (P2V (PTE_ADDR v))) ;;;
                  store32 pte 0 ;;;
                  ret (inl (u32 (addr + PGSIZE)))
              else ret (inr 0)) start ;;
            if r <? 0 then ret r
            else
              switchuvm (Some curr_proc) ;;;
              ret eax
      end
  end.

(** The result of [argint] is ignored, so a failing fetch leaves [va]
    uninitialised: it is a parameter here. *)
Definition sys_va_to_pa (garbage : Z) : M kernel Z :=
  a0 <- argint 0 ;;
  let va := match a0 with Some va => va | None => garbage end in
  p <- myproc ;;
  pte <- walkpgdir (pgdir p) va false ;;
  if pte =? 0 then ret 0
  else
    v <- load32 pte ;;
    ret (u32 (PTE_ADDR v + Z.land va 0xfff)).

End vm.
