(* ===== verification/PageTable.v ===== *)
(** * The two-level page table as a map from virtual page numbers to entries

    [pte m d n] is the entry that the page table rooted at [d] holds for the
    virtual page [n] (0 when there is no page-table page for it).  The lemmas
    say how the stores of vm.c change this map, under the ownership invariant
    [pt_wf]: the pages of a page table are distinct and not free. *)
From stdpp Require Import base numbers list sets strings.
From Stdlib Require Import ZArith Lia.
From S2P Require Import Prelude Mmu Kernel Kalloc Vm.
#[local] Open Scope Z_scope.

Section pagetable.
Context `{KernelLayout}.

Definition pde (m : mem) (d i : Z) : Z := rd32 m (d + 4 * i).
Definition present (m : mem) (d i : Z) : bool := has (pde m d i) PTE_P.
Definition tab (m : mem) (d i : Z) : Z := P2V (PTE_ADDR (pde m d i)).
Definition pte (m : mem) (d n : Z) : Z :=
  if present m d (n / 1024) then rd32 m (tab m d (n / 1024) + 4 * (n `mod` 1024)) else 0.

Record pt_wf (m : mem) (d : Z) (l : list Z) : Prop := {
  pw_dir : page_ok d;
  pw_dir_free : d ∉ l;
  pw_tab : forall i, 0 <= i < 1024 -> present m d i = true ->
           page_ok (tab m d i) /\ tab m d i <> d /\ (tab m d i ∉ l);
  pw_inj : forall i j, 0 <= i < 1024 -> 0 <= j < 1024 ->
           present m d i = true -> present m d j = true ->
           tab m d i = tab m d j -> i = j;
}.

(** The number of page-table pages under the directory. *)
Definition npdes (m : mem) (d : Z) : Z :=
  Z.of_nat (length (filter (fun i => present m d i = true) (seqZ 0 1024))).

(** Only memory and the free list differ. *)
Definition vm_only (k k' : kernel) : Prop :=
  k' = set_freelist (freelist k') (set_memory (memory k') k).

(** ** Reading the same page table in two memories *)
Definition pt_same (m m' : mem) (d : Z) : Prop :=
  same_page m m' d /\
  forall i, 0 <= i < 1024 -> present m d i = true -> same_page m m' (tab m d i).

Lemma pde_ext m m' d i : same_page m m' d -> 0 <= i < 1024 -> pde m' d i = pde m d i.
Proof. intros Hs Hi. apply rd32_ext. intros x Hx. apply Hs. lia. Qed.

Lemma vpn_split n : 0 <= n < 1048576 -> 0 <= n / 1024 < 1024 /\ 0 <= n `mod` 1024 < 1024.
Proof.
  intros. pose proof (Z.mod_pos_bound n 1024). pose proof (Z.div_mod n 1024).
  split; [split; [apply Z.div_pos; lia|apply Z.div_lt_upper_bound; lia]|lia].
Qed.

Lemma pt_same_view m m' d : pt_same m m' d -> 
  (forall i, 0 <= i < 1024 -> pde m' d i = pde m d i) /\
  (forall n, 0 <= n < 1048576 -> pte m' d n = pte m d n).
Proof.
  intros [Hd Ht]. assert (Hp : forall i, 0 <= i < 1024 -> pde m' d i = pde m d i)
    by (intros; by apply pde_ext).
  split; [done|]. intros n Hn. destruct (vpn_split n Hn) as [Hi Hj].
  unfold pte, present, tab. rewrite Hp by done.
  destruct (has _ _) eqn:E; [|done]. apply rd32_ext.
  intros x Hx. apply (Ht (n / 1024)); [done|done|]. unfold tab. lia.
Qed.

Lemma page_word_out p q x : page_ok p -> page_ok q -> p <> q -> q <= x < q + 4096 ->
  x < p \/ p + 4096 <= x.
Proof.
  intros Hp Hq Hne Hx. destruct (pages_disjoint p q); [apply Hp|apply Hq|done|lia|lia].
Qed.

Lemma same_page_wr32 m p q a v : page_ok p -> page_ok q -> p <> q ->
  p <= a -> a + 4 <= p + 4096 -> same_page m (wr32 m a v) q.
Proof.
  intros Hp Hq Hne H1 H2 x Hx. pose proof (page_word_out p q x Hp Hq Hne Hx).
  apply wr32_out. lia.
Qed.

Lemma same_page_fill m p q c : page_ok p -> page_ok q -> p <> q ->
  same_page m (fill m p c 4096) q.
Proof.
  intros Hp Hq Hne x Hx. pose proof (page_word_out p q x Hp Hq Hne Hx).
  apply fill_out. lia.
Qed.

Lemma same_page_trans m1 m2 m3 q : same_page m1 m2 q -> same_page m2 m3 q -> same_page m1 m3 q.
Proof. intros H1 H2 x Hx. rewrite H2, H1; done. Qed.

(** ** Storing an entry *)
Lemma pt_wf_same m m' d l : pt_wf m d l ->
  (forall i, 0 <= i < 1024 -> pde m' d i = pde m d i) -> pt_wf m' d l.
Proof.
  intros [H1 H2 H3 H4] E. split; [done|done| |]; unfold present, tab in *.
  - intros i Hi. rewrite E by done. auto.
  - intros i j Hi Hj. rewrite !E by done. auto.
Qed.

Lemma npdes_same m m' d : (forall i, 0 <= i < 1024 -> pde m' d i = pde m d i) ->
  npdes m' d = npdes m d.
Proof.
  intros E. unfold npdes. do 2 f_equal. apply filter_bool_ext.
  intros i Hi%elem_of_seqZ. unfold present. by rewrite E by lia.
Qed.

Lemma pte_store m d l n v : pt_wf m d l -> 0 <= n < 1048576 ->
  present m d (n / 1024) = true ->
  let m' := wr32 m (tab m d (n / 1024) + 4 * (n `mod` 1024)) v in
  (forall i, 0 <= i < 1024 -> pde m' d i = pde m d i) /\
  (forall n', 0 <= n' < 1048576 -> pte m' d n' = if n' =? n then u32 v else pte m d n').
Proof.
  intros Hwf Hn Hp m'. destruct (vpn_split n Hn) as [Hi Hj].
  destruct (pw_tab _ _ _ Hwf _ Hi Hp) as (Hok & Hned & _).
  pose proof (pw_dir _ _ _ Hwf) as Hd.
  assert (Epde : forall i, 0 <= i < 1024 -> pde m' d i = pde m d i).
  { intros i Hi'. apply pde_ext; [|done].
    eapply (same_page_wr32 _ (tab m d (n / 1024))); eauto; lia. }
  split; [done|]. intros n' Hn'. destruct (vpn_split n' Hn') as [Hi' Hj'].
  unfold pte, present, tab. rewrite Epde by done. fold (present m d (n' / 1024)).
  fold (tab m d (n' / 1024)).
  destruct (Z.eqb_spec n' n) as [->|Hne].
  - rewrite Hp. apply rd32_wr32_same.
  - destruct (present m d (n' / 1024)) eqn:Hp'; [|done].
    destruct (decide (n' / 1024 = n / 1024)) as [E|E].
    + rewrite E. apply rd32_wr32_diff.
      pose proof (Z.div_mod n 1024). pose proof (Z.div_mod n' 1024). lia.
    + destruct (pw_tab _ _ _ Hwf _ Hi' Hp') as (Hok' & _).
      apply rd32_ext. intros x Hx.
      apply (same_page_wr32 m (tab m d (n / 1024)) (tab m d (n' / 1024))); auto; try lia.
      intros E'. apply E. symmetry. eapply (pw_inj _ _ _ Hwf); eauto.
Qed.

(** ** Adding a page-table page *)
Definition pde_new (p : Z) : Z := Z.lor (Z.lor (Z.lor (V2P p) PTE_P) PTE_W) PTE_U.

Lemma V2P_page p : page_ok p -> V2P p = p - KERNBASE /\ (V2P p) `mod` 4096 = 0 /\
  0 < V2P p /\ V2P p + 4096 <= PHYSTOP /\ P2V (V2P p) = p.
Proof.
  intros Hp. pose proof (page_ok_range _ Hp) as (H1 & H2 & H3).
  pose proof (page_ok_u32 _ Hp).
  unfold KERNLINK, KERNBASE, PHYSTOP, EXTMEM in *.
  assert (E : V2P p = p - 2147483648) by (unfold V2P, KERNBASE; rewrite u32_small; lia).
  rewrite E. split; [done|]. split; [|split; [lia|split; [lia|]]].
  - rewrite <- Zminus_mod_idemp_r. change (2147483648 mod 4096) with 0. by rewrite Z.sub_0_r.
  - rewrite <- E. by apply P2V_V2P.
Qed.

Lemma lor_page p f : page_ok p -> 0 <= f < 4096 -> Z.lor (V2P p) f = V2P p + f.
Proof. intros Hp Hf. apply lor_aligned_low; [apply V2P_page; done|done]. Qed.

(** What an entry built from a page and flags says. *)
Lemma entry_page p f : page_ok p -> 0 <= f < 4096 ->
  P2V (PTE_ADDR (V2P p + f)) = p /\ u32 (V2P p + f) = V2P p + f /\
  (forall flag, 0 <= flag < 4096 -> has (V2P p + f) flag = has f flag).
Proof.
  intros Hp Hf. destruct (V2P_page p Hp) as (E & Ha & H0 & H1 & Ep).
  unfold PHYSTOP in *. split; [|split].
  - rewrite PTE_ADDR_aligned by lia. done.
  - apply u32_small. lia.
  - intros. by apply has_aligned.
Qed.

Lemma pde_new_spec p : page_ok p ->
  pde_new p = V2P p + 7 /\ has (pde_new p) PTE_P = true /\ P2V (PTE_ADDR (pde_new p)) = p /\
  u32 (pde_new p) = pde_new p.
Proof.
  intros Hp. assert (E : pde_new p = V2P p + 7).
  { unfold pde_new. rewrite <- !Z.lor_assoc. apply (lor_page p 7); [done|lia]. }
  destruct (entry_page p 7 Hp ltac:(lia)) as (H1 & H2 & H3).
  rewrite E. split; [done|]. split; [|done].
  rewrite H3 by (unfold PTE_P; lia). done.
Qed.

(** Entry [j] of the table page at [t]. *)
Definition tent (m : mem) (t j : Z) : Z := rd32 m (t + 4 * j).

(** Linking the page [t] as the table of slot [i0]. *)
Lemma link_table m d l t i0 : pt_wf m d l -> page_ok t -> (t ∉ l) -> t <> d ->
  (forall i, 0 <= i < 1024 -> present m d i = true -> t <> tab m d i) ->
  0 <= i0 < 1024 -> present m d i0 = false ->
  let m' := wr32 m (d + 4 * i0) (pde_new t) in
  (forall i, 0 <= i < 1024 -> pde m' d i = if i =? i0 then pde_new t else pde m d i) /\
  (forall n, 0 <= n < 1048576 -> pte m' d n =
     if n / 1024 =? i0 then tent m t (n `mod` 1024) else pte m d n) /\
  pt_wf m' d l /\ npdes m' d = npdes m d + 1.
Proof.
  intros Hwf Hp Hpl Hdp Htt Hi0 Hab m'. pose proof (pw_dir _ _ _ Hwf) as Hd.
  destruct (pde_new_spec t Hp) as (Ev & Hvp & Hvt & Hvu).
  assert (Hs : forall q, page_ok q -> d <> q -> same_page m m' q)
    by (intros q Hq Hne; apply (same_page_wr32 _ d); done || lia).
  assert (Epde : forall i, 0 <= i < 1024 -> pde m' d i = if i =? i0 then pde_new t else pde m d i).
  { intros i Hi. unfold pde, m'. destruct (Z.eqb_spec i i0) as [->|Hne].
    - rewrite rd32_wr32_same. done.
    - by rewrite rd32_wr32_diff by lia. }
  assert (Hpres : forall i, 0 <= i < 1024 -> present m' d i = if i =? i0 then true else present m d i).
  { intros i Hi. unfold present. rewrite Epde by done. by destruct (i =? i0). }
  assert (Htab : forall i, 0 <= i < 1024 -> tab m' d i = if i =? i0 then t else tab m d i).
  { intros i Hi. unfold tab. rewrite Epde by done. by destruct (i =? i0). }
  split; [done|]. split; [|split].
  - intros n Hn. destruct (vpn_split n Hn) as [Hi Hj]. unfold pte.
    rewrite Hpres, Htab by done. destruct (Z.eqb_spec (n / 1024) i0) as [E|E].
    + apply rd32_ext. intros x Hx. apply (Hs t); [done|congruence|lia].
    + destruct (present m d (n / 1024)) eqn:Hp'; [|done].
      destruct (pw_tab _ _ _ Hwf _ Hi Hp') as (Hok & Hned & _).
      apply rd32_ext. intros x Hx. apply (Hs (tab m d (n / 1024))); [done|congruence|lia].
  - destruct Hwf as [_ Hdl Ht Hinj]. split; [done|done| |].
    + intros i Hi. rewrite Hpres, Htab by done. destruct (Z.eqb_spec i i0) as [->|E]; [done|]. apply Ht, Hi.
    + intros i j Hi Hj. rewrite !Hpres, !Htab by done.
      destruct (Z.eqb_spec i i0) as [->|E], (Z.eqb_spec j i0) as [->|E']; try done.
      * intros _ Hpj E0. by destruct (Htt j Hj Hpj).
      * intros Hpi _ E0. by destruct (Htt i Hi Hpi).
      * intros. by apply Hinj.
  - unfold npdes. rewrite (filter_insert_one (present m d) (present m' d) _ i0); [lia|..].
    + apply NoDup_seqZ.
    + apply elem_of_seqZ. lia.
    + done.
    + rewrite Hpres by done. by rewrite Z.eqb_refl.
    + intros i Hi%elem_of_seqZ Hne. rewrite Hpres by lia. by apply Z.eqb_neq in Hne as ->.
Qed.

Lemma pde_add_table m d l p i0 : pt_wf m d (p :: l) -> page_ok p -> (p ∉ l) -> 0 <= i0 < 1024 ->
  present m d i0 = false ->
  let m' := wr32 (fill m p 0 4096) (d + 4 * i0) (pde_new p) in
  (forall i, 0 <= i < 1024 -> pde m' d i = if i =? i0 then pde_new p else pde m d i) /\
  (forall n, 0 <= n < 1048576 -> pte m' d n = pte m d n) /\
  pt_wf m' d l /\ npdes m' d = npdes m d + 1.
Proof.
  intros Hwf Hp Hpl Hi0 Hab m'. pose proof Hwf as [Hd Hdl Ht Hinj].
  apply not_elem_of_cons in Hdl as [Hdp Hdl].
  assert (Hsame : pt_same m (fill m p 0 4096) d).
  { split; [apply same_page_fill; done || congruence|]. intros i Hi Hpi.
    destruct (Ht i Hi Hpi) as (Hok & _ & Hn). apply not_elem_of_cons in Hn as [Hn _].
    apply same_page_fill; done || congruence. }
  destruct (pt_same_view _ _ _ Hsame) as [Epde Epte].
  assert (Hwf1 : pt_wf (fill m p 0 4096) d l).
  { apply (pt_wf_same m); [|done]. split; [done|done| |done]. intros i Hi Hpi.
    destruct (Ht i Hi Hpi) as (? & ? & Hn). apply not_elem_of_cons in Hn as [_ ?]. done. }
  destruct (link_table (fill m p 0 4096) d l p i0 Hwf1 Hp Hpl) as (A & B & C & D); try done.
  { intros i Hi. unfold present, tab. rewrite Epde by done. intros Hpi.
    destruct (Ht i Hi Hpi) as (_ & _ & Hn). apply not_elem_of_cons in Hn as [Hn _].
    unfold tab in Hn. congruence. }
  { unfold present. by rewrite Epde. }
  split; [intros i Hi; rewrite A by done; by rewrite Epde|]. split; [|split; [done|]].
  - intros n Hn. rewrite B, Epte by done. destruct (vpn_split n Hn) as [_ Hj].
    destruct (Z.eqb_spec (n / 1024) i0) as [E|E]; [|done].
    unfold tent. rewrite rd32_fill_zero by lia. unfold pte. by rewrite E, Hab.
  - unfold m'. by rewrite D, (npdes_same _ _ _ Epde).
Qed.

(** The indices of a virtual address, from its page number. *)
Lemma va_vpn va : 0 <= va < 4294967296 ->
  PDX va = (va / 4096) / 1024 /\ PTX va = (va / 4096) `mod` 1024 /\ 0 <= va / 4096 < 1048576.
Proof.
  intros Hva. rewrite PDX_div, PTX_div.
  assert (Hn : 0 <= va / 4096 < 1048576)
    by (split; [apply Z.div_pos; lia|apply Z.div_lt_upper_bound; lia]).
  split; [|split; [done|done]]. rewrite Z.div_div by lia. apply Z.mod_small.
  split; [apply Z.div_pos; lia|apply Z.div_lt_upper_bound; lia].
Qed.
End pagetable.
