(* ===== verification/VmMap.v ===== *)
(** * walkpgdir, mappages and setupkvm: building page tables *)
From stdpp Require Import base numbers list sets strings.
From Stdlib Require Import ZArith Lia.
From S2P Require Import Prelude Mmu Kernel Kalloc Vm PageTable.
#[local] Open Scope Z_scope.

Section vmmap.
Context `{KernelLayout}.

(** [k'] was reached from [k] by extending the page table at [d] with pages
    from the free list, [l] before and [l'] after. *)
Record pt_ext (d : Z) (k : kernel) (l : list Z) (k' : kernel) (l' : list Z) : Prop := {
  pe_free : free_pages k' l';
  pe_wf : pt_wf (memory k') d l';
  pe_only : vm_only k k';
  pe_used : exists used, l = used ++ l';
  pe_count : npdes (memory k') d + Z.of_nat (length l') =
             npdes (memory k) d + Z.of_nat (length l);
  pe_keep : forall i, 0 <= i < 1024 -> present (memory k) d i = true ->
            present (memory k') d i = true /\ tab (memory k') d i = tab (memory k) d i;
  pe_new : forall i, 0 <= i < 1024 -> present (memory k') d i = true ->
           present (memory k) d i = true \/ tab (memory k') d i ∈ l;
  pe_frame : forall q, page_ok q -> (q ∉ l) -> q <> d ->
             (forall i, 0 <= i < 1024 -> present (memory k) d i = true -> q <> tab (memory k) d i) ->
             same_page (memory k) (memory k') q;
}.

Lemma vm_only_refl k : vm_only k k.
Proof. by destruct k. Qed.

Lemma vm_only_trans k1 k2 k3 : vm_only k1 k2 -> vm_only k2 k3 -> vm_only k1 k3.
Proof. unfold vm_only. intros E1 E2. rewrite E2, E1. by destruct k1. Qed.

Lemma vm_only_held k k' : vm_only k k' -> held k' = held k.
Proof. intros ->. done. Qed.

Lemma vm_only_fields k k' : vm_only k k' ->
  cpu_proc k' = cpu_proc k /\ ptable k' = ptable k /\ held k' = held k.
Proof. intros ->. done. Qed.

Lemma pt_ext_refl d k l : free_pages k l -> pt_wf (memory k) d l -> pt_ext d k l k l.
Proof.
  intros Hf Hw. split; try done.
  - apply vm_only_refl.
  - by exists [].
  - intros; by left.
Qed.

Lemma pt_ext_trans d k1 l1 k2 l2 k3 l3 : 
  pt_ext d k1 l1 k2 l2 -> pt_ext d k2 l2 k3 l3 -> pt_ext d k1 l1 k3 l3.
Proof.
  intros E1 E2. destruct (pe_used _ _ _ _ _ E1) as [u1 Eu1].
  destruct (pe_used _ _ _ _ _ E2) as [u2 Eu2]. split.
  - apply (pe_free _ _ _ _ _ E2).
  - apply (pe_wf _ _ _ _ _ E2).
  - eapply vm_only_trans; [apply (pe_only _ _ _ _ _ E1)|apply (pe_only _ _ _ _ _ E2)].
  - exists (u1 ++ u2). by rewrite <- app_assoc, <- Eu2.
  - rewrite (pe_count _ _ _ _ _ E2). apply (pe_count _ _ _ _ _ E1).
  - intros i Hi Hp. destruct (pe_keep _ _ _ _ _ E1 i Hi Hp) as [Hp2 Ht2].
    destruct (pe_keep _ _ _ _ _ E2 i Hi Hp2) as [Hp3 Ht3]. split; congruence.
  - intros i Hi Hp. destruct (pe_new _ _ _ _ _ E2 i Hi Hp) as [Hp2|Hin].
    + destruct (pe_new _ _ _ _ _ E1 i Hi Hp2) as [Hp1|Hin]; [by left|right].
      destruct (pe_keep _ _ _ _ _ E2 i Hi Hp2) as [_ ->]. done.
    + right. rewrite Eu1. apply elem_of_app. by right.
  - intros q Hq Hql Hqd Hqt. eapply same_page_trans.
    + by apply (pe_frame _ _ _ _ _ E1).
    + apply (pe_frame _ _ _ _ _ E2); try done.
      * intros Hin. apply Hql. rewrite Eu1. apply elem_of_app. by right.
      * intros i Hi Hp ->. destruct (pe_new _ _ _ _ _ E1 i Hi Hp) as [Hp1|Hin]; [|done].
        destruct (pe_keep _ _ _ _ _ E1 i Hi Hp1) as [_ Et]. by eapply Hqt.
Qed.

(** ** walkpgdir *)
Lemma walk_noalloc d va k :
  walkpgdir d va false k =
    Ret (if present (memory k) d (PDX va)
         then tab (memory k) d (PDX va) + 4 * PTX va else 0) k.
Proof.
  unfold walkpgdir, bind, load32, gets, pde_addr, ret.
  change (rd32 (memory k) (d + 4 * PDX va)) with (pde (memory k) d (PDX va)).
  unfold present, tab. by destruct (has _ _).
Qed.

Lemma kalloc_runs k l (Q : Z -> kernel -> Prop) :
  free_pages k l -> kmem_lock ∉ held k ->
  (l = [] -> Q 0 k) ->
  (forall p l', l = p :: l' -> page_ok p -> (p ∉ l') -> p <> 0 ->
     free_pages (kalloc_st k) l' -> memory (kalloc_st k) = memory k ->
     vm_only k (kalloc_st k) -> Q p (kalloc_st k)) ->
  runs kalloc k Q.
Proof.
  intros Hf Hh H0 H1. eexists _, _. split; [by apply kalloc_eq|].
  destruct l as [|p l'].
  - apply kalloc_nil in Hf as [-> ->]. by apply H0.
  - apply kalloc_cons in Hf as (-> & Hp & Hn & Hf & Hm). apply (H1 _ l'); try done.
    + apply page_ok_range in Hp. unfold KERNLINK, KERNBASE, EXTMEM in *. lia.
    + unfold vm_only, kalloc_st. destruct (freelist k =? 0); by destruct k.
Qed.

Lemma free_pages_mem k l m : free_pages k l -> bytes_ok m ->
  (forall q, q ∈ l -> same_page (memory k) m q) -> free_pages (set_memory m k) l.
Proof.
  intros [Hc Hnd Hok Hb] Hbm Hs. split; cbn; try done.
  by apply (chain_ext (memory k)).
Qed.

Lemma walk_alloc_runs d va k l :
  free_pages k l -> pt_wf (memory k) d l -> kmem_lock ∉ held k ->
  runs (walkpgdir d va true) k (fun r k' => exists l',
    pt_ext d k l k' l' /\
    (forall n, 0 <= n < 1048576 -> pte (memory k') d n = pte (memory k) d n) /\
    (forall i, 0 <= i < 1024 -> i <> PDX va -> present (memory k') d i = present (memory k) d i) /\
    ((r = 0 /\ l' = [] /\ present (memory k') d (PDX va) = false) \/
     (r = tab (memory k') d (PDX va) + 4 * PTX va /\ r <> 0 /\
      present (memory k') d (PDX va) = true))).
Proof.
  intros Hf Hw Hh. pose proof (PDX_range va) as HX. pose proof (PTX_range va) as HT.
  unfold walkpgdir. rsteps. unfold pde_addr.
  change (rd32 (memory k) (d + 4 * PDX va)) with (pde (memory k) d (PDX va)).
  fold (present (memory k) d (PDX va)). destruct (present (memory k) d (PDX va)) eqn:Hp.
  - apply runs_ret. exists l. split; [by apply pt_ext_refl|]. split; [done|]. split; [done|]. right.
    fold (tab (memory k) d (PDX va)). split; [done|]. split; [|done].
    destruct (pw_tab _ _ _ Hw _ HX Hp) as (Hok & _). apply page_ok_range in Hok.
    unfold KERNLINK, KERNBASE, EXTMEM in *. lia.
  - cbn [negb]. apply runs_bind. eapply kalloc_runs; [done|done| |].
    + intros ->. rewrite Z.eqb_refl. apply runs_ret. exists [].
      split; [by apply pt_ext_refl|]. split; [done|]. split; [done|]. by left.
    + intros p l' -> Hpok Hpl Hp0 Hf' Em Hvm. apply Z.eqb_neq in Hp0 as Ep. rewrite Ep. rsteps.
      cbn. rewrite Em. fold (pde_new p). unfold PGSIZE.
      destruct (pde_add_table _ _ _ _ _ Hw Hpok Hpl HX Hp) as (Epde & Epte & Hw' & Hnp).
      set (m' := wr32 (fill (memory k) p 0 4096) (d + 4 * PDX va) (pde_new p)) in *.
      pose proof (pw_dir _ _ _ Hw) as Hd. pose proof (pw_dir_free _ _ _ Hw) as Hdf.
      apply not_elem_of_cons in Hdf as [Hdp Hdl].
      destruct (pde_new_spec p Hpok) as (_ & Hvp & Hvt & _).
      assert (Hpr : forall i, 0 <= i < 1024 -> i <> PDX va ->
                present m' d i = present (memory k) d i /\ tab m' d i = tab (memory k) d i).
      { intros i Hi Hne. unfold present, tab. rewrite Epde by done.
        apply Z.eqb_neq in Hne as ->. done. }
      assert (Hpx : present m' d (PDX va) = true /\ tab m' d (PDX va) = p).
      { unfold present, tab. rewrite Epde, Z.eqb_refl by done. done. }
      assert (Hframe : forall q, page_ok q -> q <> p -> q <> d -> same_page (memory k) m' q).
      { intros q Hq Hqp Hqd. apply (same_page_trans _ (fill (memory k) p 0 4096)).
        - by apply same_page_fill.
        - apply (same_page_wr32 _ d); try done; lia. }
      assert (Hbm : bytes_ok m') by (apply wr32_bytes, fill_bytes, (fp_bytes _ _ Hf)).
      exists l'. split; [|split; [done|split; [intros i Hi Hne; by apply Hpr|right]]].
      * split; cbn.
        -- change (free_pages (set_memory m' (kalloc_st k)) l'). apply free_pages_mem; [done|done|].
           rewrite Em. intros q Hq. apply Hframe.
           ++ eapply Forall_forall; [apply (fp_ok _ _ Hf')|done].
           ++ congruence.
           ++ congruence.
        -- done.
        -- unfold vm_only in *. cbn. rewrite Hvm. by destruct k.
        -- by exists [p].
        -- rewrite Hnp. simpl. lia.
        -- intros i Hi Hpi. destruct (Hpr i Hi) as [E1 E2]; [congruence|]. by rewrite E1, E2.
        -- intros i Hi Hpi. destruct (decide (i = PDX va)) as [->|Hne].
           ++ right. destruct Hpx as [_ ->]. left.
           ++ left. by rewrite <- (proj1 (Hpr i Hi Hne)).
        -- intros q Hq Hql Hqd _. apply not_elem_of_cons in Hql as [? _]. by apply Hframe.
      * destruct Hpx as [E1 E2]. rewrite E1, E2. split; [done|]. split; [|done].
        apply page_ok_range in Hpok. unfold KERNLINK, KERNBASE, EXTMEM in *. lia.
Qed.

(** ** Storing an entry through the pointer that walkpgdir returned *)
Lemma store_pte_ext d va v k l :
  free_pages k l -> pt_wf (memory k) d l -> 0 <= va < 4294967296 ->
  present (memory k) d (PDX va) = true ->
  let k' := set_memory (wr32 (memory k) (tab (memory k) d (PDX va) + 4 * PTX va) v) k in
  pt_ext d k l k' l /\
  (forall i, 0 <= i < 1024 -> pde (memory k') d i = pde (memory k) d i) /\
  (forall n, 0 <= n < 1048576 -> pte (memory k') d n =
     if n =? va / 4096 then u32 v else pte (memory k) d n).
Proof.
  intros Hf Hw Hva Hp k'. destruct (va_vpn va Hva) as (EX & ET & Hn).
  pose proof (PDX_range va) as HX. pose proof (PTX_range va) as HT.
  destruct (pw_tab _ _ _ Hw _ HX Hp) as (Hok & Hned & Hnl).
  destruct (pte_store _ _ _ (va / 4096) v Hw Hn) as [Epde Epte]; [by rewrite <- EX|].
  rewrite <- EX, <- ET in Epde, Epte.
  assert (Hframe : forall q, page_ok q -> q <> tab (memory k) d (PDX va) ->
            same_page (memory k) (memory k') q).
  { intros q Hq Hne. eapply same_page_wr32; [exact Hok|done|congruence|lia|lia]. }
  split; [|split; [exact Epde|exact Epte]].
  split; unfold k'; cbn.
  - apply free_pages_mem; [done|apply wr32_bytes, (fp_bytes _ _ Hf)|].
    intros q Hq. apply Hframe; [|congruence]. eapply Forall_forall; [apply (fp_ok _ _ Hf)|done].
  - by eapply pt_wf_same.
  - by destruct k.
  - by exists [].
  - by rewrite (npdes_same _ _ _ Epde).
  - intros i Hi. unfold present, tab. rewrite Epde by done. done.
  - intros i Hi. unfold present. rewrite Epde by done. by left.
  - intros q Hq Hql Hqd Hqt. apply Hframe; [done|]. by apply Hqt.
Qed.

(** ** mappages

    The entries of [cnt] pages from page [n0] are filled in ascending order;
    the call fails only when the allocator is empty. *)
Definition mapped (m m' : mem) (d n0 c pa perm : Z) : Prop :=
  forall n, 0 <= n < 1048576 -> pte m' d n =
    if (n0 <=? n) && (n <? n0 + c) then pa + 4096 * (n - n0) + Z.lor perm PTE_P
    else pte m d n.

Record mappages_post (d n0 cnt pa perm : Z) (k : kernel) (l : list Z) (r : Z) (k' : kernel)
    (l' : list Z) (c : Z) : Prop := {
  mp_ext : pt_ext d k l k' l';
  mp_map : mapped (memory k) (memory k') d n0 c pa perm;
  mp_range : forall i, 0 <= i < 1024 -> present (memory k') d i = true ->
     present (memory k) d i = true \/ n0 / 1024 <= i <= (n0 + cnt - 1) / 1024;
  mp_result : (r = 0 /\ c = cnt) \/
     (r = -1 /\ 0 <= c < cnt /\ l' = [] /\
      exists i, n0 / 1024 <= i <= (n0 + cnt - 1) / 1024 /\ present (memory k') d i = false);
}.

Lemma aligned_vpn n : 0 <= n < 1048576 ->
  PGROUNDDOWN (4096 * n) = 4096 * n /\ 4096 * n / 4096 = n.
Proof.
  intros. rewrite PGROUNDDOWN_eq by lia. rewrite Z.mul_comm, Z.mod_mul, Z.div_mul by lia. lia.
Qed.

Lemma mappages_runs d va size n0 cnt pa perm k l :
  PGROUNDDOWN va = 4096 * n0 -> PGROUNDDOWN (u32 (va + size - 1)) = 4096 * (n0 + cnt - 1) ->
  0 <= n0 -> 0 < cnt -> n0 + cnt <= 1048576 ->
  0 <= pa -> pa `mod` 4096 = 0 -> pa + 4096 * cnt <= 4294967296 -> 0 <= perm < 4096 ->
  free_pages k l -> pt_wf (memory k) d l -> kmem_lock ∉ held k ->
  (forall n, n0 <= n < n0 + cnt -> has (pte (memory k) d n) PTE_P = false) ->
  runs (mappages d va size pa perm) k (fun r k' => exists l' c,
    mappages_post d n0 cnt pa perm k l r k' l' c).
Proof.
  intros Ea El Hn0 Hcnt Hn1 Hpa Hpal Hpa1 Hperm Hf Hw Hh Hfree.
  assert (Hdm : n0 / 1024 <= (n0 + cnt - 1) / 1024) by (apply Z.div_le_mono; lia).
  assert (Hpm : 0 <= Z.lor perm PTE_P < 4096) by (by apply lor_flags).
  unfold mappages. rewrite Ea, El.
  apply (runs_loop
    (fun '(a, p) k' => exists c l', 0 <= c < cnt /\ a = 4096 * (n0 + c) /\ p = pa + 4096 * c /\
       pt_ext d k l k' l' /\ mapped (memory k) (memory k') d n0 c pa perm /\
       (forall i, 0 <= i < 1024 -> present (memory k') d i = true ->
          present (memory k) d i = true \/ n0 / 1024 <= i <= (n0 + cnt - 1) / 1024))
    (fun '(a, _) => Z.to_nat (n0 + cnt - 1 - a / 4096))).
  2:{ exists 0, l. split; [lia|]. split; [lia|]. split; [lia|].
      split; [by apply pt_ext_refl|]. split; [|by left].
      intros n Hn. destruct (Z.leb_spec n0 n), (Z.ltb_spec n (n0 + 0)); simpl; lia || done. }
  2:{ cbv beta iota. unfold PGSIZE. rewrite u32_small by lia.
      replace (4096 * (n0 + cnt - 1) - 4096 * n0) with ((cnt - 1) * 4096) by lia.
      rewrite Z.div_mul by lia. rewrite (proj2 (aligned_vpn n0 ltac:(lia))). lia. }
  intros [a p] k1 (c & l1 & Hc & -> & -> & Hext & Hmap & Hrng).
  destruct (aligned_vpn (n0 + c)) as [_ Evpn]; [lia|].
  assert (Hva : 0 <= 4096 * (n0 + c) < 4294967296) by lia.
  destruct (va_vpn _ Hva) as (EX & ET & _). rewrite Evpn in EX, ET.
  assert (HXr : n0 / 1024 <= PDX (4096 * (n0 + c)) <= (n0 + cnt - 1) / 1024).
  { rewrite EX. split; apply Z.div_le_mono; lia. }
  apply runs_bind. eapply runs_conseq.
  { apply walk_alloc_runs; [apply Hext|apply Hext|].
    by rewrite (vm_only_held _ _ (pe_only _ _ _ _ _ Hext)). }
  intros r k2 (l2 & Hext2 & Epte2 & Hpr2 & Hr).
  assert (Hext12 := pt_ext_trans _ _ _ _ _ _ _ Hext Hext2).
  assert (Hrng2 : forall i, 0 <= i < 1024 -> present (memory k2) d i = true ->
          present (memory k) d i = true \/ n0 / 1024 <= i <= (n0 + cnt - 1) / 1024).
  { intros i Hi Hp. destruct (decide (i = PDX (4096 * (n0 + c)))) as [->|Hne]; [by right|].
    apply Hrng; [done|]. by rewrite <- Hpr2. }
  assert (Hmap2 : mapped (memory k) (memory k2) d n0 c pa perm).
  { intros n Hn. rewrite Epte2 by done. by apply Hmap. }
  destruct Hr as [(-> & -> & Hab)|(-> & Hr0 & Hpx)].
  - rewrite Z.eqb_refl. apply runs_ret. exists [], c. split; [done..|].
    right. split; [done|]. split; [lia|]. split; [done|]. by eexists.
  - apply Z.eqb_neq in Hr0 as ->. rsteps.
    assert (Eold : rd32 (memory k2) (tab (memory k2) d (PDX (4096 * (n0 + c))) +
                     4 * PTX (4096 * (n0 + c))) = pte (memory k) d (n0 + c)).
    { pose proof (Hmap2 (n0 + c) ltac:(lia)) as E.
      destruct (Z.ltb_spec (n0 + c) (n0 + c)); [lia|]. rewrite andb_false_r in E.
      rewrite <- E. unfold pte. rewrite <- EX, Hpx, ET. done. }
    rewrite Eold, Hfree by lia. rsteps.
    destruct (store_pte_ext d (4096 * (n0 + c)) (Z.lor (Z.lor (pa + 4096 * c) perm) PTE_P) k2 l2)
      as (Hext3 & Epde3 & Epte3); [apply Hext2|apply Hext2|done|done|].
    rewrite Evpn in Epte3.
    assert (Ev : u32 (Z.lor (Z.lor (pa + 4096 * c) perm) PTE_P) = pa + 4096 * c + Z.lor perm PTE_P).
    { rewrite <- Z.lor_assoc, lor_aligned_low; [|by apply aligned_add|done].
      apply u32_small. lia. }
    set (k3 := set_memory _ k2) in *.
    assert (Hext13 := pt_ext_trans _ _ _ _ _ _ _ Hext12 Hext3).
    assert (Hmap3 : mapped (memory k) (memory k3) d n0 (c + 1) pa perm).
    { intros n Hn. rewrite Epte3, Ev, (Hmap2 n Hn) by done.
      destruct (Z.eqb_spec n (n0 + c)), (Z.leb_spec n0 n), (Z.ltb_spec n (n0 + c)),
        (Z.ltb_spec n (n0 + (c + 1))); simpl; try lia; done. }
    assert (Hrng3 : forall i, 0 <= i < 1024 -> present (memory k3) d i = true ->
          present (memory k) d i = true \/ n0 / 1024 <= i <= (n0 + cnt - 1) / 1024).
    { intros i Hi. unfold present. rewrite Epde3 by done. by apply Hrng2. }
    destruct (Z.eqb_spec (4096 * (n0 + c)) (4096 * (n0 + cnt - 1))) as [E|E]; apply runs_ret.
    + exists l2, (c + 1). split; [done..|]. left. split; [done|lia].
    + split.
      * exists (c + 1), l2. unfold PGSIZE. rewrite !u32_small by lia.
        split; [lia|]. split; [lia|]. split; [lia|]. done.
      * unfold PGSIZE. rewrite u32_small by lia. rewrite Evpn.
        replace (4096 * (n0 + c) + 4096) with (4096 * (n0 + c + 1)) by lia.
        rewrite Z.mul_comm, Z.div_mul by lia. lia.
Qed.
End vmmap.
