(* ===== verification/VmUser.v ===== *)
(** * The user half of an address space: who owns which physical page *)
From stdpp Require Import base numbers list sets strings.
From Stdlib Require Import ZArith Lia.
From S2P Require Import Prelude Mmu Kernel Kalloc ShMem Syscall Vm PageTable VmMap.
#[local] Open Scope Z_scope.

Section vmuser.
Context `{KernelLayout}.

(** Virtual pages below KERNBASE. *)
Definition NUPAGES : Z := 524288.

(** The physical page behind virtual page [n], at its kernel address. *)
Definition frame (m : mem) (d n : Z) : Z := P2V (PTE_ADDR (pte m d n)).
Definition umapped (m : mem) (d n : Z) : bool := has (pte m d n) PTE_P.

(** Every user page is backed by a physical page of its own, which is neither
    free nor part of the page table. *)
Record uvm_wf (m : mem) (d : Z) (l : list Z) : Prop := {
  uw_pt : pt_wf m d l;
  uw_frame : forall n, 0 <= n < NUPAGES -> umapped m d n = true ->
     page_ok (frame m d n) /\ (frame m d n ∉ l) /\ frame m d n <> d /\
     forall i, 0 <= i < 1024 -> present m d i = true -> frame m d n <> tab m d i;
  uw_inj : forall n n', 0 <= n < NUPAGES -> 0 <= n' < NUPAGES ->
     umapped m d n = true -> umapped m d n' = true -> frame m d n = frame m d n' -> n = n';
}.

(** The pages behind the mapped virtual pages in [[lo, hi)]. *)
Definition frames (m : mem) (d lo hi : Z) : list Z :=
  frame m d <$> filter (fun n => umapped m d n = true) (seqZ lo (hi - lo)).

(** The page-table pages of the directory slots in [sl]. *)
Definition tabs_of (m : mem) (d : Z) (sl : list Z) : list Z :=
  tab m d <$> filter (fun i => present m d i = true) sl.
Definition tabs (m : mem) (d : Z) : list Z := tabs_of m d (seqZ 0 1024).

(** ** Giving one user page back *)
Lemma umapped_present m d n : umapped m d n = true -> present m d (n / 1024) = true.
Proof. unfold umapped, pte. by destruct (present m d (n / 1024)). Qed.

Definition unmap_st (d n : Z) (k : kernel) : kernel :=
  let k1 := kfree_st (frame (memory k) d n) k in
  set_memory (wr32 (memory k1) (tab (memory k) d (n / 1024) + 4 * (n `mod` 1024)) 0) k1.

Lemma unmap_spec d n k l :
  free_pages k l -> uvm_wf (memory k) d l -> 0 <= n < NUPAGES ->
  umapped (memory k) d n = true ->
  let k' := unmap_st d n k in
  free_pages k' (frame (memory k) d n :: l) /\
  uvm_wf (memory k') d (frame (memory k) d n :: l) /\
  (forall i, 0 <= i < 1024 -> pde (memory k') d i = pde (memory k) d i) /\
  (forall n', 0 <= n' < 1048576 -> pte (memory k') d n' = if n' =? n then 0 else pte (memory k) d n') /\
  vm_only k k' /\
  (forall q, page_ok q -> q <> frame (memory k) d n -> q <> tab (memory k) d (n / 1024) ->
     same_page (memory k) (memory k') q).
Proof.
  intros Hf Hu Hn Hm k'. unfold NUPAGES in *.
  pose proof (uw_pt _ _ _ Hu) as Hw. pose proof (umapped_present _ _ _ Hm) as Hp.
  destruct (vpn_split n) as [Hi Hj]; [lia|].
  destruct (uw_frame _ _ _ Hu n) as (Hok & Hnl & Hnd & Hnt); [done|done|].
  destruct (pw_tab _ _ _ Hw _ Hi Hp) as (Htok & Htd & Htl).
  set (fr := frame (memory k) d n) in *. set (k1 := kfree_st fr k).
  assert (Hf1 : free_pages k1 (fr :: l)) by (by apply kfree_cons).
  assert (Hsame : pt_same (memory k) (memory k1) d).
  { split; [apply kfree_frame; [done|apply Hw|done]|].
    intros i Hi' Hp'. apply kfree_frame; [done|by apply (pw_tab _ _ _ Hw)|by apply Hnt]. }
  destruct (pt_same_view _ _ _ Hsame) as [Epde1 Epte1].
  assert (Hw1 : pt_wf (memory k1) d (fr :: l)).
  { apply (pt_wf_same (memory k)); [|done]. destruct Hw as [A B C D]. split; [done| | |done].
    - apply not_elem_of_cons. done.
    - intros i Hi' Hp'. destruct (C i Hi' Hp') as (? & ? & ?). split; [done|]. split; [done|].
      apply not_elem_of_cons. split; [|done]. by apply not_eq_sym, Hnt. }
  assert (Etab1 : tab (memory k1) d (n / 1024) = tab (memory k) d (n / 1024))
    by (unfold tab; by rewrite Epde1).
  destruct (pte_store _ _ _ n 0 Hw1) as [Epde2 Epte2]; [lia|unfold present; by rewrite Epde1|].
  rewrite Etab1 in Epde2, Epte2. change (u32 0) with 0 in Epte2.
  fold fr k1 in k'. set (m' := memory k') in *.
  assert (Epde : forall i, 0 <= i < 1024 -> pde m' d i = pde (memory k) d i).
  { intros i Hi'. unfold m', k'. cbn. rewrite Epde2 by done. by apply Epde1. }
  assert (Epte : forall n', 0 <= n' < 1048576 -> pte m' d n' = if n' =? n then 0 else pte (memory k) d n').
  { intros n' Hn'. unfold m', k'. cbn. rewrite Epte2 by done. destruct (n' =? n); [done|]. by apply Epte1. }
  assert (Hmp : forall n', 0 <= n' < 524288 -> umapped m' d n' = true ->
            n' <> n /\ umapped (memory k) d n' = true /\ frame m' d n' = frame (memory k) d n').
  { intros n' Hn' Hm'. unfold umapped, frame in *. rewrite Epte in Hm' |- * by lia.
    destruct (Z.eqb_spec n' n); [discriminate Hm'|]. done. }
  split; [|split; [|split; [exact Epde|split; [exact Epte|split]]]].
  - apply free_pages_mem; [done|apply wr32_bytes, (fp_bytes _ _ Hf1)|].
    intros q Hq. assert (Hqok : page_ok q)
      by (eapply Forall_forall; [apply (fp_ok _ _ Hf1)|done]).
    eapply same_page_wr32; [exact Htok|done| |lia|lia].
    intros <-. apply elem_of_cons in Hq as [E|Hq]; [by apply (Hnt (n / 1024))|done].
  - split.
    + by apply (pt_wf_same (memory k1)).
    + intros n' Hn' Hm'. destruct (Hmp n' Hn' Hm') as (Hne & Hm0 & ->).
      destruct (uw_frame _ _ _ Hu n' Hn' Hm0) as (A & B & C & D).
      split; [done|]. split; [|split; [done|]].
      * apply not_elem_of_cons. split; [|done]. intros E. apply Hne. by eapply (uw_inj _ _ _ Hu).
      * intros i Hi'. unfold present, tab. rewrite Epde by done. by apply D.
    + intros a b Ha Hb Hma Hmb E. destruct (Hmp a Ha Hma) as (_ & Hma0 & Ea).
      destruct (Hmp b Hb Hmb) as (_ & Hmb0 & Eb). apply (uw_inj _ _ _ Hu); congruence.
  - by destruct k.
  - intros q Hq Hqf Hqt. eapply same_page_trans; [apply (kfree_frame fr); [done|done|congruence]|].
    eapply same_page_wr32; [exact Htok|done|congruence|lia|lia].
Qed.

(** ** Lists of frames *)
Lemma frames_app m d lo mid hi : lo <= mid -> mid <= hi ->
  frames m d lo hi = frames m d lo mid ++ frames m d mid hi.
Proof.
  intros H1 H2. unfold frames. rewrite <- fmap_app, <- filter_app.
  replace (hi - lo) with ((mid - lo) + (hi - mid)) by lia.
  rewrite seqZ_app by lia. by replace (lo + (mid - lo)) with mid by lia.
Qed.

Lemma frames_one m d n :
  frames m d n (n + 1) = if umapped m d n then [frame m d n] else [].
Proof.
  unfold frames. replace (n + 1 - n) with (Z.succ 0) by lia. rewrite seqZ_cons by lia.
  replace (seqZ (Z.succ n) (Z.pred (Z.succ 0))) with (@nil Z) by reflexivity.
  rewrite filter_cons, filter_nil. destruct (umapped m d n); [by rewrite decide_True|].
  by rewrite decide_False.
Qed.

Lemma frames_none m d lo hi : (forall n, lo <= n < hi -> umapped m d n = false) ->
  frames m d lo hi = [].
Proof.
  intros Hn. unfold frames. rewrite filter_none; [done|].
  intros n Hin%elem_of_seqZ. apply Hn. lia.
Qed.

(** ** deallocuvm *)
Definition no_shm_in (k : kernel) (lo hi : Z) : Prop :=
  exists i p, cpu_proc k = Some i /\ ptable k !! i = Some p /\
    (shm_idx p = -1 \/ forall n, lo <= n < hi -> shm_va p <> 4096 * n).

Lemma no_shm_vm_only k k' lo hi : vm_only k k' -> no_shm_in k lo hi -> no_shm_in k' lo hi.
Proof. intros ->. done. Qed.

(** The state after the pages in [[lo, c)] have been given back. *)
Record dealloc_post (d lo c : Z) (k : kernel) (l : list Z) (k' : kernel) : Prop := {
  dp_free : free_pages k' (reverse (frames (memory k) d lo c) ++ l);
  dp_wf : uvm_wf (memory k') d (reverse (frames (memory k) d lo c) ++ l);
  dp_pde : forall i, 0 <= i < 1024 -> pde (memory k') d i = pde (memory k) d i;
  dp_pte : forall n, 0 <= n < 1048576 -> pte (memory k') d n =
     if (lo <=? n) && (n <? c) && umapped (memory k) d n then 0 else pte (memory k) d n;
  dp_only : vm_only k k';
  dp_frame : forall q, page_ok q -> (q ∉ frames (memory k) d lo c) ->
     (forall i, 0 <= i < 1024 -> present (memory k) d i = true -> q <> tab (memory k) d i) ->
     same_page (memory k) (memory k') q;
}.

Lemma dealloc_post_refl d lo k l : free_pages k l -> uvm_wf (memory k) d l ->
  dealloc_post d lo lo k l k.
Proof.
  intros Hf Hu. assert (E : frames (memory k) d lo lo = []) by (apply frames_none; lia).
  split; try rewrite E; try done.
  - intros n Hn. destruct (Z.leb_spec lo n), (Z.ltb_spec n lo); simpl; lia || done.
  - apply vm_only_refl.
Qed.

(** Pages that are not mapped need no work. *)
Lemma dealloc_post_skip d lo c c' k l k' : dealloc_post d lo c k l k' -> lo <= c <= c' ->
  (forall n, c <= n < c' -> umapped (memory k) d n = false) -> dealloc_post d lo c' k l k'.
Proof.
  intros [A B C D E F] Hc Hn.
  assert (Efr : frames (memory k) d lo c' = frames (memory k) d lo c).
  { rewrite (frames_app _ _ lo c c') by lia. rewrite (frames_none _ _ c c') by done. apply app_nil_r. }
  split; try rewrite Efr; try done.
  intros n Hn'. rewrite D by done.
  destruct (Z.leb_spec lo n), (Z.ltb_spec n c), (Z.ltb_spec n c'); simpl; try lia; try done.
  by rewrite Hn by lia.
Qed.

Lemma dealloc_post_step d lo c k l k' : dealloc_post d lo c k l k' -> lo <= c ->
  0 <= c < NUPAGES -> umapped (memory k) d c = true ->
  umapped (memory k') d c = true /\ frame (memory k') d c = frame (memory k) d c /\
  dealloc_post d lo (c + 1) k l (unmap_st d c k').
Proof.
  intros [A B C D E F] Hlc Hc Hm. unfold NUPAGES in *.
  assert (Epc : pte (memory k') d c = pte (memory k) d c).
  { rewrite D by lia. destruct (Z.ltb_spec c c); [lia|]. by rewrite andb_false_r. }
  assert (Em : umapped (memory k') d c = true) by (unfold umapped; by rewrite Epc).
  assert (Ef : frame (memory k') d c = frame (memory k) d c) by (unfold frame; by rewrite Epc).
  split; [done|]. split; [done|].
  destruct (unmap_spec d c k' _ A B Hc Em) as (A' & B' & C' & D' & E' & F').
  rewrite Ef in *.
  assert (Efr : frames (memory k) d lo (c + 1) = frames (memory k) d lo c ++ [frame (memory k) d c]).
  { rewrite (frames_app _ _ lo c (c + 1)) by lia. by rewrite frames_one, Hm. }
  split; try rewrite Efr, reverse_app; try done.
  - intros i Hi. by rewrite C', C.
  - intros n Hn. rewrite D', D by done.
    destruct (Z.eqb_spec n c) as [En|], (Z.leb_spec lo n), (Z.ltb_spec n c), (Z.ltb_spec n (c + 1));
      simpl; try lia; try done. by rewrite En, Hm.
  - by eapply vm_only_trans.
  - intros q Hq Hqf Hqt. rewrite Efr in Hqf. apply not_elem_of_app in Hqf as [Hq1 Hq2].
    apply not_elem_of_cons in Hq2 as [Hq2 _].
    eapply same_page_trans; [by apply F|]. apply F'; [done|done|].
    destruct (vpn_split c) as [Hi _]; [lia|].
    unfold tab. rewrite C by done. apply Hqt; [done|].
    by apply umapped_present.
Qed.

Lemma myproc_eq k i p : cpu_proc k = Some i -> ptable k !! i = Some p -> myproc k = Ret p k.
Proof. intros E1 E2. unfold myproc. by rewrite E1, E2. Qed.

Lemma next_table i : 0 <= i < 512 ->
  u32 (u32 (PGADDR (i + 1) 0 0 - PGSIZE) + PGSIZE) = 4096 * (1024 * (i + 1)).
Proof.
  intros Hd. unfold PGADDR, PGSIZE, PDXSHIFT, PTXSHIFT. rewrite Z.shiftl_0_l, !Z.lor_0_r.
  rewrite Z.shiftl_mul_pow2 by lia. change (2 ^ 22) with 4194304.
  rewrite (u32_small ((i + 1) * 4194304)) by lia.
  rewrite (u32_small (_ - 4096)) by lia. rewrite u32_small by lia. lia.
Qed.

(** What one iteration at page [c] does, when the page is not a shared one. *)
Lemma dealloc_iter_runs d oldsz newsz k l lo c k1 :
  0 <= lo <= c -> c < NUPAGES -> 4096 * c < oldsz ->
  dealloc_post d lo c k l k1 -> kmem_lock ∉ held k -> no_shm_in k c (c + 1) ->
  runs (deallocuvm_iter d oldsz newsz (4096 * c)) k1 (fun r k2 => exists c',
    r = inl (4096 * c') /\ c < c' <= NUPAGES /\ dealloc_post d lo (c + 1) k l k2 /\
    forall n, c < n < c' -> umapped (memory k) d n = false).
Proof.
  intros Hlc Hc Hlt Hpost Hh Hshm.
  assert (Hcu : 0 <= c < NUPAGES) by lia. unfold NUPAGES in Hc.
  destruct (va_vpn (4096 * c)) as (EX & ET & _); [lia|].
  rewrite (proj2 (aligned_vpn c ltac:(lia))) in EX, ET.
  destruct (vpn_split c) as [Hi Hj]; [lia|].
  pose proof Hpost as [A B C D E F].
  assert (Epres : present (memory k1) d (c / 1024) = present (memory k) d (c / 1024))
    by (unfold present; by rewrite C).
  unfold deallocuvm_iter. rewrite (proj2 (Z.ltb_lt _ _) Hlt).
  reqn walk_noalloc. rewrite EX, ET.
  destruct (no_shm_vm_only _ _ _ _ E Hshm) as (pi & p & E1 & E2 & E3).
  reqn myproc_eq; [exact E1|exact E2|].
  assert (negb (shm_idx p =? -1) && (4096 * c =? shm_va p) = false) as ->.
  { destruct E3 as [->|E3]; [done|]. destruct (Z.eqb_spec (4096 * c) (shm_va p)) as [Eq|];
      [|by rewrite andb_false_r]. exfalso. eapply (E3 c); [lia|done]. }
  destruct (present (memory k1) d (c / 1024)) eqn:Hp.
  - destruct (pw_tab _ _ _ (uw_pt _ _ _ B) _ Hi Hp) as (Hok & _).
    apply page_ok_range in Hok. unfold KERNLINK, KERNBASE, EXTMEM in Hok.
    destruct (Z.eqb_spec (tab (memory k1) d (c / 1024) + 4 * (c `mod` 1024)) 0); [lia|].
    assert (Ev : rd32 (memory k1) (tab (memory k1) d (c / 1024) + 4 * (c `mod` 1024)) = pte (memory k1) d c)
      by (unfold pte; by rewrite Hp).
    assert (Enext : u32 (4096 * c + PGSIZE) = 4096 * (c + 1))
      by (unfold PGSIZE; rewrite u32_small; lia).
    rstep. rewrite Ev, Enext. fold (umapped (memory k1) d c).
    destruct (umapped (memory k1) d c) eqn:Hm.
    + destruct (uw_frame _ _ _ B c Hcu Hm) as (Hfr & _).
      assert (Hmk : umapped (memory k) d c = true).
      { unfold umapped in *. rewrite D in Hm by lia.
        destruct (Z.ltb_spec c c); [lia|]. by rewrite andb_false_r in Hm. }
      destruct (dealloc_post_step _ _ _ _ _ _ Hpost (proj2 Hlc) Hcu Hmk) as (_ & _ & Hpost').
      destruct (Z.eqb_spec (PTE_ADDR (pte (memory k1) d c)) 0) as [E0|_].
      { apply page_ok_range in Hfr. unfold frame in Hfr. rewrite E0 in Hfr.
        change (P2V 0) with 2147483648 in Hfr. unfold KERNLINK, KERNBASE, EXTMEM in Hfr. lia. }
      rstep. reqn kfree_eq; [exact Hfr|by rewrite (vm_only_held _ _ E)|].
      rsteps. exists (c + 1). split; [done|]. split; [unfold NUPAGES; lia|]. split; [|lia].
      exact Hpost'.
    + rsteps. exists (c + 1). split; [done|]. split; [unfold NUPAGES; lia|]. split; [|lia].
      apply (dealloc_post_skip _ _ c); [done|lia|].
      intros n' Hn. assert (n' = c) as -> by lia. 
      unfold umapped in *. rewrite D in Hm by lia.
      destruct (Z.ltb_spec c c); [lia|]. by rewrite andb_false_r in Hm.
  - rewrite Z.eqb_refl. apply runs_ret. exists (1024 * (c / 1024 + 1)).
    pose proof (Z.div_mod c 1024). assert (c / 1024 < 512) by (apply Z.div_lt_upper_bound; lia).
    rewrite next_table by lia.
    split; [done|]. split; [unfold NUPAGES; lia|].
    assert (Hun : forall n, c <= n < 1024 * (c / 1024 + 1) -> umapped (memory k) d n = false).
    { intros n Hn. unfold umapped, pte.
      replace (n / 1024) with (c / 1024) by (apply (Z.div_unique n 1024 _ (n - 1024 * (c / 1024))); lia).
      by rewrite <- Epres. }
    split; [|intros; apply Hun; lia].
    apply (dealloc_post_skip _ _ c); [done|lia|]. intros; apply Hun. lia.
Qed.

Lemma deallocuvm_runs d oldsz newsz k l lo hi :
  0 <= newsz < oldsz -> oldsz <= KERNBASE ->
  4096 * lo = PGROUNDUP newsz -> hi = (oldsz + 4095) / 4096 ->
  free_pages k l -> uvm_wf (memory k) d l -> kmem_lock ∉ held k -> no_shm_in k lo hi ->
  runs (deallocuvm d oldsz newsz) k (fun r k' => r = newsz /\ dealloc_post d lo hi k l k').
Proof.
  intros Hs Hk Hlo Hhi Hf Hu Hh Hshm. unfold KERNBASE in *.
  pose proof (PGROUNDUP_spec newsz ltac:(lia) ltac:(lia)) as [HP _].
  assert (Hhib : hi <= 524288 /\ 4096 * (hi - 1) < oldsz <= 4096 * hi) by (subst hi; dlia).
  unfold deallocuvm. destruct (Z.leb_spec oldsz newsz); [lia|]. rewrite <- Hlo.
  apply (runs_loop (fun a k' => exists c, a = 4096 * c /\ lo <= c <= 524288 /\
            dealloc_post d lo (Z.min c hi) k l k')
          (fun a => Z.to_nat (hi - a / 4096))).
  - intros a k1 (c & -> & Hlc & Hpost). destruct (Z_lt_le_dec (4096 * c) oldsz).
    + rewrite Z.min_l in Hpost by lia.
      eapply runs_conseq; [eapply dealloc_iter_runs; try done; unfold NUPAGES; try lia|].
      { destruct Hshm as (i & p & ? & ? & Hsh). exists i, p. split; [done|]. split; [done|].
        destruct Hsh as [|Hsh]; [by left|]. right. intros n Hn. apply Hsh. lia. }
      intros r k2 (c' & -> & Hc' & Hp' & Hn). unfold NUPAGES in Hc'. split.
      * exists c'. split; [done|]. split; [lia|].
        apply (dealloc_post_skip _ _ (c + 1)); [done|lia|]. intros; apply Hn. lia.
      * rewrite !(Z.mul_comm 4096), !Z.div_mul; lia.
    + unfold deallocuvm_iter. destruct (Z.ltb_spec (4096 * c) oldsz); [lia|].
      apply runs_ret. rewrite Z.min_r in Hpost by lia. done.
  - exists lo. split; [done|]. split; [lia|]. rewrite Z.min_l by lia. by apply dealloc_post_refl.
  - rewrite Z.mul_comm, Z.div_mul by lia. subst hi. unfold PGSIZE. dlia.
Qed.

(** ** freevm *)
Lemma tabs_of_snoc m d sl i :
  tabs_of m d (sl ++ [i]) = tabs_of m d sl ++ (if present m d i then [tab m d i] else []).
Proof.
  unfold tabs_of. rewrite filter_app, fmap_app, filter_cons, filter_nil.
  destruct (present m d i); [by rewrite decide_True|by rewrite decide_False].
Qed.

Lemma elem_of_tabs m d sl q :
  q ∈ tabs_of m d sl <-> exists i, i ∈ sl /\ present m d i = true /\ q = tab m d i.
Proof.
  unfold tabs_of. rewrite list_elem_of_fmap. split.
  - intros (i & -> & Hi). apply list_elem_of_filter in Hi as [? ?]. by exists i.
  - intros (i & Hi & Hp & ->). exists i. split; [done|]. by apply list_elem_of_filter.
Qed.

Lemma elem_of_frames m d lo hi q :
  q ∈ frames m d lo hi <-> exists n, lo <= n < hi /\ umapped m d n = true /\ q = frame m d n.
Proof.
  unfold frames. rewrite list_elem_of_fmap. split.
  - intros (n & -> & Hn). apply list_elem_of_filter in Hn as [? Hn%elem_of_seqZ].
    exists n. split; [lia|done].
  - intros (n & Hn & Hp & ->). exists n. split; [done|]. apply list_elem_of_filter.
    split; [done|]. apply elem_of_seqZ. lia.
Qed.

(** The state after the tables of the slots [sl] have been given back. *)
Record freetabs_post (d : Z) (sl : list Z) (k : kernel) (l : list Z) (k' : kernel) : Prop := {
  ft_free : free_pages k' (reverse (tabs_of (memory k) d sl) ++ l);
  ft_only : vm_only k k';
  ft_frame : forall q, page_ok q -> (q ∉ tabs_of (memory k) d sl) ->
     same_page (memory k) (memory k') q;
}.

Lemma freetabs_step d sl i k l k' :
  pt_wf (memory k) d l -> NoDup (sl ++ [i]) -> Forall (fun i => 0 <= i < 1024) (sl ++ [i]) ->
  freetabs_post d sl k l k' ->
  pde (memory k') d i = pde (memory k) d i /\
  freetabs_post d (sl ++ [i]) k l
    (if present (memory k) d i then kfree_st (tab (memory k) d i) k' else k').
Proof.
  intros Hw Hnd Hall [A B C]. apply Forall_app in Hall as [Hall Hi].
  rewrite Forall_singleton in Hi. apply NoDup_app in Hnd as (_ & Hnd & _).
  assert (Hmem : forall q, q ∈ tabs_of (memory k) d sl ->
            q <> d /\ (forall j, 0 <= j < 1024 -> (j ∉ sl) -> present (memory k) d j = true ->
                        q <> tab (memory k) d j)).
  { intros q (j & Hj & Hp & ->)%elem_of_tabs.
    pose proof (proj1 (Forall_forall _ _) Hall j Hj) as Hjr. cbv beta in Hjr.
    destruct (pw_tab _ _ _ Hw j Hjr Hp) as (_ & ? & _). split; [done|].
    intros j' Hj' Hn Hp' E. apply Hn. by rewrite <- (pw_inj _ _ _ Hw j j'). }
  split.
  { apply (pde_ext _ _ _ _ (C d (pw_dir _ _ _ Hw) (fun Hin => proj1 (Hmem _ Hin) eq_refl)) Hi). }
  destruct (present (memory k) d i) eqn:Hp.
  - destruct (pw_tab _ _ _ Hw i Hi Hp) as (Hok & Hd & Hl).
    assert (Hni : i ∉ sl) by (intros Hin; apply (Hnd i Hin); by left).
    split; rewrite ?tabs_of_snoc, ?Hp, ?reverse_app.
    + apply kfree_cons; [done|done|]. rewrite elem_of_app, elem_of_reverse.
      intros [Hin|Hin]; [|done]. by apply (proj2 (Hmem _ Hin) i).
    + eapply vm_only_trans; [done|]. by destruct k'.
    + intros q Hq Hn. apply not_elem_of_app in Hn as [Hn1 Hn2].
      apply not_elem_of_cons in Hn2 as [Hn2 _].
      eapply same_page_trans; [by apply C|]. apply kfree_frame; [done|done|congruence].
  - split; rewrite ?tabs_of_snoc, ?Hp, ?app_nil_r; done.
Qed.

Record freevm_post (d : Z) (k : kernel) (l : list Z) (k' : kernel) : Prop := {
  fv_free : free_pages k' (d :: reverse (tabs (memory k) d) ++
                           reverse (frames (memory k) d 0 NUPAGES) ++ l);
  fv_only : vm_only k k';
  fv_frame : forall q, page_ok q -> q <> d -> (q ∉ tabs (memory k) d) ->
     (q ∉ frames (memory k) d 0 NUPAGES) -> same_page (memory k) (memory k') q;
}.

Lemma tabs_same m m' d : (forall i, 0 <= i < 1024 -> pde m' d i = pde m d i) ->
  tabs m' d = tabs m d.
Proof.
  intros E. unfold tabs, tabs_of, present.
  rewrite (filter_bool_ext _ (fun i => has (pde m d i) PTE_P)).
  - apply list_fmap_ext. intros j i Hi. apply list_elem_of_lookup_2 in Hi.
    apply list_elem_of_filter in Hi as [_ Hi%elem_of_seqZ]. unfold tab. by rewrite E by lia.
  - intros i Hi%elem_of_seqZ. by rewrite E by lia.
Qed.

Lemma freetabs_runs d k l :
  free_pages k l -> pt_wf (memory k) d l -> kmem_lock ∉ held k ->
  runs (for_all (seqZ 0 NPDENTRIES) (fun i =>
      e <- load32 (pde_addr d i) ;; when (has e PTE_P) (kfree (P2V (PTE_ADDR e))))) k
    (fun _ k' => freetabs_post d (seqZ 0 NPDENTRIES) k l k').
Proof.
  intros Hf Hw Hh. apply (runs_for_all (fun sl k' => freetabs_post d sl k l k')).
  - intros pre i post k2 Hsl Hpost.
    assert (Hs : seqZ 0 NPDENTRIES = (pre ++ [i]) ++ post) by (by rewrite <- app_assoc).
    assert (Hnd : NoDup (pre ++ [i])).
    { pose proof (NoDup_seqZ 0 NPDENTRIES) as Hnd. rewrite Hs in Hnd.
      by apply NoDup_app in Hnd as [? _]. }
    assert (Hall : Forall (fun i => 0 <= i < 1024) (pre ++ [i])).
    { apply Forall_forall. intros j Hj. assert (Hj' : j ∈ seqZ 0 NPDENTRIES)
        by (rewrite Hs; apply elem_of_app; by left). apply elem_of_seqZ in Hj'.
      unfold NPDENTRIES in Hj'. lia. }
    destruct (freetabs_step d pre i k l k2 Hw Hnd Hall Hpost) as [Epde Hpost'].
    rstep. unfold pde_addr. fold (pde (memory k2) d i). rewrite Epde.
    fold (present (memory k) d i) (tab (memory k) d i). unfold when.
    destruct (present (memory k) d i) eqn:Hp; [|by apply runs_ret].
    apply Forall_app in Hall as [_ Hi]. rewrite Forall_singleton in Hi.
    reqn kfree_eq; [by apply (pw_tab _ _ _ Hw)| |done].
    by rewrite (vm_only_held _ _ (ft_only _ _ _ _ _ Hpost)).
  - done.
  - split; [exact Hf|apply vm_only_refl|done].
Qed.

Lemma freevm_runs d k l :
  free_pages k l -> uvm_wf (memory k) d l -> kmem_lock ∉ held k -> no_shm_in k 0 NUPAGES ->
  runs (freevm d) k (fun _ k' => freevm_post d k l k').
Proof.
  intros Hf Hu Hh Hshm. pose proof (pw_dir _ _ _ (uw_pt _ _ _ Hu)) as Hd.
  pose proof (page_ok_range _ Hd) as Hdr. unfold KERNLINK, KERNBASE, EXTMEM in Hdr.
  unfold freevm. destruct (Z.eqb_spec d 0); [lia|].
  rcall (deallocuvm_runs d KERNBASE 0 k l 0 NUPAGES); try done.
  intros _ k1 (_ & [A B C _ E F]).
  rcall freetabs_runs; [exact A|exact (uw_pt _ _ _ B)|by rewrite (vm_only_held _ _ E)|].
  intros _ k2 [A2 B2 C2]. change (seqZ 0 NPDENTRIES) with (seqZ 0 1024) in *.
  fold (tabs (memory k1) d) in *. pose proof (tabs_same (memory k) (memory k1) d C) as Et.
  assert (Hdt : d ∉ tabs (memory k1) d).
  { intros (i & Hi%elem_of_seqZ & Hp & Edt)%elem_of_tabs.
    destruct (pw_tab _ _ _ (uw_pt _ _ _ B) i) as (_ & Hn & _); [lia|done|]. congruence. }
  reqn kfree_eq; [done|by rewrite (vm_only_held _ _ B2), (vm_only_held _ _ E)|].
  rewrite Et in *. split.
  - apply kfree_cons; [exact A2|done|]. rewrite elem_of_app, elem_of_reverse.
    intros [Hin|Hin]; [done|]. by apply (pw_dir_free _ _ _ (uw_pt _ _ _ B)).
  - eapply vm_only_trans; [exact E|]. eapply vm_only_trans; [exact B2|]. by destruct k2.
  - intros q Hq Hqd Hqt Hqf. eapply same_page_trans; [apply F; [done|done|]|].
    { intros i Hi Hp ->. apply Hqt, elem_of_tabs. exists i. split; [|done]. apply elem_of_seqZ. lia. }
    eapply same_page_trans; [by apply C2|]. apply kfree_frame; [done|done|congruence].
Qed.
End vmuser.
