(* ===== verification/VmSetup.v ===== *)
(** * setupkvm: the kernel half of every address space *)
From stdpp Require Import base numbers list sets strings.
From Stdlib Require Import ZArith Lia.
From S2P Require Import Prelude Mmu Kernel Kalloc ShMem Syscall Vm PageTable VmMap VmUser.
#[local] Open Scope Z_scope.

Section vmsetup.
Context `{KernelLayout}.

(** What the static table [kmap] says about virtual page [n]. *)
Definition entry_first (e : kmap_entry) : Z := virt e / 4096.
Definition entry_pages (e : kmap_entry) : Z := u32 (phys_end e - phys_start e) / 4096.
Definition covers (e : kmap_entry) (n : Z) : bool :=
  (entry_first e <=? n) && (n <? entry_first e + entry_pages e).
Definition entry_pte (e : kmap_entry) (n : Z) : Z :=
  phys_start e + 4096 * (n - entry_first e) + Z.lor (perm e) PTE_P.
Fixpoint kmap_pte (es : list kmap_entry) (n : Z) : Z :=
  match es with
  | [] => 0
  | e :: es => if covers e n then entry_pte e n else kmap_pte es n
  end.

(** The directory slots the kernel half needs: 56 for the first [PHYSTOP]
    bytes and 8 for the devices. *)
Definition kslot (i : Z) : bool := ((512 <=? i) && (i <? 568)) || (1016 <=? i).

Record kmap_ok (e : kmap_entry) : Prop := {
  ko_first : PGROUNDDOWN (virt e) = 4096 * entry_first e;
  ko_last : PGROUNDDOWN (u32 (virt e + u32 (phys_end e - phys_start e) - 1)) =
            4096 * (entry_first e + entry_pages e - 1);
  ko_cnt : 0 < entry_pages e;
  ko_range : 524288 <= entry_first e /\ entry_first e + entry_pages e <= 1048576;
  ko_pa : 0 <= phys_start e /\ (phys_start e) `mod` 4096 = 0 /\
          phys_start e + 4096 * entry_pages e <= 4294967296;
  ko_perm : perm e = 0 \/ perm e = PTE_W;
  ko_slots : forall i, entry_first e / 1024 <= i <= (entry_first e + entry_pages e - 1) / 1024 ->
             0 <= i < 1024 /\ kslot i = true;
}.

Lemma kmap_entry_ok v n ps pe pm :
  524288 <= n -> ps `mod` 4096 = 0 -> 0 <= ps -> 0 < v -> n + v <= 1048576 ->
  ps + 4096 * v <= 4294967296 ->
  u32 (pe - ps) = 4096 * v -> (pm = 0 \/ pm = PTE_W) ->
  (forall i, n / 1024 <= i <= (n + v - 1) / 1024 -> kslot i = true) ->
  kmap_ok (mkkmap (4096 * n) ps pe pm).
Proof.
  intros Hn Hm H0 Hv Hnv Hpv Hu Hpm Hs.
  assert (Ef : entry_first (mkkmap (4096 * n) ps pe pm) = n)
    by (unfold entry_first; cbn [virt]; by rewrite Z.mul_comm, Z.div_mul).
  assert (Ep : entry_pages (mkkmap (4096 * n) ps pe pm) = v)
    by (unfold entry_pages; cbn [phys_end phys_start]; by rewrite Hu, Z.mul_comm, Z.div_mul).
  split; rewrite ?Ef, ?Ep; cbn [virt phys_start phys_end perm]; try done; try lia.
  - rewrite PGROUNDDOWN_eq by lia. dlia.
  - rewrite Hu, u32_small by lia. rewrite PGROUNDDOWN_eq by lia. dlia.
  - intros i Hi. split; [dlia|by apply Hs].
Qed.

Lemma kmap_all_ok : Forall kmap_ok kmap.
Proof.
  pose proof data_aligned as Hd. pose proof data_range as Hr. pose proof end_range as He.
  unfold PGSIZE, KERNLINK, KERNBASE, EXTMEM in *.
  assert (Ed : exists c, data = 4096 * (524288 + c) /\ 256 < c <= 1024).
  { exists (data / 4096 - 524288). dlia. }
  destruct Ed as (c & Ed & Hc).
  assert (EV : V2P data = 4096 * c).
  { unfold V2P, KERNBASE. rewrite u32_small by lia. lia. }
  assert (Hks : forall i, 512 <= i < 568 -> kslot i = true).
  { intros i Hi. unfold kslot. destruct (Z.leb_spec 512 i), (Z.ltb_spec i 568); lia || done. }
  unfold kmap. repeat apply Forall_cons_2; [..|apply Forall_nil_2].
  - apply (kmap_entry_ok 256 524288); try done; try (by right).
    intros i Hi. apply Hks. dlia.
  - change KERNLINK with (4096 * 524544). rewrite EV.
    change (V2P (4096 * 524544)) with (4096 * 256).
    apply (kmap_entry_ok (c - 256) 524544); try done; try lia; try (by left).
    + rewrite u32_small; lia.
    + intros i Hi. apply Hks. dlia.
  - rewrite EV, Ed.
    apply (kmap_entry_ok (57344 - c) (524288 + c)); try done; try lia; try (by right).
    + by rewrite Z.mul_comm, Z.mod_mul.
    + unfold PHYSTOP. rewrite u32_small; lia.
    + intros i Hi. apply Hks. dlia.
  - apply (kmap_entry_ok 8192 1040384); try done; try (by right).
    intros i Hi. unfold kslot. destruct (Z.leb_spec 1016 i); [by rewrite orb_true_r|]. dlia.
Qed.

Lemma kmap_disjoint pre e post n : kmap = pre ++ e :: post -> covers e n = true ->
  Forall (fun e' => covers e' n = false) pre.
Proof.
  pose proof data_aligned as Hd. pose proof data_range as Hr. pose proof end_range as He.
  unfold PGSIZE, KERNLINK, KERNBASE, EXTMEM in *.
  assert (EV : V2P data = data - 2147483648)
    by (unfold V2P, KERNBASE; rewrite u32_small by lia; lia).
  assert (E1 : u32 (V2P data - V2P KERNLINK) / 4096 = data / 4096 - 524544).
  { rewrite EV. change (V2P KERNLINK) with 1048576. rewrite u32_small by lia. dlia. }
  assert (E2 : u32 (PHYSTOP - V2P data) / 4096 = 581632 - data / 4096).
  { rewrite EV. unfold PHYSTOP. rewrite u32_small by lia. dlia. }
  assert (Hb : 524544 < data / 4096 <= 525312) by dlia.
  intros Ek Hc. unfold kmap in Ek.
  destruct pre as [|e1 [|e2 [|e3 [|e4 [|]]]]]; simplify_eq/=; repeat constructor;
    unfold covers, entry_first, entry_pages in *;
    cbn [virt phys_start phys_end perm] in *; rewrite ?E1, ?E2 in *;
    try change (KERNBASE / 4096) with 524288 in *;
    try change (KERNLINK / 4096) with 524544 in *;
    try change (DEVSPACE / 4096) with 1040384 in *;
    try change (u32 (EXTMEM - 0) / 4096) with 256 in *;
    zbool; apply andb_false_iff; rewrite Z.leb_gt, Z.ltb_ge; lia.
Qed.

Lemma kmap_pte_snoc pre e n : (covers e n = true -> Forall (fun e' => covers e' n = false) pre) ->
  kmap_pte (pre ++ [e]) n = if covers e n then entry_pte e n else kmap_pte pre n.
Proof.
  induction pre as [|e' pre IH]; intros Hd; simpl; [done|].
  destruct (covers e n) eqn:Hc.
  - specialize (Hd eq_refl). apply Forall_cons in Hd as [-> Hd]. by apply IH.
  - destruct (covers e' n); [done|]. by apply IH.
Qed.

Lemma kmap_pte_absent es n : Forall (fun e => covers e n = false) es -> kmap_pte es n = 0.
Proof. induction 1 as [|e es He _ IH]; simpl; [done|]. by rewrite He. Qed.

Definition above (e : kmap_entry) : Prop := 524288 <= entry_first e.

Lemma kmap_pte_user es n : Forall above es -> n < 524288 -> kmap_pte es n = 0.
Proof.
  intros Hok Hn. induction Hok as [|e es Hr _ IH]; [done|]. simpl. unfold above in Hr.
  unfold covers. destruct (Z.leb_spec (entry_first e) n); [lia|]. done.
Qed.

(** The address space [setupkvm] builds: the mappings of [es] and nothing else,
    in pages taken from [l]. *)
Record kvm_at (es : list kmap_entry) (d : Z) (k : kernel) (l : list Z) (k' : kernel)
    (l' : list Z) : Prop := {
  kv_free : free_pages k' l';
  kv_wf : pt_wf (memory k') d l';
  kv_pte : forall n, 0 <= n < 1048576 -> pte (memory k') d n = kmap_pte es n;
  kv_slots : forall i, 0 <= i < 1024 -> present (memory k') d i = true -> kslot i = true;
  kv_only : vm_only k k';
  kv_used : d ∈ l /\ exists used, l = used ++ l';
  kv_tabs : forall i, 0 <= i < 1024 -> present (memory k') d i = true -> tab (memory k') d i ∈ l;
  kv_count : Z.of_nat (length l) = 1 + npdes (memory k') d + Z.of_nat (length l');
  kv_frame : forall q, page_ok q -> (q ∉ l) -> same_page (memory k) (memory k') q;
}.

(** With the user half empty, there is no frame to own. *)
Lemma kvm_uvm es d k l k' l' : Forall above es -> kvm_at es d k l k' l' ->
  (forall n, 0 <= n < NUPAGES -> umapped (memory k') d n = false) /\ uvm_wf (memory k') d l'.
Proof.
  intros Hok [_ Hw Hp _ _ _ _ _ _].
  assert (Hu : forall n, 0 <= n < NUPAGES -> umapped (memory k') d n = false).
  { intros n Hn. unfold NUPAGES in Hn. unfold umapped. rewrite Hp, kmap_pte_user by (done || lia). done. }
  split; [done|]. split; [done| |].
  - intros n Hn Hm. by rewrite Hu in Hm.
  - intros n n' Hn _ Hm. by rewrite Hu in Hm.
Qed.

(** A fresh zeroed directory. *)
Lemma kvm_init p l k : free_pages k (p :: l) -> kmem_lock ∉ held k ->
  kvm_at [] p k (p :: l)
    (set_memory (fill (memory k) p 0 4096) (kalloc_st k)) l.
Proof.
  intros Hf Hh. pose proof (kalloc_cons _ _ _ Hf) as (_ & Hp & Hn & Hf' & Em).
  set (m := fill (memory k) p 0 4096).
  assert (Hpd : forall i, 0 <= i < 1024 -> pde m p i = 0)
    by (intros i Hi; apply rd32_fill_zero; lia).
  assert (Hpr : forall i, 0 <= i < 1024 -> present m p i = false)
    by (intros i Hi; unfold present; by rewrite Hpd).
  split; cbn.
  - apply free_pages_mem; [done|apply fill_bytes, (fp_bytes _ _ Hf)|].
    rewrite Em. intros q Hq. apply same_page_fill; [done| |by intros ->].
    eapply Forall_forall; [apply (fp_ok _ _ Hf')|done].
  - split; [done|done| |]; intros i Hi; fold m; [by rewrite Hpr|].
    intros Hi'. by rewrite Hpr.
  - intros n Hn'. fold m. unfold pte. destruct (vpn_split n) as [Hi _]; [done|]. by rewrite Hpr.
  - intros i Hi. fold m. by rewrite Hpr.
  - unfold vm_only, kalloc_st. destruct (freelist k =? 0); by destruct k.
  - split; [by left|]. by exists [p].
  - intros i Hi. fold m. by rewrite Hpr.
  - fold m. unfold npdes.
    assert (E : filter (fun i => present m p i = true) (seqZ 0 1024) = []).
    { apply filter_none. intros i Hi%elem_of_seqZ. apply Hpr. lia. }
    rewrite E. simpl. lia.
  - intros q Hq Hql. apply not_elem_of_cons in Hql as [Hqp _]. apply same_page_fill; try done.
Qed.

(** An entry of which only the first [c] pages have been mapped. *)
Definition cut (e : kmap_entry) (c : Z) : kmap_entry :=
  mkkmap (virt e) (phys_start e) (phys_start e + 4096 * c) (perm e).

Lemma cut_pages e c : 0 <= c <= entry_pages e -> entry_pages (cut e c) = c.
Proof.
  intros Hc. unfold entry_pages in *. cbn [cut phys_end phys_start].
  pose proof (u32_range (phys_end e - phys_start e)).
  replace (phys_start e + 4096 * c - phys_start e) with (4096 * c) by lia.
  rewrite u32_small by dlia. by rewrite Z.mul_comm, Z.div_mul.
Qed.

Lemma kvm_step es e d k l k1 l1 r k2 l2 c :
  kvm_at es d k l k1 l1 -> kmap_ok e -> 0 <= c <= entry_pages e ->
  (forall n, covers e n = true -> Forall (fun e' => covers e' n = false) es) ->
  mappages_post d (entry_first e) (entry_pages e) (phys_start e) (perm e) k1 l1 r k2 l2 c ->
  kvm_at (es ++ [cut e c]) d k l k2 l2.
Proof.
  intros [A B C D E F G I J] Hok Hc Hd [Hext Hmap Hrng _].
  pose proof (pe_used _ _ _ _ _ Hext) as [u2 Eu2]. destruct F as [Hdl [u1 Eu1]].
  assert (Hdl1 : d ∉ l1) by apply (pw_dir_free _ _ _ B).
  split.
  - apply (pe_free _ _ _ _ _ Hext).
  - apply (pe_wf _ _ _ _ _ Hext).
  - intros n Hn. rewrite Hmap by done.
    rewrite kmap_pte_snoc.
    + unfold covers at 1. rewrite cut_pages by done.
      replace (entry_first (cut e c)) with (entry_first e) by done.
      destruct ((entry_first e <=? n) && _) eqn:Ecv; [done|]. by apply C.
    + intros Hcv. apply Hd. unfold covers in *. rewrite cut_pages in Hcv by done.
      replace (entry_first (cut e c)) with (entry_first e) in Hcv by done. zbool.
      apply andb_true_iff. rewrite Z.leb_le, Z.ltb_lt. lia.
  - intros i Hi Hp. destruct (Hrng i Hi Hp) as [Hp1|Hir]; [by apply D|].
    by apply (ko_slots _ Hok).
  - eapply vm_only_trans; [exact E|apply (pe_only _ _ _ _ _ Hext)].
  - split; [done|]. exists (u1 ++ u2). by rewrite <- app_assoc, <- Eu2.
  - intros i Hi Hp. destruct (pe_new _ _ _ _ _ Hext i Hi Hp) as [Hp1|Hin].
    + destruct (pe_keep _ _ _ _ _ Hext i Hi Hp1) as [_ ->]. by apply G.
    + rewrite Eu1. apply elem_of_app. by right.
  - rewrite I. pose proof (pe_count _ _ _ _ _ Hext). lia.
  - intros q Hq Hql. eapply same_page_trans; [by apply J|].
    apply (pe_frame _ _ _ _ _ Hext); [done| |by intros ->|].
    + intros Hin. apply Hql. rewrite Eu1. apply elem_of_app. by right.
    + intros i Hi Hp ->. by apply Hql, G.
Qed.

Lemma kvm_at_ext es es' d k l k' l' : kvm_at es d k l k' l' ->
  (forall n, kmap_pte es n = kmap_pte es' n) -> kvm_at es' d k l k' l'.
Proof. intros [A B C D E F G I J] Heq. split; try done. intros n Hn. by rewrite C, Heq. Qed.

Lemma kmap_pte_cut es e n : kmap_pte (es ++ [cut e (entry_pages e)]) n = kmap_pte (es ++ [e]) n.
Proof.
  assert (0 <= entry_pages e).
  { unfold entry_pages. pose proof (u32_range (phys_end e - phys_start e)). dlia. }
  induction es as [|e' es IH]; simpl; [|by rewrite IH].
  unfold covers. rewrite cut_pages by lia. done.
Qed.

(** The 64 directory slots of the kernel half, counted. *)
Lemma kslots_64 : length (filter (fun i => kslot i = true) (seqZ 0 1024)) = 64%nat.
Proof. vm_compute. reflexivity. Qed.

Lemma kvm_short es d k l k' i : kvm_at es d k l k' [] ->
  0 <= i < 1024 -> kslot i = true -> present (memory k') d i = false -> (length l < 65)%nat.
Proof.
  intros [_ _ _ D _ _ _ I _] Hi Hs Hp. unfold npdes in I. rewrite length_nil in I.
  assert (Hlt : (length (filter (fun j => present (memory k') d j = true) (seqZ 0 1024)) < 64)%nat).
  { rewrite <- kslots_64. apply (filter_length_lt _ _ _ i); try done.
    - intros j Hj%elem_of_seqZ Hpj. apply D; [lia|done].
    - apply elem_of_seqZ. lia. }
  lia.
Qed.

(** Giving the unfinished space back returns every page that was taken. *)
Lemma kvm_undo es d k l k' k2 : Forall above es -> free_pages k l ->
  kvm_at es d k l k' [] -> freevm_post d k' [] k2 ->
  exists l2, free_pages k2 l2 /\ l2 ≡ₚ l /\ vm_only k k2 /\
    (forall q, page_ok q -> (q ∉ l) -> same_page (memory k) (memory k2) q).
Proof.
  intros Hab Hf Hkv [A B C]. destruct (kvm_uvm _ _ _ _ _ _ Hab Hkv) as [Hu _].
  destruct Hkv as [_ Hw _ _ E [Hdl _] G I J].
  rewrite (frames_none _ _ 0 NUPAGES) in A, C by done.
  rewrite length_nil in I. change (reverse (@nil Z) ++ []) with (@nil Z) in A. rewrite app_nil_r in A.
  eexists. split; [exact A|].
  assert (Ht : forall q, q ∈ tabs (memory k') d -> q ∈ l).
  { intros q (i & Hi%elem_of_seqZ & Hp & ->)%elem_of_tabs. apply G; [lia|done]. }
  split; [|split].
  - apply submseteq_length_Permutation.
    + apply NoDup_submseteq; [apply (fp_nodup _ _ A)|].
      intros q [->|Hq]%elem_of_cons; [done|].
      rewrite elem_of_reverse in Hq. by apply Ht.
    + simpl. rewrite length_reverse. unfold tabs, tabs_of. rewrite length_fmap.
      unfold npdes in I. lia.
  - by eapply vm_only_trans.
  - intros q Hq Hql. eapply same_page_trans; [by apply J|]. apply C; [done| | |apply not_elem_of_nil].
    + by intros ->.
    + intros Hin. by apply Hql, Ht.
Qed.

Lemma above_ok es : Forall kmap_ok es -> Forall above es.
Proof. intros Hes. eapply Forall_impl; [exact Hes|]. intros e He. apply (ko_range _ He). Qed.

Definition setupkvm_post (k : kernel) (l : list Z) (r : Z) (k' : kernel) : Prop :=
  (r = 0 /\ (length l < 65)%nat /\ exists l', free_pages k' l' /\ l' ≡ₚ l /\ vm_only k k' /\
     forall q, page_ok q -> (q ∉ l) -> same_page (memory k) (memory k') q) \/
  (r <> 0 /\ exists l', kvm_at kmap r k l k' l').

(** One entry of the table: mapped in full, or everything undone. *)
Lemma setupkvm_entry pre e post p k l k1 l1 :
  kmap = pre ++ e :: post -> free_pages k l -> kmem_lock ∉ held k ->
  ((65 <= length l)%nat \/ no_shm_in k 0 NUPAGES) -> p <> 0 ->
  kvm_at pre p k l k1 l1 ->
  runs (r <- mappages p (virt e) (u32 (phys_end e - phys_start e)) (phys_start e) (perm e) ;;
        if r <? 0 then freevm p ;;; ret (Some 0) else ret None) k1
    (fun r k2 => match r with
     | None => exists l2, kvm_at (pre ++ [e]) p k l k2 l2
     | Some v => setupkvm_post k l v k2
     end).
Proof.
  intros Ek Hf Hh Hcur Hp0 Hkv. pose proof kmap_all_ok as Hall. rewrite Ek in Hall.
  apply Forall_app in Hall as [Hpre Hall]. apply Forall_cons in Hall as [He _].
  destruct (ko_pa _ He) as (Hpa1 & Hpa2 & Hpa3). destruct (ko_range _ He) as [Hr1 Hr2].
  assert (Hdis : forall n, covers e n = true -> Forall (fun e' => covers e' n = false) pre)
    by (intros n Hc; by eapply kmap_disjoint).
  assert (Hunm : forall n, entry_first e <= n < entry_first e + entry_pages e ->
            has (pte (memory k1) p n) PTE_P = false).
  { intros n Hn. rewrite (kv_pte _ _ _ _ _ _ Hkv) by lia.
    assert (Hc : covers e n = true)
      by (unfold covers; apply andb_true_iff; rewrite Z.leb_le, Z.ltb_lt; lia).
    by rewrite kmap_pte_absent by (by apply Hdis). }
  pose proof (ko_cnt _ He) as Hcnt.
  rcall (mappages_runs p (virt e) _ (entry_first e) (entry_pages e) (phys_start e) (perm e) k1 l1);
    try done; try lia.
  { apply (ko_first _ He). } { apply (ko_last _ He). }
  { destruct (ko_perm _ He) as [->| ->]; unfold PTE_W; lia. }
  { apply (kv_free _ _ _ _ _ _ Hkv). } { apply (kv_wf _ _ _ _ _ _ Hkv). }
  { by rewrite (vm_only_held _ _ (kv_only _ _ _ _ _ _ Hkv)). }
  intros r k2 (l2 & c & Hmp). destruct (mp_result _ _ _ _ _ _ _ _ _ _ _ Hmp) as [[-> Ec]|Hfail].
  - apply runs_ret. exists l2. apply (kvm_at_ext (pre ++ [cut e c])).
    + eapply kvm_step; [done|done|lia|done|done].
    + subst c. apply kmap_pte_cut.
  - destruct Hfail as (-> & Hc & -> & i & Hi & Hpi).
    assert (Hkv2 : kvm_at (pre ++ [cut e c]) p k l k2 [])
      by (eapply kvm_step; [done|done|lia|done|done]).
    assert (Hab : Forall above (pre ++ [cut e c])).
    { apply Forall_app. split; [by apply above_ok|]. apply Forall_singleton. exact Hr1. }
    destruct (ko_slots _ He i Hi) as [Hi1 Hi2].
    pose proof (kvm_short _ _ _ _ _ _ Hkv2 Hi1 Hi2 Hpi) as Hlen.
    destruct Hcur as [|Hcur]; [lia|].
    rcall (freevm_runs p k2 []).
    { apply (kv_free _ _ _ _ _ _ Hkv2). } { by eapply kvm_uvm. }
    { by rewrite (vm_only_held _ _ (kv_only _ _ _ _ _ _ Hkv2)). }
    { by apply (no_shm_vm_only _ _ _ _ (kv_only _ _ _ _ _ _ Hkv2)). }
    intros u k3 Hfv. apply runs_ret. left. split; [done|]. split; [done|].
    by eapply kvm_undo.
Qed.

Lemma setupkvm_runs k l : free_pages k l -> kmem_lock ∉ held k ->
  ((65 <= length l)%nat \/ no_shm_in k 0 NUPAGES) ->
  runs setupkvm k (setupkvm_post k l).
Proof.
  intros Hf Hh Hcur. unfold setupkvm. apply runs_bind. eapply kalloc_runs; [done|done| |].
  - intros ->. apply runs_ret. left. split; [done|]. split; [simpl; lia|]. exists [].
    split; [done|]. split; [done|]. split; [apply vm_only_refl|done].
  - intros p l' -> Hp Hpn Hp0 Hf' Em Hvm. rewrite (proj2 (Z.eqb_neq _ _) Hp0).
    pose proof (kvm_init p l' k Hf Hh) as Hkv0. rstep. rstep.
    change (DEVSPACE <? P2V PHYSTOP) with false. rstep. apply runs_bind.
    apply (runs_for_each (fun es k' => exists l1, kvm_at es p k (p :: l') k' l1)).
    + intros pre e post k1 Ek (l1 & Hkv).
      eapply runs_conseq; [by eapply (setupkvm_entry pre e post p k (p :: l') k1 l1)|].
      intros [v|] k2 Hr; [by apply runs_ret|done].
    + intros k1 (l1 & Hkv). apply runs_ret. right. split; [done|]. by exists l1.
    + exists l'. cbn. rewrite Em. exact Hkv0.
Qed.
End vmsetup.
