(* ===== verification/VmGrow.v ===== *)
(** * allocuvm, inituvm and the growth of a user address space *)
From stdpp Require Import base numbers list sets strings.
From Stdlib Require Import ZArith Lia.
From S2P Require Import Prelude Mmu Kernel Kalloc ShMem Syscall Vm PageTable VmMap VmUser VmSetup.
#[local] Open Scope Z_scope.

Section vmgrow.
Context `{KernelLayout}.

(** A physical page that belongs to the caller: not free, and not part of the
    address space at [d]. *)
Record fresh (m : mem) (d : Z) (l : list Z) (p : Z) : Prop := {
  fr_ok : page_ok p;
  fr_free : p ∉ l;
  fr_dir : p <> d;
  fr_tab : forall i, 0 <= i < 1024 -> present m d i = true -> p <> tab m d i;
  fr_frame : forall n, 0 <= n < NUPAGES -> umapped m d n = true -> p <> frame m d n;
}.

(** The tables and the user mappings of [d] read the same in both memories. *)
Definition same_view (m m' : mem) (d : Z) : Prop :=
  (forall i, 0 <= i < 1024 -> pde m' d i = pde m d i) /\
  (forall n, 0 <= n < 1048576 -> pte m' d n = pte m d n).

Lemma uvm_wf_view m m' d l l' : uvm_wf m d l -> same_view m m' d -> (forall q, q ∈ l' -> q ∈ l) ->
  uvm_wf m' d l'.
Proof.
  intros [[A B C D] E F] [Hpde Hpte] Hl.
  assert (Hpr : forall i, 0 <= i < 1024 -> present m' d i = present m d i /\ tab m' d i = tab m d i)
    by (intros i Hi; unfold present, tab; by rewrite Hpde).
  assert (Hum : forall n, 0 <= n < NUPAGES -> umapped m' d n = umapped m d n /\ frame m' d n = frame m d n)
    by (intros n Hn; unfold NUPAGES in Hn; unfold umapped, frame; rewrite Hpte by lia; done).
  split; [split|..].
  - done.
  - intros Hd. by apply B, Hl.
  - intros i Hi. destruct (Hpr i Hi) as [-> ->]. intros Hp. destruct (C i Hi Hp) as (? & ? & ?).
    split; [done|]. split; [done|]. intros Hin. naive_solver.
  - intros i j Hi Hj. destruct (Hpr i Hi) as [-> ->], (Hpr j Hj) as [-> ->]. by apply D.
  - intros n Hn. destruct (Hum n Hn) as [-> ->]. intros Hm. destruct (E n Hn Hm) as (? & ? & ? & Ht).
    split; [done|]. split; [naive_solver|]. split; [done|].
    intros i Hi. destruct (Hpr i Hi) as [-> ->]. by apply Ht.
  - intros n n' Hn Hn'. destruct (Hum n Hn) as [-> ->], (Hum n' Hn') as [-> ->]. by apply F.
Qed.

(** Writing the caller's own page does not disturb the address space. *)
Lemma fresh_write m m' d l p : uvm_wf m d l -> fresh m d l p ->
  (forall q, page_ok q -> p <> q -> same_page m m' q) ->
  same_view m m' d /\ uvm_wf m' d l /\ fresh m' d l p.
Proof.
  intros Hu [A B C D E] Hs.
  assert (Hv : same_view m m' d).
  { apply pt_same_view. pose proof (uw_pt _ _ _ Hu) as Hw. split; [apply Hs; [apply Hw|done]|].
    intros i Hi Hp. apply Hs; [by apply (pw_tab _ _ _ Hw)|by apply D]. }
  split; [done|]. split; [by apply (uvm_wf_view m m' d l l)|]. destruct Hv as [Hpde Hpte].
  split; try done.
  - intros i Hi. unfold present, tab. rewrite Hpde by done. by apply D.
  - intros n Hn. unfold NUPAGES in Hn. unfold umapped, frame. rewrite Hpte by lia. by apply E.
Qed.

Lemma kalloc_fresh m d p l : page_ok p -> p ∉ l -> uvm_wf m d (p :: l) ->
  uvm_wf m d l /\ fresh m d l p.
Proof.
  intros Hp Hn Hu. split.
  - apply (uvm_wf_view m m d (p :: l) l); [done|done|]. intros q Hq. by right.
  - destruct Hu as [[A B C D] E F]. split; try done.
    + intros ->. apply B. by left.
    + intros i Hi Hpi ->. destruct (C i Hi Hpi) as (_ & _ & Hnn). apply Hnn. by left.
    + intros n Hn' Hm ->. destruct (E n Hn' Hm) as (_ & Hnn & _). apply Hnn. by left.
Qed.

(** ** Mapping one page of the caller's into the user half *)
Lemma ext_tab d k l k' l' : pt_ext d k l k' l' -> forall q, (q ∉ l) ->
  (forall i, 0 <= i < 1024 -> present (memory k) d i = true -> q <> tab (memory k) d i) ->
  forall i, 0 <= i < 1024 -> present (memory k') d i = true -> q <> tab (memory k') d i.
Proof.
  intros Hext q Hq Hqt i Hi Hp ->. destruct (pe_new _ _ _ _ _ Hext i Hi Hp) as [Hp1|Hin]; [|done].
  eapply Hqt; [exact Hi|done|]. by destruct (pe_keep _ _ _ _ _ Hext i Hi Hp1).
Qed.

Lemma ext_sub d k l k' l' : pt_ext d k l k' l' -> forall q, q ∈ l' -> q ∈ l.
Proof.
  intros Hext q Hq. destruct (pe_used _ _ _ _ _ Hext) as [u ->]. apply elem_of_app. by right.
Qed.

(** New page-table pages, and changes to entries that map nothing, leave the
    user mappings well formed. *)
Lemma ext_uvm_unmapped d k l k' l' : uvm_wf (memory k) d l -> pt_ext d k l k' l' ->
  (forall n, 0 <= n < NUPAGES -> umapped (memory k') d n = true ->
     umapped (memory k) d n = true /\ frame (memory k') d n = frame (memory k) d n) ->
  uvm_wf (memory k') d l'.
Proof.
  intros [Hw Hfrm Hinj] Hext Hum. pose proof (ext_sub _ _ _ _ _ Hext) as Hl.
  split.
  - apply (pe_wf _ _ _ _ _ Hext).
  - intros n Hn Hm. destruct (Hum n Hn Hm) as [Hm0 ->].
    destruct (Hfrm n Hn Hm0) as (? & ? & ? & ?). split; [done|]. split; [naive_solver|].
    split; [done|]. by apply (ext_tab _ _ _ _ _ Hext).
  - intros n n' Hn Hn' Hm Hm'. destruct (Hum n Hn Hm) as [? ->], (Hum n' Hn' Hm') as [? ->].
    by apply Hinj.
Qed.

Lemma ext_uvm d k l k' l' : uvm_wf (memory k) d l -> pt_ext d k l k' l' ->
  (forall n, 0 <= n < 1048576 -> pte (memory k') d n = pte (memory k) d n) ->
  uvm_wf (memory k') d l'.
Proof.
  intros Hu Hext Hpte. eapply ext_uvm_unmapped; [done|done|].
  intros n Hn. unfold NUPAGES in Hn. unfold umapped, frame. by rewrite Hpte by lia.
Qed.

Lemma map_page_uvm d c p perm k l k' l' :
  uvm_wf (memory k) d l -> fresh (memory k) d l p -> 0 <= c < NUPAGES -> 0 <= perm < 4096 ->
  pt_ext d k l k' l' ->
  (forall n, 0 <= n < 1048576 -> pte (memory k') d n =
     if n =? c then V2P p + Z.lor perm PTE_P else pte (memory k) d n) ->
  umapped (memory k') d c = true /\ frame (memory k') d c = p /\ uvm_wf (memory k') d l'.
Proof.
  intros Hu [A B C D E] Hc Hperm Hext Hpte. unfold NUPAGES in *.
  assert (Hperm' : 0 <= Z.lor perm PTE_P < 4096) by (by apply lor_flags).
  destruct (entry_page p _ A Hperm') as (Ea & _ & Eh).
  assert (Ec : pte (memory k') d c = V2P p + Z.lor perm PTE_P)
    by (rewrite Hpte, Z.eqb_refl; [done|lia]).
  assert (Hcm : umapped (memory k') d c = true).
  { unfold umapped. rewrite Ec, Eh by done. unfold has. rewrite Z.land_lor_distr_l.
    change (Z.land PTE_P PTE_P) with 1. destruct (Z.eqb_spec (Z.lor (Z.land perm PTE_P) 1) 0) as [E0|];
      [|done]. apply Z.lor_eq_0_iff in E0. lia. }
  assert (Hcf : frame (memory k') d c = p) by (unfold frame; by rewrite Ec).
  split; [done|]. split; [done|].
  pose proof (ext_sub _ _ _ _ _ Hext) as Hl.
  assert (Hold : forall n, 0 <= n < 524288 -> n <> c -> umapped (memory k') d n = umapped (memory k) d n
             /\ frame (memory k') d n = frame (memory k) d n).
  { intros n Hn Hne. unfold umapped, frame. rewrite Hpte by lia.
    by rewrite (proj2 (Z.eqb_neq n c) Hne). }
  pose proof (ext_tab _ _ _ _ _ Hext) as Htab.
  destruct Hu as [Hw Hfrm Hinj]. split.
  - apply (pe_wf _ _ _ _ _ Hext).
  - intros n Hn Hm. destruct (Z.eq_dec n c) as [->|Hne].
    + rewrite Hcf. split; [done|]. split; [naive_solver|]. split; [done|]. by apply Htab.
    + destruct (Hold n Hn Hne) as [Em Ef]. rewrite Ef. rewrite Em in Hm.
      destruct (Hfrm n Hn Hm) as (? & ? & ? & ?). split; [done|]. split; [naive_solver|].
      split; [done|]. by apply Htab.
  - assert (Hx : forall n, 0 <= n < 524288 -> n <> c -> umapped (memory k') d n = true ->
               frame (memory k') d n <> p).
    { intros n Hn Hne Hm. destruct (Hold n Hn Hne) as [Em ->]. rewrite Em in Hm.
      intros Ep. by apply (E n Hn Hm). }
    intros n n' Hn Hn' Hm Hm' Ef.
    destruct (Z.eq_dec n c) as [->|Hne], (Z.eq_dec n' c) as [->|Hne']; [done| | |].
    + exfalso. apply (Hx n' Hn' Hne' Hm'). congruence.
    + exfalso. apply (Hx n Hn Hne Hm). congruence.
    + destruct (Hold n Hn Hne) as [Em Efn], (Hold n' Hn' Hne') as [Em' Efn'].
      apply Hinj; congruence.
Qed.

Definition map_page_post (d c p perm : Z) (k : kernel) (l : list Z) (r : Z) (k' : kernel) : Prop :=
  exists l', pt_ext d k l k' l' /\ uvm_wf (memory k') d l' /\
   (forall i, 0 <= i < 1024 -> present (memory k') d i = true ->
      present (memory k) d i = true \/ i = c / 1024) /\
   ((r = 0 /\ umapped (memory k') d c = true /\ frame (memory k') d c = p /\
     forall n, 0 <= n < 1048576 -> pte (memory k') d n =
       if n =? c then V2P p + Z.lor perm PTE_P else pte (memory k) d n) \/
    (r = -1 /\ l' = [] /\ present (memory k') d (c / 1024) = false /\
     forall n, 0 <= n < 1048576 -> pte (memory k') d n = pte (memory k) d n)).

Lemma map_page_runs d va c p perm k l :
  PGROUNDDOWN va = 4096 * c -> PGROUNDDOWN (u32 (va + 4096 - 1)) = 4096 * c ->
  free_pages k l -> uvm_wf (memory k) d l -> fresh (memory k) d l p ->
  0 <= c < NUPAGES -> umapped (memory k) d c = false -> kmem_lock ∉ held k -> 0 <= perm < 4096 ->
  runs (mappages d va PGSIZE (V2P p) perm) k (map_page_post d c p perm k l).
Proof.
  intros E1 E2 Hf Hu Hfr Hc Hum Hh Hperm. pose proof Hc as Hc'. unfold NUPAGES in Hc'.
  destruct (V2P_page p (fr_ok _ _ _ _ Hfr)) as (EV & HVm & HV).
  eapply runs_conseq; [apply (mappages_runs d va PGSIZE c 1 (V2P p) perm k l)|]; try done; try (unfold PHYSTOP in HV; lia).
  - by replace (c + 1 - 1) with c by lia.
  - apply Hu.
  - intros n Hn. assert (n = c) as -> by lia. done.
  - intros r k' (l' & cc & [Hext Hmap Hrng Hres]). exists l'. split; [done|].
    replace (c + 1 - 1) with c in * by lia.
    assert (Hrng' : forall i, 0 <= i < 1024 -> present (memory k') d i = true ->
      present (memory k) d i = true \/ i = c / 1024).
    { intros i Hi Hp. destruct (Hrng i Hi Hp); [by left|right; lia]. }
    destruct Hres as [[-> ->]|(-> & Hcc & -> & i & Hi & Hpi)].
    + assert (Hpte : forall n, 0 <= n < 1048576 -> pte (memory k') d n =
         if n =? c then V2P p + Z.lor perm PTE_P else pte (memory k) d n).
      { intros n Hn. rewrite Hmap by done.
        destruct (Z.leb_spec c n), (Z.ltb_spec n (c + 1)), (Z.eqb_spec n c); simpl; try lia; done. }
      destruct (map_page_uvm d c p perm k l k' l' Hu Hfr Hc Hperm Hext Hpte) as (? & ? & ?).
      split; [done|]. split; [done|]. by left.
    + assert (Hpte : forall n, 0 <= n < 1048576 -> pte (memory k') d n = pte (memory k) d n).
      { intros n Hn. rewrite Hmap by done.
        destruct (Z.leb_spec c n), (Z.ltb_spec n (c + cc)); simpl; try lia; done. }
      assert (i = c / 1024) as -> by lia.
      split; [by eapply ext_uvm|]. split; [done|by right].
Qed.

(** ** allocuvm *)

(** The state after pages [[lo, c)] have been added, zeroed and writable by the
    user, in pages taken from [l]. *)
(** [x] counts the pages the caller holds besides. *)
Record grown (x d lo c : Z) (k : kernel) (l : list Z) (k' : kernel) (l' : list Z) : Prop := {
  gr_free : free_pages k' l';
  gr_uvm : uvm_wf (memory k') d l';
  gr_only : vm_only k k';
  gr_sub : forall q, q ∈ l' -> q ∈ l;
  gr_count : npdes (memory k') d + (c - lo) + x + Z.of_nat (length l') =
             npdes (memory k) d + Z.of_nat (length l);
  gr_old : forall n, 0 <= n < 1048576 -> ~ (lo <= n < c) -> pte (memory k') d n = pte (memory k) d n;
  gr_new : forall n, lo <= n < c -> umapped (memory k') d n = true /\
     PTE_FLAGS (pte (memory k') d n) = Z.lor (Z.lor PTE_W PTE_U) PTE_P /\
     frame (memory k') d n ∈ l /\
     forall x, 0 <= x < 4096 -> memory k' (frame (memory k') d n + x) = 0;
  gr_tabs : forall i, 0 <= i < 1024 -> present (memory k') d i = true ->
     (present (memory k) d i = true /\ tab (memory k') d i = tab (memory k) d i) \/
     tab (memory k') d i ∈ l;
  gr_range : forall i, 0 <= i < 1024 -> present (memory k') d i = true ->
     present (memory k) d i = true \/ (lo < c /\ lo / 1024 <= i <= (c - 1) / 1024);
  gr_frame : forall q, page_ok q -> (q ∉ l) -> q <> d ->
     (forall i, 0 <= i < 1024 -> present (memory k) d i = true -> q <> tab (memory k) d i) ->
     same_page (memory k) (memory k') q;
}.

Lemma grown_refl d lo k l : free_pages k l -> uvm_wf (memory k) d l -> grown 0 d lo lo k l k l.
Proof.
  intros Hf Hu. split; try done.
  - apply vm_only_refl.
  - lia.
  - lia.
  - intros i Hi Hp. by left.
  - intros i Hi Hp. by left.
Qed.

(** The page [kalloc] returns, zeroed, still belongs to the caller. *)
Lemma zeroed_page d p l k : free_pages k (p :: l) -> uvm_wf (memory k) d (p :: l) ->
  let k2 := set_memory (fill (memory k) p 0 4096) (kalloc_st k) in
  free_pages k2 l /\ uvm_wf (memory k2) d l /\ fresh (memory k2) d l p /\
  same_view (memory k) (memory k2) d /\ vm_only k k2 /\
  (forall q, page_ok q -> p <> q -> same_page (memory k) (memory k2) q) /\
  (forall x, 0 <= x < 4096 -> memory k2 (p + x) = 0).
Proof.
  intros Hf Hu k2. pose proof (kalloc_cons _ _ _ Hf) as (_ & Hp & Hn & Hf' & Em).
  destruct (kalloc_fresh _ _ _ _ Hp Hn Hu) as [Hu1 Hfr1].
  assert (Hs : forall q, page_ok q -> p <> q -> same_page (memory k) (memory k2) q)
    by (intros q Hq Hne; by apply same_page_fill).
  destruct (fresh_write _ _ _ _ _ Hu1 Hfr1 Hs) as (Hv & Hu2 & Hfr2).
  split; [|split; [done|split; [done|split; [done|split; [|split; [done|]]]]]].
  - apply free_pages_mem; [done|apply fill_bytes, (fp_bytes _ _ Hf)|].
    rewrite Em. intros q Hq. apply Hs; [|by intros ->].
    eapply Forall_forall; [apply (fp_ok _ _ Hf')|done].
  - unfold k2, vm_only, kalloc_st. destruct (freelist k =? 0); by destruct k.
  - intros x Hx. unfold k2. cbn. by rewrite fill_in by lia.
Qed.

Lemma umap_flags p f : page_ok p -> 0 <= f < 4096 -> PTE_FLAGS (V2P p + f) = f.
Proof.
  intros Hp Hf. destruct (V2P_page p Hp) as (_ & Hm & HV). unfold PTE_FLAGS.
  rewrite land_ones12. dlia.
Qed.

(** One more page: [k2] is [k1] with the page [p] taken and zeroed, [k3] the
    state after it has been mapped. *)
Lemma grown_step d lo c p l1 k l k1 k3 :
  0 <= lo <= c -> 0 <= c < NUPAGES -> grown 0 d lo c k l k1 (p :: l1) ->
  let k2 := set_memory (fill (memory k1) p 0 4096) (kalloc_st k1) in
  map_page_post d c p (Z.lor PTE_W PTE_U) k2 l1 0 k3 ->
  exists l3, grown 0 d lo (c + 1) k l k3 l3.
Proof.
  intros Hlc Hc [A B C D E F G I R J] k2 (l3 & Hext & Hu3 & Hrng & Hres).
  destruct Hres as [(_ & Hm3 & Hf3 & Hpte3)|[? _]]; [|lia]. exists l3.
  destruct (zeroed_page d p l1 k1 A B) as (Hf2 & Hu2 & Hfr2 & [Hpde2 Hpte2] & Hvm2 & Hs2 & Hz2).
  fold k2 in Hf2, Hu2, Hfr2, Hpde2, Hpte2, Hvm2, Hs2, Hz2.
  pose proof (Forall_inv (fp_ok _ _ A)) as Hpok.
  assert (Hpl : p ∈ l) by (apply D; by left).
  pose proof (ext_sub _ _ _ _ _ Hext) as Hl. unfold NUPAGES in *.
  assert (Hpt2 : forall i, 0 <= i < 1024 -> present (memory k2) d i = present (memory k1) d i /\
                   tab (memory k2) d i = tab (memory k1) d i)
    by (intros i Hi; unfold present, tab; by rewrite Hpde2).
  assert (Hpte13 : forall n, 0 <= n < 1048576 -> n <> c -> pte (memory k3) d n = pte (memory k1) d n).
  { intros n Hn Hne. rewrite Hpte3, (proj2 (Z.eqb_neq n c) Hne) by done. by apply Hpte2. }
  assert (Hs23 : forall q, page_ok q -> (q ∉ l1) -> q <> d ->
             (forall i, 0 <= i < 1024 -> present (memory k1) d i = true -> q <> tab (memory k1) d i) ->
             same_page (memory k2) (memory k3) q).
  { intros q Hq Hq1 Hqd Hqt. apply (pe_frame _ _ _ _ _ Hext); try done.
    intros i Hi. destruct (Hpt2 i Hi) as [-> ->]. by apply Hqt. }
  split; try done.
  - apply (pe_free _ _ _ _ _ Hext).
  - eapply vm_only_trans; [exact C|]. eapply vm_only_trans; [exact Hvm2|apply (pe_only _ _ _ _ _ Hext)].
  - intros q Hq. apply D. right. by apply Hl.
  - pose proof (pe_count _ _ _ _ _ Hext) as Hcnt. rewrite (npdes_same _ _ _ Hpde2) in Hcnt.
    simpl in E. lia.
  - intros n Hn Hne. rewrite Hpte13 by (done || lia). apply F; [done|lia].
  - intros n Hn. destruct (Z.eq_dec n c) as [->|Hne].
    + split; [done|]. split; [|split; [by rewrite Hf3|]].
      * rewrite Hpte3, Z.eqb_refl by lia. by apply umap_flags.
      * rewrite Hf3. intros x Hx. rewrite (Hs23 p Hpok); [by apply Hz2| | | |lia].
        -- apply Hfr2. -- apply Hfr2.
        -- intros i Hi Hp. destruct (Hpt2 i Hi) as [Hp2 <-]. apply (fr_tab _ _ _ _ Hfr2); [done|by rewrite Hp2].
    + destruct (G n) as (Gm & Gf & Gl & Gz); [lia|].
      assert (Efr : frame (memory k3) d n = frame (memory k1) d n)
        by (unfold frame; rewrite Hpte13; [done|lia|done]).
      unfold umapped. rewrite Efr, Hpte13 by lia. split; [done|]. split; [done|]. split; [done|].
      destruct (uw_frame _ _ _ B n) as (U1 & U2 & U3 & U4); [unfold NUPAGES; lia|done|].
      apply not_elem_of_cons in U2 as [U2 U2'].
      intros x Hx. rewrite (Hs23 _ U1); try done; [|lia]. rewrite (Hs2 _ U1); [by apply Gz|congruence|lia].
  - intros i Hi Hp. destruct (pe_new _ _ _ _ _ Hext i Hi Hp) as [Hp2|Hin].
    + destruct (pe_keep _ _ _ _ _ Hext i Hi Hp2) as [_ ->]. destruct (Hpt2 i Hi) as [E1 ->].
      rewrite E1 in Hp2. by apply I.
    + right. apply D. by right.
  - intros i Hi Hp. destruct (Hrng i Hi Hp) as [Hp2| ->].
    + rewrite (proj1 (Hpt2 i Hi)) in Hp2. destruct (R i Hi Hp2) as [|[? ?]]; [by left|right].
      split; [lia|]. dlia.
    + right. split; [lia|]. dlia.
  - intros q Hq Hql Hqd Hqt. eapply same_page_trans; [by apply J|].
    eapply same_page_trans; [apply Hs2; [done|congruence]|].
    apply Hs23; try done.
    + intros Hin. apply Hql, D. by right.
    + intros i Hi Hp ->. destruct (I i Hi Hp) as [[Hp0 Et]|Hin]; [|done]. by apply (Hqt i).
Qed.

(** The mapping failed for want of a table: [p] is in the caller's hands. *)
Lemma grown_stuck d lo c p l1 k l k1 k3 :
  0 <= lo <= c -> 0 <= c < NUPAGES -> grown 0 d lo c k l k1 (p :: l1) ->
  let k2 := set_memory (fill (memory k1) p 0 4096) (kalloc_st k1) in
  map_page_post d c p (Z.lor PTE_W PTE_U) k2 l1 (-1) k3 ->
  grown 1 d lo c k l k3 [] /\ fresh (memory k3) d [] p /\
  present (memory k3) d (c / 1024) = false.
Proof.
  intros Hlc Hc [A B C D E F G I R J] k2 (l3 & Hext & Hu3 & Hrng & Hres).
  destruct Hres as [[? _]|(_ & -> & Hab & Hpte3)]; [lia|].
  destruct (zeroed_page d p l1 k1 A B) as (Hf2 & Hu2 & Hfr2 & [Hpde2 Hpte2] & Hvm2 & Hs2 & Hz2).
  fold k2 in Hf2, Hu2, Hfr2, Hpde2, Hpte2, Hvm2, Hs2, Hz2.
  pose proof (Forall_inv (fp_ok _ _ A)) as Hpok.
  pose proof (ext_sub _ _ _ _ _ Hext) as Hl. unfold NUPAGES in *.
  assert (Hpt2 : forall i, 0 <= i < 1024 -> present (memory k2) d i = present (memory k1) d i /\
                   tab (memory k2) d i = tab (memory k1) d i)
    by (intros i Hi; unfold present, tab; by rewrite Hpde2).
  assert (Hpte13 : forall n, 0 <= n < 1048576 -> pte (memory k3) d n = pte (memory k1) d n)
    by (intros n Hn; rewrite Hpte3 by done; by apply Hpte2).
  assert (Hs13 : forall q, page_ok q -> q <> p -> (q ∉ l1) -> q <> d ->
             (forall i, 0 <= i < 1024 -> present (memory k1) d i = true -> q <> tab (memory k1) d i) ->
             same_page (memory k1) (memory k3) q).
  { intros q Hq Hqp Hq1 Hqd Hqt. eapply same_page_trans; [apply Hs2; [done|congruence]|].
    apply (pe_frame _ _ _ _ _ Hext); try done.
    intros i Hi. destruct (Hpt2 i Hi) as [-> ->]. by apply Hqt. }
  split; [|split; [|done]].
  - split; try done.
    + apply (pe_free _ _ _ _ _ Hext).
    + eapply vm_only_trans; [exact C|]. eapply vm_only_trans; [exact Hvm2|apply (pe_only _ _ _ _ _ Hext)].
    + intros q Hq. by apply not_elem_of_nil in Hq.
    + pose proof (pe_count _ _ _ _ _ Hext) as Hcnt. rewrite (npdes_same _ _ _ Hpde2) in Hcnt.
      simpl in E, Hcnt |- *. lia.
    + intros n Hn Hne. rewrite Hpte13 by done. by apply F.
    + intros n Hn. destruct (G n Hn) as (Gm & Gf & Gl & Gz).
      assert (Efr : frame (memory k3) d n = frame (memory k1) d n)
        by (unfold frame; rewrite Hpte13; [done|lia]).
      unfold umapped. rewrite Efr, Hpte13 by lia. split; [done|]. split; [done|]. split; [done|].
      destruct (uw_frame _ _ _ B n) as (U1 & U2 & U3 & U4); [unfold NUPAGES; lia|done|].
      apply not_elem_of_cons in U2 as [U2 U2'].
      intros x Hx. rewrite (Hs13 _ U1); try done; [by apply Gz|lia].
    + intros i Hi Hp. destruct (pe_new _ _ _ _ _ Hext i Hi Hp) as [Hp2|Hin].
      * destruct (pe_keep _ _ _ _ _ Hext i Hi Hp2) as [_ ->]. destruct (Hpt2 i Hi) as [E1 ->].
        rewrite E1 in Hp2. by apply I.
      * right. apply D. by right.
    + intros i Hi Hp. destruct (Hrng i Hi Hp) as [Hp2| ->]; [|congruence].
      rewrite (proj1 (Hpt2 i Hi)) in Hp2. by apply R.
    + intros q Hq Hql Hqd Hqt. eapply same_page_trans; [by apply J|]. apply Hs13; try done.
      * intros ->. apply Hql, D. by left.
      * intros Hin. apply Hql, D. by right.
      * intros i Hi Hp ->. destruct (I i Hi Hp) as [[Hp0 Et]|Hin]; [|done]. by apply (Hqt i).
  - destruct Hfr2 as [X1 X2 X3 X4 X5]. split; try done.
    + apply not_elem_of_nil.
    + by apply (ext_tab _ _ _ _ _ Hext).
    + intros n Hn. unfold NUPAGES in Hn. unfold umapped, frame. rewrite Hpte3 by lia. by apply X5.
Qed.

(** ** Rolling back *)
Record undone (x d lo hi : Z) (k : kernel) (l : list Z) (k' : kernel) (l' : list Z) : Prop := {
  un_free : free_pages k' l';
  un_uvm : uvm_wf (memory k') d l';
  un_only : vm_only k k';
  un_sub : forall q, q ∈ l' -> q ∈ l;
  un_tabs : forall i, 0 <= i < 1024 -> present (memory k') d i = true ->
     (present (memory k) d i = true /\ tab (memory k') d i = tab (memory k) d i) \/
     tab (memory k') d i ∈ l;
  un_count : npdes (memory k') d + x + Z.of_nat (length l') =
             npdes (memory k) d + Z.of_nat (length l);
  un_old : forall n, 0 <= n < 1048576 -> ~ (lo <= n < hi) -> pte (memory k') d n = pte (memory k) d n;
  un_none : forall n, 0 <= n < NUPAGES -> lo <= n < hi -> umapped (memory k') d n = false;
  un_frame : forall q, page_ok q -> (q ∉ l) -> q <> d ->
     (forall i, 0 <= i < 1024 -> present (memory k) d i = true -> q <> tab (memory k) d i) ->
     same_page (memory k) (memory k') q;
}.

Lemma frames_full m d lo c : lo <= c -> (forall n, lo <= n < c -> umapped m d n = true) ->
  Z.of_nat (length (frames m d lo c)) = c - lo.
Proof.
  intros Hlc Hm. unfold frames. rewrite length_fmap.
  rewrite (filter_bool_ext _ (fun _ => true)).
  - assert (E : forall l' : list Z, filter (fun _ => true = true) l' = l').
    { induction l' as [|y l' IH]; [done|]. rewrite filter_cons_True by done. by rewrite IH. }
    rewrite E, length_seqZ. lia.
  - intros n Hn%elem_of_seqZ. apply Hm. lia.
Qed.

Lemma grown_undo x d lo c hi k l k1 l1 k2 :
  0 <= lo <= c -> c <= hi <= NUPAGES -> grown x d lo c k l k1 l1 ->
  (forall n, c <= n < hi -> umapped (memory k) d n = false) ->
  dealloc_post d lo hi k1 l1 k2 ->
  undone x d lo hi k l k2 (reverse (frames (memory k1) d lo hi) ++ l1).
Proof.
  intros Hlc Hch [A B C D E F G I R J] Hnone [A2 B2 C2 D2 E2 F2]. unfold NUPAGES in Hch.
  assert (Hn1 : forall n, c <= n < hi -> umapped (memory k1) d n = false).
  { intros n Hn. unfold umapped. rewrite F by lia. by apply Hnone. }
  assert (Efr : frames (memory k1) d lo hi = frames (memory k1) d lo c).
  { rewrite (frames_app _ _ lo c hi), (frames_none _ _ c hi) by (done || lia). apply app_nil_r. }
  split; try done.
  - by eapply vm_only_trans.
  - intros q. rewrite elem_of_app, elem_of_reverse, Efr.
    intros [(n & Hn & _ & ->)%elem_of_frames|Hq]; [by apply G|by apply D].
  - intros i Hi. unfold present at 1, tab at 1 3. rewrite C2 by done. by apply I.
  - rewrite (npdes_same _ _ _ C2), length_app, length_reverse, Efr, Nat2Z.inj_add.
    rewrite frames_full; [lia|lia|]. intros n Hn. by apply G.
  - intros n Hn Hne. rewrite D2 by done.
    assert ((lo <=? n) && (n <? hi) = false) as ->
      by (apply andb_false_iff; rewrite Z.leb_gt, Z.ltb_ge; lia).
    apply F; [done|lia].
  - intros n Hn' Hn. unfold NUPAGES in Hn'. unfold umapped. rewrite D2 by lia.
    destruct (Z.leb_spec lo n), (Z.ltb_spec n hi); try lia. cbn [andb].
    destruct (umapped (memory k1) d n) eqn:Hm; done.
  - intros q Hq Hql Hqd Hqt. eapply same_page_trans; [by apply J|]. apply F2; [done| |].
    + rewrite Efr. intros (n & Hn & _ & ->)%elem_of_frames. by apply Hql, G.
    + intros i Hi Hp ->. destruct (I i Hi Hp) as [[Hp0 Et]|Hin]; [|done]. by apply (Hqt i).
Qed.

Lemma uvm_wf_cons m d l p : uvm_wf m d l -> fresh m d l p -> uvm_wf m d (p :: l).
Proof.
  intros [[A B C D] E F] [X1 X2 X3 X4 X5]. split; [split|..]; try done.
  - apply not_elem_of_cons. split; [congruence|done].
  - intros i Hi Hp. destruct (C i Hi Hp) as (? & ? & ?). split; [done|]. split; [done|].
    apply not_elem_of_cons. split; [by apply not_eq_sym, X4|done].
  - intros n Hn Hm. destruct (E n Hn Hm) as (? & ? & ? & ?). split; [done|]. split; [|done].
    apply not_elem_of_cons. split; [by apply not_eq_sym, X5|done].
Qed.

Lemma fresh_dealloc d lo hi k l k' p : dealloc_post d lo hi k l k' -> 0 <= lo -> hi <= NUPAGES ->
  fresh (memory k) d l p -> fresh (memory k') d (reverse (frames (memory k) d lo hi) ++ l) p.
Proof.
  intros [_ _ C D _ _] Hlo Hhi [X1 X2 X3 X4 X5]. split; try done.
  - rewrite elem_of_app, elem_of_reverse. intros [(n & Hn & Hm & ->)%elem_of_frames|?]; [|done].
    apply (X5 n); [lia|done|done].
  - intros i Hi. unfold present, tab. rewrite C by done. by apply X4.
  - intros n Hn. unfold umapped at 1, frame at 1. unfold NUPAGES in *. rewrite D by lia.
    destruct (_ && _ && _); [done|]. by apply X5.
Qed.

Lemma undone_free d lo hi k l k' l' p : undone 1 d lo hi k l k' l' -> p ∈ l ->
  fresh (memory k') d l' p -> undone 0 d lo hi k l (kfree_st p k') (p :: l').
Proof.
  intros [A B C S T D E F G] Hp Hfr. pose proof Hfr as [X1 X2 _ _ _].
  destruct (fresh_write _ (memory (kfree_st p k')) _ _ _ B Hfr) as ([Hpde Hpte] & Hu & Hfr').
  { intros q Hq Hne. by apply kfree_frame. }
  split.
  - by apply kfree_cons.
  - by apply uvm_wf_cons.
  - eapply vm_only_trans; [exact C|]. by destruct k'.
  - intros q [->|Hq]%elem_of_cons; [done|by apply S].
  - intros i Hi. unfold present at 1, tab at 1 3. rewrite Hpde by done. by apply T.
  - rewrite (npdes_same _ _ _ Hpde). simpl. lia.
  - intros n Hn Hne. rewrite Hpte by done. by apply E.
  - intros n Hn Hn'. pose proof Hn as Hb. unfold NUPAGES in Hb. unfold umapped.
    rewrite Hpte by lia. by apply F.
  - intros q Hq Hql Hqd Hqt. eapply same_page_trans; [by apply G|].
    apply kfree_frame; [done|done|congruence].
Qed.

(** ** The whole loop *)
Definition allocuvm_post (d lo hi newsz : Z) (k : kernel) (l : list Z) (r : Z) (k' : kernel) : Prop :=
  (r = newsz /\ exists l', grown 0 d lo hi k l k' l') \/
  (r = 0 /\ Z.of_nat (length l) < (hi - lo) + ((hi - 1) / 1024 - lo / 1024 + 1) /\
   exists l', undone 0 d lo hi k l k' l').

(** At most one new table per directory slot that the range touches. *)
Lemma npdes_le m m' d a b : 0 <= a -> b < 1024 -> a <= b + 1 ->
  (forall i, 0 <= i < 1024 -> present m' d i = true -> present m d i = true \/ a <= i <= b) ->
  npdes m' d <= npdes m d + (b - a + 1).
Proof.
  intros Ha Hb Hab Hp. unfold npdes.
  assert (G : forall l' : list Z, (forall i, i ∈ l' -> 0 <= i < 1024) ->
    Z.of_nat (length (filter (fun i => present m' d i = true) l')) <=
    Z.of_nat (length (filter (fun i => present m d i = true) l')) +
    Z.of_nat (length (filter (fun i => (a <=? i) && (i <=? b) = true) l'))).
  { induction l' as [|i l' IH]; intros Hl; [done|].
    specialize (IH ltac:(intros; apply Hl; by right)). rewrite !filter_cons.
    specialize (Hp i (Hl i ltac:(by left))).
    assert (Hbt : a <= i <= b -> (a <=? i) && (i <=? b) = true)
      by (intros; apply andb_true_iff; rewrite !Z.leb_le; lia).
    repeat case_decide; simpl; try lia. naive_solver. }
  specialize (G (seqZ 0 1024) ltac:(intros i Hi%elem_of_seqZ; lia)).
  assert (Hc : Z.of_nat (length (filter (fun i => (a <=? i) && (i <=? b) = true) (seqZ 0 1024)))
                <= Z.of_nat (length (seqZ a (b - a + 1)))).
  { apply inj_le, submseteq_length, NoDup_submseteq; [apply NoDup_filter, NoDup_seqZ|].
    intros i [Hi _]%list_elem_of_filter. zbool. apply elem_of_seqZ. lia. }
  rewrite length_seqZ in Hc. lia.
Qed.

(** One iteration at page [c]. *)
Lemma allocuvm_iter_runs d oldsz newsz k l lo hi c k1 l1 :
  0 <= oldsz < newsz -> newsz < KERNBASE ->
  4096 * lo = PGROUNDUP oldsz -> hi = (newsz + 4095) / 4096 ->
  kmem_lock ∉ held k -> no_shm_in k lo hi ->
  (forall n, lo <= n < hi -> umapped (memory k) d n = false) ->
  0 <= lo <= c -> c < hi <= NUPAGES -> 4096 * c < newsz -> grown 0 d lo c k l k1 l1 ->
  runs (allocuvm_iter d oldsz newsz (4096 * c)) k1 (fun r k2 =>
    match r with
    | inl a => a = 4096 * (c + 1) /\ exists l2, grown 0 d lo (c + 1) k l k2 l2
    | inr r => allocuvm_post d lo hi newsz k l r k2
    end).
Proof.
  intros Hs Hk Hlo Hhi Hh Hshm Hnone Hlc Hch Hlt Hgr.
  assert (Hh1 : kmem_lock ∉ held k1) by (by rewrite (vm_only_held _ _ (gr_only _ _ _ _ _ _ _ _ Hgr))).
  unfold allocuvm_iter. rewrite (proj2 (Z.ltb_lt _ _) Hlt).
  assert (Hundo : forall x k2 l2, grown x d lo c k l k2 l2 ->
    runs (deallocuvm d newsz oldsz) k2 (fun _ k3 => dealloc_post d lo hi k2 l2 k3 /\
      undone x d lo hi k l k3 (reverse (frames (memory k2) d lo hi) ++ l2))).
  { intros x k2 l2 Hg. pose proof (gr_only _ _ _ _ _ _ _ _ Hg) as Hvm.
    eapply runs_conseq; [apply (deallocuvm_runs d newsz oldsz k2 l2 lo hi)|]; try done; try lia.
    - apply Hg. - apply Hg. - by rewrite (vm_only_held _ _ Hvm). - by eapply no_shm_vm_only.
    - intros r k3 [_ Hd]. split; [done|]. eapply (grown_undo x d lo c hi); try done; try lia.
      intros n Hn. apply Hnone. lia. }
  assert (Hslots : 0 <= lo / 1024 <= c / 1024 /\ c / 1024 <= (hi - 1) / 1024 < 1024 /\
                   (c - 1) / 1024 <= c / 1024) by (unfold NUPAGES in *; dlia).
  assert (Hcnt : forall x k2, grown x d lo c k l k2 [] -> x = 0 \/
     (x = 1 /\ present (memory k2) d (c / 1024) = false) ->
     Z.of_nat (length l) < hi - lo + ((hi - 1) / 1024 - lo / 1024 + 1)).
  { intros x k2 [_ _ _ _ E _ G _ R _] Hx. rewrite length_nil in E.
    destruct (Z.eq_dec lo c) as [->|Hne].
    - pose proof (npdes_le (memory k) (memory k2) d 0 (-1)) as Hle.
      specialize (Hle ltac:(lia) ltac:(lia) ltac:(lia)).
      specialize (Hle ltac:(intros i Hi Hp; destruct (R i Hi Hp) as [|[? _]]; [by left|lia])). lia.
    - pose proof (npdes_le (memory k) (memory k2) d (lo / 1024) ((c - 1) / 1024)) as Hle.
      specialize (Hle ltac:(lia) ltac:(lia) ltac:(dlia)).
      specialize (Hle ltac:(intros i Hi Hp; destruct (R i Hi Hp) as [|[_ ?]]; [by left|by right])).
      destruct Hx as [->|[-> Hab]]; [lia|].
      destruct (G (c - 1)) as [Gm _]; [lia|]. apply umapped_present in Gm.
      assert ((c - 1) / 1024 <> c / 1024) by congruence. lia. }
  apply runs_bind. eapply kalloc_runs; [apply Hgr|done| |].
  - intros ->. rewrite Z.eqb_refl. rcall Hundo; [done|]. intros r k2 [_ Hun]. apply runs_ret.
    right. split; [done|]. split; [by eapply Hcnt; [done|left]|]. by eexists.
  - intros p l' -> Hp Hpn Hp0 Hf' Em Hvm. rewrite (proj2 (Z.eqb_neq _ _) Hp0). rstep.
    rewrite Em. change (fill (memory k1) p 0 PGSIZE) with (fill (memory k1) p 0 4096). set (k2 := set_memory _ (kalloc_st k1)).
    destruct (zeroed_page d p l' k1) as (Hf2 & Hu2 & Hfr2 & [Hpde2 Hpte2] & Hvm2 & _ & _);
      [apply Hgr..|]. fold k2 in Hf2, Hu2, Hfr2, Hpde2, Hpte2, Hvm2.
    unfold NUPAGES in Hch.
    rcall (map_page_runs d (4096 * c) c p (Z.lor PTE_W PTE_U) k2 l'); try done.
    + by apply aligned_vpn; lia.
    + rewrite u32_small, PGROUNDDOWN_eq by lia. dlia.
    + unfold NUPAGES. lia.
    + unfold umapped. rewrite Hpte2, (gr_old _ _ _ _ _ _ _ _ Hgr) by lia. apply Hnone. lia.
    + by rewrite (vm_only_held _ _ Hvm2).
    + intros r k3 Hmp. pose proof Hmp as (l3 & _ & _ & _ & [[-> _]|[-> _]]).
      * apply runs_ret. unfold PGSIZE. rewrite u32_small by lia. split; [lia|].
        eapply grown_step; [|unfold NUPAGES; lia|exact Hgr|exact Hmp]. lia.
      * destruct (grown_stuck d lo c p l' k l k1 k3) as (Hg3 & Hfr3 & Hab);
          [lia|unfold NUPAGES; lia|done|done|].
        cbn [Z.ltb Z.compare]. rcall Hundo; [exact Hg3|]. intros r k4 [Hd4 Hun].
        assert (Hfr4 := fresh_dealloc _ _ _ _ _ _ _ Hd4 (proj1 Hlc) ltac:(unfold NUPAGES; lia) Hfr3).
        reqn kfree_eq; [done|by rewrite (vm_only_held _ _ (un_only _ _ _ _ _ _ _ _ Hun))|].
        apply runs_ret. right. split; [done|]. split; [eapply Hcnt; [exact Hg3|by right]|].
        eexists. apply undone_free; [exact Hun| |done].
        apply (gr_sub _ _ _ _ _ _ _ _ Hgr). by left.
Qed.

Lemma allocuvm_runs d oldsz newsz k l lo hi :
  0 <= oldsz <= newsz -> newsz < KERNBASE ->
  4096 * lo = PGROUNDUP oldsz -> hi = (newsz + 4095) / 4096 ->
  free_pages k l -> uvm_wf (memory k) d l -> kmem_lock ∉ held k -> no_shm_in k lo hi ->
  (forall n, lo <= n < hi -> umapped (memory k) d n = false) ->
  runs (allocuvm d oldsz newsz) k (allocuvm_post d lo (Z.max lo hi) newsz k l).
Proof.
  intros Hs Hk Hlo Hhi Hf Hu Hh Hshm Hnone. pose proof Hk as Hk'. unfold KERNBASE in Hk'.
  pose proof (PGROUNDUP_spec oldsz ltac:(lia) ltac:(lia)) as [HP _].
  assert (Hhib : hi <= 524288 /\ 4096 * (hi - 1) < newsz <= 4096 * hi) by (subst hi; dlia).
  unfold allocuvm. destruct (Z.leb_spec KERNBASE newsz); [lia|].
  destruct (Z.ltb_spec newsz oldsz); [lia|]. rewrite <- Hlo.
  apply (runs_loop (fun a k' => exists c l1, a = 4096 * c /\ lo <= c <= Z.max lo hi /\
            grown 0 d lo c k l k' l1)
          (fun a => Z.to_nat (hi - a / 4096))).
  - intros a k1 (c & l1 & -> & Hc & Hgr).
    destruct (Z_lt_le_dec (4096 * c) newsz) as [Hlt|Hge].
    + rewrite Z.max_r in * by lia.
      eapply runs_conseq; [apply (allocuvm_iter_runs d oldsz newsz k l lo hi c k1 l1)|];
        try done; unfold NUPAGES; try lia.
      intros [a|r] k2; [|done]. intros (-> & l2 & Hg2). split; [exists (c + 1), l2; split_and!; lia || done|].
      rewrite !(Z.mul_comm 4096), !Z.div_mul; lia.
    + unfold allocuvm_iter. destruct (Z.ltb_spec (4096 * c) newsz); [lia|].
      apply runs_ret. left. split; [done|]. exists l1. by replace (Z.max lo hi) with c by lia.
  - exists lo, l. split; [done|]. split; [lia|]. by apply grown_refl.
  - rewrite Z.mul_comm, Z.div_mul by lia. subst hi. unfold PGSIZE. dlia.
Qed.
End vmgrow.
