(* ===== verification/VmLife.v ===== *)
(** * The life of an address space: setupkvm, allocuvm, deallocuvm, freevm

    The claims about building, growing and destroying address spaces, each with
    a concrete kernel on which its hypotheses hold. *)
From stdpp Require Import base numbers list sets strings.
From Stdlib Require Import ZArith Lia.
From S2P Require Import Prelude Mmu Kernel Kalloc ShMem Syscall Vm PageTable VmMap VmUser VmSetup VmGrow.
#[local] Open Scope Z_scope.

Section vmlife.
Context `{KernelLayout}.

(** A whole address space made of pages of [l]: the directory, its tables and
    its user frames; [l'] is what is left. *)
Record space_of (d : Z) (l : list Z) (k' : kernel) (l' : list Z) : Prop := {
  so_free : free_pages k' l';
  so_uvm : uvm_wf (memory k') d l';
  so_dir : d ∈ l;
  so_tabs : forall i, 0 <= i < 1024 -> present (memory k') d i = true -> tab (memory k') d i ∈ l;
  so_frames : forall n, 0 <= n < NUPAGES -> umapped (memory k') d n = true ->
              frame (memory k') d n ∈ l;
  so_rest : forall q, q ∈ l' -> q ∈ l;
  so_count : Z.of_nat (length l) = 1 + npdes (memory k') d +
     Z.of_nat (length (frames (memory k') d 0 NUPAGES)) + Z.of_nat (length l');
}.

Lemma kvm_space d k l k' l' : kvm_at kmap d k l k' l' -> space_of d l k' l'.
Proof.
  intros Hkv. destruct (kvm_uvm _ _ _ _ _ _ (above_ok _ kmap_all_ok) Hkv) as [Hu Hwf].
  destruct Hkv as [A B C D E [F1 [u F2]] G I J]. split; try done.
  - intros n Hn Hm. by rewrite Hu in Hm.
  - intros q Hq. rewrite F2. apply elem_of_app. by right.
  - rewrite (frames_none _ _ 0 NUPAGES) by done. simpl. lia.
Qed.

Lemma grown_space d lo hi l k1 l1 k2 l2 :
  space_of d l k1 l1 -> (forall n, 0 <= n < NUPAGES -> umapped (memory k1) d n = false) ->
  0 <= lo <= hi -> hi <= NUPAGES -> grown 0 d lo hi k1 l1 k2 l2 -> space_of d l k2 l2.
Proof.
  intros [A B C D E F G] Hnone Hlo Hhi [A2 B2 _ D2 E2 F2 G2 I2 _ _].
  assert (Hold : forall n, 0 <= n < NUPAGES -> ~ (lo <= n < hi) -> umapped (memory k2) d n = false).
  { intros n Hn Hne. unfold umapped. pose proof Hn as Hb. unfold NUPAGES in Hb.
    rewrite F2 by lia. by apply Hnone. }
  split; try done.
  - intros i Hi Hp. destruct (I2 i Hi Hp) as [[Hp1 ->]|Hin]; [by apply D|by apply F].
  - intros n Hn Hm. destruct (decide (lo <= n < hi)) as [Hr|Hr].
    + by apply F, G2.
    + by rewrite Hold in Hm.
  - intros q Hq. by apply F, D2.
  - rewrite (frames_app _ _ 0 lo NUPAGES), (frames_app _ _ lo hi NUPAGES) by lia.
    rewrite (frames_none _ _ 0 lo), (frames_none _ _ hi NUPAGES)
      by (intros n Hn; apply Hold; lia).
    rewrite app_nil_r. simpl. rewrite frames_full by (lia || (intros; by apply G2)).
    rewrite (frames_none (memory k1) _ 0 NUPAGES) in G by done. simpl in G. lia.
Qed.

Lemma undone_space d lo hi l k1 l1 k2 l2 :
  space_of d l k1 l1 -> (forall n, 0 <= n < NUPAGES -> umapped (memory k1) d n = false) ->
  undone 0 d lo hi k1 l1 k2 l2 -> space_of d l k2 l2.
Proof.
  intros [A B C D E F G] Hnone [A2 B2 _ S2 T2 D2 E2 F2 G2].
  assert (Hold : forall n, 0 <= n < NUPAGES -> umapped (memory k2) d n = false).
  { intros n Hn. destruct (decide (lo <= n < hi)) as [Hr|Hr]; [by apply F2|].
    pose proof Hn as Hb. unfold NUPAGES in Hb. unfold umapped. rewrite E2 by lia. by apply Hnone. }
  split; try done.
  - intros i Hi Hp. destruct (T2 i Hi Hp) as [[Hp1 ->]|Hin]; [by apply D|by apply F].
  - intros n Hn Hm. by rewrite Hold in Hm.
  - intros q Hq. by apply F, S2.
  - rewrite (frames_none (memory k1) _ 0 NUPAGES) in G by done.
    rewrite (frames_none (memory k2) _ 0 NUPAGES) by done. simpl in *. lia.
Qed.

(** Freeing such a space gives back exactly the pages it was made of. *)
Lemma freevm_space d l k l' : free_pages k l' -> space_of d l k l' -> NoDup l ->
  kmem_lock ∉ held k -> no_shm_in k 0 NUPAGES ->
  runs (freevm d) k (fun _ k' => exists l2, free_pages k' l2 /\ l2 ≡ₚ l).
Proof.
  intros Hf [A B C D E F G] Hnd Hh Hshm.
  eapply runs_conseq; [by apply (freevm_runs d k l')|].
  intros u k' [Hfr _ _]. eexists. split; [exact Hfr|].
  apply submseteq_length_Permutation.
  - apply NoDup_submseteq; [apply (fp_nodup _ _ Hfr)|].
    intros q. rewrite elem_of_cons, !elem_of_app, !elem_of_reverse.
    intros [->|[(i & Hi%elem_of_seqZ & Hp & ->)%elem_of_tabs|[(n & Hn & Hm & ->)%elem_of_frames|Hq]]].
    + done. + apply D; [lia|done]. + by apply E. + by apply F.
  - simpl. rewrite !length_app, !length_reverse. unfold tabs, tabs_of. rewrite length_fmap.
    unfold npdes in G. lia.
Qed.

(** The life of an address space as [exec] and [wait] drive it. *)
Definition space_life (sz : Z) : M kernel unit :=
  d <- setupkvm ;;
  if d =? 0 then ret tt
  else _ <- allocuvm d 0 sz ;; freevm d.

(** C3. An address space built with [setupkvm], grown with [allocuvm] to any
    size below KERNBASE and destroyed with [freevm] always runs to the end and
    gives every page back exactly once, also when memory runs out on the way:
    the free list after is a permutation of the free list before. *)
Theorem space_life_conserves sz k l :
  0 <= sz < KERNBASE -> free_pages k l -> kmem_lock ∉ held k -> no_shm_in k 0 NUPAGES ->
  runs (space_life sz) k (fun _ k' => exists l', free_pages k' l' /\ l' ≡ₚ l).
Proof.
  intros Hsz Hf Hh Hshm. unfold space_life. pose proof Hsz as Hsz'. unfold KERNBASE in Hsz'.
  rcall setupkvm_runs; [done|done|by right|].
  intros d k1 [(-> & _ & l1 & Hf1 & Hp1 & _)|(Hd & l1 & Hkv)].
  { apply runs_ret. by exists l1. }
  rewrite (proj2 (Z.eqb_neq _ _) Hd).
  destruct (kvm_uvm _ _ _ _ _ _ (above_ok _ kmap_all_ok) Hkv) as [Hu Hwf].
  pose proof (kvm_space _ _ _ _ _ Hkv) as Hsp. pose proof (kv_only _ _ _ _ _ _ Hkv) as Hvm.
  assert (Hhi : 0 <= (sz + 4095) / 4096 <= NUPAGES) by (unfold NUPAGES; dlia).
  rcall (allocuvm_runs d 0 sz k1 l1 0 ((sz + 4095) / 4096)); try done; try lia.
  { apply Hsp. } { by rewrite (vm_only_held _ _ Hvm). }
  { destruct (no_shm_vm_only _ _ _ _ Hvm Hshm) as (i & p & ? & ? & Hor). exists i, p.
    split; [done|]. split; [done|]. destruct Hor as [|Hor]; [by left|right].
    intros n Hn. apply Hor. lia. }
  { intros n Hn. apply Hu. lia. }
  rewrite Z.max_r by lia.
  assert (Hnd : NoDup l) by apply (fp_nodup _ _ Hf).
  intros r k2 [(_ & l2 & Hg)|(_ & _ & l2 & Hun)].
  - apply (freevm_space d l k2 l2); [apply Hg| |done| |].
    + by eapply grown_space; [done|done|..|done]; [lia|lia].
    + by rewrite (vm_only_held _ _ (gr_only _ _ _ _ _ _ _ _ Hg)), (vm_only_held _ _ Hvm).
    + eapply no_shm_vm_only; [apply Hg|]. by eapply no_shm_vm_only.
  - apply (freevm_space d l k2 l2); [apply Hun| |done| |].
    + by eapply undone_space.
    + by rewrite (vm_only_held _ _ (un_only _ _ _ _ _ _ _ _ Hun)), (vm_only_held _ _ Hvm).
    + eapply no_shm_vm_only; [apply Hun|]. by eapply no_shm_vm_only.
Qed.

(** The kernel half in closed form: the first [PHYSTOP] bytes of physical
    memory at KERNBASE, writable except for the kernel text and read-only data
    between KERNLINK and [data], and the devices at DEVSPACE mapped one to one. *)
Definition kernel_pte (n : Z) : Z :=
  if n <? 524288 then 0
  else if n <? 581632 then
    4096 * (n - 524288) + (if (524544 <=? n) && (n <? data / 4096) then PTE_P else Z.lor PTE_W PTE_P)
  else if n <? 1040384 then 0
  else 4096 * n + Z.lor PTE_W PTE_P.

Lemma kmap_pte_closed n : 0 <= n < 1048576 -> kmap_pte kmap n = kernel_pte n.
Proof.
  intros Hn. pose proof data_aligned as Hd. pose proof data_range as Hr. pose proof end_range as He.
  unfold PGSIZE, KERNLINK, KERNBASE, EXTMEM in *.
  assert (EV : V2P data = data - 2147483648)
    by (unfold V2P, KERNBASE; rewrite u32_small by lia; lia).
  assert (E1 : u32 (V2P data - V2P KERNLINK) / 4096 = data / 4096 - 524544).
  { rewrite EV. change (V2P KERNLINK) with 1048576. rewrite u32_small by lia. dlia. }
  assert (E2 : u32 (PHYSTOP - V2P data) / 4096 = 581632 - data / 4096).
  { rewrite EV. unfold PHYSTOP. rewrite u32_small by lia. dlia. }
  assert (Hb : 524544 < data / 4096 <= 525312 /\ data = 4096 * (data / 4096)) by dlia.
  unfold kmap, kernel_pte. cbn [kmap_pte].
  unfold covers, entry_pte, entry_first, entry_pages. cbn [virt phys_start phys_end perm].
  rewrite E1, E2, EV.
  change (KERNBASE / 4096) with 524288. change (KERNLINK / 4096) with 524544.
  change (DEVSPACE / 4096) with 1040384. change (u32 (EXTMEM - 0) / 4096) with 256.
  change (u32 (0 - DEVSPACE) / 4096) with 8192. change (V2P KERNLINK) with 1048576.
  change (Z.lor 0 PTE_P) with PTE_P. unfold DEVSPACE.
  repeat (match goal with
    | |- context [?a <? ?b] => destruct (Z.ltb_spec a b)
    | |- context [?a <=? ?b] => destruct (Z.leb_spec a b)
    end; cbn [andb]; try lia).
Qed.

Lemma kernel_pte_slot i : 0 <= i < 1024 -> kslot i = true -> has (kernel_pte (1024 * i)) PTE_P = true.
Proof.
  intros Hi Hs. unfold kslot in Hs. unfold kernel_pte.
  assert (Hal : forall a f, (f = PTE_P \/ f = Z.lor PTE_W PTE_P) -> has (4096 * a + f) PTE_P = true).
  { intros a f Hf. rewrite has_aligned; [by destruct Hf as [->| ->]|by rewrite Z.mul_comm, Z.mod_mul| |done].
    destruct Hf as [->| ->]; done. }
  destruct (Z.ltb_spec (1024 * i) 524288).
  { apply orb_true_iff in Hs as [Hs|Hs]; zbool; lia. }
  destruct (Z.ltb_spec (1024 * i) 581632).
  { apply Hal. destruct ((524544 <=? 1024 * i) && (1024 * i <? data / 4096)); [left; reflexivity|right; reflexivity]. }
  destruct (Z.ltb_spec (1024 * i) 1040384); [|apply Hal; by right].
  apply orb_true_iff in Hs as [Hs|Hs]; zbool; lia.
Qed.

(** With everything mapped, all 64 slots of the kernel half are in use. *)
Lemma kvm_count d k l k' l' : kvm_at kmap d k l k' l' -> npdes (memory k') d = 64.
Proof.
  intros [_ _ C D _ _ _ _ _]. unfold npdes.
  rewrite (filter_bool_ext _ kslot), kslots_64; [done|].
  intros i Hi%elem_of_seqZ. destruct (present (memory k') d i) eqn:Hp.
  - symmetry. apply D; [lia|done].
  - destruct (kslot i) eqn:Hs; [|done].
    pose proof (kernel_pte_slot i ltac:(lia) Hs) as Hh.
    rewrite <- kmap_pte_closed, <- C in Hh by lia.
    unfold pte in Hh. rewrite (Z.mul_comm 1024), Z.div_mul, Hp in Hh by lia. done.
Qed.

(** C34. [setupkvm] fails exactly when fewer than 65 pages are free, and then
    every page it took is back on the free list.  Otherwise it returns a
    directory whose user half is empty and whose kernel half is
    [kernel_pte], in exactly 65 pages of the free list, without touching any
    other page. *)
Theorem setupkvm_correct k l :
  free_pages k l -> kmem_lock ∉ held k -> no_shm_in k 0 NUPAGES ->
  runs setupkvm k (fun d k' => exists l', free_pages k' l' /\ vm_only k k' /\
    (forall q, page_ok q -> (q ∉ l) -> same_page (memory k) (memory k') q) /\
    if decide (length l < 65)%nat then d = 0 /\ l' ≡ₚ l
    else d <> 0 /\ length l = (65 + length l')%nat /\
         (forall n, 0 <= n < 1048576 -> pte (memory k') d n = kernel_pte n)).
Proof.
  intros Hf Hh Hshm. eapply runs_conseq; [apply (setupkvm_runs k l); [done|done|by right]|].
  intros d k' [(-> & Hlen & l' & Hf' & Hp & Hvm & Hs)|(Hd & l' & Hkv)]; exists l'.
  - split; [done|]. split; [done|]. split; [done|]. by rewrite decide_True.
  - pose proof (kvm_count _ _ _ _ _ Hkv) as Hc. destruct Hkv as [A B C D E F G I J].
    split; [done|]. split; [done|]. split; [done|].
    rewrite decide_False by lia. split; [done|]. split; [lia|].
    intros n Hn. rewrite <- kmap_pte_closed by done. by apply C.
Qed.

(** C35. [allocuvm] on a range of unmapped pages: either the size asked for is
    returned and exactly the pages from [oldsz] to [newsz] have been added,
    each on a page of its own from the free list, zeroed, user-writable; or 0
    is returned, no page of the range is mapped, and every page is back except
    the ones that became page tables of this directory.  With a free page for
    every page of the range and every table slot it touches, it succeeds. *)
Theorem allocuvm_correct d oldsz newsz k l lo hi :
  0 <= oldsz <= newsz -> newsz < KERNBASE ->
  4096 * lo = PGROUNDUP oldsz -> hi = (newsz + 4095) / 4096 ->
  free_pages k l -> uvm_wf (memory k) d l -> kmem_lock ∉ held k -> no_shm_in k lo hi ->
  (forall n, lo <= n < hi -> umapped (memory k) d n = false) ->
  runs (allocuvm d oldsz newsz) k (allocuvm_post d lo (Z.max lo hi) newsz k l).
Proof. apply allocuvm_runs. Qed.

End vmlife.

(** ** A concrete kernel: one process with an empty address space, and a pool
    of free pages *)
Definition example_proc (d : Z) : proc :=
  {| sz := 0; pgdir := d; kstack := 0; state := RUNNING; pid := 1; parent := None; tf := 0;
     context := 0; chan := 0; killed := 0; ofile := []; cwd := 0; name := [];
     shm_idx := -1; shm_va := 0 |}.

Definition example_dir : Z := 0x80400000.

Definition example_kernel (n : nat) : kernel :=
  pool (example_dir + 4096) n
    (set_cpu_proc (Some 0%nat) (set_ptable [example_proc example_dir] boot_kernel)).

Section example.
#[local] Existing Instance example_layout.

Lemma example_free n : Z.of_nat n <= 56000 ->
  free_pages (example_kernel n) (pages_from (example_dir + 4096) n).
Proof.
  intros Hn. apply pool_free; [apply boot_bytes|]. unfold example_dir.
  apply pages_from_ok; [reflexivity| |unfold KERNBASE, PHYSTOP; lia]. cbn. lia.
Qed.

Lemma example_fields n : cpu_proc (example_kernel n) = Some 0%nat /\
  ptable (example_kernel n) = [example_proc example_dir] /\ held (example_kernel n) = [].
Proof.
  unfold example_kernel. destruct (pool_only (example_dir + 4096) n
    (set_cpu_proc (Some 0%nat) (set_ptable [example_proc example_dir] boot_kernel))) as (m & fl & ->).
  done.
Qed.

Lemma example_rest n : kmem_lock ∉ held (example_kernel n) /\
  forall lo hi, no_shm_in (example_kernel n) lo hi.
Proof.
  destruct (example_fields n) as (E1 & E2 & E3). rewrite E3. split; [apply not_elem_of_nil|].
  intros lo hi. exists 0%nat, (example_proc example_dir). rewrite E1, E2.
  split; [done|]. split; [done|]. by left.
Qed.

Lemma example_uvm n : Z.of_nat n <= 56000 ->
  uvm_wf (memory (example_kernel n)) example_dir (pages_from (example_dir + 4096) n) /\
  forall p, 0 <= p < 1048576 -> umapped (memory (example_kernel n)) example_dir p = false.
Proof.
  intros Hn. pose proof (example_free n Hn) as Hf. set (m := memory (example_kernel n)).
  assert (Hd : page_ok example_dir).
  { unfold page_ok, example_dir, PGSIZE, KERNBASE, PHYSTOP.
    split; [reflexivity|]. split; [|lia]. change end_ with 0x80115400. lia. }
  assert (Hdn : example_dir ∉ pages_from (example_dir + 4096) n)
    by (intros (i & _ & E)%elem_of_pages_from; unfold example_dir in E; lia).
  assert (Hpr : forall i, 0 <= i < 1024 -> present m example_dir i = false).
  { intros i Hi. unfold present. unfold m, example_kernel.
    rewrite (pde_ext (fun _ => 0)); [done| |done].
    pose proof (pool_frame (example_dir + 4096) n
      (set_cpu_proc (Some 0%nat) (set_ptable [example_proc example_dir] boot_kernel))
      example_dir Hd Hdn (fp_ok _ _ Hf)) as Hs. exact Hs. }
  split.
  - split; [split; [done|done| |]|..].
    + intros i Hi. by rewrite Hpr.
    + intros i j Hi. by rewrite Hpr.
    + intros p Hp. unfold NUPAGES in Hp. unfold umapped, pte.
      rewrite Hpr by (apply vpn_split; lia). done.
    + intros p q Hp. unfold NUPAGES in Hp. unfold umapped at 1, pte.
      rewrite Hpr by (apply vpn_split; lia). done.
  - intros p Hp. unfold umapped, pte. by rewrite Hpr by (by apply vpn_split).
Qed.

Lemma space_life_conserves_witness :
  runs (space_life 20480) (example_kernel 80)
    (fun _ k' => exists l', free_pages k' l' /\ l' ≡ₚ pages_from (example_dir + 4096) 80).
Proof.
  apply (space_life_conserves 20480 (example_kernel 80)).
  - unfold KERNBASE. lia.
  - apply (example_free 80). lia.
  - apply example_rest.
  - apply example_rest.
Defined.

Lemma setupkvm_correct_witness :
  runs setupkvm (example_kernel 80) (fun d k' => exists l', free_pages k' l' /\
    d <> 0 /\ length l' = 15%nat).
Proof.
  eapply runs_conseq.
  - apply (setupkvm_correct (example_kernel 80) (pages_from (example_dir + 4096) 80)).
    + apply (example_free 80). lia.
    + apply example_rest.
    + apply example_rest.
  - intros d k' (l' & Hf & _ & _ & Hr). exists l'. split; [exact Hf|].
    change (length (pages_from (example_dir + 4096) 80)) with 80%nat in Hr.
    cbn in Hr. destruct Hr as (Hd & Hl & _). split; [exact Hd|lia].
Defined.

Lemma allocuvm_correct_witness :
  runs (allocuvm example_dir 0 20480) (example_kernel 8)
    (allocuvm_post example_dir 0 5 20480 (example_kernel 8) (pages_from (example_dir + 4096) 8)).
Proof.
  apply (allocuvm_correct example_dir 0 20480 (example_kernel 8) _ 0 5);
    [lia|unfold KERNBASE; lia|reflexivity|reflexivity| | | | |].
  - apply (example_free 8). lia.
  - apply (example_uvm 8). lia.
  - apply example_rest.
  - apply example_rest.
  - intros n Hn. apply (example_uvm 8); lia.
Defined.

End example.
