(* ===== verification/UserMem.v ===== *)
(** * Reading user memory: translation, fetchint, fetchstr, argptr

    The address translation of the processor agrees with the page-table view,
    and the argument-fetching functions of syscall.c never look outside the
    process. *)
From stdpp Require Import base numbers list sets strings.
From Stdlib Require Import ZArith Lia.
From S2P Require Import Prelude Mmu StringC Kernel Kalloc ShMem Syscall Vm PageTable VmMap VmUser VmSetup VmGrow VmLife.
#[local] Open Scope Z_scope.

Section usermem.
Context `{KernelLayout}.

Lemma translate_pte m d va : page_ok d -> 0 <= va < 4294967296 ->
  translate m (V2P d) va =
    if umapped m d (va / 4096) then Some (frame m d (va / 4096) + va `mod` 4096) else None.
Proof.
  intros Hd Hva. destruct (va_vpn va Hva) as (EX & ET & _).
  unfold translate. rewrite (proj2 (proj2 (proj2 (proj2 (V2P_page d Hd))))).
  change (rd32 m (d + 4 * PDX va)) with (pde m d (PDX va)).
  unfold umapped, frame, pte. rewrite EX. fold (present m d (va / 4096 / 1024)).
  destruct (present m d (va / 4096 / 1024)); [|done].
  fold (tab m d (va / 4096 / 1024)). rewrite ET. by destruct (has _ _).
Qed.

(** The process of this CPU runs on its own page table, and its memory below
    [sz] is present. *)
Record user_ok (k : kernel) (i : nat) (p : proc) : Prop := {
  uo_cpu : cpu_proc k = Some i;
  uo_proc : ptable k !! i = Some p;
  uo_dir : page_ok (pgdir p);
  uo_cr3 : cr3 k = V2P (pgdir p);
  uo_sz : 0 <= sz p <= KERNBASE;
  uo_bytes : bytes_ok (memory k);
  uo_present : forall va, 0 <= va < sz p -> umapped (memory k) (pgdir p) (va / 4096) = true;
}.

(** The byte of the process at [va]. *)
Definition ubyte (k : kernel) (p : proc) (va : Z) : Z :=
  memory k (frame (memory k) (pgdir p) (va / 4096) + va `mod` 4096).

Lemma uload8_eq k i p va : user_ok k i p -> 0 <= va < sz p -> uload8 va k = Ret (ubyte k p va) k.
Proof.
  intros [A B C D E _ F] Hva. unfold KERNBASE in E. unfold uload8, ubyte.
  rewrite D, translate_pte by (done || lia). by rewrite F.
Qed.

Lemma uload32_eq k i p va : user_ok k i p -> 0 <= va -> va + 4 <= sz p ->
  uload32 va k = Ret (le_combine [ubyte k p va; ubyte k p (va + 1); ubyte k p (va + 2); ubyte k p (va + 3)]) k.
Proof.
  intros Hu H0 H1. pose proof (uo_sz _ _ _ Hu) as Hsz. unfold KERNBASE in Hsz.
  unfold uload32, bind, ret. rewrite !u32_small by lia.
  by rewrite !(uload8_eq k i p) by (done || lia).
Qed.

Lemma myproc_user k i p : user_ok k i p -> myproc k = Ret p k.
Proof. intros Hu. by apply (myproc_eq k i p); apply Hu. Qed.

(** The word of the process at [va]. *)
Definition uword (k : kernel) (p : proc) (va : Z) : Z :=
  le_combine [ubyte k p va; ubyte k p (va + 1); ubyte k p (va + 2); ubyte k p (va + 3)].

Lemma uword_range k i p va : user_ok k i p -> 0 <= uword k p va < 4294967296.
Proof.
  intros Hu. unfold uword, ubyte. apply (le_combine_range [_; _; _; _]).
  repeat constructor; apply (uo_bytes _ _ _ Hu).
Qed.

Lemma fetchint_eq k i p addr : user_ok k i p -> 0 <= addr < 4294967296 ->
  fetchint addr k = Ret (if (addr <? sz p) && (addr + 4 <=? sz p) then Some (uword k p addr) else None) k.
Proof.
  intros Hu Ha. pose proof (uo_sz _ _ _ Hu) as Hsz. unfold KERNBASE in Hsz.
  unfold fetchint, bind. rewrite (myproc_user k i p Hu).
  destruct (Z.leb_spec (sz p) addr) as [Hle|Hlt]; cbn [orb].
  - destruct (Z.ltb_spec addr (sz p)); [lia|done].
  - rewrite u32_small by lia. destruct (Z.ltb_spec addr (sz p)); [|lia].
    destruct (Z.ltb_spec (sz p) (addr + 4)), (Z.leb_spec (addr + 4) (sz p)); try lia; [done|].
    cbn [andb]. rewrite (uload32_eq k i p) by (done || lia). done.
Qed.

(** The [n]th argument word is at [esp + 4 + 4n]. *)
Lemma argint_eq k i p n esp : user_ok k i p -> rd32 (memory k) (tf p + tf_esp) = esp ->
  argint n k = fetchint (u32 (esp + 4 + 4 * n)) k.
Proof.
  intros Hu He. unfold argint, bind. rewrite (myproc_user k i p Hu). unfold load32, gets. by rewrite He.
Qed.

(** Bytes from [a] on up to the first NUL, at most [n]. *)
Fixpoint ustrlen (k : kernel) (p : proc) (a : Z) (n : nat) : option nat :=
  match n with
  | O => None
  | S n => if ubyte k p a =? 0 then Some O else option_map S (ustrlen k p (a + 1) n)
  end.

Lemma ustrlen_spec k p n : forall a r, ustrlen k p a n = r ->
  match r with
  | Some len => (len < n)%nat /\ ubyte k p (a + Z.of_nat len) = 0 /\
                forall j, 0 <= j < Z.of_nat len -> ubyte k p (a + j) <> 0
  | None => forall j, 0 <= j < Z.of_nat n -> ubyte k p (a + j) <> 0
  end.
Proof.
  induction n as [|n IH]; intros a r <-; cbn [ustrlen]; [lia|].
  destruct (Z.eqb_spec (ubyte k p a) 0) as [E|E].
  - rewrite Z.add_0_r. split; [lia|]. split; [done|lia].
  - specialize (IH (a + 1) _ eq_refl). destruct (ustrlen k p (a + 1) n) as [len|]; cbn [option_map].
    + destruct IH as (A & B & C). split; [lia|]. split.
      * by replace (a + Z.of_nat (S len)) with (a + 1 + Z.of_nat len) by lia.
      * intros j Hj. destruct (Z.eq_dec j 0) as [->|]; [by rewrite Z.add_0_r|].
        replace (a + j) with (a + 1 + (j - 1)) by lia. apply C. lia.
    + intros j Hj. destruct (Z.eq_dec j 0) as [->|]; [by rewrite Z.add_0_r|].
      replace (a + j) with (a + 1 + (j - 1)) by lia. apply IH. lia.
Qed.

(** What [fetchstr] returns: the string's address and its length, if it ends
    inside the process. *)
Definition fetchstr_spec (k : kernel) (p : proc) (addr : Z) (r : option (Z * Z)) : Prop :=
  match r with
  | Some (a, len) => a = addr /\ 0 <= len /\ addr + len < sz p /\ ubyte k p (addr + len) = 0 /\
                     forall j, 0 <= j < len -> ubyte k p (addr + j) <> 0
  | None => forall va, addr <= va < sz p -> ubyte k p va <> 0
  end.

(** C37. [fetchstr] reads only bytes of the process, always terminates, changes
    nothing, and returns the string at [addr] exactly when it ends below
    [sz]. *)
Theorem fetchstr_correct k i p addr : user_ok k i p -> 0 <= addr < 4294967296 ->
  runs (fetchstr addr) k (fun r k' => k' = k /\ fetchstr_spec k p addr r).
Proof.
  intros Hu Ha. pose proof (uo_sz _ _ _ Hu) as Hsz. unfold KERNBASE in Hsz.
  unfold fetchstr. reqn (myproc_user k i p Hu).
  destruct (Z.leb_spec (sz p) addr) as [Hle|Hlt].
  { apply runs_ret. split; [done|]. intros va Hva. lia. }
  apply (runs_loop (fun s k' => k' = k /\ addr <= s <= sz p /\
           forall j, 0 <= j < s - addr -> ubyte k p (addr + j) <> 0)
         (fun s => Z.to_nat (sz p - s))); [|split; [done|split; lia]|lia].
  intros s k' (-> & Hs & Hnz). destruct (Z.ltb_spec s (sz p)) as [Hlt'|Hge].
  - reqn (uload8_eq k i p s Hu); [lia|]. destruct (Z.eqb_spec (ubyte k p s) 0) as [E|E].
    + apply runs_ret. split; [done|]. split; [done|]. split; [lia|]. split; [lia|].
      replace (addr + (s - addr)) with s by lia. done.
    + apply runs_ret. rewrite u32_small by lia. split; [|lia]. split; [done|]. split; [lia|].
      intros j Hj. destruct (Z.eq_dec j (s - addr)) as [->|]; [|apply Hnz; lia].
      by replace (addr + (s - addr)) with s by lia.
  - apply runs_ret. split; [done|]. intros va Hva.
    replace va with (addr + (va - addr)) by lia. apply Hnz. lia.
Qed.

(** C38. A pointer that [argptr] accepts for a block of [size] bytes points to a
    block that lies entirely inside the process; a negative size, or a block
    that would leave the process, is refused.  The sum is computed in 32 bits
    and never wraps. *)
Theorem argptr_correct k i p n size esp : user_ok k i p ->
  rd32 (memory k) (tf p + tf_esp) = esp -> -2147483648 <= size < 2147483648 ->
  runs (argptr n size) k (fun r k' => k' = k /\
    let a := u32 (esp + 4 + 4 * n) in
    match r with
    | Some ptr => 0 <= size /\ a + 4 <= sz p /\ ptr = uword k p a /\ ptr < sz p /\ ptr + size <= sz p
    | None => size < 0 \/ sz p < a + 4 \/ sz p <= uword k p a \/ sz p < uword k p a + size
    end).
Proof.
  intros Hu He Hsize. pose proof (uo_sz _ _ _ Hu) as Hsz. unfold KERNBASE in Hsz.
  unfold argptr. reqn (myproc_user k i p Hu). apply runs_bind.
  set (a := u32 (esp + 4 + 4 * n)). assert (Ha : 0 <= a < 4294967296) by apply u32_range.
  eexists _, _. split; [rewrite (argint_eq k i p n esp Hu He); by apply (fetchint_eq k i p)|].
  cbv beta. fold a. destruct (Z.ltb_spec a (sz p)) as [H1|H1]; cbn [andb].
  2:{ apply runs_ret. split; [done|]. right. left. lia. }
  destruct (Z.leb_spec (a + 4) (sz p)) as [H2|H2].
  2:{ apply runs_ret. split; [done|]. right. left. lia. }
  destruct (Z.ltb_spec size 0) as [H3|H3]; cbn [orb].
  { apply runs_ret. split; [done|]. by left. }
  destruct (Z.leb_spec (sz p) (uword k p a)) as [H4|H4]; cbn [orb].
  { apply runs_ret. split; [done|]. right. right. by left. }
  pose proof (uword_range k i p a Hu). rewrite u32_small by lia.
  destruct (Z.ltb_spec (sz p) (uword k p a + size)) as [H5|H5].
  { apply runs_ret. split; [done|]. right. right. by right. }
  apply runs_ret. done.
Qed.
End usermem.

(** ** A process with one page of memory *)
Section user_example.
#[local] Existing Instance example_layout.

(** The directory, its table, the user page, and the page of the trap frame. *)
Definition ex_dir : Z := 0x80400000.
Definition ex_tab : Z := 0x80401000.
Definition ex_page : Z := 0x80402000.
Definition ex_kstack : Z := 0x80403000.

Definition user_proc : proc :=
  {| sz := 4096; pgdir := ex_dir; kstack := ex_kstack; state := RUNNING; pid := 2; parent := None;
     tf := ex_kstack + 0xfb4; context := 0; chan := 0; killed := 0; ofile := []; cwd := 0; name := [];
     shm_idx := -1; shm_va := 0 |}.

(** Page 0 is mapped; the stack pointer is 0x100 and the two argument words
    above it are [a0] and [a1]; at 0x200 there is the string "hi". *)
Definition user_mem (a0 a1 : Z) : mem :=
  wr32 (wr32 (wr32 (wr32 (wr32 (wr32 (fun _ => 0)
    (ex_page + 0x200) 0x6968)
    (ex_page + 0x108) a1)
    (ex_page + 0x104) a0)
    (ex_kstack + 0xfb4 + tf_esp) 0x100)
    ex_tab (ex_page - KERNBASE + 7))
    ex_dir (ex_tab - KERNBASE + 7).

Definition user_kernel (a0 a1 : Z) (n : nat) : kernel :=
  pool 0x80410000 n
    (set_cr3 (V2P ex_dir) (set_cpu_proc (Some 0%nat) (set_ptable [user_proc]
      (set_memory (user_mem a0 a1) boot_kernel)))).

Lemma ex_pages_ok : page_ok ex_dir /\ page_ok ex_tab /\ page_ok ex_page /\ page_ok ex_kstack.
Proof.
  unfold page_ok, ex_dir, ex_tab, ex_page, ex_kstack, PGSIZE, KERNBASE, PHYSTOP.
  change end_ with 0x80115400. repeat split; try reflexivity; lia.
Qed.

Lemma user_bytes a0 a1 : bytes_ok (user_mem a0 a1).
Proof. unfold user_mem. repeat apply wr32_bytes. intros x. lia. Qed.

Lemma user_pool a0 a1 n q : page_ok q -> q < 0x80410000 -> Z.of_nat n <= 50000 ->
  same_page (user_mem a0 a1) (memory (user_kernel a0 a1 n)) q.
Proof.
  intros Hq Hlt Hn. pose proof (pool_frame 0x80410000 n
    (set_cr3 (V2P ex_dir) (set_cpu_proc (Some 0%nat) (set_ptable [user_proc]
      (set_memory (user_mem a0 a1) boot_kernel)))) q Hq) as Hs. apply Hs.
  - intros (i & _ & E)%elem_of_pages_from. lia.
  - apply pages_from_ok; [reflexivity|change end_ with 0x80115400; lia|unfold KERNBASE, PHYSTOP; lia].
Qed.

Lemma user_free a0 a1 n : Z.of_nat n <= 50000 ->
  free_pages (user_kernel a0 a1 n) (pages_from 0x80410000 n).
Proof.
  intros Hn. apply pool_free; [apply user_bytes|].
  apply pages_from_ok; [reflexivity|change end_ with 0x80115400; lia|unfold KERNBASE, PHYSTOP; lia].
Qed.

Lemma user_fields a0 a1 n : let k := user_kernel a0 a1 n in
  cpu_proc k = Some 0%nat /\ ptable k = [user_proc] /\ held k = [] /\ cr3 k = V2P ex_dir.
Proof.
  intros k. unfold k, user_kernel. destruct (pool_only 0x80410000 n
    (set_cr3 (V2P ex_dir) (set_cpu_proc (Some 0%nat) (set_ptable [user_proc]
      (set_memory (user_mem a0 a1) boot_kernel))))) as (m & fl & ->). done.
Qed.

Lemma user_view a0 a1 n : Z.of_nat n <= 50000 -> let m := memory (user_kernel a0 a1 n) in
  (forall i, 0 <= i < 1024 -> pde m ex_dir i = if i =? 0 then ex_tab - KERNBASE + 7 else 0) /\
  (forall v, 0 <= v < 1048576 -> pte m ex_dir v = if v =? 0 then ex_page - KERNBASE + 7 else 0).
Proof.
  intros Hn m. destruct ex_pages_ok as (O1 & O2 & O3 & O4).
  assert (Epde : forall i, 0 <= i < 1024 -> pde m ex_dir i = if i =? 0 then ex_tab - KERNBASE + 7 else 0).
  { intros i Hi. rewrite (pde_ext (user_mem a0 a1)); [|apply user_pool; done || lia|done].
    unfold pde, user_mem. destruct (Z.eqb_spec i 0) as [->|Hne].
    - rewrite Z.add_0_r, rd32_wr32_same. reflexivity.
    - unfold ex_dir, ex_tab, ex_page, ex_kstack, tf_esp.
      rewrite !rd32_wr32_diff by lia. reflexivity. }
  split; [done|]. intros v Hv. destruct (vpn_split v Hv) as [Hi Hj]. unfold pte, present, tab.
  rewrite Epde by done. destruct (Z.eqb_spec (v / 1024) 0) as [E0|E0].
  - change (has (ex_tab - KERNBASE + 7) PTE_P) with true. cbv iota.
    change (P2V (PTE_ADDR (ex_tab - KERNBASE + 7))) with ex_tab.
    rewrite (rd32_ext (user_mem a0 a1)).
    2:{ intros x Hx. apply (user_pool a0 a1 n ex_tab O2); [unfold ex_tab; lia|done|lia]. }
    assert (Hv1 : v < 1024) by dlia. replace (v `mod` 1024) with v by dlia. unfold user_mem.
    rewrite rd32_wr32_diff by (unfold ex_dir, ex_tab; lia).
    destruct (Z.eqb_spec v 0) as [->|Hne]; [by rewrite Z.add_0_r, rd32_wr32_same|].
    unfold ex_dir, ex_tab, ex_page, ex_kstack, tf_esp. rewrite !rd32_wr32_diff by lia. reflexivity.
  - change (has 0 PTE_P) with false. cbv iota. destruct (Z.eqb_spec v 0); [dlia|done].
Qed.

Lemma user_uvm a0 a1 n : Z.of_nat n <= 50000 ->
  uvm_wf (memory (user_kernel a0 a1 n)) ex_dir (pages_from 0x80410000 n) /\
  forall v, 0 <= v < 1048576 -> umapped (memory (user_kernel a0 a1 n)) ex_dir v = (v =? 0).
Proof.
  intros Hn. destruct (user_view a0 a1 n Hn) as [Epde Epte]. set (m := memory _) in *.
  destruct ex_pages_ok as (O1 & O2 & O3 & O4).
  assert (Hlow : forall q, q < 0x80410000 -> q ∉ pages_from 0x80410000 n)
    by (intros q Hq (i & _ & E)%elem_of_pages_from; lia).
  assert (Hpr : forall i, 0 <= i < 1024 -> present m ex_dir i = true -> i = 0 /\ tab m ex_dir i = ex_tab).
  { intros i Hi. unfold present, tab. rewrite Epde by done. destruct (Z.eqb_spec i 0); [|done].
    intros _. split; [done|reflexivity]. }
  assert (Hum : forall v, 0 <= v < 1048576 -> umapped m ex_dir v = (v =? 0)).
  { intros v Hv. unfold umapped. rewrite Epte by done. by destruct (v =? 0). }
  split; [|done].
  assert (Hfr : forall v, 0 <= v < NUPAGES -> umapped m ex_dir v = true -> v = 0 /\ frame m ex_dir v = ex_page).
  { intros v Hv Hm. unfold NUPAGES in Hv. rewrite Hum in Hm by lia. zbool. subst v.
    split; [done|]. unfold frame. rewrite Epte by lia. reflexivity. }
  split; [split|..].
  - exact O1.
  - apply Hlow. unfold ex_dir. lia.
  - intros i Hi Hp. destruct (Hpr i Hi Hp) as [_ ->]. split; [exact O2|]. split; [done|].
    apply Hlow. unfold ex_tab. lia.
  - intros i j Hi Hj Hpi Hpj _. destruct (Hpr i Hi Hpi), (Hpr j Hj Hpj). congruence.
  - intros v Hv Hm. destruct (Hfr v Hv Hm) as [_ ->]. split; [exact O3|].
    split; [apply Hlow; unfold ex_page; lia|]. split; [done|].
    intros i Hi Hp. destruct (Hpr i Hi Hp) as [_ ->]. done.
  - intros v w Hv Hw Hm Hm' _. destruct (Hfr v Hv Hm), (Hfr w Hw Hm'). congruence.
Qed.

Lemma user_kernel_ok a0 a1 n : Z.of_nat n <= 50000 -> user_ok (user_kernel a0 a1 n) 0 user_proc.
Proof.
  intros Hn. destruct (user_fields a0 a1 n) as (E1 & E2 & E3 & E4).
  destruct (user_uvm a0 a1 n Hn) as [_ Hum]. split; [done| |apply ex_pages_ok|done| | |].
  - by rewrite E2.
  - unfold KERNBASE. cbn. lia.
  - apply (fp_bytes _ _ (user_free a0 a1 n Hn)).
  - intros va Hva. cbn in Hva |- *. rewrite Hum by dlia. apply Z.eqb_eq. dlia.
Qed.

Lemma fetchstr_correct_witness :
  runs (fetchstr 0x200) (user_kernel 0 0 2) (fun r k' => k' = user_kernel 0 0 2 /\
    fetchstr_spec (user_kernel 0 0 2) user_proc 0x200 r).
Proof. apply (fetchstr_correct _ 0%nat); [apply user_kernel_ok; lia|lia]. Defined.

Lemma argptr_correct_witness :
  runs (argptr 0 16) (user_kernel 0x800 0 2) (fun r k' => k' = user_kernel 0x800 0 2 /\
    let a := u32 (0x100 + 4 + 4 * 0) in
    match r with
    | Some ptr => 0 <= 16 /\ a + 4 <= 4096 /\ ptr = uword (user_kernel 0x800 0 2) user_proc a /\
                  ptr < 4096 /\ ptr + 16 <= 4096
    | None => 16 < 0 \/ 4096 < a + 4 \/ 4096 <= uword (user_kernel 0x800 0 2) user_proc a \/
              4096 < uword (user_kernel 0x800 0 2) user_proc a + 16
    end).
Proof.
  apply (argptr_correct _ 0%nat user_proc 0 16 0x100); [apply user_kernel_ok; lia| |lia].
  vm_compute. reflexivity.
Defined.
End user_example.
