(* ===== verification/Effect.v ===== *)
(** * What a call may change

    [effect c s Q W]: if [c], started in [s], returns, the result and the
    state satisfy [Q]; if it goes to sleep, the state satisfies [W].  Calls
    that panic or fault end the run of the kernel and satisfy everything.
    [quiet c]: whatever [c] does, it leaves the process table, the current
    process and the init process alone; this holds of the whole of kalloc.c,
    sh_mem.c and vm.c, and [quiet_steps] shows it by a walk over the code. *)
From stdpp Require Import base numbers list sets strings.
From Stdlib Require Import ZArith Lia.
From S2P Require Import Prelude Mmu Kernel Kalloc ShMem Syscall Vm.
#[local] Open Scope Z_scope.

Definition effect {S A} (c : M S A) (s : S) (Q : A -> S -> Prop) (W : S -> Prop) : Prop :=
  match c s with
  | Ret a t => Q a t
  | Sleep _ t => W t
  | _ => True
  end.

Section rules.
Context {S : Type}.
Implicit Types W : S -> Prop.

Lemma effect_bind {A B} (c : M S A) (f : A -> M S B) s Q W :
  effect c s (fun a t => effect (f a) t Q W) W -> effect (bind c f) s Q W.
Proof. unfold effect, bind. by destruct (c s). Qed.

Lemma effect_assoc {A B C} (c : M S A) (f : A -> M S B) (g : B -> M S C) s Q W :
  effect (bind c (fun a => bind (f a) g)) s Q W -> effect (bind (bind c f) g) s Q W.
Proof. unfold effect, bind. by destruct (c s). Qed.
Lemma effect_last {A} (c : M S A) s Q W : effect (bind c ret) s Q W -> effect c s Q W.
Proof. unfold effect, bind. by destruct (c s). Qed.
Lemma effect_ret {A} (a : A) s (Q : A -> S -> Prop) W : Q a s -> effect (ret a) s Q W.
Proof. done. Qed.
Lemma effect_gets {A} (f : S -> A) s (Q : A -> S -> Prop) W : Q (f s) s -> effect (gets f) s Q W.
Proof. done. Qed.

Lemma effect_mono {A} (c : M S A) s Q Q' W W' : effect c s Q W ->
  (forall a t, Q a t -> Q' a t) -> (forall t, W t -> W' t) -> effect c s Q' W'.
Proof. unfold effect. destruct (c s); auto. Qed.

Lemma effect_loop {X R} (J : X -> S -> Prop) (Q : R -> S -> Prop) W body :
  (forall x s, J x s -> effect (body x) s (fun r t => match r with inl y => J y t | inr v => Q v t end) W) ->
  forall n x s, J x s -> effect (loop n body x) s Q W.
Proof.
  intros Hb. induction n as [|n IH]; intros x s Hs; [done|]. cbn [loop]. apply effect_bind.
  eapply effect_mono; [by apply Hb| |done]. intros [y|v] t Ht; [by apply IH|done].
Qed.

Lemma effect_for_all {X} (J : S -> Prop) W (l : list X) body :
  (forall x s, x ∈ l -> J s -> effect (body x) s (fun _ => J) W) ->
  forall s, J s -> effect (for_all l body) s (fun _ => J) W.
Proof.
  induction l as [|x l IH]; intros Hb s Hs; [done|]. cbn [for_all]. apply effect_bind.
  eapply effect_mono; [apply Hb; [by left|done]| |done]. intros ? t Ht. cbv beta in Ht.
  apply IH; [|done]. intros y u Hy. apply Hb. by right.
Qed.

Lemma effect_for_each {X R} (J : S -> Prop) W (l : list X) (body : X -> M S (option R)) :
  (forall x s, J s -> effect (body x) s (fun _ => J) W) ->
  forall s, J s -> effect (for_each l body) s (fun _ => J) W.
Proof.
  intros Hb. induction l as [|x l IH]; intros s Hs; [done|]. cbn [for_each]. apply effect_bind.
  eapply effect_mono; [by apply Hb| |done]. intros [v|] t Ht; [done|by apply IH].
Qed.
End rules.

(** ** Calls that leave the processes alone *)
Definition same (k k' : kernel) : Prop :=
  ptable k' = ptable k /\ cpu_proc k' = cpu_proc k /\ initproc k' = initproc k.

#[global] Instance same_preorder : PreOrder same.
Proof. split; [by intros k|]. intros a b c (E1 & E2 & E3) (F1 & F2 & F3). repeat split; congruence. Qed.

Ltac same_trans := intros; cbv beta in *;
  match goal with H1 : same ?k ?a, H2 : same ?a ?t |- _ => exact (transitivity H1 H2) end.

Definition quiet {A} (c : M kernel A) : Prop := forall k, effect c k (fun _ => same k) (same k).

Lemma quiet_ret {A} (a : A) : quiet (ret a).
Proof. by intros k. Qed.
Lemma quiet_panic {A} m : quiet (A := A) (panic m).
Proof. done. Qed.
Lemma quiet_fault {A} m : quiet (A := A) (fault m).
Proof. done. Qed.
Lemma quiet_gets {A} (f : kernel -> A) : quiet (gets f).
Proof. by intros k. Qed.
Lemma quiet_get : quiet get.
Proof. by intros k. Qed.
Lemma quiet_modify f : (forall k, same k (f k)) -> quiet (modify f).
Proof. intros Hf k. apply Hf. Qed.
Lemma quiet_bind {A B} (c : M kernel A) (f : A -> M kernel B) :
  quiet c -> (forall a, quiet (f a)) -> quiet (bind c f).
Proof.
  intros Hc Hf k. apply effect_bind. eapply effect_mono; [apply Hc| |done]. intros a k1 H1. cbv beta.
  eapply effect_mono; [apply Hf|..]; same_trans.
Qed.
Lemma quiet_loop {X R} n (body : X -> M kernel (X + R)) x : (forall y, quiet (body y)) -> quiet (loop n body x).
Proof.
  intros Hb k. apply (effect_loop (fun _ => same k)); [|reflexivity]. intros y k1 H1.
  eapply effect_mono; [apply Hb|..]; [|same_trans]. intros [z|v] k2 H2; same_trans.
Qed.
Lemma quiet_for_each {X R} (l : list X) (body : X -> M kernel (option R)) :
  (forall x, quiet (body x)) -> quiet (for_each l body).
Proof.
  intros Hb k. apply effect_for_each; [|reflexivity]. intros x k1 H1.
  eapply effect_mono; [apply Hb|..]; same_trans.
Qed.
Lemma quiet_for_all {X} (l : list X) body : (forall x, quiet (body x)) -> quiet (for_all l body).
Proof.
  intros Hb k. apply effect_for_all; [|reflexivity]. intros x k1 _ H1.
  eapply effect_mono; [apply Hb|..]; same_trans.
Qed.
Lemma quiet_when b c : quiet c -> quiet (when b c).
Proof. destruct b; [done|intros; apply quiet_ret]. Qed.

Create HintDb quiet discriminated.

Ltac quiet_step :=
  lazymatch goal with
  | |- quiet (bind _ _) => apply quiet_bind; [|intros]
  | |- quiet (ret _) => apply quiet_ret
  | |- quiet (panic _) => apply quiet_panic
  | |- quiet (fault _) => apply quiet_fault
  | |- quiet (gets _) => apply quiet_gets
  | |- quiet get => apply quiet_get
  | |- quiet (modify _) => apply quiet_modify; intros; repeat split; reflexivity
  | |- quiet (when _ _) => apply quiet_when
  | |- quiet (loop _ _ _) => apply quiet_loop; intros
  | |- quiet (for_each _ _) => apply quiet_for_each; intros
  | |- quiet (for_all _ _) => apply quiet_for_all; intros
  | |- quiet (match ?b with _ => _ end) => destruct b
  | |- quiet (let _ := _ in _) => cbv zeta
  | |- quiet _ => progress eauto with quiet nocore
  end.
Ltac quiet_steps := repeat (quiet_step; cbv beta).
(** Code that looks at the state directly. *)
Ltac quiet_raw := intros k; unfold effect; repeat case_match; simplify_eq; repeat split; reflexivity.

Section quiet.
Context `{KernelLayout}.

Lemma quiet_acquire l : quiet (acquire l).
Proof. unfold acquire. quiet_raw. Qed.
Lemma quiet_release l : quiet (release l).
Proof. unfold release. quiet_raw. Qed.
Lemma quiet_store32 a v : quiet (store32 a v).
Proof. unfold store32. quiet_steps. Qed.
Lemma quiet_load32 a : quiet (load32 a).
Proof. unfold load32. quiet_steps. Qed.
Lemma quiet_memset a c n : quiet (memset a c n).
Proof. unfold memset. quiet_steps. Qed.
Lemma quiet_memmove a c n : quiet (memmove a c n).
Proof. unfold memmove. quiet_steps. Qed.
Lemma quiet_myproc : quiet myproc.
Proof. unfold myproc. quiet_raw. Qed.
Hint Resolve quiet_acquire quiet_release quiet_store32 quiet_load32 quiet_memset quiet_memmove quiet_myproc : quiet.

Lemma quiet_kfree v : quiet (kfree v).
Proof. unfold kfree. quiet_steps. Qed.
Lemma quiet_kalloc : quiet kalloc.
Proof. unfold kalloc. quiet_steps. Qed.
Hint Resolve quiet_kfree quiet_kalloc : quiet.

Lemma quiet_shm_at i : quiet (shm_at i).
Proof. unfold shm_at. quiet_raw. Qed.
Lemma quiet_shm_put i e : quiet (shm_put i e).
Proof. unfold shm_put. quiet_steps. Qed.
Hint Resolve quiet_shm_at quiet_shm_put : quiet.
Lemma quiet_shm_add p : quiet (shm_add p).
Proof. unfold shm_add. quiet_steps. Qed.
Lemma quiet_shm_remove p : quiet (shm_remove p).
Proof. unfold shm_remove. quiet_steps. Qed.
Hint Resolve quiet_shm_add quiet_shm_remove : quiet.

Lemma quiet_walkpgdir d va b : quiet (walkpgdir d va b).
Proof. unfold walkpgdir. quiet_steps. Qed.
Hint Resolve quiet_walkpgdir : quiet.
Lemma quiet_mappages d va n pa prm : quiet (mappages d va n pa prm).
Proof. unfold mappages. quiet_steps. Qed.
Lemma quiet_deallocuvm d o n : quiet (deallocuvm d o n).
Proof. unfold deallocuvm, deallocuvm_iter. quiet_steps. Qed.
Hint Resolve quiet_mappages quiet_deallocuvm : quiet.
Lemma quiet_freevm d : quiet (freevm d).
Proof. unfold freevm. quiet_steps. Qed.
Hint Resolve quiet_freevm : quiet.
Lemma quiet_setupkvm : quiet setupkvm.
Proof. unfold setupkvm. quiet_steps. Qed.
Lemma quiet_switchkvm : quiet switchkvm.
Proof. unfold switchkvm. quiet_steps. Qed.
Lemma quiet_switchuvm p : quiet (switchuvm p).
Proof. unfold switchuvm. quiet_steps. Qed.
Lemma quiet_allocuvm d o n : quiet (allocuvm d o n).
Proof. unfold allocuvm, allocuvm_iter. quiet_steps. Qed.
Lemma quiet_allocuvm_lazy d o n : quiet (allocuvm_lazy d o n).
Proof. unfold allocuvm_lazy. quiet_steps. Qed.
Lemma quiet_memmove_from_user a b n : quiet (memmove_from_user a b n).
Proof. unfold memmove_from_user, memmove, modify. quiet_raw. Qed.
Hint Resolve quiet_setupkvm quiet_memmove_from_user : quiet.
Lemma quiet_copy_pte i a b j : quiet (copy_pte i a b j).
Proof. unfold copy_pte. quiet_steps. Qed.
Hint Resolve quiet_copy_pte : quiet.
Lemma quiet_copyuvm d n : quiet (copyuvm d n).
Proof. unfold copyuvm. quiet_steps. Qed.
End quiet.
#[export] Hint Resolve quiet_acquire quiet_release quiet_store32 quiet_load32 quiet_memset quiet_memmove
  quiet_myproc quiet_kfree quiet_kalloc quiet_shm_add quiet_shm_remove quiet_walkpgdir quiet_mappages
  quiet_deallocuvm quiet_freevm quiet_setupkvm quiet_switchkvm quiet_switchuvm quiet_allocuvm
  quiet_allocuvm_lazy quiet_copyuvm : quiet.
