(* ===== verification/Proc.v ===== *)
(** * proc.c and sysproc.c: processes

    The operations of proc.c as they run on one CPU.  [sched] ends the run of
    the current kernel thread with the outcome [Sleep]: what follows a call of
    [sched] runs when the scheduler switches back, and is a definition of its
    own ([sleep_resume], [yield_resume], [wait] again after a sleep).  The
    file-system calls are an interface, [FileOps]. *)
From stdpp Require Import base numbers list sets strings.
From Stdlib Require Import ZArith Lia.
From S2P Require Import Prelude Mmu StringC Kernel Kalloc ShMem Syscall Vm.
#[local] Open Scope Z_scope.

(** Link-time addresses: trapret (trapasm.S), forkret, the slots of
    [ptable.proc], [ticks], and the embedded initcode. *)
Class KernelSymbols := {
  trapret : Z;
  forkret_addr : Z;
  proc_addr : nat -> Z;
  ticks_addr : Z;
  initcode_start : Z;
  initcode_size : Z;
  proc_addr_inj : forall i j, proc_addr i = proc_addr j -> i = j;
  proc_addr_nonzero : forall i, proc_addr i <> 0;
  proc_addr_ticks : forall i, proc_addr i <> ticks_addr;
}.

(** What proc.c calls of file.c, fs.c and log.c, on the pointers that a
    process holds to open files and to its directory. *)
Class FileOps := {
  filedup : Z -> M kernel Z;
  fileclose : Z -> M kernel unit;
  idup : Z -> M kernel Z;
  iput : Z -> M kernel unit;
  begin_op : M kernel unit;
  end_op : M kernel unit;
  namei_root : M kernel Z;
  iinit : M kernel unit;
  initlog : M kernel unit;
}.

(** ** Assignments to the fields of a [struct proc] *)
Definition p_sz v p := mkproc v (pgdir p) (kstack p) (state p) (pid p) (parent p) (tf p) (context p)
  (chan p) (killed p) (ofile p) (cwd p) (name p) (shm_idx p) (shm_va p).
Definition p_pgdir v p := mkproc (sz p) v (kstack p) (state p) (pid p) (parent p) (tf p) (context p)
  (chan p) (killed p) (ofile p) (cwd p) (name p) (shm_idx p) (shm_va p).
Definition p_kstack v p := mkproc (sz p) (pgdir p) v (state p) (pid p) (parent p) (tf p) (context p)
  (chan p) (killed p) (ofile p) (cwd p) (name p) (shm_idx p) (shm_va p).
Definition p_state v p := mkproc (sz p) (pgdir p) (kstack p) v (pid p) (parent p) (tf p) (context p)
  (chan p) (killed p) (ofile p) (cwd p) (name p) (shm_idx p) (shm_va p).
Definition p_pid v p := mkproc (sz p) (pgdir p) (kstack p) (state p) v (parent p) (tf p) (context p)
  (chan p) (killed p) (ofile p) (cwd p) (name p) (shm_idx p) (shm_va p).
Definition p_parent v p := mkproc (sz p) (pgdir p) (kstack p) (state p) (pid p) v (tf p) (context p)
  (chan p) (killed p) (ofile p) (cwd p) (name p) (shm_idx p) (shm_va p).
Definition p_tf v p := mkproc (sz p) (pgdir p) (kstack p) (state p) (pid p) (parent p) v (context p)
  (chan p) (killed p) (ofile p) (cwd p) (name p) (shm_idx p) (shm_va p).
Definition p_context v p := mkproc (sz p) (pgdir p) (kstack p) (state p) (pid p) (parent p) (tf p) v
  (chan p) (killed p) (ofile p) (cwd p) (name p) (shm_idx p) (shm_va p).
Definition p_chan v p := mkproc (sz p) (pgdir p) (kstack p) (state p) (pid p) (parent p) (tf p) (context p)
  v (killed p) (ofile p) (cwd p) (name p) (shm_idx p) (shm_va p).
Definition p_killed v p := mkproc (sz p) (pgdir p) (kstack p) (state p) (pid p) (parent p) (tf p) (context p)
  (chan p) v (ofile p) (cwd p) (name p) (shm_idx p) (shm_va p).
Definition p_ofile v p := mkproc (sz p) (pgdir p) (kstack p) (state p) (pid p) (parent p) (tf p) (context p)
  (chan p) (killed p) v (cwd p) (name p) (shm_idx p) (shm_va p).
Definition p_cwd v p := mkproc (sz p) (pgdir p) (kstack p) (state p) (pid p) (parent p) (tf p) (context p)
  (chan p) (killed p) (ofile p) v (name p) (shm_idx p) (shm_va p).
Definition p_name v p := mkproc (sz p) (pgdir p) (kstack p) (state p) (pid p) (parent p) (tf p) (context p)
  (chan p) (killed p) (ofile p) (cwd p) v (shm_idx p) (shm_va p).
Definition p_shm i v p := mkproc (sz p) (pgdir p) (kstack p) (state p) (pid p) (parent p) (tf p) (context p)
  (chan p) (killed p) (ofile p) (cwd p) (name p) i v.

Section proc.
Context `{KernelLayout} `{KernelSymbols} `{FileOps}.

Definition upd (i : nat) (f : proc -> proc) : M kernel unit :=
  modify (fun k => set_ptable (alter f i (ptable k)) k).
Definition proc_at (i : nat) : M kernel proc :=
  fun k => match ptable k !! i with
           | Some p => Ret p k
           | None => Fault "ptable index" k
           end.
(** [myproc()] as a pointer. *)
Definition curproc_ptr : M kernel nat :=
  fun k => match cpu_proc k with
           | Some i => Ret i k
           | None => Fault "myproc() is null" k
           end.

(** ** Process identifiers *)
Fixpoint mark_pids (t : list proc) (pids : list Z) : option (list Z) :=
  match t with
  | [] => Some pids
  | p :: t =>
      if decide (state p = UNUSED) then mark_pids t pids
      else if (0 <=? pid p) && (pid p <? NPROC)
           then mark_pids t (<[Z.to_nat (pid p) := 1]> pids)
           else None
  end.

Definition get_smallest_pid : M kernel Z :=
  t <- gets ptable ;;
  match mark_pids t (replicate (Z.to_nat NPROC) 0) with
  | None => fault "pids[] out of bounds"
  | Some pids =>
      ret (match list_find (fun v => v = 0) pids with
           | Some (i, _) => Z.of_nat i
           | None => -1
           end)
  end.

(** sizeof(struct context), and the offset of its eip. *)
Definition sizeof_context : Z := 20.
Definition context_eip : Z := 16.

Definition allocproc : M kernel (option nat) :=
  acquire ptable_lock ;;;
  t <- gets ptable ;;
  match list_find (fun p => state p = UNUSED) t with
  | None => release ptable_lock ;;; ret None
  | Some (i, _) =>
      upd i (p_state EMBRYO) ;;;
      n <- get_smallest_pid ;;
      upd i (p_pid n) ;;;
      release ptable_lock ;;;
      ks <- kalloc ;;
      upd i (p_kstack ks) ;;;
      if ks =? 0 then
        upd i (p_state UNUSED) ;;; ret None
      else
        let sp := ks + KSTACKSIZE in
        let sp := sp - sizeof_trapframe in
        upd i (p_tf sp) ;;;
        let sp := sp - 4 in
        store32 sp trapret ;;;
        let sp := sp - sizeof_context in
        upd i (p_context sp) ;;;
        memset sp 0 sizeof_context ;;;
        store32 (sp + context_eip) forkret_addr ;;;
        upd i (p_shm (-1) 0) ;;;
        ret (Some i)
  end.

(** The 16-byte [name] arrays are copied by [safestrcpy]. *)
Definition NAMELEN : Z := 16.
Definition name_mem (dst src : list Z) : mem := fun x =>
  if x <? NAMELEN then default 0 (dst !! Z.to_nat x) else default 0 (src !! Z.to_nat (x - NAMELEN)).
Definition copy_name (dst src : list Z) : list Z :=
  safestrcpy (name_mem dst src) 0 NAMELEN NAMELEN <$> seqZ 0 NAMELEN.

(** Offsets of the segment and control registers in [struct trapframe]. *)
Definition tf_es : Z := 40.
Definition tf_ds : Z := 44.
Definition tf_eip : Z := 56.
Definition tf_cs : Z := 60.
Definition tf_eflags : Z := 64.
Definition tf_ss : Z := 72.
Definition SEG_UCODE : Z := 3.
Definition SEG_UDATA : Z := 4.
Definition DPL_USER : Z := 3.
Definition FL_IF : Z := 0x200.

Definition userinit : M kernel unit :=
  p <- allocproc ;;
  modify (set_initproc p) ;;;
  match p with
  | None => fault "userinit: null process"
  | Some i =>
      d <- setupkvm ;;
      upd i (p_pgdir d) ;;;
      if d =? 0 then panic "userinit: out of memory?"
      else
        inituvm d initcode_start initcode_size ;;;
        upd i (p_sz PGSIZE) ;;;
        q <- proc_at i ;;
        memset (tf q) 0 sizeof_trapframe ;;;
        store32 (tf q + tf_cs) (Z.lor (Z.shiftl SEG_UCODE 3) DPL_USER) ;;;
        store32 (tf q + tf_ds) (Z.lor (Z.shiftl SEG_UDATA 3) DPL_USER) ;;;
        store32 (tf q + tf_es) (Z.lor (Z.shiftl SEG_UDATA 3) DPL_USER) ;;;
        store32 (tf q + tf_ss) (Z.lor (Z.shiftl SEG_UDATA 3) DPL_USER) ;;;
        store32 (tf q + tf_eflags) FL_IF ;;;
        store32 (tf q + tf_esp) PGSIZE ;;;
        store32 (tf q + tf_eip) 0 ;;;
        upd i (fun p => p_name (copy_name (name p) [105; 110; 105; 116; 99; 111; 100; 101; 0]) p) ;;;
        ip <- namei_root ;;
        upd i (p_cwd ip) ;;;
        acquire ptable_lock ;;;
        upd i (p_state RUNNABLE) ;;;
        release ptable_lock
  end.

Definition growproc (n : Z) : M kernel Z :=
  me <- curproc_ptr ;;
  cur <- proc_at me ;;
  r <- (if 0 <? n then
          s <- allocuvm (pgdir cur) (sz cur) (u32 (sz cur + n)) ;;
          ret (if s =? 0 then None else Some s)
        else if n <? 0 then
          s <- deallocuvm (pgdir cur) (sz cur) (u32 (sz cur + n)) ;;
          ret (if s =? 0 then None else Some s)
        else ret (Some (sz cur))) ;;
  match r with
  | None => ret (-1)
  | Some s =>
      upd me (p_sz s) ;;;
      cur <- proc_at me ;;
      switchuvm (Some cur) ;;;
      ret 0
  end.

Definition growproc_lazy (n : Z) : M kernel Z :=
  me <- curproc_ptr ;;
  cur <- proc_at me ;;
  r <- (if 0 <? n then
          s <- allocuvm_lazy (pgdir cur) (sz cur) (u32 (sz cur + n)) ;;
          ret (if s =? 0 then None else Some s)
        else if n <? 0 then
          s <- deallocuvm (pgdir cur) (sz cur) (u32 (sz cur + n)) ;;
          ret (if s =? 0 then None else Some s)
        else ret (Some (sz cur))) ;;
  match r with
  | None => ret (-1)
  | Some s =>
      upd me (p_sz s) ;;;
      cur <- proc_at me ;;
      switchuvm (Some cur) ;;;
      ret 0
  end.

(** [fork], with the copy of the address space as an argument: [sys_cow_fork]
    is the same function. *)
Definition fork_with (copyuvm : Z -> Z -> M kernel Z) : M kernel Z :=
  me <- curproc_ptr ;;
  np <- allocproc ;;
  match np with
  | None => ret (-1)
  | Some i =>
      cur <- proc_at me ;;
      d <- copyuvm (pgdir cur) (sz cur) ;;
      upd i (p_pgdir d) ;;;
      if d =? 0 then
        q <- proc_at i ;;
        kfree (kstack q) ;;;
        upd i (p_kstack 0) ;;;
        upd i (p_state UNUSED) ;;;
        ret (-1)
      else
        upd i (p_sz (sz cur)) ;;;
        upd i (p_parent (Some me)) ;;;
        q <- proc_at i ;;
        memmove (tf q) (tf cur) sizeof_trapframe ;;;
        store32 (tf q + tf_eax) 0 ;;;
        for_all (seq 0 (Z.to_nat NOFILE)) (fun j =>
          match ofile cur !! j with
          | None => fault "ofile index"
          | Some f =>
              when (negb (f =? 0)) (
                f' <- filedup f ;;
                upd i (fun q => p_ofile (<[j := f']> (ofile q)) q))
          end) ;;;
        c <- idup (cwd cur) ;;
        upd i (p_cwd c) ;;;
        upd i (fun q => p_name (copy_name (name q) (name cur)) q) ;;;
        q <- proc_at i ;;
        let n := pid q in
        upd i (p_shm (shm_idx cur) (shm_va cur)) ;;;
        acquire ptable_lock ;;;
        upd i (p_state RUNNABLE) ;;;
        release ptable_lock ;;;
        ret n
  end.
Definition fork : M kernel Z := fork_with copyuvm.
Definition sys_cow_fork : M kernel Z := fork_with copyuvm.

(** ** Sleeping and waking *)
Definition wakeup1 (ch : Z) : M kernel unit :=
  modify (fun k => set_ptable ((fun p =>
    if decide (state p = SLEEPING /\ chan p = ch) then p_state RUNNABLE p else p) <$> ptable k) k).

Definition wakeup (ch : Z) : M kernel unit :=
  acquire ptable_lock ;;; wakeup1 ch ;;; release ptable_lock.

(** The checks of [sched], then the switch. *)
Definition sched {A} : M kernel A :=
  p <- myproc ;;
  fun k =>
    if decide (ptable_lock ∈ held k) then
      if decide (length (held k) = 1%nat) then
        if decide (state p = RUNNING) then Panic "sched running" k
        else Sleep (chan p) k
      else Panic "sched locks" k
    else Panic "sched ptable.lock" k.

Definition yield : M kernel unit :=
  acquire ptable_lock ;;;
  me <- curproc_ptr ;;
  upd me (p_state RUNNABLE) ;;;
  sched.
Definition yield_resume : M kernel unit := release ptable_lock.

Definition sleep {A} (ch : Z) (lk : lockid) : M kernel A :=
  me <- (fun k => match cpu_proc k with Some i => Ret i k | None => Panic "sleep" k end) ;;
  (if decide (lk = ptable_lock) then ret tt
   else acquire ptable_lock ;;; release lk) ;;;
  upd me (p_chan ch) ;;;
  upd me (p_state SLEEPING) ;;;
  sched.
Definition sleep_resume (lk : lockid) : M kernel unit :=
  me <- curproc_ptr ;;
  upd me (p_chan 0) ;;;
  if decide (lk = ptable_lock) then ret tt
  else release ptable_lock ;;; acquire lk.

(** ** exit, wait, kill *)
Definition exit {A} : M kernel A :=
  me <- curproc_ptr ;;
  ini <- gets initproc ;;
  if decide (ini = Some me) then panic "init exiting"
  else
    for_all (seq 0 (Z.to_nat NOFILE)) (fun fd =>
      cur <- proc_at me ;;
      match ofile cur !! fd with
      | None => fault "ofile index"
      | Some f => when (negb (f =? 0)) (fileclose f ;;; upd me (fun p => p_ofile (<[fd := 0]> (ofile p)) p))
      end) ;;;
    begin_op ;;;
    cur <- proc_at me ;;
    iput (cwd cur) ;;;
    end_op ;;;
    upd me (p_cwd 0) ;;;
    acquire ptable_lock ;;;
    cur <- proc_at me ;;
    wakeup1 (match parent cur with Some i => proc_addr i | None => 0 end) ;;;
    for_all (seq 0 (Z.to_nat NPROC)) (fun i =>
      p <- proc_at i ;;
      if decide (parent p = Some me) then
        upd i (p_parent ini) ;;;
        (if decide (state p = ZOMBIE)
         then wakeup1 (match ini with Some j => proc_addr j | None => 0 end)
         else ret tt)
      else ret tt) ;;;
    upd me (p_state ZOMBIE) ;;;
    sched.

(** One scan of the process table by [wait], with the lock held. *)
Definition wait_scan (me : nat) : M kernel (bool * option Z) :=
  r <- loop (S (Z.to_nat NPROC)) (fun '(i, havekids) =>
    if decide (i < Z.to_nat NPROC)%nat then
      p <- proc_at i ;;
      if decide (parent p = Some me) then
        if decide (state p = ZOMBIE) then
          let n := pid p in
          kfree (kstack p) ;;;
          upd i (p_kstack 0) ;;;
          freevm (pgdir p) ;;;
          upd i (p_pid 0) ;;;
          upd i (p_parent None) ;;;
          upd i (fun p => p_name (<[0%nat := 0]> (name p)) p) ;;;
          upd i (p_killed 0) ;;;
          upd i (p_state UNUSED) ;;;
          ret (inr (true, Some n))
        else ret (inl (S i, true))
      else ret (inl (S i, havekids))
    else ret (inr (havekids, None))) (0%nat, false) ;;
  ret r.

(** The rest of the loop of [wait]: return, or sleep; when the sleep ends the
    scan starts again. *)
Definition wait_loop : M kernel Z :=
  me <- curproc_ptr ;;
  r <- wait_scan me ;;
  let '(havekids, found) := r in
  match found with
  | Some n => release ptable_lock ;;; ret n
  | None =>
      cur <- proc_at me ;;
      if negb havekids || negb (killed cur =? 0)
      then release ptable_lock ;;; ret (-1)
      else sleep (proc_addr me) ptable_lock
  end.
Definition wait : M kernel Z := acquire ptable_lock ;;; wait_loop.
Definition wait_resume : M kernel Z := sleep_resume ptable_lock ;;; wait_loop.

Definition kill (n : Z) : M kernel Z :=
  acquire ptable_lock ;;;
  t <- gets ptable ;;
  match list_find (fun p => pid p = n) t with
  | None => release ptable_lock ;;; ret (-1)
  | Some (i, p) =>
      upd i (p_killed 1) ;;;
      (if decide (state p = SLEEPING) then upd i (p_state RUNNABLE) else ret tt) ;;;
      release ptable_lock ;;;
      ret 0
  end.

(** ** The scheduler *)

(** One turn of [scheduler]'s inner loop at slot [i]: switch to the process,
    or skip it.  [swtch] is where the chosen process runs, until it calls
    [sched]; [schedule_back] is what the scheduler does then. *)
Definition schedule_to (i : nat) : M kernel bool :=
  p <- proc_at i ;;
  if decide (state p = RUNNABLE) then
    modify (set_cpu_proc (Some i)) ;;;
    switchuvm (Some p) ;;;
    upd i (p_state RUNNING) ;;;
    ret true
  else ret false.
Definition schedule_back : M kernel unit :=
  switchkvm ;;; modify (set_cpu_proc None).

Definition forkret (first : bool) : M kernel unit :=
  release ptable_lock ;;;
  if first then iinit ;;; initlog else ret tt.

(** ** sysproc.c *)
Definition sys_fork : M kernel Z := fork.
Definition sys_exit : M kernel Z := exit.
Definition sys_wait : M kernel Z := wait.
Definition sys_kill : M kernel Z :=
  a <- argint 0 ;;
  match a with None => ret (-1) | Some n => kill (s32 n) end.
Definition sys_getpid : M kernel Z := p <- myproc ;; ret (pid p).
Definition sys_sbrk : M kernel Z :=
  a <- argint 0 ;;
  match a with
  | None => ret (-1)
  | Some n =>
      p <- myproc ;;
      let addr := sz p in
      r <- growproc (s32 n) ;;
      if r <? 0 then ret (-1) else ret addr
  end.

(** The loop of [sys_sleep] with [tickslock] held. *)
Definition sys_sleep_loop (ticks0 n : Z) : M kernel Z :=
  t <- gets ticks ;;
  if u32 (t - ticks0) <? u32 n then
    p <- myproc ;;
    if negb (killed p =? 0) then release tickslock ;;; ret (-1)
    else sleep ticks_addr tickslock
  else release tickslock ;;; ret 0.
Definition sys_sleep : M kernel Z :=
  a <- argint 0 ;;
  match a with
  | None => ret (-1)
  | Some n =>
      acquire tickslock ;;;
      t0 <- gets ticks ;;
      sys_sleep_loop t0 (s32 n)
  end.
Definition sys_sleep_resume (ticks0 n : Z) : M kernel Z :=
  sleep_resume tickslock ;;; sys_sleep_loop ticks0 n.

Definition sys_uptime : M kernel Z :=
  acquire tickslock ;;;
  x <- gets ticks ;;
  release tickslock ;;;
  ret x.

(** ** Shared pages *)
Definition map_last_page (p0 prm : Z) : M kernel Z :=
  p <- myproc ;;
  r <- for_each (reverse (seqZ 0 (Z.shiftr KERNBASE PDXSHIFT))) (fun i =>
    e <- load32 (pde_addr (pgdir p) i) ;;
    ok <- (if has e PTE_P then ret true
           else
             t <- kalloc ;;
             if t =? 0 then ret false
             else
               memset t 0 PGSIZE ;;;
               store32 (pde_addr (pgdir p) i) (Z.lor (Z.lor (Z.lor (V2P t) PTE_P) PTE_W) PTE_U) ;;;
               ret true) ;;
    if negb ok then ret (Some 0)
    else
      e <- load32 (pde_addr (pgdir p) i) ;;
      let pgtable := P2V (PTE_ADDR e) in
      for_each (reverse (seqZ 0 NPTENTRIES)) (fun j =>
        v <- load32 (pgtable + 4 * j) ;;
        if has v PTE_P then ret None
        else
          store32 (pgtable + 4 * j) (Z.lor (Z.lor p0 PTE_P) prm) ;;;
          switchuvm (Some p) ;;;
          ret (Some (PGADDR i j 0)))) ;;
  match r with Some v => ret v | None => ret 0 end.

Definition sys_shm_open : M kernel Z :=
  me <- curproc_ptr ;;
  p <- proc_at me ;;
  if negb (shm_va p =? 0) then ret (shm_va p)
  else
    va <- kalloc ;;
    if va =? 0 then ret 0
    else
      let pa := V2P va in
      uva <- map_last_page pa (Z.lor PTE_U PTE_W) ;;
      if uva =? 0 then ret 0
      else
        idx <- shm_add pa ;;
        if idx <? 0 then ret 0
        else
          upd me (p_shm idx uva) ;;;
          ret uva.

Definition sys_shm_get : M kernel Z := p <- myproc ;; ret (shm_va p).

(** [eax] is what the register holds when the function falls off its end. *)
Definition sys_shm_close (eax : Z) : M kernel Z :=
  me <- curproc_ptr ;;
  p <- proc_at me ;;
  if shm_va p =? 0 then ret (-1)
  else
    e <- load32 (pde_addr (pgdir p) (PDX (shm_va p))) ;;
    if negb (has e PTE_P) then fault "null pte"
    else
      let pte := P2V (PTE_ADDR e) + 4 * PTX (shm_va p) in
      v <- load32 pte ;;
      r <- shm_remove (PTE_ADDR v) ;;
      if r <? 0 then ret (-1)
      else
        store32 pte 0 ;;;
        upd me (p_shm (-1) 0) ;;;
        ret eax.
End proc.

(** ** A concrete link map, and files that do nothing *)
Definition example_symbols : KernelSymbols.
Proof.
  refine {| trapret := 0x80106000; forkret_addr := 0x80103900;
            proc_addr i := 0x80110000 + 148 * Z.of_nat i; ticks_addr := 0x80114000 - 1;
            initcode_start := 0x8010a460; initcode_size := 44 |}; intros; lia.
Defined.

Definition example_files : FileOps :=
  {| filedup f := ret f; fileclose _ := ret tt; idup i := ret i; iput _ := ret tt;
     begin_op := ret tt; end_op := ret tt; namei_root := ret 1; iinit := ret tt;
     initlog := ret tt |}.

