(* ===== verification/ProcTable.v ===== *)
(** * The process table as a state machine

    The critical sections of proc.c, each a step of the table, and the
    invariant that every step preserves.  That the functions of the file
    [Proc] take these steps is shown in [ProcRefine]. *)
From stdpp Require Import base numbers list sets strings relations.
From Stdlib Require Import ZArith Lia.
From S2P Require Import Prelude Mmu StringC Kernel Kalloc ShMem Syscall Vm Proc.
#[local] Open Scope Z_scope.

(** Alive: can run, now or later. *)
Definition alive (s : procstate) : bool :=
  match s with SLEEPING | RUNNABLE | RUNNING => true | _ => false end.

Section table.
Context `{KernelSymbols}.

Definition wake (ch : Z) (p : proc) : proc :=
  if decide (state p = SLEEPING /\ chan p = ch) then p_state RUNNABLE p else p.

(** [exit]'s loop over the children of [me]. *)
Definition adopt (me ini : nat) (t : list proc) : list proc :=
  let zombie_child := existsb (fun p => bool_decide (parent p = Some me /\ state p = ZOMBIE)) t in
  let t1 := (fun p => if decide (parent p = Some me) then p_parent (Some ini) p else p) <$> t in
  if zombie_child then wake (proc_addr ini) <$> t1 else t1.

(** The pid that [get_smallest_pid] computes. *)
Definition smallest_pid (t : list proc) : option Z :=
  pids ← mark_pids t (replicate (Z.to_nat NPROC) 0);
  Some (match list_find (fun v => v = 0) pids with Some (i, _) => Z.of_nat i | None => -1 end).

(** One critical section, or one write outside the lock by the slot's owner.
    [ini] is the slot of the init process. *)
Inductive pstep (ini : nat) : list proc -> list proc -> Prop :=
| ps_alloc t i p n :
    t !! i = Some p -> state p = UNUSED ->
    smallest_pid (<[i := p_state EMBRYO p]> t) = Some n ->
    pstep ini t (<[i := p_pid n (p_state EMBRYO p)]> t)
| ps_alloc_fail t i p :
    t !! i = Some p -> state p = EMBRYO -> parent p = None ->
    pstep ini t (<[i := p_state UNUSED p]> t)
| ps_parent t i p me q :
    t !! i = Some p -> state p = EMBRYO -> t !! me = Some q -> state q = RUNNING ->
    pstep ini t (<[i := p_parent (Some me) p]> t)
| ps_ready t i p :
    t !! i = Some p -> state p = EMBRYO -> (parent p <> None \/ i = ini) ->
    pstep ini t (<[i := p_state RUNNABLE p]> t)
| ps_private t i p p' :
    t !! i = Some p -> state p' = state p -> pid p' = pid p -> parent p' = parent p ->
    chan p' = chan p ->
    pstep ini t (<[i := p']> t)
| ps_schedule t i p :
    t !! i = Some p -> state p = RUNNABLE -> pstep ini t (<[i := p_state RUNNING p]> t)
| ps_yield t me p :
    t !! me = Some p -> state p = RUNNING -> pstep ini t (<[me := p_state RUNNABLE p]> t)
| ps_sleep t me p ch :
    t !! me = Some p -> state p = RUNNING -> ch <> proc_addr me ->
    pstep ini t (<[me := p_state SLEEPING (p_chan ch p)]> t)
| ps_wait t me p :
    t !! me = Some p -> state p = RUNNING ->
    Forall (fun c => ~ (parent c = Some me /\ state c = ZOMBIE)) t ->
    pstep ini t (<[me := p_state SLEEPING (p_chan (proc_addr me) p)]> t)
| ps_resume t me p :
    t !! me = Some p -> state p = RUNNING -> pstep ini t (<[me := p_chan 0 p]> t)
| ps_wakeup t ch : pstep ini t (wake ch <$> t)
| ps_kill t i p :
    t !! i = Some p ->
    pstep ini t (<[i := (if decide (state p = SLEEPING) then p_state RUNNABLE else id) (p_killed 1 p)]> t)
| ps_exit t me p q :
    t !! me = Some p -> state p = RUNNING -> me <> ini -> parent p = Some q ->
    pstep ini t (alter (p_state ZOMBIE) me (adopt me ini (wake (proc_addr q) <$> t)))
| ps_reap t me p i c :
    t !! me = Some p -> state p = RUNNING -> t !! i = Some c -> parent c = Some me ->
    state c = ZOMBIE ->
    pstep ini t (<[i := p_state UNUSED (p_parent None (p_pid 0 c))]> t).

(** ** The invariant *)
Record table_inv (ini : nat) (t : list proc) : Prop := {
  ti_pids : forall i j p q, t !! i = Some p -> t !! j = Some q ->
     state p <> UNUSED -> state q <> UNUSED -> pid p = pid q -> i = j;
  ti_parent : forall i p, t !! i = Some p -> state p <> UNUSED -> i <> ini ->
     state p <> EMBRYO -> exists q, parent p = Some q;
  ti_parent_alive : forall i p q, t !! i = Some p -> parent p = Some q ->
     exists pq, t !! q = Some pq /\ alive (state pq) = true;
  ti_unused : forall i p, t !! i = Some p -> state p = UNUSED -> parent p = None;
  ti_init : exists p, t !! ini = Some p /\ alive (state p) = true /\ parent p = None;
  ti_self : forall i p, t !! i = Some p -> parent p <> Some i;
  ti_wait : forall i p c j, t !! i = Some p -> state p = SLEEPING -> chan p = proc_addr i ->
     t !! j = Some c -> parent c = Some i -> state c <> ZOMBIE;
}.

(** Replacing slot [i] by [p'] where the change is harmless. *)
Lemma inv_update ini t i p p' :
  table_inv ini t -> t !! i = Some p ->
  (state p' <> UNUSED -> state p <> UNUSED /\ pid p' = pid p \/
     (forall j q, t !! j = Some q -> j <> i -> state q <> UNUSED -> pid q <> pid p')) ->
  (state p' <> UNUSED -> state p' <> EMBRYO -> i <> ini -> exists q, parent p' = Some q) ->
  (forall q, parent p' = Some q -> exists pq, <[i := p']> t !! q = Some pq /\ alive (state pq) = true) ->
  (state p' = UNUSED -> parent p' = None) ->
  (alive (state p) = true -> alive (state p') = true) ->
  (parent p' <> Some i) -> (i = ini -> parent p' = parent p) ->
  (state p' = SLEEPING -> chan p' = proc_addr i ->
     forall j c, <[i := p']> t !! j = Some c -> parent c = Some i -> state c <> ZOMBIE) ->
  (state p' = ZOMBIE -> state p = ZOMBIE /\ parent p' = parent p) ->
  table_inv ini (<[i := p']> t).
Proof.
  intros [A B C D E G F] Hi Hpid Hpar Hpal Hun Hal Hself Hinip Hw Hz.
  pose proof (lookup_lt_Some _ _ _ Hi) as Hlt.
  split.
  - intros a b pa' pb Ha Hb Hsa Hsb Heq.
    destruct (decide (a = i)) as [->|Hai], (decide (b = i)) as [->|Hbi]; [done|..];
      rewrite ?list_lookup_insert_eq, ?list_lookup_insert_ne in Ha by done;
      rewrite ?list_lookup_insert_eq, ?list_lookup_insert_ne in Hb by done; simplify_eq.
    + destruct (Hpid Hsa) as [[Hs Ep]|Hf]; [|exfalso; apply (Hf b pb Hb Hbi Hsb); congruence].
      apply (A i b p pb Hi Hb Hs Hsb). congruence.
    + destruct (Hpid Hsb) as [[Hs Ep]|Hf]; [|exfalso; apply (Hf a pa' Ha Hai Hsa); congruence].
      apply (A a i pa' p Ha Hi Hsa Hs). congruence.
    + by apply (A a b pa' pb).
  - intros a pa' Ha Hs Hne Hemb. destruct (decide (a = i)) as [->|Hai];
      rewrite ?list_lookup_insert_eq, ?list_lookup_insert_ne in Ha by done; simplify_eq; eauto.
  - intros a pa' q Ha Hq. destruct (decide (a = i)) as [->|Hai];
      rewrite ?list_lookup_insert_eq, ?list_lookup_insert_ne in Ha by done; simplify_eq; [eauto|].
    destruct (C a pa' q Ha Hq) as (pq & Hpq & Haq).
    destruct (decide (q = i)) as [->|Hqi].
    + exists p'. rewrite list_lookup_insert_eq by done. split; [done|]. apply Hal. congruence.
    + exists pq. by rewrite list_lookup_insert_ne.
  - intros a pa' Ha Hs. destruct (decide (a = i)) as [->|Hai];
      rewrite ?list_lookup_insert_eq, ?list_lookup_insert_ne in Ha by done; simplify_eq; eauto.
  - destruct E as (pi & Hpi & Hai & Hpp). destruct (decide (ini = i)) as [->|Hne].
    + exists p'. rewrite list_lookup_insert_eq by done. split; [done|].
      rewrite Hinip by done. split; [apply Hal|]; congruence.
    + exists pi. by rewrite list_lookup_insert_ne.
  - intros a pa' Ha. destruct (decide (a = i)) as [->|Hai];
      rewrite ?list_lookup_insert_eq, ?list_lookup_insert_ne in Ha by done; simplify_eq; eauto.
  - intros a pa' c j Ha Hs Hch Hj Hpc. destruct (decide (a = i)) as [->|Hai].
    + rewrite list_lookup_insert_eq in Ha by done. simplify_eq. eauto.
    + rewrite list_lookup_insert_ne in Ha by done.
      destruct (decide (j = i)) as [->|Hji].
      * rewrite list_lookup_insert_eq in Hj by done. simplify_eq. intros Hzc.
        destruct (Hz Hzc) as [Hzp Hpp]. apply (F a pa' p i Ha Hs Hch Hi); congruence.
      * rewrite list_lookup_insert_ne in Hj by done. eauto.
Qed.

(** ** Pids *)
Lemma mark_pids_spec t : forall pids pids', mark_pids t pids = Some pids' -> length pids = 64%nat ->
  length pids' = 64%nat /\
  (forall p, p ∈ t -> state p <> UNUSED -> 0 <= pid p < 64) /\
  (forall v, pids' !! v = Some 0 <->
     pids !! v = Some 0 /\ forall p, p ∈ t -> state p <> UNUSED -> pid p <> Z.of_nat v).
Proof.
  induction t as [|p t IH]; intros pids pids' E Hl; cbn in E.
  - injection E as <-. split; [done|]. split; [by intros ? ?%not_elem_of_nil|].
    intros v. split; [|naive_solver]. intros Hv. split; [done|]. by intros ? ?%not_elem_of_nil.
  - destruct (decide (state p = UNUSED)) as [Hu|Hu].
    + destruct (IH _ _ E Hl) as (A & B & C). split; [done|].
      split; [intros q [->|Hq]%elem_of_cons; [done|by apply B]|].
      intros v. rewrite C. split; intros [? Hn]; (split; [done|]).
      * intros q [->|Hq]%elem_of_cons; [done|by apply Hn].
      * intros q Hq. apply Hn. by right.
    + destruct (_ && _) eqn:Hr; [|done]. zbool. unfold NPROC in *.
      destruct (IH _ _ E ltac:(by rewrite length_insert)) as (A & B & C). split; [done|].
      split; [intros q [->|Hq]%elem_of_cons; [lia|by apply B]|].
      intros v. rewrite C. destruct (decide (v = Z.to_nat (pid p))) as [->|Hne].
      * rewrite list_lookup_insert_eq by lia. split; [by intros [? _]|].
        intros [_ Hn]. exfalso. apply (Hn p); [by left|done|lia].
      * rewrite list_lookup_insert_ne by done. split; intros [? Hn]; (split; [done|]).
        -- intros q [->|Hq]%elem_of_cons; [lia|by apply Hn].
        -- intros q Hq. apply Hn. by right.
Qed.

(** The pid is unused, and the smallest such; -1 when there is none. *)
Lemma smallest_pid_spec t n : smallest_pid t = Some n ->
  (n = -1 \/ 0 <= n < 64) /\
  (forall p, p ∈ t -> state p <> UNUSED -> 0 <= pid p < 64 /\ pid p <> n) /\
  (forall v, 0 <= v < 64 -> (v < n \/ n = -1) -> exists p, p ∈ t /\ state p <> UNUSED /\ pid p = v).
Proof.
  intros E. unfold smallest_pid in E.
  apply bind_Some in E as (pids & Em & E). injection E as <-.
  destruct (mark_pids_spec _ _ _ Em) as (A & B & C); [done|].
  assert (Hused : forall v, (v < 64)%nat -> pids !! v <> Some 0 ->
            exists p, p ∈ t /\ state p <> UNUSED /\ pid p = Z.of_nat v).
  { intros v Hv Hn.
    destruct (decide (Exists (fun p => state p <> UNUSED /\ pid p = Z.of_nat v) t)) as [Hex|Hex].
    - apply Exists_exists in Hex as (p & ? & ? & ?). eauto.
    - exfalso. apply Hn, C. split; [by apply lookup_replicate_2; unfold NPROC; lia|].
      intros p Hp Hs Hpid. apply Hex, Exists_exists. eauto. }
  destruct (list_find _ pids) as [[i x]|] eqn:Ef.
  - apply list_find_Some in Ef as (Hi & -> & Hmin).
    pose proof (lookup_lt_Some _ _ _ Hi). split; [right; lia|]. split.
    + intros p Hp Hs. split; [by apply B|]. by apply (proj1 (C i) Hi).
    + intros v Hv [Hlt|]; [|lia].
      destruct (Hused (Z.to_nat v)) as (p & ? & ? & Hpp); [lia| |].
      * intros Hz. by apply (Hmin (Z.to_nat v) 0 Hz ltac:(lia)).
      * exists p. rewrite Hpp, Z2Nat.id by lia. done.
  - apply list_find_None in Ef. split; [by left|]. split.
    + intros p Hp Hs. pose proof (B p Hp Hs). split; [done|lia].
    + intros v Hv _. destruct (Hused (Z.to_nat v)) as (p & ? & ? & Hpp); [lia| |].
      * intros Hz. rewrite Forall_forall in Ef. apply (Ef 0); [|done].
        apply list_elem_of_lookup. eauto.
      * exists p. rewrite Hpp, Z2Nat.id by lia. done.
Qed.

(** ** Every step preserves the invariant *)
Lemma wake_fields ch p : pid (wake ch p) = pid p /\ parent (wake ch p) = parent p /\
  chan (wake ch p) = chan p /\ alive (state (wake ch p)) = alive (state p) /\
  (state (wake ch p) = state p \/ (state p = SLEEPING /\ state (wake ch p) = RUNNABLE /\ chan p = ch)) /\
  ~ (state (wake ch p) = SLEEPING /\ chan p = ch).
Proof.
  unfold wake. destruct (decide _) as [[Hs Hc]|Hn]; cbn; rewrite ?Hs; naive_solver.
Qed.

(** A change of all slots at once: some sleepers wake, some children pass to init. *)
Lemma inv_fmap ini (f : proc -> proc) t : table_inv ini t ->
  (forall p, pid (f p) = pid p) -> (forall p, chan (f p) = chan p) ->
  (forall p, state (f p) = state p \/ (state p = SLEEPING /\ state (f p) = RUNNABLE)) ->
  (forall i p, t !! i = Some p -> parent (f p) = parent p \/
     (i <> ini /\ parent p <> None /\ parent (f p) = Some ini)) ->
  (forall i p j c, t !! i = Some p -> state (f p) = SLEEPING -> chan p = proc_addr i ->
     t !! j = Some c -> parent (f c) = Some i -> state c <> ZOMBIE) ->
  table_inv ini (f <$> t).
Proof.
  intros [A B C D E G F] Hpid Hch Hst Hpar Hw.
  assert (L : forall i p, (f <$> t) !! i = Some p -> exists p0, t !! i = Some p0 /\ p = f p0).
  { intros i p Hp. rewrite list_lookup_fmap in Hp. destruct (t !! i); naive_solver. }
  assert (St : forall p, (state (f p) = UNUSED <-> state p = UNUSED) /\
     (state (f p) = EMBRYO <-> state p = EMBRYO) /\ (state (f p) = ZOMBIE <-> state p = ZOMBIE) /\
     alive (state (f p)) = alive (state p)).
  { intros p. destruct (Hst p) as [->|[-> ->]]; naive_solver. }
  split.
  - intros i j p q (p0 & Hp & ->)%L (q0 & Hq & ->)%L Hs1 Hs2 Hpq.
    rewrite (proj1 (St p0)) in Hs1. rewrite (proj1 (St q0)) in Hs2.
    rewrite !Hpid in Hpq. by apply (A i j p0 q0).
  - intros i p (p0 & Hp & ->)%L Hs Hne He. destruct (St p0) as (S1 & S2 & _).
    destruct (Hpar i p0 Hp) as [->|(_ & _ & ->)]; [|by eexists]. apply (B i p0); naive_solver.
  - intros i p q (p0 & Hp & ->)%L Hq.
    assert (Hq' : exists pq, t !! q = Some pq /\ alive (state pq) = true).
    { destruct (Hpar i p0 Hp) as [Ep|(_ & _ & Ep)]; rewrite Ep in Hq; [by eapply C|].
      simplify_eq. destruct E as (pi & ? & ? & _). eauto. }
    destruct Hq' as (pq & Hpq & Ha). exists (f pq). rewrite list_lookup_fmap, Hpq.
    split; [done|]. by destruct (St pq) as (_ & _ & _ & ->).
  - intros i p (p0 & Hp & ->)%L Hs. pose proof (D i p0 Hp (proj1 (proj1 (St p0)) Hs)) as Hn.
    destruct (Hpar i p0 Hp) as [->|(_ & ? & _)]; congruence.
  - destruct E as (p & Hp & Ha & Hpp). exists (f p). rewrite list_lookup_fmap, Hp.
    destruct (St p) as (_ & _ & _ & ->). destruct (Hpar ini p Hp) as [->|[? _]]; done.
  - intros i p (p0 & Hp & ->)%L. destruct (Hpar i p0 Hp) as [->|(? & _ & ->)]; [by apply G|congruence].
  - intros i p c j (p0 & Hp & ->)%L Hs Hc (c0 & Hc0 & ->)%L Hpc.
    rewrite (proj1 (proj2 (proj2 (St c0)))). rewrite Hch in Hc. by apply (Hw i p0 j c0).
Qed.

Lemma inv_wake ini ch t : table_inv ini t -> table_inv ini (wake ch <$> t).
Proof.
  intros Hinv. apply inv_fmap; [done|intros p..|].
  - by destruct (wake_fields ch p).
  - by destruct (wake_fields ch p) as (_ & _ & ? & _).
  - destruct (wake_fields ch p) as (_ & _ & _ & _ & [?|(? & ? & _)] & _); naive_solver.
  - intros p' _. left. by destruct (wake_fields ch p') as (_ & ? & _).
  - intros i p j c Hp Hs Hch Hc Hpc. destruct (wake_fields ch c) as (_ & Ec & _).
    destruct (wake_fields ch p) as (_ & _ & _ & _ & [Es|(_ & Es & _)] & _); [|congruence].
    apply (ti_wait _ _ Hinv i p c j); congruence.
Qed.

(** The children of [me] pass to init. *)
Lemma inv_adopt ini me t : table_inv ini t -> me <> ini ->
  table_inv ini (adopt me ini t) /\
  (forall j c, adopt me ini t !! j = Some c -> parent c <> Some me) /\
  (forall j p', adopt me ini t !! j = Some p' -> exists p, t !! j = Some p /\
     (parent p <> Some me -> parent p' = parent p) /\ chan p' = chan p /\ pid p' = pid p /\
     (state p' = state p \/ (state p = SLEEPING /\ state p' = RUNNABLE))).
Proof.
  intros Hinv Hne. unfold adopt.
  set (zc := existsb (fun p => bool_decide (parent p = Some me /\ state p = ZOMBIE)) t).
  assert (Hzc : zc = false -> forall i p, t !! i = Some p -> parent p = Some me -> state p <> ZOMBIE).
  { intros Hz i p Hp Hpp Hs. apply not_true_iff_false in Hz. apply Hz. unfold zc.
    apply existsb_exists. exists p. split; [|by apply bool_decide_eq_true].
    apply list_elem_of_In. by eapply list_elem_of_lookup_2. }
  set (ad := fun p => if decide (parent p = Some me) then p_parent (Some ini) p else p).
  set (f := fun p => if zc then wake (proc_addr ini) (ad p) else ad p).
  replace (if zc then wake (proc_addr ini) <$> (ad <$> t) else ad <$> t) with (f <$> t)
    by (unfold f; destruct zc; [by rewrite <- list_fmap_compose|done]).
  assert (Hf : forall p, pid (f p) = pid p /\ chan (f p) = chan p /\
     (parent (f p) = if decide (parent p = Some me) then Some ini else parent p) /\
     (state (f p) = state p \/ (state p = SLEEPING /\ state (f p) = RUNNABLE)) /\
     (zc = true -> ~ (state (f p) = SLEEPING /\ chan p = proc_addr ini))).
  { intros p. assert (Ha : state (ad p) = state p /\ pid (ad p) = pid p /\ chan (ad p) = chan p /\
       parent (ad p) = if decide (parent p = Some me) then Some ini else parent p)
      by (unfold ad; by destruct (decide _)).
    destruct Ha as (Es & Ep & Ec & Epa). unfold f. destruct zc; [|by rewrite Es, Ep, Ec, Epa; naive_solver].
    destruct (wake_fields (proc_addr ini) (ad p)) as (W1 & W2 & W3 & _ & W5 & W6).
    rewrite W1, W2, W3, Ep, Ec, Epa. rewrite Es in W5. rewrite Ec in W5, W6. naive_solver. }
  split; [|split].
  - apply inv_fmap; [done|intros p..|].
    + apply Hf. + apply Hf. + apply Hf.
    + intros q Hq. destruct (Hf q) as (_ & _ & -> & _). destruct (decide (parent q = Some me)) as [Em|]; [|by left].
      right. split; [|split; [congruence|done]].
      intros ->. destruct (ti_init _ _ Hinv) as (pi & Hpi & _ & Hpp). congruence.
    + intros i p j c Hp Hs Hch Hc Hpc. destruct (Hf c) as (_ & _ & Epc & _).
      destruct (Hf p) as (_ & _ & _ & Hst & Hw). rewrite Epc in Hpc.
      destruct (decide (parent c = Some me)) as [Em|Em].
      * simplify_eq. destruct zc eqn:Ez; [exfalso; by apply Hw|]. by eapply Hzc.
      * destruct Hst as [Est|[_ Est]]; [|congruence]. apply (ti_wait _ _ Hinv i p c j); congruence.
  - intros j c Hc. rewrite list_lookup_fmap in Hc. destruct (t !! j) as [c0|]; [|done].
    cbn in Hc. simplify_eq. destruct (Hf c0) as (_ & _ & -> & _). destruct (decide _); congruence.
  - intros j p' Hp. rewrite list_lookup_fmap in Hp. destruct (t !! j) as [p|] eqn:Ej; [|done].
    cbn in Hp. simplify_eq. exists p. destruct (Hf p) as (E1 & E2 & E3 & E4 & _).
    split; [done|]. split; [|done]. intros Hn. rewrite E3. by rewrite decide_False.
Qed.

(** A process without children becomes a zombie while its parent is awake. *)
Lemma inv_zombie ini t me p : table_inv ini t -> t !! me = Some p -> state p = RUNNING ->
  me <> ini -> (forall j c, t !! j = Some c -> parent c <> Some me) ->
  (forall q pq, parent p = Some q -> t !! q = Some pq ->
     ~ (state pq = SLEEPING /\ chan pq = proc_addr q)) ->
  table_inv ini (<[me := p_state ZOMBIE p]> t).
Proof.
  intros [A B C D E G F] Hp Hs Hne Hno Hpw. pose proof (lookup_lt_Some _ _ _ Hp) as Hlt.
  assert (L : forall i q, <[me := p_state ZOMBIE p]> t !! i = Some q ->
            exists q0, t !! i = Some q0 /\ (i <> me -> q = q0) /\ (i = me -> q = p_state ZOMBIE p /\ q0 = p)
               /\ pid q = pid q0 /\ parent q = parent q0 /\ (state q = UNUSED <-> state q0 = UNUSED)).
  { intros i q Hi. destruct (decide (i = me)) as [->|Hn].
    - rewrite list_lookup_insert_eq in Hi by done. simplify_eq. exists p. cbn. rewrite Hs. naive_solver.
    - rewrite list_lookup_insert_ne in Hi by done. exists q. naive_solver. }
  split.
  - intros i j a b (a0 & Ha & _ & _ & Ea & _ & Sa)%L (b0 & Hb & _ & _ & Eb & _ & Sb)%L H1 H2 Hpq.
    apply (A i j a0 b0); naive_solver congruence.
  - intros i a (a0 & Ha & Hx & Hy & _ & -> & Sa)%L H1 H2 H3. apply (B i a0); [done|naive_solver|done|].
    destruct (decide (i = me)) as [->|Hn]; [destruct Hy as [_ ->]; congruence|].
    rewrite <- Hx by done. done.
  - intros i a q (a0 & Ha & _ & _ & _ & -> & _)%L Hq. destruct (C i a0 q Ha Hq) as (pq & Hpq & Hal).
    exists pq. rewrite list_lookup_insert_ne; [done|]. intros ->. by apply (Hno i a0).
  - intros i a (a0 & Ha & _ & _ & _ & -> & Sa)%L Hu. apply (D i a0); naive_solver.
  - destruct E as (pi & Hpi & ?). exists pi. by rewrite list_lookup_insert_ne.
  - intros i a (a0 & Ha & _ & _ & _ & -> & _)%L. by apply G.
  - intros i a c j (a0 & Ha & Hx & Hy & _)%L Hsl Hch (c0 & Hc & Hcx & Hcy & _ & Ec & _)%L Hpc.
    destruct (decide (i = me)) as [->|Hn]; [destruct Hy as [-> _]; [done|done]|].
    rewrite (Hx Hn) in *. rewrite Ec in Hpc.
    destruct (decide (j = me)) as [->|Hj].
    + destruct Hcy as [-> ->]; [done|]. intros _. by apply (Hpw i a0).
    + rewrite (Hcx Hj). by apply (F i a0 c0 j).
Qed.

(** A change of one slot that keeps its pid and its parent. *)
Lemma inv_local ini t i p p' : table_inv ini t -> t !! i = Some p ->
  pid p' = pid p -> parent p' = parent p ->
  (state p' = UNUSED <-> state p = UNUSED) -> (alive (state p) = true -> alive (state p') = true) ->
  (state p = EMBRYO -> state p' = EMBRYO \/ parent p <> None \/ i = ini) ->
  (state p' = ZOMBIE -> state p = ZOMBIE) ->
  (state p' = SLEEPING -> chan p' = proc_addr i ->
     (state p = SLEEPING /\ chan p = proc_addr i) \/
     Forall (fun c => ~ (parent c = Some i /\ state c = ZOMBIE)) t) ->
  table_inv ini (<[i := p']> t).
Proof.
  intros Hinv Hi Hpid Hpar Hun Hal Hemb Hz Hw. pose proof Hinv as [A B C D E G F].
  pose proof (lookup_lt_Some _ _ _ Hi) as Hlt.
  apply (inv_update ini t i p); try done.
  - intros Hs. left. split; [|done]. by rewrite <- Hun.
  - intros Hs He Hne. rewrite Hpar. destruct (decide (state p = EMBRYO)) as [Hpe|Hpe].
    + destruct (Hemb Hpe) as [|[Hn|]]; [done| |done]. destruct (parent p); [by eexists|done].
    + apply (B i p Hi); [by rewrite <- Hun|done|done].
  - intros q Hq. rewrite Hpar in Hq. destruct (C i p q Hi Hq) as (pq & Hpq & Haq).
    destruct (decide (q = i)) as [->|Hne].
    + exists p'. rewrite list_lookup_insert_eq by done. split; [done|]. apply Hal. congruence.
    + exists pq. by rewrite list_lookup_insert_ne.
  - intros Hs. rewrite Hpar. apply (D i p Hi). by rewrite <- Hun.
  - rewrite Hpar. by apply G.
  - intros Hs Hch j c Hj Hpc. assert (Hji : j <> i).
    { intros ->. rewrite list_lookup_insert_eq in Hj by done. simplify_eq. by apply (G i p Hi); congruence. }
    rewrite list_lookup_insert_ne in Hj by done.
    destruct (Hw Hs Hch) as [[Hs' Hch']|Hall]; [by apply (F i p c j)|].
    rewrite Forall_lookup in Hall. intros Hzc. by apply (Hall j c Hj).
  - intros Hs. split; [by apply Hz|done].
Qed.

Lemma pstep_inv ini t t' : table_inv ini t -> pstep ini t t' -> table_inv ini t'.
Proof.
  intros Hinv Hs. pose proof Hinv as [A B C D E G F].
  destruct Hs as [t i p n Hi Hs Hn|t i p Hi Hs Hp|t i p me q Hi Hs Hm Hq|t i p Hi Hs Hp
                 |t i p p' Hi E1 E2 E3 E4|t i p Hi Hs|t me p Hi Hs|t me p ch Hi Hs Hch
                 |t me p Hi Hs Hall|t me p Hi Hs|t ch|t i p Hi|t me p q Hi Hs Hne Hq
                 |t me p i c Hm Hs Hi Hc Hz].
  - (* alloc *) pose proof (D i p Hi Hs) as Hpn. pose proof (lookup_lt_Some _ _ _ Hi) as Hlt.
    destruct (smallest_pid_spec _ _ Hn) as (_ & Hfresh & _).
    apply (inv_update ini t i p); cbn; rewrite ?Hs, ?Hpn; try done.
    intros _. right. intros j q Hj Hji Hq.
    apply Hfresh; [|done]. apply (list_elem_of_lookup_2 _ j). by rewrite list_lookup_insert_ne.
  - (* alloc_fail *) apply (inv_update ini t i p); cbn; rewrite ?Hs, ?Hp; try done.
  - (* parent *) assert (i <> me) by congruence.
    assert (Hini : i <> ini) by (destruct E as (pi & Hpi & Hai & _); intros ->; by simplify_eq; rewrite Hs in Hai).
    apply (inv_update ini t i p); cbn; rewrite ?Hs; try done.
    + intros _. left. split; [done|done].
    + intros q' [= <-]. exists q. rewrite list_lookup_insert_ne by done. by rewrite Hq.
    + congruence.
  - (* ready *) apply (inv_local ini t i p); cbn; rewrite ?Hs; try done. by right.
  - (* private *) apply (inv_local ini t i p); rewrite ?E1, ?E4; try done; naive_solver.
  - apply (inv_local ini t i p); cbn; rewrite ?Hs; try done.
  - apply (inv_local ini t me p); cbn; rewrite ?Hs; try done.
  - apply (inv_local ini t me p); cbn; rewrite ?Hs; try done.
  - apply (inv_local ini t me p); cbn; rewrite ?Hs; try done. by right.
  - apply (inv_local ini t me p); cbn; rewrite ?Hs; try done.
  - by apply inv_wake.
  - (* kill *) apply (inv_local ini t i p); destruct (decide (state p = SLEEPING)) as [Hsl|Hsl];
      cbn; rewrite ?Hsl; try done; naive_solver.
  - (* exit *)
    set (t1 := wake (proc_addr q) <$> t).
    assert (Hinv1 : table_inv ini t1) by (by apply inv_wake).
    destruct (inv_adopt ini me t1 Hinv1 Hne) as (Hinv2 & Hno & Hlk).
    assert (Hm1 : t1 !! me = Some p).
    { unfold t1. rewrite list_lookup_fmap, Hi. cbn. unfold wake. rewrite decide_False; [done|].
      intros [? _]. congruence. }
    destruct (lookup_lt_is_Some_2 (adopt me ini t1) me) as [p2 Hp2].
    { assert (Hl : length (adopt me ini t1) = length t1)
        by (unfold adopt; destruct (existsb _ _); by rewrite !length_fmap).
      rewrite Hl. by eapply lookup_lt_Some. }
    destruct (Hlk me p2 Hp2) as (p1 & Hp1 & Hpar & _ & _ & Hst).
    assert (p1 = p) as -> by congruence.
    assert (Hpp : parent p2 = Some q) by (rewrite Hpar; [done|by apply (G me p)]).
    rewrite (list_alter_insert _ _ _ p2) by done.
    apply inv_zombie; [done|done| |done|done|].
    + destruct Hst as [->|[? _]]; congruence.
    + intros q' pq Hq' Hpq [Hsl Hcq]. rewrite Hpp in Hq'. simplify_eq.
      destruct (Hlk q' pq Hpq) as (pq0 & Hpq0 & _ & Ech & _ & Est).
      unfold t1 in Hpq0. rewrite list_lookup_fmap in Hpq0.
      destruct (t !! q') as [q0|]; [|done]. cbn in Hpq0. simplify_eq.
      destruct (wake_fields (proc_addr q') q0) as (_ & _ & W3 & _ & _ & W6).
      apply W6. destruct Est as [Est|[_ Est]]; [|congruence]. split; congruence.
  - (* reap *) assert (me <> i) by congruence.
    assert (Hini : i <> ini) by (destruct E as (pi & Hpi & Hai & _); intros ->; by simplify_eq; rewrite Hz in Hai).
    apply (inv_update ini t i c); cbn; rewrite ?Hz; try done.
Qed.

Lemma psteps_inv ini t t' : table_inv ini t -> rtc (pstep ini) t t' -> table_inv ini t'.
Proof. intros Hi Hs. induction Hs; eauto using pstep_inv. Qed.

Lemma pstep_length ini t t' : pstep ini t t' -> length t' = length t.
Proof.
  assert (Ha : forall me t, length (adopt me ini t) = length t)
    by (intros me u; unfold adopt; destruct (existsb _ _); by rewrite !length_fmap).
  by destruct 1; rewrite ?length_alter, ?Ha, ?length_insert, ?length_fmap.
Qed.
Lemma psteps_length ini t t' : rtc (pstep ini) t t' -> length t' = length t.
Proof. induction 1 as [|? ? ? Hp _ IH]; [done|]. rewrite IH. by eapply pstep_length. Qed.
End table.

(** ** Concrete tables *)
#[local] Existing Instances example_symbols example_files.

(** A process in state [s] with pid [n] and parent [par]. *)
Definition example_slot (s : procstate) (n : Z) (par : option nat) : proc :=
  {| sz := 4096; pgdir := 0x80400000; kstack := 0x80401000; state := s; pid := n; parent := par;
     tf := 0x80401fb4; context := 0; chan := 0; killed := 0; ofile := replicate 16 0; cwd := 1;
     name := replicate 16 0; shm_idx := -1; shm_va := 0 |}.

Definition example_table : list proc :=
  example_slot RUNNING 1 None :: example_slot RUNNABLE 2 (Some 0%nat) ::
  replicate 62 (example_slot UNUSED 0 None).

Lemma example_table_inv : table_inv 0 example_table.
Proof.
  assert (L : forall i p, example_table !! i = Some p ->
    (i = 0%nat /\ p = example_slot RUNNING 1 None) \/ (i = 1%nat /\ p = example_slot RUNNABLE 2 (Some 0%nat)) \/
    p = example_slot UNUSED 0 None).
  { intros [|[|i]] p Hp; [cbn in Hp; naive_solver..|].
    change (replicate 62 (example_slot UNUSED 0 None) !! i = Some p) in Hp. right. right.
    by apply lookup_replicate in Hp as [-> _]. }
  split.
  - intros i j p q [[-> ->]|[[-> ->]| ->]]%L [[-> ->]|[[-> ->]| ->]]%L; done.
  - intros i p [[-> ->]|[[-> ->]| ->]]%L; [done| |done]. by eexists.
  - intros i p q [[-> ->]|[[-> ->]| ->]]%L; [done| |done]. intros [= <-]. by eexists.
  - intros i p [[-> ->]|[[-> ->]| ->]]%L; done.
  - by eexists.
  - intros i p [[-> ->]|[[-> ->]| ->]]%L; done.
  - intros i p c j [[-> ->]|[[-> ->]| ->]]%L; done.
Qed.

(** The result of a run, without its state. *)
Definition result {S A} (o : outcome S A) : option A :=
  match o with Ret a _ => Some a | _ => None end.

(** One running process (pid 1), and one free page. *)
Definition tight_kernel : kernel :=
  set_cpu_proc (Some 0%nat)
    (set_ptable (example_slot RUNNING 1 None :: replicate 63 (example_slot UNUSED 0 None))
      (pool 0x80500000 1 boot_kernel)).


(** [kill(0)] finds an unused slot, whose pid is 0, and marks it killed; the
    mark survives [allocproc], so the next child is born killed. *)
Theorem kill_zero_poisons_a_slot :
  result ((r <- kill 0 ;; i <- @allocproc _ ;; p <- proc_at 1 ;; ret (r, i, killed p)) tight_kernel)
    = Some (0, Some 1%nat, 1).
Proof. vm_compute. reflexivity. Qed.
