(* ===== verification/ProcRefine.v ===== *)
(** * The functions of proc.c take the steps of the process table

    Every call of proc.c, run on the model of [Proc], changes the process
    table by a sequence of the steps of [ProcTable]; so the invariant of the
    table holds after any sequence of calls, made by any running processes
    and the scheduler. *)
From stdpp Require Import base numbers list sets strings relations.
From Stdlib Require Import ZArith Lia.
From S2P Require Import Prelude Mmu Kernel Kalloc ShMem Syscall Vm Effect Proc ProcTable.
#[local] Open Scope Z_scope.

(** ** Following one call

    [trace ini me t0 mp e k]: since table [t0] only steps have been taken, [me]
    is the current process with contents [mp], and [e] is the slot, if any,
    that the call is setting up. *)
Record trace `{KernelSymbols} (ini me : nat) (t0 : list proc) (mp : proc) (e : option (nat * proc)) (k : kernel) : Prop := {
  tr_steps : rtc (pstep ini) t0 (ptable k);
  tr_cpu : cpu_proc k = Some me;
  tr_ini : initproc k = Some ini;
  tr_me : ptable k !! me = Some mp;
  tr_new : match e with Some (i, q) => i <> me /\ ptable k !! i = Some q | None => True end }.

Section refine.
Context `{KernelLayout} `{KernelSymbols} (ini : nat).
Implicit Types t : list proc.

(** What a call leaves when it returns or sleeps. *)
Definition stepped (t0 : list proc) (k : kernel) : Prop := rtc (pstep ini) t0 (ptable k).

(** The file system's calls may wake processes and let others run; they keep
    to the steps, and the caller's slot and the one it is setting up stay. *)
Definition harmless {A} (c : M kernel A) : Prop := forall me t0 mp e k,
  state mp = RUNNING -> trace ini me t0 mp e k -> effect c k (fun _ => trace ini me t0 mp e) (stepped t0).

Class FileLaws `{FileOps} : Prop := {
  filedup_harmless f : harmless (filedup f);
  fileclose_harmless f : harmless (fileclose f);
  idup_harmless i : harmless (idup i);
  iput_harmless i : harmless (iput i);
  begin_op_harmless : harmless begin_op;
  end_op_harmless : harmless end_op }.

Section call.
Context (me : nat) (t0 : list proc) (Hinv : table_inv ini t0) (Hlen : length t0 = Z.to_nat NPROC).
#[local] Notation tr := (trace ini me t0).

Lemma tr_inv mp e k : tr mp e k -> table_inv ini (ptable k).
Proof. intros Hk. eapply psteps_inv; [done|apply Hk]. Qed.

Lemma tr_same mp e k k' : tr mp e k -> same k k' -> tr mp e k'.
Proof. intros [A B C D E] (E1 & E2 & E3). split; by rewrite ?E1, ?E2, ?E3. Qed.

Lemma quiet_harmless {A} (c : M kernel A) : quiet c -> harmless c.
Proof.
  intros Hc me' t' mp e k _ [A0 B C D E]. eapply effect_mono; [apply Hc|..].
  - intros a k' (E1 & E2 & E3). split; by rewrite ?E1, ?E2, ?E3.
  - intros k' (E1 & _). unfold stepped. by rewrite E1.
Qed.

Lemma tr_drop mp e k : tr mp e k -> tr mp None k.
Proof. by intros []. Qed.

Lemma sim_call {A B} (c : M kernel A) (g : A -> M kernel B) mp e k Q :
  tr mp e k -> state mp = RUNNING -> harmless c ->
  (forall a k', tr mp e k' -> effect (g a) k' Q (stepped t0)) -> effect (bind c g) k Q (stepped t0).
Proof. intros Hk Hs Hc Hg. apply effect_bind. eapply effect_mono; [by apply Hc|apply Hg|done]. Qed.

(** Reads of the current process. *)
Lemma sim_curproc {B} (g : nat -> M kernel B) mp e k Q :
  tr mp e k -> effect (g me) k Q (stepped t0) -> effect (bind curproc_ptr g) k Q (stepped t0).
Proof. intros Hk Hg. unfold effect, bind, curproc_ptr. by rewrite (tr_cpu _ _ _ _ _ _ Hk). Qed.
Lemma sim_myproc {B} (g : proc -> M kernel B) mp e k Q :
  tr mp e k -> effect (g mp) k Q (stepped t0) -> effect (bind myproc g) k Q (stepped t0).
Proof.
  intros Hk Hg. unfold effect, bind, myproc. by rewrite (tr_cpu _ _ _ _ _ _ Hk), (tr_me _ _ _ _ _ _ Hk).
Qed.
Lemma sim_at {B} (g : proc -> M kernel B) i q k Q :
  ptable k !! i = Some q -> effect (g q) k Q (stepped t0) -> effect (bind (proc_at i) g) k Q (stepped t0).
Proof. intros Hi Hg. unfold effect, bind, proc_at. by rewrite Hi. Qed.

(** Writes, at first to any slot. *)
Lemma sim_upd {B} (g : unit -> M kernel B) i f q k Q :
  ptable k !! i = Some q -> effect (g tt) (set_ptable (<[i := f q]> (ptable k)) k) Q (stepped t0) ->
  effect (bind (upd i f) g) k Q (stepped t0).
Proof. intros Hi Hg. unfold effect, bind, upd, modify. by rewrite (list_alter_insert _ _ _ q). Qed.

Lemma tr_write_me mp mp' e k : tr mp e k -> pstep ini (ptable k) (<[me := mp']> (ptable k)) ->
  tr mp' e (set_ptable (<[me := mp']> (ptable k)) k).
Proof.
  intros [A B C D E] Hs. split; [|done..| |].
  - by eapply rtc_r.
  - apply list_lookup_insert_eq. by eapply lookup_lt_Some.
  - destruct e as [[i q]|]; [|done]. destruct E as [Hn E]. split; [done|]. cbn. by rewrite list_lookup_insert_ne.
Qed.
Lemma tr_write_new mp i q q' k : tr mp (Some (i, q)) k -> pstep ini (ptable k) (<[i := q']> (ptable k)) ->
  tr mp (Some (i, q')) (set_ptable (<[i := q']> (ptable k)) k).
Proof.
  intros [A B C D [Hn E]] Hs. split; [|done..| |].
  - by eapply rtc_r.
  - cbn. by rewrite list_lookup_insert_ne.
  - split; [done|]. apply list_lookup_insert_eq. by eapply lookup_lt_Some.
Qed.

Definition private (p p' : proc) : Prop :=
  state p' = state p /\ pid p' = pid p /\ parent p' = parent p /\ chan p' = chan p.

Lemma sim_me_step {B} (g : unit -> M kernel B) f mp e k Q : tr mp e k ->
  (forall t, t !! me = Some mp -> pstep ini t (<[me := f mp]> t)) ->
  (forall k', tr (f mp) e k' -> effect (g tt) k' Q (stepped t0)) -> effect (bind (upd me f) g) k Q (stepped t0).
Proof.
  intros Hk Hp Hg. pose proof (tr_me _ _ _ _ _ _ Hk) as Hm. eapply sim_upd; [done|].
  apply Hg, (tr_write_me mp); auto.
Qed.
Lemma sim_new_step {B} (g : unit -> M kernel B) f mp i q k Q : tr mp (Some (i, q)) k ->
  (forall t, t !! i = Some q -> t !! me = Some mp -> pstep ini t (<[i := f q]> t)) ->
  (forall k', tr mp (Some (i, f q)) k' -> effect (g tt) k' Q (stepped t0)) ->
  effect (bind (upd i f) g) k Q (stepped t0).
Proof.
  intros Hk Hp Hg. destruct (tr_new _ _ _ _ _ _ Hk) as [_ Hi]. pose proof (tr_me _ _ _ _ _ _ Hk) as Hm.
  eapply sim_upd; [done|]. apply Hg, (tr_write_new mp i q); auto.
Qed.
Lemma private_step t i p p' : private p p' -> t !! i = Some p -> pstep ini t (<[i := p']> t).
Proof. intros (? & ? & ? & ?) Hi. by eapply ps_private. Qed.
Lemma private_over t i p p' : (i < length t)%nat -> private p p' -> pstep ini (<[i := p]> t) (<[i := p']> t).
Proof.
  intros Hi Hp. rewrite <- (list_insert_insert_eq t i p' p). eapply private_step; [done|]. by apply list_lookup_insert_eq.
Qed.
Lemma sim_at_new {B} (g : proc -> M kernel B) mp i q k Q : tr mp (Some (i, q)) k ->
  effect (g q) k Q (stepped t0) -> effect (bind (proc_at i) g) k Q (stepped t0).
Proof. intros Hk. apply sim_at, (tr_new _ _ _ _ _ _ Hk). Qed.
Lemma sim_at_me {B} (g : proc -> M kernel B) mp e k Q : tr mp e k ->
  effect (g mp) k Q (stepped t0) -> effect (bind (proc_at me) g) k Q (stepped t0).
Proof. intros Hk. apply sim_at, (tr_me _ _ _ _ _ _ Hk). Qed.

Lemma harmless_step {A B} (c : M kernel A) (g : A -> M kernel B) mp e k Q :
  tr mp e k -> state mp = RUNNING -> quiet c ->
  (forall a k', tr mp e k' -> effect (g a) k' Q (stepped t0)) -> effect (bind c g) k Q (stepped t0).
Proof. intros Hk Hs Hc. apply (sim_call c g mp e); [done..|by apply quiet_harmless]. Qed.

(** Walk over the code. *)
Ltac move_on Hk := let k' := fresh "k" in let H' := fresh "Hk" in intros k' H'; clear Hk; rename H' into Hk.
Ltac sim :=
  match goal with
  | |- effect (bind (ret _) _) _ _ _ => apply effect_bind, effect_ret
  | |- effect (bind (bind _ _) _) _ _ _ => apply effect_assoc
  | Hk : trace _ _ _ _ _ ?k |- effect (bind curproc_ptr _) ?k _ _ => apply (sim_curproc _ _ _ _ _ Hk)
  | Hk : trace _ _ _ _ _ ?k |- effect (bind myproc _) ?k _ _ => apply (sim_myproc _ _ _ _ _ Hk)
  | Hk : trace _ _ _ _ (Some (?i, _)) ?k |- effect (bind (proc_at ?i) _) ?k _ _ =>
      apply (sim_at_new _ _ _ _ _ _ Hk)
  | Hk : trace _ _ _ _ _ ?k |- effect (bind (proc_at me) _) ?k _ _ => apply (sim_at_me _ _ _ _ _ Hk)
  | Hk : trace _ _ _ _ (Some (?i, _)) ?k |- effect (bind (upd ?i _) _) ?k _ _ =>
      apply (sim_new_step _ _ _ _ _ _ _ Hk); [intros; eapply private_step; [|eassumption]; by repeat split|]; move_on Hk
  | Hk : trace _ _ _ _ _ ?k |- effect (bind (upd me _) _) ?k _ _ =>
      apply (sim_me_step _ _ _ _ _ _ Hk); [intros; eapply private_step; [|eassumption]; by repeat split|]; move_on Hk
  | Hk : trace _ _ _ _ _ ?k |- effect (bind _ _) ?k _ _ =>
      eapply (harmless_step _ _ _ _ _ _ Hk); [done|solve [quiet_steps]|]; (let a := fresh "a" in intros a; move_on Hk)
  end; cbv beta.

(** ** The calls *)
Definition allocated_slot (mp : proc) (r : option nat) (k : kernel) : Prop :=
  match r with
  | None => tr mp None k
  | Some i => exists q, state q = EMBRYO /\ parent q = None /\ tr mp (Some (i, q)) k
  end.

Lemma allocproc_sim mp k : tr mp None k -> state mp = RUNNING ->
  effect allocproc k (allocated_slot mp) (stepped t0).
Proof.
  intros Hk Hs. unfold allocproc. sim. apply effect_bind, effect_gets. cbv beta.
  destruct (list_find (fun p => state p = UNUSED) _) as [[i p]|] eqn:E; [|sim; done].
  apply list_find_Some in E as (Hi & Hu & _).
  assert (Hn : i <> me) by (intros ->; pose proof (tr_me _ _ _ _ _ _ Hk); congruence).
  pose proof (ti_unused _ _ (tr_inv _ _ _ Hk) _ _ Hi Hu) as Hpar.
  eapply sim_upd; [done|]. cbv beta. unfold get_smallest_pid. apply effect_bind, effect_bind, effect_gets. cbn [ptable set_ptable].
  destruct (mark_pids _ _) as [pids|] eqn:Em; [|done]. apply effect_ret. cbv beta.
  set (n := match list_find (fun v => v = 0) pids with Some (j, _) => Z.of_nat j | None => -1 end).
  pose proof (lookup_lt_Some _ _ _ Hi) as Hlt.
  eapply sim_upd; [by apply list_lookup_insert_eq|]. cbn [ptable set_ptable]. rewrite list_insert_insert_eq.
  set (k1 := set_ptable _ _).
  assert (H1 : tr mp (Some (i, p_pid n (p_state EMBRYO p))) k1).
  { destruct Hk as [A B C D _]. split; [|done..| |]; cbn.
    - eapply rtc_r; [exact A|]. apply ps_alloc; [done|done|]. unfold smallest_pid. by rewrite Em.
    - by rewrite list_lookup_insert_ne.
    - split; [done|]. by apply list_lookup_insert_eq. }
  clearbody k1. clear Hk. rename H1 into Hk. cbv beta. repeat sim. case_match.
  - apply (sim_new_step _ _ _ _ _ _ _ Hk); [|intros k' Hk'; by eapply tr_drop].
    intros t Ht _. by apply ps_alloc_fail.
  - repeat sim. cbn. eexists. split; [|split; [|exact Hk]]; done.
Qed.

(** The end of a call. *)
Lemma tr_end mp e k : tr mp e k -> stepped t0 k.
Proof. apply tr_steps. Qed.
#[local] Hint Resolve tr_end : core.

Lemma sched_sim {A} k (Q : A -> kernel -> Prop) : stepped t0 k -> effect sched k Q (stepped t0).
Proof. intros Hk. unfold effect, sched, bind, myproc. by repeat case_match; simplify_eq. Qed.

Context `{!FileOps} `{!FileLaws}.

(** The copy of the open files into the child. *)
Lemma fork_files_sim mp i l : state mp = RUNNING -> forall q k, tr mp (Some (i, q)) k -> state q = EMBRYO -> parent q = Some me ->
  effect (for_all l (fun j =>
    match ofile mp !! j with
    | None => fault "ofile index"
    | Some f =>
        when (negb (f =? 0)) (
          f' <- filedup f ;;
          upd i (fun q => p_ofile (<[j := f']> (ofile q)) q))
    end)) k (fun _ k' => exists q', state q' = EMBRYO /\ parent q' = Some me /\ tr mp (Some (i, q')) k') (stepped t0).
Proof.
  intros Hs. induction l as [|j l IH]; intros q k Hk Hq Hp; cbn [for_all]; [apply effect_ret; by exists q|].
  destruct (ofile mp !! j) as [f|]; [|done]. destruct (f =? 0); cbn [negb when]; [sim; by eapply IH|].
  sim. eapply (sim_call _ _ _ _ _ _ Hk Hs); [apply filedup_harmless|]. intros f' k' Hk'. cbv beta.
  clear k Hk. rename k' into k, Hk' into Hk. sim. by eapply IH.
Qed.

Lemma fork_sim cp mp k : (forall d n, quiet (cp d n)) -> tr mp None k -> state mp = RUNNING ->
  effect (fork_with cp) k (fun _ => stepped t0) (stepped t0).
Proof.
  intros Hcp Hk Hs. unfold fork_with. sim. apply effect_bind.
  eapply effect_mono; [by apply allocproc_sim| |done]. clear k Hk.
  intros [i|] k Hk; cbv beta; [|apply effect_ret; by eapply tr_end].
  destruct Hk as (q & Hq & Hpq & Hk). sim.
  eapply (harmless_step _ _ _ _ _ _ Hk); [done|apply Hcp|]. clear Hk. intros d kc Hk. cbv beta. sim. case_match.
  - repeat sim. apply (sim_new_step _ _ _ _ _ _ _ Hk); [intros t Ht _; by apply ps_alloc_fail|]. clear Hk.
    intros k3 Hk. apply effect_ret. by eapply tr_end.
  - sim. apply (sim_new_step _ _ _ _ _ _ _ Hk); [intros t Ht Hm; by eapply ps_parent|]. clear Hk.
    intros kd Hk. cbv beta. repeat sim. apply effect_bind.
    eapply effect_mono; [by eapply fork_files_sim| |done]. clear Hk. intros _ ke (q' & Hq' & Hp' & Hk). cbv beta.
    eapply (sim_call _ _ _ _ _ _ Hk Hs); [apply idup_harmless|]. clear Hk. intros c kf Hk. cbv beta. repeat sim.
    apply (sim_new_step _ _ _ _ _ _ _ Hk); [intros t Ht _; by apply ps_ready; [..|left; cbn; congruence]|].
    clear Hk. intros kg Hk. cbv beta. repeat sim. apply effect_ret. by eapply tr_end.
Qed.

(** Steps on the whole table. *)
Lemma stepped_to k t : stepped t0 k -> pstep ini (ptable k) t -> stepped t0 (set_ptable t k).
Proof. intros Hk Hs. by eapply rtc_r. Qed.

Lemma sim_end {A} (c : M kernel A) k : quiet c -> stepped t0 k -> effect c k (fun _ => stepped t0) (stepped t0).
Proof.
  intros Hc Hk. unfold stepped in *.
  eapply effect_mono; [apply Hc|..]; [intros ? k'|intros k']; intros (E & _); by rewrite E.
Qed.

Lemma wakeup_sim ch mp k : tr mp None k -> state mp = RUNNING ->
  effect (wakeup ch) k (fun _ => stepped t0) (stepped t0).
Proof.
  intros Hk Hs. unfold wakeup. sim. apply effect_bind. unfold wakeup1. cbn [effect modify].
  apply sim_end; [quiet_steps|]. apply stepped_to; [by eapply tr_end|apply ps_wakeup].
Qed.

Lemma yield_sim mp k : tr mp None k -> state mp = RUNNING -> effect yield k (fun _ => stepped t0) (stepped t0).
Proof.
  intros Hk Hs. unfold yield. sim. sim.
  apply (sim_me_step _ _ _ _ _ _ Hk); [intros; by apply ps_yield|]. clear Hk. intros k' Hk.
  apply sched_sim. by eapply tr_end.
Qed.

(** [sleep] writes two fields and gives up the processor. *)
Lemma sleep_sim {A} ch lk mp k (Q : A -> kernel -> Prop) : tr mp None k -> state mp = RUNNING ->
  (ch <> proc_addr me \/
   ch = proc_addr me /\ Forall (fun c => ~ (parent c = Some me /\ state c = ZOMBIE)) (ptable k)) ->
  effect (sleep ch lk) k Q (stepped t0).
Proof.
  intros Hk Hs Hch. unfold sleep. apply effect_bind. unfold effect at 1. rewrite (tr_cpu _ _ _ _ _ _ Hk).
  assert (Hl : effect (if decide (lk = ptable_lock) then ret tt else acquire ptable_lock ;;; release lk) k
    (fun _ => same k) (same k)) by (case_match; [apply quiet_ret|]; apply quiet_bind; intros; quiet_steps).
  apply effect_bind. eapply effect_mono; [exact Hl| |].
  2: { intros k' (E & _). unfold stepped. rewrite E. by eapply tr_end. }
  intros [] k' Hsame. cbv beta. pose proof (tr_same _ _ _ _ Hk Hsame) as Hk'.
  assert (Hm : ptable k' !! me = Some mp) by apply Hk'. pose proof (lookup_lt_Some _ _ _ Hm) as Hlt.
  eapply sim_upd; [done|]. cbv beta. eapply sim_upd; [by apply list_lookup_insert_eq|]. apply sched_sim.
  cbn [ptable set_ptable]. rewrite list_insert_insert_eq. apply (stepped_to k'); [by eapply tr_end|].
  destruct Hch as [Hne|[-> Hall]]; [by apply ps_sleep|]. apply ps_wait; [done..|]. by destruct Hsame as [-> _].
Qed.

Lemma sleep_resume_sim lk mp k : tr mp None k -> state mp = RUNNING ->
  effect (sleep_resume lk) k (fun _ => tr (p_chan 0 mp) None) (stepped t0).
Proof.
  intros Hk Hs. unfold sleep_resume. sim.
  apply (sim_me_step _ _ _ _ _ _ Hk); [intros; by apply ps_resume|]. clear Hk. intros k' Hk. cbv beta.
  case_match; [by apply effect_ret|]. sim. by eapply (quiet_harmless (acquire lk)); [quiet_steps|..].
Qed.

Lemma kill_sim n mp k : tr mp None k -> state mp = RUNNING -> effect (kill n) k (fun _ => stepped t0) (stepped t0).
Proof.
  intros Hk Hs. unfold kill. sim. apply effect_bind, effect_gets. cbv beta.
  destruct (list_find (fun p => pid p = n) _) as [[i p]|] eqn:E; [|apply sim_end; [quiet_steps|by eapply tr_end]].
  apply list_find_Some in E as (Hi & _). pose proof (lookup_lt_Some _ _ _ Hi) as Hlt.
  pose proof (stepped_to _ _ (tr_end _ _ _ Hk) (ps_kill ini _ _ _ Hi)) as Hd.
  eapply sim_upd; [done|]. cbv beta. destruct (decide (state p = SLEEPING)).
  - eapply sim_upd; [by apply list_lookup_insert_eq|]. cbn [ptable set_ptable]. rewrite list_insert_insert_eq.
    apply sim_end; [quiet_steps|exact Hd].
  - sim. apply sim_end; [quiet_steps|exact Hd].
Qed.

Lemma grow_sim (r : proc -> M kernel (option Z)) mp k : (forall p, quiet (r p)) -> tr mp None k -> state mp = RUNNING ->
  effect (me <- curproc_ptr ;; cur <- proc_at me ;; o <- r cur ;;
    match o with
    | None => ret (-1)
    | Some s => upd me (p_sz s) ;;; cur <- proc_at me ;; switchuvm (Some cur) ;;; ret 0
    end) k (fun _ => stepped t0) (stepped t0).
Proof.
  intros Hr Hk Hs. sim. sim. eapply (harmless_step _ _ _ _ _ _ Hk Hs); [apply Hr|]. clear Hk. intros [s|] k' Hk; cbv beta.
  - repeat sim. apply effect_ret. by eapply tr_end.
  - apply effect_ret. by eapply tr_end.
Qed.

Lemma quiet_map_last_page a b : quiet (map_last_page a b).
Proof. unfold map_last_page. quiet_steps. Qed.

Lemma shm_open_sim mp k : tr mp None k -> state mp = RUNNING -> effect sys_shm_open k (fun _ => stepped t0) (stepped t0).
Proof.
  intros Hk Hs. unfold sys_shm_open. sim. sim. case_match; [apply effect_ret; by eapply tr_end|]. sim.
  case_match; [apply effect_ret; by eapply tr_end|]. cbv zeta.
  eapply (harmless_step _ _ _ _ _ _ Hk Hs); [apply quiet_map_last_page|]. clear Hk. intros u k' Hk. cbv beta.
  case_match; [apply effect_ret; by eapply tr_end|]. sim. case_match; [apply effect_ret; by eapply tr_end|].
  sim. apply effect_ret. by eapply tr_end.
Qed.

Lemma shm_close_sim eax mp k : tr mp None k -> state mp = RUNNING ->
  effect (sys_shm_close eax) k (fun _ => stepped t0) (stepped t0).
Proof.
  intros Hk Hs. unfold sys_shm_close. sim. sim. case_match; [apply effect_ret; by eapply tr_end|]. sim.
  case_match; [done|]. cbv zeta. sim. sim. case_match; [apply effect_ret; by eapply tr_end|].
  repeat sim. apply effect_ret. by eapply tr_end.
Qed.

(** ** wait *)
Definition no_zombie_child (t : list proc) : Prop :=
  Forall (fun c => ~ (parent c = Some me /\ state c = ZOMBIE)) t.

Definition scanned (mp : proc) (x : nat * bool) (k : kernel) : Prop :=
  tr mp None k /\ (x.1 <= Z.to_nat NPROC)%nat /\ no_zombie_child (take x.1 (ptable k)).

Lemma reap_sim {A} mp i p k (c : M kernel A) Q : tr mp None k -> state mp = RUNNING -> ptable k !! i = Some p ->
  parent p = Some me -> state p = ZOMBIE -> (forall k', tr mp None k' -> effect c k' Q (stepped t0)) ->
  effect (kfree (kstack p) ;;; upd i (p_kstack 0) ;;; freevm (pgdir p) ;;; upd i (p_pid 0) ;;;
    upd i (p_parent None) ;;; upd i (fun p => p_name (<[0%nat := 0]> (name p)) p) ;;;
    upd i (p_killed 0) ;;; upd i (p_state UNUSED) ;;; c) k Q (stepped t0).
Proof.
  intros Hk Hs Hi Hp Hz Hc. assert (Hn : i <> me) by (intros ->; pose proof (tr_me _ _ _ _ _ _ Hk); congruence).
  assert (He : tr mp (Some (i, p)) k) by (by destruct Hk; split).
  clear Hk. rename He into Hk. sim. sim. sim. destruct (tr_new _ _ _ _ _ _ Hk) as [_ Hj].
  pose proof (lookup_lt_Some _ _ _ Hj) as Hlt.
  do 5 (eapply sim_upd; [by first [exact Hj|apply list_lookup_insert_eq; rewrite ?length_insert]|];
    cbv beta; cbn [ptable set_ptable]; rewrite ?list_insert_insert_eq).
  apply Hc. destruct Hk as [A1 B C D _]. set (q := p_kstack 0 p) in *. split; [|done..| |done]; cbn [ptable set_ptable].
  - eapply rtc_r; [eapply rtc_r; [exact A1|by eapply (ps_reap ini _ me mp i q)]|]. by apply private_over.
  - by rewrite list_lookup_insert_ne.
Qed.

(** A scan of the table reaps one zombie child, or has seen that there is none. *)
Lemma wait_scan_sim mp k : tr mp None k -> state mp = RUNNING ->
  effect (wait_scan me) k (fun r k' => tr mp None k' /\ (r.2 = None -> no_zombie_child (ptable k'))) (stepped t0).
Proof.
  intros Hk Hs. unfold wait_scan. apply effect_bind.
  apply (effect_mono _ _ (fun r k' => tr mp None k' /\ (r.2 = None -> no_zombie_child (ptable k'))) _ (stepped t0)); [|done..].
  apply (effect_loop (scanned mp)); [|split; [done|]; split; [cbn; lia|constructor]]. clear k Hk.
  intros [i b] k (Hk & Hi & Hz). cbn [fst] in *. destruct (decide _) as [Hlt|Hge].
  - destruct (ptable k !! i) as [p|] eqn:Ei; [|unfold effect, bind, proc_at; by rewrite Ei].
    eapply sim_at; [done|]. destruct (decide (parent p = Some me)) as [Hp|Hp]; [destruct (decide (state p = ZOMBIE)) as [Hzp|Hzp]|].
    + cbv zeta. apply (reap_sim mp); [done..|]. intros k' Hk'. by apply effect_ret.
    + apply effect_ret. split; [done|]. split; [simpl; lia|]. cbn [fst]. rewrite (take_S_r _ _ p) by done.
      apply Forall_app. split; [done|]. constructor; [|done]. by intros [? ?].
    + apply effect_ret. split; [done|]. split; [simpl; lia|]. cbn [fst]. rewrite (take_S_r _ _ p) by done.
      apply Forall_app. split; [done|]. constructor; [|done]. by intros [? ?].
  - apply effect_ret. split; [done|]. intros _. unfold no_zombie_child. rewrite firstn_all2 in Hz; [done|].
    rewrite (psteps_length _ _ _ (tr_steps _ _ _ _ _ _ Hk)), Hlen. lia.
Qed.

Lemma wait_sim mp k : tr mp None k -> state mp = RUNNING -> effect wait_loop k (fun _ => stepped t0) (stepped t0).
Proof.
  intros Hk Hs. unfold wait_loop. sim. apply effect_bind. eapply effect_mono; [by apply wait_scan_sim| |done].
  clear k Hk. intros [b [n|]] k [Hk Hz]; cbv beta iota.
  - apply sim_end; [quiet_steps|by eapply tr_end].
  - sim. case_match; [apply sim_end; [quiet_steps|by eapply tr_end]|].
    eapply sleep_sim; [done|done|]. right. split; [done|]. by apply Hz.
Qed.

(** ** exit *)

(** The closed form of the loop over the children, after [n] turns. *)
Definition adopted (n : nat) (t : list proc) : list proc :=
  let w := existsb (fun p => bool_decide (parent p = Some me /\ state p = ZOMBIE)) (take n t) in
  imap (fun j p => let p' := if decide (j < n /\ parent p = Some me)%nat then p_parent (Some ini) p else p in
          if w then wake (proc_addr ini) p' else p') t.

Lemma wake_wake ch p : wake ch (wake ch p) = wake ch p.
Proof.
  unfold wake at 2 3. destruct (decide _) as [[Hs Hc]|Hn]; unfold wake; [|by rewrite decide_False].
  rewrite decide_False; [done|]. intros [Hx _]. discriminate Hx.
Qed.
Lemma wake_parent ch x p : wake ch (p_parent x p) = p_parent x (wake ch p).
Proof. unfold wake. cbn. by destruct (decide _). Qed.

Lemma adopted_lookup n t j : adopted n t !! j =
  (fun p => let p' := if decide (j < n /\ parent p = Some me)%nat then p_parent (Some ini) p else p in
     if existsb (fun p => bool_decide (parent p = Some me /\ state p = ZOMBIE)) (take n t)
     then wake (proc_addr ini) p' else p') <$> t !! j.
Proof. unfold adopted. by rewrite list_lookup_imap. Qed.

Lemma adopted_all t : adopted (length t) t = adopt me ini t.
Proof.
  apply list_eq. intros j. rewrite adopted_lookup. unfold adopt. rewrite firstn_all.
  destruct (existsb _ t); rewrite !list_lookup_fmap; destruct (t !! j) as [p|] eqn:E; try done; cbn;
    apply lookup_lt_Some in E; do 2 f_equal; repeat case_decide; tauto.
Qed.

(** One turn of the loop. *)
Lemma adopted_step n t p : adopted n t !! n = Some p -> forall t', t' =
    (if decide (parent p = Some me) then
       let t1 := <[n := p_parent (Some ini) p]> (adopted n t) in
       if decide (state p = ZOMBIE) then wake (proc_addr ini) <$> t1 else t1
     else adopted n t) -> adopted (S n) t = t'.
Proof.
  rewrite adopted_lookup. destruct (t !! n) as [p0|] eqn:E0; [|done]. cbn [fmap option_fmap option_map].
  rewrite decide_False by lia. set (w := existsb _ (take n t)). intros [= Hp] t' ->.
  assert (Ew : existsb (fun p => bool_decide (parent p = Some me /\ state p = ZOMBIE)) (take (S n) t)
             = w || bool_decide (parent p0 = Some me /\ state p0 = ZOMBIE)).
  { rewrite (take_S_r _ _ p0), existsb_app by done. cbn. by rewrite orb_false_r. }
  assert (Epar : parent p = parent p0) by (subst p; destruct w; [apply wake_fields|done]).
  assert (Ez : state p = ZOMBIE <-> state p0 = ZOMBIE).
  { subst p. destruct w; [|done]. destruct (wake_fields (proc_addr ini) p0) as (_ & _ & _ & _ & [->|(Ha & Hb & _)] & _); [done|].
    rewrite Ha, Hb. split; discriminate. }
  assert (Hone : forall j (P : Prop), j <> n -> (j < S n /\ P <-> j < n /\ P)%nat)
    by (intros j P Hj; split; intros [? ?]; (split; [lia|done])).
  assert (Hlt : (n < length (adopted n t))%nat)
    by (apply (lookup_lt_is_Some_1 (adopted n t)); rewrite adopted_lookup, E0; by eexists).
  apply list_eq. intros j. rewrite adopted_lookup, Ew, Epar. destruct (decide (j = n)) as [->|Hne].
  - rewrite E0. destruct (decide (parent p0 = Some me)) as [Hpar|Hpar]; cbn.
    + rewrite decide_True by (split; [lia|done]).
      destruct (decide (state p = ZOMBIE)) as [Hz|Hz];
        [rewrite bool_decide_eq_true_2, list_lookup_fmap by tauto|rewrite bool_decide_eq_false_2 by tauto];
        rewrite list_lookup_insert_eq by done; rewrite ?orb_true_r, ?orb_false_r; cbn; subst p; destruct w;
        by rewrite ?wake_parent, ?wake_wake.
    + rewrite decide_False, bool_decide_eq_false_2, adopted_lookup, E0 by tauto. cbn. fold w.
      by rewrite orb_false_r, decide_False by lia.
  - transitivity ((if decide (parent p0 = Some me /\ state p0 = ZOMBIE) then wake (proc_addr ini) else id)
      <$> adopted n t !! j).
    + rewrite adopted_lookup. destruct (t !! j) as [q|]; [|done]. cbn. fold w. f_equal.
      rewrite (decide_ext _ _ _ _ (Hone j (parent q = Some me) Hne)).
      destruct (decide (parent p0 = Some me /\ state p0 = ZOMBIE)) as [Hz|Hz];
        [rewrite bool_decide_eq_true_2, orb_true_r by done|rewrite bool_decide_eq_false_2, orb_false_r by done];
        destruct w; by rewrite ?wake_wake.
    + repeat case_decide; try tauto; rewrite ?list_lookup_fmap, ?list_lookup_insert_ne by done; [done|..];
        by destruct (_ !! j).
Qed.

Definition adopt_body (i : nat) : M kernel unit :=
  p <- proc_at i ;;
  if decide (parent p = Some me) then
    upd i (p_parent (Some ini)) ;;;
    (if decide (state p = ZOMBIE) then wakeup1 (proc_addr ini) else ret tt)
  else ret tt.

Lemma adopt_loop k t n : forall m, (m + n <= length t)%nat ->
  for_all (seq m n) adopt_body (set_ptable (adopted m t) k) = Ret tt (set_ptable (adopted (m + n) t) k).
Proof.
  induction n as [|n IH]; intros m Hm; [by rewrite Nat.add_0_r|]. cbn [seq for_all].
  destruct (lookup_lt_is_Some_2 (adopted m t) m) as [p Hp]; [unfold adopted; rewrite length_imap; lia|].
  assert (E : adopt_body m (set_ptable (adopted m t) k) = Ret tt (set_ptable (adopted (S m) t) k)).
  { rewrite (adopted_step m t p Hp _ eq_refl). unfold adopt_body, bind, proc_at. cbn [ptable set_ptable]. rewrite Hp.
    destruct (decide (parent p = Some me)); [|done]. unfold upd, modify. cbn [ptable set_ptable].
    rewrite (list_alter_insert _ _ _ p) by done. destruct (decide (state p = ZOMBIE)); [|done].
    unfold wakeup1, modify. done. }
  unfold bind. rewrite E, IH by lia. by rewrite Nat.add_succ_comm.
Qed.

Lemma adopted_none t : adopted 0 t = t.
Proof.
  apply list_eq. intros j. rewrite adopted_lookup. destruct (t !! j); [|done]. cbn. by rewrite decide_False by lia.
Qed.

(** Closing the files. *)
Definition mine (mp0 : proc) (k : kernel) : Prop :=
  exists mp, tr mp None k /\ state mp = RUNNING /\ parent mp = parent mp0.

Lemma exit_files_sim mp0 l k : mine mp0 k ->
  effect (for_all l (fun fd =>
      cur <- proc_at me ;;
      match ofile cur !! fd with
      | None => fault "ofile index"
      | Some f => when (negb (f =? 0)) (fileclose f ;;; upd me (fun p => p_ofile (<[fd := 0]> (ofile p)) p))
      end)) k (fun _ => mine mp0) (stepped t0).
Proof.
  intros Hm. apply (effect_for_all (mine mp0)); [|done]. clear k Hm.
  intros fd k _ (mp & Hk & Hs & Hp). sim. destruct (ofile mp !! fd) as [f|]; [|done].
  destruct (f =? 0); cbn [negb when]; [apply effect_ret; by exists mp|].
  eapply (sim_call _ _ _ _ _ _ Hk Hs); [apply fileclose_harmless|]. clear Hk. intros _ k' Hk. cbv beta.
  apply effect_last. sim. apply effect_ret. by eexists.
Qed.

Lemma exit_sim {A} mp k (Q : A -> kernel -> Prop) : tr mp None k -> state mp = RUNNING ->
  effect exit k Q (stepped t0).
Proof.
  intros Hk Hs. unfold exit. sim. apply effect_bind, effect_gets. cbv beta. rewrite (tr_ini _ _ _ _ _ _ Hk).
  destruct (decide _) as [|Hne]; [done|]. assert (Hmi : me <> ini) by congruence. clear Hne.
  apply effect_bind. eapply effect_mono; [apply (exit_files_sim mp); by exists mp| |done].
  clear k Hk. intros _ k (mp1 & Hk & Hs1 & Hp1). cbv beta.
  eapply (sim_call _ _ _ _ _ _ Hk Hs1); [apply begin_op_harmless|]. clear Hk. intros _ k1 Hk. cbv beta. sim.
  eapply (sim_call _ _ _ _ _ _ Hk Hs1); [apply iput_harmless|]. clear Hk. intros _ k2 Hk. cbv beta.
  eapply (sim_call _ _ _ _ _ _ Hk Hs1); [apply end_op_harmless|]. clear Hk. intros _ k3 Hk. cbv beta.
  repeat sim. match goal with H : tr ?p None ?s |- _ => set (p1 := p) in *; rename s into k4 end.
  destruct (ti_parent _ _ (tr_inv _ _ _ Hk) me p1 (tr_me _ _ _ _ _ _ Hk)) as [q Hq]; [cbn; congruence|done|cbn; congruence|].
  rewrite Hq. set (t := ptable k4) in *. apply effect_bind. unfold wakeup1 at 1. cbn [effect modify].
  change (fun p : proc => if decide (state p = SLEEPING /\ chan p = proc_addr q) then p_state RUNNABLE p else p)
    with (wake (proc_addr q)). fold t. set (t1 := wake (proc_addr q) <$> t).
  assert (Hl : length t1 = Z.to_nat NPROC).
  { unfold t1. rewrite length_fmap. unfold t. by rewrite (psteps_length _ _ _ (tr_steps _ _ _ _ _ _ Hk)). }
  apply effect_bind. pose proof (adopt_loop k4 t1 (Z.to_nat NPROC) 0 ltac:(lia)) as Hloop.
  rewrite adopted_none, Nat.add_0_l, <- Hl, adopted_all, Hl in Hloop. unfold effect at 1.
  match goal with |- match ?x with _ => _ end => replace x with (Ret (S := kernel) tt (set_ptable (adopt me ini t1) k4)) by (symmetry; exact Hloop) end.
  apply effect_bind. unfold upd. cbn [effect modify]. apply sched_sim.
  apply (stepped_to k4); [by eapply tr_end|]. by apply (ps_exit ini _ me p1 q); [apply Hk|..].
Qed.
End call.

Lemma schedule_sim i k : effect (schedule_to i) k (fun _ k' => rtc (pstep ini) (ptable k) (ptable k'))
  (fun k' => rtc (pstep ini) (ptable k) (ptable k')).
Proof.
  unfold schedule_to. destruct (ptable k !! i) as [p|] eqn:Ei; [|unfold effect, bind, proc_at; by rewrite Ei].
  apply effect_bind. unfold proc_at at 1. unfold effect at 1. rewrite Ei.
  destruct (decide (state p = RUNNABLE)) as [Hr|]; [|apply effect_ret, rtc_refl].
  apply effect_bind. cbn [effect modify]. apply effect_bind.
  eapply effect_mono; [apply (quiet_switchuvm (Some p))|..].
  - intros _ k' (E & _). cbv beta. cbn in E. apply effect_bind. unfold upd. cbn [effect modify ret]. rewrite E.
    rewrite (list_alter_insert _ _ _ p) by done. apply rtc_once. by apply ps_schedule.
  - intros k' (E & _). cbn in E. rewrite E. apply rtc_refl.
Qed.

(** ** The system *)

(** The calls that a running process makes; those named [Resume] continue
    after the scheduler has switched back. *)
Inductive proc_call :=
  | PFork | PCowFork | PExit | PWait | PWaitResume | PKill (n : Z) | PWakeup (ch : Z)
  | PSleep (ch : Z) (lk : lockid) | PSleepResume (lk : lockid) | PYield | PYieldResume
  | PGrow (n : Z) | PGrowLazy (n : Z) | PShmOpen | PShmClose (eax : Z).

Context `{!FileOps}.

Definition run_proc_call (c : proc_call) : M kernel Z :=
  match c with
  | PFork => fork
  | PCowFork => sys_cow_fork
  | PExit => exit
  | PWait => wait
  | PWaitResume => wait_resume
  | PKill n => kill n
  | PWakeup ch => wakeup ch ;;; ret 0
  | PSleep ch lk => sleep ch lk
  | PSleepResume lk => sleep_resume lk ;;; ret 0
  | PYield => yield ;;; ret 0
  | PYieldResume => yield_resume ;;; ret 0
  | PGrow n => growproc n
  | PGrowLazy n => growproc_lazy n
  | PShmOpen => sys_shm_open
  | PShmClose eax => sys_shm_close eax
  end.

(** Only [wait] sleeps on the address of the caller's own slot. *)
Definition sleeps_elsewhere (me : nat) (c : proc_call) : Prop :=
  match c with PSleep ch _ => ch <> proc_addr me | _ => True end.

(** The state a call leaves, when it returns or sleeps. *)
Definition ends {A} (o : outcome kernel A) (k : kernel) : Prop :=
  match o with Ret _ t | Sleep _ t => t = k | _ => False end.

(** One call, from any kernel with that process table: memory, page tables,
    locks and counters may have changed since the last one. *)
Inductive kstep : list proc -> list proc -> Prop :=
| k_call c me p k k' :
    cpu_proc k = Some me -> initproc k = Some ini -> ptable k !! me = Some p -> state p = RUNNING ->
    sleeps_elsewhere me c -> ends (run_proc_call c k) k' -> kstep (ptable k) (ptable k')
| k_schedule i k k' : ends (schedule_to i k) k' -> kstep (ptable k) (ptable k').

Lemma call_sim `{!FileLaws} c me p k : table_inv ini (ptable k) -> length (ptable k) = Z.to_nat NPROC ->
  cpu_proc k = Some me -> initproc k = Some ini -> ptable k !! me = Some p -> state p = RUNNING ->
  sleeps_elsewhere me c ->
  effect (run_proc_call c) k (fun _ => stepped (ptable k)) (stepped (ptable k)).
Proof.
  intros Hinv Hlen Hc Hi Hp Hs Hok.
  assert (Hk : trace ini me (ptable k) p None k) by (split; [apply rtc_refl|done..]).
  set (t0 := ptable k) in *. clearbody t0.
  assert (Hq : forall (d : M kernel unit), effect d k (fun _ => stepped t0) (stepped t0) ->
    effect (d ;;; ret 0) k (fun _ => stepped t0) (stepped t0)).
  { intros d Hd. apply effect_bind. eapply effect_mono; [exact Hd| |done]. intros; by apply effect_ret. }
  destruct c; cbn [run_proc_call sleeps_elsewhere] in *.
  - eapply fork_sim; eauto with quiet.
  - eapply fork_sim; eauto with quiet.
  - by eapply exit_sim.
  - unfold wait. eapply (harmless_step me t0); [done|done|quiet_steps|]. intros ? k' Hk'. by eapply wait_sim.
  - unfold wait_resume. apply effect_bind. eapply effect_mono; [by eapply sleep_resume_sim| |done].
    intros ? k' Hk'. by eapply wait_sim; [..|exact Hk'|].
  - by eapply kill_sim.
  - apply Hq. by eapply wakeup_sim.
  - eapply sleep_sim; [done|done|by left].
  - apply Hq. eapply effect_mono; [by eapply sleep_resume_sim| |done]. intros ? k' Hk'. apply Hk'.
  - apply Hq. by eapply yield_sim.
  - apply Hq. apply sim_end; [unfold yield_resume; quiet_steps|apply Hk].
  - eapply (grow_sim me t0 (fun cur => _)); [|done|done]. intros; quiet_steps.
  - eapply (grow_sim me t0 (fun cur => _)); [|done|done]. intros; quiet_steps.
  - by eapply shm_open_sim.
  - by eapply shm_close_sim.
Qed.
End refine.

(** C4. The process table.  In every table that calls of proc.c can reach from
    one that satisfies the invariant, made in any order by any running
    processes and by the scheduler, whatever memory, page tables and locks
    are at each call: no two processes in use have the same pid; every process
    that is not being created has a parent, which is alive and so can reap it
    (except init, which never dies); unused slots have no parent; and no
    process sleeps in [wait] while one of its children is a zombie. *)
Theorem table_inv_reachable `{KernelLayout} `{KernelSymbols} `{FileOps} ini `{!FileLaws ini} t t' :
  table_inv ini t -> length t = Z.to_nat NPROC -> rtc (kstep ini) t t' -> table_inv ini t'.
Proof.
  intros Hinv Hlen Hs. induction Hs as [|t t1 t2 Hs _ IH]; [done|].
  assert (Hr : rtc (pstep ini) t t1).
  { destruct Hs as [c me p k k' Hc Hi Hp Hr Hok He|i k k' He].
    - pose proof (call_sim ini c me p k Hinv Hlen Hc Hi Hp Hr Hok) as Hsim. unfold effect in Hsim.
      destruct (run_proc_call c k); simplify_eq/=; done.
    - pose proof (schedule_sim ini i k) as Hsim. unfold effect in Hsim.
      destruct (schedule_to i k); simplify_eq/=; done. }
  apply IH; [by eapply psteps_inv|]. by rewrite (psteps_length _ _ _ Hr).
Qed.

(** ** The example: the child exits after a context switch, and is reaped *)
#[local] Existing Instances example_layout example_symbols example_files.

Lemma example_file_laws : FileLaws 0.
Proof. split; intros; apply quiet_harmless; quiet_steps. Qed.

(** A kernel with table [t] whose current process is [me]. *)
Definition running_as (t : list proc) (me : nat) : kernel :=
  set_initproc (Some 0%nat) (set_cpu_proc (Some me) (set_ptable t (pool 0x80500000 4 boot_kernel))).
Definition table_after {A} (o : outcome kernel A) : list proc :=
  match o with Ret _ k | Sleep _ k => ptable k | _ => [] end.

Definition ex_t1 : list proc := Eval vm_compute in table_after (run_proc_call PWait (running_as example_table 0)).
Definition ex_t2 : list proc := Eval vm_compute in table_after (schedule_to 1 (running_as ex_t1 1)).
Definition ex_t3 : list proc := Eval vm_compute in table_after (run_proc_call PExit (running_as ex_t2 1)).
Definition ex_t4 : list proc := Eval vm_compute in table_after (schedule_to 0 (running_as ex_t3 0)).
Definition ex_t5 : list proc := Eval vm_compute in table_after (run_proc_call PWaitResume (set_held [ptable_lock] (running_as ex_t4 0))).

Lemma table_after_ends {A} (o : outcome kernel A) t : table_after o = t -> t <> [] -> exists k, ends o k /\ ptable k = t.
Proof. destruct o; intros <- Hne; try done; by eexists. Qed.

Lemma example_call c t me p held t' :
  t !! me = Some p -> state p = RUNNING -> sleeps_elsewhere me c ->
  table_after (run_proc_call c (set_held held (running_as t me))) = t' -> t' <> [] -> kstep 0 t t'.
Proof.
  intros Hp Hs Hok E Hne. destruct (table_after_ends _ _ E Hne) as (k' & He & <-).
  by apply (k_call 0 c me p (set_held held (running_as t me)) k').
Qed.
Lemma example_schedule t i t' : table_after (schedule_to i (running_as t i)) = t' -> t' <> [] -> kstep 0 t t'.
Proof.
  intros E Hne. destruct (table_after_ends _ _ E Hne) as (k' & He & <-). by apply (k_schedule 0 i (running_as t i) k').
Qed.

Lemma example_run : rtc (kstep 0) example_table ex_t5.
Proof.
  apply (rtc_l _ _ ex_t1); [eapply (example_call PWait _ 0 _ []); [reflexivity|reflexivity|exact I|vm_compute; reflexivity|discriminate]|].
  apply (rtc_l _ _ ex_t2); [apply (example_schedule _ 1); [vm_compute; reflexivity|discriminate]|].
  apply (rtc_l _ _ ex_t3); [eapply (example_call PExit _ 1 _ []); [reflexivity|reflexivity|exact I|vm_compute; reflexivity|discriminate]|].
  apply (rtc_l _ _ ex_t4); [apply (example_schedule _ 0); [vm_compute; reflexivity|discriminate]|].
  apply rtc_once. eapply (example_call PWaitResume _ 0 _ [ptable_lock]); [reflexivity|reflexivity|exact I|vm_compute; reflexivity|discriminate].
Qed.

Lemma table_inv_reachable_witness :
  table_inv 0 ex_t5 /\ state <$> ex_t3 !! 1%nat = Some ZOMBIE /\ state <$> ex_t5 !! 1%nat = Some UNUSED.
Proof.
  split; [|split; reflexivity].
  apply (@table_inv_reachable _ _ _ 0 example_file_laws example_table); [exact example_table_inv|reflexivity|exact example_run].
Defined.
