(* ===== verification/Trap.v ===== *)
(** * trap.c and the system-call dispatch of syscall.c

    [trap] with its page-fault branch, and [syscall].  The devices and the
    system calls of sysfile.c are an interface: this file only transfers
    control to them. *)
From stdpp Require Import base numbers list sets strings.
From Stdlib Require Import ZArith Lia.
From S2P Require Import Prelude Mmu StringC Kernel Kalloc ShMem Syscall Vm PageTable VmMap VmUser VmSetup VmGrow VmLife Proc.
#[local] Open Scope Z_scope.

Definition tf_trapno : Z := 48.
Definition T_PGFLT : Z := 14.
Definition T_SYSCALL : Z := 64.
Definition T_IRQ0 : Z := 32.
Definition IRQ_TIMER : Z := 0.
Definition IRQ_KBD : Z := 1.
Definition IRQ_COM1 : Z := 4.
Definition IRQ_IDE : Z := 14.
Definition IRQ_SPURIOUS : Z := 31.

(** Interrupt handlers of the drivers, and the system calls on files. *)
Class TrapOps := {
  cpuid : Z;
  lapiceoi : M kernel unit;
  ideintr : M kernel unit;
  kbdintr : M kernel unit;
  uartintr : M kernel unit;
  sys_pipe : M kernel Z;
  sys_read : M kernel Z;
  sys_exec : M kernel Z;
  sys_fstat : M kernel Z;
  sys_chdir : M kernel Z;
  sys_dup : M kernel Z;
  sys_open : M kernel Z;
  sys_write : M kernel Z;
  sys_mknod : M kernel Z;
  sys_unlink : M kernel Z;
  sys_link : M kernel Z;
  sys_mkdir : M kernel Z;
  sys_close : M kernel Z;
}.

Section trap.
Context `{KernelLayout} `{KernelSymbols} `{FileOps} `{TrapOps}.

(** [sys_greet] returns nothing: the caller gets what is in %eax. *)
Definition sys_greet (eax : Z) : M kernel Z := _ <- argstr 0 ;; ret eax.

(** The table [syscalls], indexed by system-call number; slot 0 is empty.
    [eax] is the register for the functions that fall off their end. *)
Definition syscalls (eax : Z) : list (option (M kernel Z)) :=
  [ None;
    Some sys_fork; Some sys_exit; Some sys_wait; Some sys_pipe; Some sys_read;
    Some sys_kill; Some sys_exec; Some sys_fstat; Some sys_chdir; Some sys_dup;
    Some sys_getpid; Some sys_sbrk; Some sys_sleep; Some sys_uptime; Some sys_open;
    Some sys_write; Some sys_mknod; Some sys_unlink; Some sys_link; Some sys_mkdir;
    Some sys_close; Some (sys_greet eax); Some sys_numvp; Some sys_numpp;
    Some sys_getptsize; Some sys_mmap; Some (sys_munmap eax); Some sys_shm_open;
    Some sys_shm_get; Some (sys_shm_close eax); Some (sys_va_to_pa eax); Some sys_cow_fork ].

Definition syscall (eax : Z) : M kernel unit :=
  curproc <- myproc ;;
  n <- load32 (tf curproc + tf_eax) ;;
  let num := s32 n in
  match (if 0 <? num then syscalls eax !! Z.to_nat num else None) with
  | Some (Some f) => r <- f ;; store32 (tf curproc + tf_eax) r
  | _ => store32 (tf curproc + tf_eax) (-1)
  end.

(** [pgdir[PDX(addr)] & PTE_P == 0] parses as [pgdir[PDX(addr)] & (PTE_P == 0)]. *)
Definition is_page_lazy (addr : Z) : M kernel bool :=
  p <- myproc ;;
  e <- load32 (pde_addr (pgdir p) (PDX addr)) ;;
  if negb (Z.land e (if PTE_P =? 0 then 1 else 0) =? 0) then ret false
  else
    e <- load32 (pde_addr (pgdir p) (PDX addr)) ;;
    v <- load32 (P2V (PTE_ADDR e) + 4 * PTX addr) ;;
    ret (has v PTE_LAZY).

(** The branch for [T_PGFLT]; [cr2] is the faulting address.  When the page
    table is absent the message at [kill_process] reads through [pte], which
    was never assigned. *)
Definition page_fault (cr2 : Z) : M kernel unit :=
  p <- myproc ;;
  let addr := cr2 in
  e <- load32 (pde_addr (pgdir p) (PDX addr)) ;;
  if negb (has e PTE_P) then fault "pte is uninitialised"
  else
    let pgtable := P2V (PTE_ADDR e) in
    lazy <- is_page_lazy addr ;;
    if negb lazy then exit
    else
      store32 (pgtable + 4 * PTX addr) 0 ;;;
      mem <- kalloc ;;
      if mem =? 0 then exit
      else
        v <- load32 (pgtable + 4 * PTX addr) ;;
        store32 (pgtable + 4 * PTX addr) (Z.land v (Z.lnot PTE_LAZY)) ;;;
        store32 (pgtable + 4 * PTX addr) (Z.lor (Z.lor (Z.lor (V2P mem) PTE_P) PTE_W) PTE_U).

(** [myproc() && myproc()->killed && (tf->cs&3) == DPL_USER], then [exit()]. *)
Definition exit_if_killed (tfa : Z) : M kernel unit :=
  me <- gets cpu_proc ;;
  match me with
  | None => ret tt
  | Some i =>
      p <- proc_at i ;;
      cs <- load32 (tfa + tf_cs) ;;
      if negb (killed p =? 0) && (Z.land cs 3 =? DPL_USER) then exit else ret tt
  end.

Definition trap (tfa cr2 eax : Z) : M kernel unit :=
  trapno <- load32 (tfa + tf_trapno) ;;
  if trapno =? T_SYSCALL then
    p <- myproc ;;
    (if negb (killed p =? 0) then exit else ret tt) ;;;
    me <- curproc_ptr ;;
    upd me (p_tf tfa) ;;;
    syscall eax ;;;
    p <- myproc ;;
    if negb (killed p =? 0) then exit else ret tt
  else if trapno =? T_PGFLT then page_fault cr2
  else
    (if trapno =? T_IRQ0 + IRQ_TIMER then
       (if cpuid =? 0 then
          acquire tickslock ;;;
          modify (fun k => set_ticks (u32 (ticks k + 1)) k) ;;;
          wakeup ticks_addr ;;;
          release tickslock
        else ret tt) ;;;
       lapiceoi
     else if trapno =? T_IRQ0 + IRQ_IDE then ideintr ;;; lapiceoi
     else if trapno =? T_IRQ0 + IRQ_IDE + 1 then ret tt
     else if trapno =? T_IRQ0 + IRQ_KBD then kbdintr ;;; lapiceoi
     else if trapno =? T_IRQ0 + IRQ_COM1 then uartintr ;;; lapiceoi
     else if (trapno =? T_IRQ0 + 7) || (trapno =? T_IRQ0 + IRQ_SPURIOUS) then lapiceoi
     else
       me <- gets cpu_proc ;;
       cs <- load32 (tfa + tf_cs) ;;
       match me with
       | None => panic "trap"
       | Some i => if Z.land cs 3 =? 0 then panic "trap" else upd i (p_killed 1)
       end) ;;;
    exit_if_killed tfa ;;;
    me <- gets cpu_proc ;;
    (match me with
     | None => ret tt
     | Some i =>
         p <- proc_at i ;;
         if bool_decide (state p = RUNNING) && (trapno =? T_IRQ0 + IRQ_TIMER) then yield else ret tt
     end) ;;;
    exit_if_killed tfa.

(** ** Demand paging *)
Record fault_post (d n pg : Z) (k : kernel) (l : list Z) (k' : kernel) : Prop := {
  fa_free : free_pages k' l;
  fa_uvm : uvm_wf (memory k') d l;
  fa_frame : umapped (memory k') d n = true /\ frame (memory k') d n = pg;
  fa_pte : forall n', 0 <= n' < 1048576 -> pte (memory k') d n' =
     if n' =? n then V2P pg + Z.lor (Z.lor PTE_W PTE_U) PTE_P else pte (memory k) d n';
  fa_only : vm_only k k';
  fa_same : forall q, page_ok q -> q <> tab (memory k) d (n / 1024) ->
     same_page (memory k) (memory k') q;
}.

(** Storing into the entry of a page whose table is present. *)
Lemma store_entry d va v k l : free_pages k l -> pt_wf (memory k) d l -> 0 <= va < 4294967296 ->
  present (memory k) d (PDX va) = true ->
  let k' := set_memory (wr32 (memory k) (tab (memory k) d (PDX va) + 4 * PTX va) v) k in
  pt_ext d k l k' l /\
  (forall i, 0 <= i < 1024 -> pde (memory k') d i = pde (memory k) d i) /\
  (forall n, 0 <= n < 1048576 -> pte (memory k') d n =
     if n =? va / 4096 then u32 v else pte (memory k) d n) /\
  (forall q, page_ok q -> q <> tab (memory k) d (PDX va) -> same_page (memory k) (memory k') q).
Proof.
  intros Hf Hw Hva Hp k'. destruct (store_pte_ext d va v k l Hf Hw Hva Hp) as (A & B & C).
  split; [done|]. split; [done|]. split; [done|]. intros q Hq Hne.
  pose proof (PDX_range va) as HX. pose proof (PTX_range va) as HT.
  destruct (pw_tab _ _ _ Hw _ HX Hp) as (Hok & _).
  eapply same_page_wr32; [exact Hok|done|congruence|lia|lia].
Qed.

Lemma page_fault_runs cr2 k l i p pg :
  cpu_proc k = Some i -> ptable k !! i = Some p -> 0 <= cr2 < KERNBASE ->
  free_pages k (pg :: l) -> uvm_wf (memory k) (pgdir p) (pg :: l) -> kmem_lock ∉ held k ->
  has (pte (memory k) (pgdir p) (cr2 / 4096)) PTE_LAZY = true ->
  umapped (memory k) (pgdir p) (cr2 / 4096) = false ->
  runs (page_fault cr2) k (fun _ k' => fault_post (pgdir p) (cr2 / 4096) pg k l k').
Proof.
  intros Hcpu Hpt Hcr Hf Hu Hh Hlazy Hum. set (d := pgdir p) in *. set (n := cr2 / 4096) in *.
  unfold KERNBASE in Hcr. assert (Hva : 0 <= cr2 < 4294967296) by lia.
  destruct (va_vpn cr2 Hva) as (EX & ET & Hn). fold n in EX, ET, Hn.
  assert (Hnu : 0 <= n < NUPAGES) by (unfold n, NUPAGES; dlia).
  assert (Hp : present (memory k) d (PDX cr2) = true).
  { rewrite EX. unfold pte in Hlazy. by destruct (present (memory k) d (n / 1024)). }
  assert (Hpte : rd32 (memory k) (tab (memory k) d (PDX cr2) + 4 * PTX cr2) = pte (memory k) d n)
    by (unfold pte; by rewrite <- EX, Hp, <- ET).
  destruct (store_entry d cr2 0 k (pg :: l) Hf (uw_pt _ _ _ Hu) Hva Hp) as (Ext1 & Epde1 & Epte1 & Sm1).
  fold n in Epte1. change (u32 0) with 0 in Epte1.
  set (k1 := set_memory (wr32 (memory k) (tab (memory k) d (PDX cr2) + 4 * PTX cr2) 0) k) in *.
  unfold page_fault. reqn myproc_eq; [exact Hcpu|exact Hpt|]. fold d.
  rstep. unfold pde_addr. fold (pde (memory k) d (PDX cr2)). fold (present (memory k) d (PDX cr2)).
  rewrite Hp. cbn [negb]. fold (tab (memory k) d (PDX cr2)).
  apply runs_bind. unfold is_page_lazy. reqn myproc_eq; [exact Hcpu|exact Hpt|]. fold d.
  rstep. change (PTE_P =? 0) with false. cbv iota. rewrite Z.land_0_r. cbn [negb Z.eqb].
  rsteps. unfold pde_addr. fold (pde (memory k) d (PDX cr2)). fold (tab (memory k) d (PDX cr2)).
  rewrite Hpte, Hlazy. cbn [negb]. apply runs_bind. rstep. fold k1.
  assert (Hu1 : uvm_wf (memory k1) d (pg :: l)).
  { eapply ext_uvm_unmapped; [exact Hu|exact Ext1|]. intros m Hm. unfold umapped, frame.
    rewrite Epte1 by (unfold NUPAGES in Hm; lia).
    destruct (Z.eqb_spec m n) as [->|]; done. }
  apply runs_bind. eapply kalloc_runs; [apply Ext1|done|done|].
  intros p' l' E. injection E as <- <-. intros Hpok Hpn Hp0 Hf2 Em Hvm2.
  rewrite (proj2 (Z.eqb_neq _ _) Hp0). set (k2 := kalloc_st k1) in *.
  destruct (kalloc_fresh _ _ _ _ Hpok Hpn Hu1) as [Hu2 Hfr2]. rewrite <- Em in Hu2, Hfr2.
  assert (Et1 : tab (memory k2) d (PDX cr2) = tab (memory k) d (PDX cr2) /\
                present (memory k2) d (PDX cr2) = true).
  { unfold tab, present. rewrite Em, Epde1 by apply PDX_range. done. }
  destruct Et1 as [Et2 Hp2]. rewrite <- Et2. rstep.
  destruct (store_entry d cr2 (Z.land (rd32 (memory k2) (tab (memory k2) d (PDX cr2) + 4 * PTX cr2))
              (Z.lnot PTE_LAZY)) k2 l Hf2 (uw_pt _ _ _ Hu2) Hva Hp2) as (Ext3 & Epde3 & Epte3 & Sm3).
  fold n in Epte3. set (k3 := set_memory _ k2) in Ext3, Epde3, Epte3, Sm3.
  rstep. fold k3.
  assert (Et3 : tab (memory k3) d (PDX cr2) = tab (memory k2) d (PDX cr2) /\
                present (memory k3) d (PDX cr2) = true).
  { unfold tab, present. rewrite Epde3 by apply PDX_range. done. }
  destruct Et3 as [Et3 Hp3]. rewrite <- Et3.
  set (v := Z.lor (Z.lor (Z.lor (V2P pg) PTE_P) PTE_W) PTE_U).
  destruct (store_entry d cr2 v k3 l) as (Ext4 & Epde4 & Epte4 & Sm4);
    [apply Ext3|apply Ext3|done|done|]. fold n in Epte4.
  set (k4 := set_memory _ k3) in Ext4, Epde4, Epte4, Sm4. rstep. fold k4.
  assert (Ev : u32 v = V2P pg + Z.lor (Z.lor PTE_W PTE_U) PTE_P).
  { unfold v. rewrite <- !Z.lor_assoc. rewrite lor_page by done.
    by destruct (entry_page pg (Z.lor PTE_P (Z.lor PTE_W PTE_U)) Hpok) as (_ & -> & _). }
  assert (Hpte24 : forall m, 0 <= m < 1048576 -> pte (memory k4) d m =
            if m =? n then V2P pg + Z.lor (Z.lor PTE_W PTE_U) PTE_P else pte (memory k2) d m).
  { intros m Hm. rewrite Epte4, Ev by done. destruct (Z.eqb_spec m n) as [|Hne]; [done|].
    rewrite Epte3 by done. by rewrite (proj2 (Z.eqb_neq m n) Hne). }
  pose proof (pt_ext_trans _ _ _ _ _ _ _ Ext3 Ext4) as Ext24.
  destruct (map_page_uvm d n pg (Z.lor PTE_W PTE_U) k2 l k4 l Hu2 Hfr2 Hnu) as (A & B & C);
    [done|done|exact Hpte24|].
  split; [apply Ext4|done|done| | |].
  - intros m Hm. rewrite Hpte24 by done. destruct (Z.eqb_spec m n) as [|Hne]; [done|].
    rewrite Em, Epte1 by done. by rewrite (proj2 (Z.eqb_neq m n) Hne).
  - eapply vm_only_trans; [apply Ext1|]. eapply vm_only_trans; [exact Hvm2|apply Ext24].
  - intros q Hq Hne. rewrite <- EX in Hne. eapply same_page_trans; [by apply Sm1|].
    rewrite <- Em. eapply same_page_trans; [apply Sm3; [done|congruence]|].
    apply Sm4; [done|congruence].
Qed.

(** C8. Demand paging: a fault on a user page that is marked lazy and not
    present, with a free page at hand, returns after mapping that page, and no
    other, to a page of its own from the free list, writable by the user; the
    address space stays well formed and no other memory changes.  In
    particular the new page keeps whatever it held: it is not zeroed. *)
Theorem page_fault_maps_lazy_page cr2 k l i p pg :
  cpu_proc k = Some i -> ptable k !! i = Some p -> 0 <= cr2 < KERNBASE ->
  free_pages k (pg :: l) -> uvm_wf (memory k) (pgdir p) (pg :: l) -> kmem_lock ∉ held k ->
  has (pte (memory k) (pgdir p) (cr2 / 4096)) PTE_LAZY = true ->
  umapped (memory k) (pgdir p) (cr2 / 4096) = false ->
  runs (page_fault cr2) k (fun _ k' => fault_post (pgdir p) (cr2 / 4096) pg k l k' /\
    same_page (memory k) (memory k') pg).
Proof.
  intros Hcpu Hpt Hcr Hf Hu Hh Hlz Hum.
  eapply runs_conseq; [by apply (page_fault_runs cr2 k l i p pg)|].
  intros u k' Hpost. split; [done|]. apply (fa_same _ _ _ _ _ _ Hpost).
  - by apply (Forall_inv (fp_ok _ _ Hf)).
  - assert (Hn : 0 <= cr2 / 4096 / 1024 < 1024) by (unfold KERNBASE in Hcr; dlia).
    assert (Hp : present (memory k) (pgdir p) (cr2 / 4096 / 1024) = true).
    { unfold pte in Hlz. by destruct (present _ _ _). }
    destruct (pw_tab _ _ _ (uw_pt _ _ _ Hu) _ Hn Hp) as (_ & _ & Hl).
    apply not_elem_of_cons in Hl as [Hne _]. congruence.
Qed.
End trap.

(** ** A process that touches a page it has mapped lazily *)
Section trap_example.
#[local] Existing Instances example_layout example_symbols example_files.

Definition final {A} (c : M kernel A) (k : kernel) : kernel :=
  match c k with Ret _ k' => k' | _ => k end.

Lemma runs_final {A} (c : M kernel A) k (Q : A -> kernel -> Prop) :
  runs c k Q -> exists a, Q a (final c k).
Proof. intros (a & k' & E & HQ). exists a. unfold final. by rewrite E. Qed.

(** The example kernel after page 5 has been marked lazy, as [sys_mmap] does. *)
Definition map_lazily : M kernel unit :=
  pte <- walkpgdir example_dir 0x5000 true ;; store32 pte PTE_LAZY.
#[local] Notation lazy_kernel := (final map_lazily (example_kernel 4)).

Lemma lazy_kernel_ok : exists pg l,
  free_pages lazy_kernel (pg :: l) /\ uvm_wf (memory lazy_kernel) example_dir (pg :: l) /\
  cpu_proc lazy_kernel = Some 0%nat /\ ptable lazy_kernel = [example_proc example_dir] /\
  held lazy_kernel = [] /\ has (pte (memory lazy_kernel) example_dir 5) PTE_LAZY = true /\
  umapped (memory lazy_kernel) example_dir 5 = false.
Proof.
  pose proof (example_free 4 ltac:(lia)) as Hf. destruct (example_uvm 4) as [Hu Hum]; [lia|].
  destruct (example_rest 4) as [Hh _]. set (l0 := pages_from _ 4) in *.
  assert (R : runs map_lazily (example_kernel 4)
    (fun _ k' => exists l', pt_ext example_dir (example_kernel 4) l0 k' l' /\ (3 <= length l')%nat /\
       uvm_wf (memory k') example_dir l' /\ has (pte (memory k') example_dir 5) PTE_LAZY = true /\
       umapped (memory k') example_dir 5 = false)).
  { unfold map_lazily. rcall (walk_alloc_runs example_dir 0x5000 (example_kernel 4) l0); [done|apply Hu|done|].
    intros r k1 (l1 & Ext & Epte & Hpr & Hr).
    assert (Hlen : (3 <= length l1)%nat).
    { pose proof (pe_count _ _ _ _ _ Ext) as Hc. change (length l0) with 4%nat in Hc.
      pose proof (npdes_le (memory (example_kernel 4)) (memory k1) example_dir 0 0) as Hle.
      specialize (Hle ltac:(lia) ltac:(lia) ltac:(lia)).
      enough (npdes (memory k1) example_dir <= npdes (memory (example_kernel 4)) example_dir + (0 - 0 + 1)) by lia.
      apply Hle. intros i Hi Hp. destruct (decide (i = 0)) as [->|Hne]; [right; lia|left].
      by rewrite <- (Hpr i Hi Hne). }
    destruct Hr as [(-> & -> & _)|(-> & _ & Hp)]; [simpl in Hlen; lia|].
    assert (Hu1 : uvm_wf (memory k1) example_dir l1) by (by eapply ext_uvm).
    destruct (store_entry example_dir 0x5000 PTE_LAZY k1 l1) as (Ext2 & _ & Epte2 & _);
      [apply Ext|apply Ext|lia|done|].
    rstep. exists l1. split; [by eapply pt_ext_trans|]. split; [done|].
    change (0x5000 / 4096) with 5 in Epte2.
    assert (E5 : pte (memory (set_memory (wr32 (memory k1) (tab (memory k1) example_dir (PDX 0x5000) +
                    4 * PTX 0x5000) PTE_LAZY) k1)) example_dir 5 = 512) by (by rewrite Epte2).
    unfold umapped at 1. rewrite E5. split; [|done].
    eapply ext_uvm_unmapped; [exact Hu1|exact Ext2|]. intros m Hm. unfold umapped, frame.
    rewrite Epte2 by (unfold NUPAGES in Hm; lia). destruct (Z.eqb_spec m 5); done. }
  apply runs_final in R.
  destruct R as (u & l1 & Ext & Hlen & Hu1 & Hlz & Hum1).
  destruct l1 as [|pg l]; [simpl in Hlen; lia|]. exists pg, l.
  destruct (vm_only_fields _ _ (pe_only _ _ _ _ _ Ext)) as (-> & -> & ->).
  destruct (example_fields 4) as (-> & -> & ->).
  split; [apply Ext|]. split; [exact Hu1|].
  split; [reflexivity|]. split; [reflexivity|]. split; [reflexivity|]. split; assumption.
Qed.

Lemma page_fault_maps_lazy_page_witness : exists pg l,
  runs (page_fault 0x5123) lazy_kernel (fun _ k' =>
    fault_post example_dir 5 pg lazy_kernel l k' /\ same_page (memory lazy_kernel) (memory k') pg).
Proof.
  destruct lazy_kernel_ok as (pg & l & Hf & Hu & Hc & Ht & Hh & Hlz & Hum). exists pg, l.
  apply (page_fault_maps_lazy_page 0x5123 lazy_kernel l 0%nat (example_proc example_dir) pg).
  - exact Hc.
  - rewrite Ht. reflexivity.
  - unfold KERNBASE. lia.
  - exact Hf.
  - exact Hu.
  - rewrite Hh. apply not_elem_of_nil.
  - exact Hlz.
  - exact Hum.
Defined.
End trap_example.
