(* ===== verification/Mmap.v ===== *)
(** * mmap and munmap: lazily mapped pages *)
From stdpp Require Import base numbers list sets strings.
From Stdlib Require Import ZArith Lia.
From S2P Require Import Prelude Mmu StringC Kernel Kalloc ShMem Syscall Vm PageTable VmMap VmUser VmSetup VmGrow VmLife UserMem Proc Trap.
#[local] Open Scope Z_scope.

Section mmap.
Context `{KernelLayout}.

(** The state after pages [[lo, c)] have been marked. *)
Record lazy_upto (d lo c : Z) (k : kernel) (l : list Z) (k' : kernel) (l' : list Z) : Prop := {
  lz_ext : pt_ext d k l k' l';
  lz_uvm : uvm_wf (memory k') d l';
  lz_pte : forall n, 0 <= n < 1048576 -> pte (memory k') d n =
     if (lo <=? n) && (n <? c) then PTE_LAZY else pte (memory k) d n;
  lz_range : forall i, 0 <= i < 1024 -> present (memory k') d i = true ->
     present (memory k) d i = true \/ (lo < c /\ lo / 1024 <= i <= (c - 1) / 1024);
}.

Lemma lazy_refl d lo k l : free_pages k l -> uvm_wf (memory k) d l -> lazy_upto d lo lo k l k l.
Proof.
  intros Hf Hu. split; [by apply pt_ext_refl; [|apply Hu]|done| |by left].
  intros n Hn. destruct (Z.leb_spec lo n), (Z.ltb_spec n lo); simpl; lia || done.
Qed.

(** With a page for every table slot that the range touches, the walk finds or
    makes the table. *)
Lemma lazy_room d lo c hi k l k' : 0 <= lo <= c -> c < hi <= NUPAGES ->
  (hi - 1) / 1024 - lo / 1024 + 1 <= Z.of_nat (length l) ->
  lazy_upto d lo c k l k' [] -> present (memory k') d (c / 1024) = true.
Proof.
  intros Hlc Hch Hlen [Ext _ Hpte Hrng]. unfold NUPAGES in Hch.
  destruct (present (memory k') d (c / 1024)) eqn:Hab; [done|exfalso].
  pose proof (pe_count _ _ _ _ _ Ext) as Hc. rewrite length_nil in Hc.
  destruct (Z.eq_dec lo c) as [->|Hne].
  - pose proof (npdes_le (memory k) (memory k') d 0 (-1) ltac:(lia) ltac:(lia) ltac:(lia)) as Hle.
    specialize (Hle ltac:(intros i Hi Hp; destruct (Hrng i Hi Hp) as [|[? _]]; [by left|lia])). dlia.
  - pose proof (npdes_le (memory k) (memory k') d (lo / 1024) ((c - 1) / 1024)
      ltac:(dlia) ltac:(dlia) ltac:(dlia)) as Hle.
    specialize (Hle ltac:(intros i Hi Hp; destruct (Hrng i Hi Hp) as [|[_ ?]]; [by left|by right])).
    assert (Hp1 : present (memory k') d ((c - 1) / 1024) = true).
    { pose proof (Hpte (c - 1) ltac:(lia)) as E.
      destruct (Z.leb_spec lo (c - 1)), (Z.ltb_spec (c - 1) c); try lia. cbn [andb] in E.
      unfold pte in E. by destruct (present (memory k') d ((c - 1) / 1024)). }
    assert ((c - 1) / 1024 <> c / 1024) by congruence. dlia.
Qed.

Lemma lazy_step d lo c k l k1 l1 k2 l2 v :
  0 <= lo <= c -> c < NUPAGES -> lazy_upto d lo c k l k1 l1 -> umapped (memory k) d c = false ->
  pt_ext d k1 l1 k2 l2 ->
  (forall n, 0 <= n < 1048576 -> pte (memory k2) d n = pte (memory k1) d n) ->
  (forall i, 0 <= i < 1024 -> i <> c / 1024 -> present (memory k2) d i = present (memory k1) d i) ->
  present (memory k2) d (c / 1024) = true -> u32 v = PTE_LAZY ->
  lazy_upto d lo (c + 1) k l
    (set_memory (wr32 (memory k2) (tab (memory k2) d (PDX (4096 * c)) + 4 * PTX (4096 * c)) v) k2) l2.
Proof.
  intros Hlc Hc [Ext Hu Hpte Hrng] Hum Ext2 Hpte2 Hpr2 Hp2 Hv. pose proof Hc as Hcn. unfold NUPAGES in Hcn.
  destruct (va_vpn (4096 * c)) as (EX & ET & _); [lia|].
  rewrite (proj2 (aligned_vpn c ltac:(lia))) in EX, ET.
  assert (Hu2 : uvm_wf (memory k2) d l2) by (by eapply ext_uvm).
  destruct (store_entry d (4096 * c) v k2 l2) as (Ext3 & Epde3 & Epte3 & _);
    [apply Ext2|apply Ext2|lia|by rewrite EX|].
  rewrite (proj2 (aligned_vpn c ltac:(lia))), Hv in Epte3. set (k3 := set_memory _ k2) in *.
  assert (Hold : umapped (memory k2) d c = false).
  { unfold umapped. rewrite Hpte2, Hpte by lia. destruct (Z.leb_spec lo c), (Z.ltb_spec c c); try lia. done. }
  split.
  - eapply pt_ext_trans; [exact Ext|]. by eapply pt_ext_trans.
  - eapply ext_uvm_unmapped; [exact Hu2|exact Ext3|]. intros n Hn. unfold umapped, frame.
    rewrite Epte3 by (unfold NUPAGES in Hn; lia). destruct (Z.eqb_spec n c); done.
  - intros n Hn. rewrite Epte3, Hpte2, Hpte by done.
    destruct (Z.eqb_spec n c), (Z.leb_spec lo n), (Z.ltb_spec n c), (Z.ltb_spec n (c + 1));
      simpl; try lia; done.
  - intros i Hi. unfold present at 1. rewrite Epde3 by done. fold (present (memory k2) d i).
    intros Hp. destruct (decide (i = c / 1024)) as [->|Hne].
    + right. split; [lia|]. dlia.
    + rewrite Hpr2 in Hp by done. destruct (Hrng i Hi Hp) as [|[? ?]]; [by left|right]. split; [lia|]. dlia.
Qed.

(** One iteration at page [c]. *)
Lemma mmap_iter_runs d E k l lo hi c k1 l1 :
  0 <= lo <= c -> c < hi <= NUPAGES -> 4096 * c < E ->
  (hi - 1) / 1024 - lo / 1024 + 1 <= Z.of_nat (length l) ->
  (forall m, lo <= m < hi -> umapped (memory k) d m = false) -> kmem_lock ∉ held k ->
  lazy_upto d lo c k l k1 l1 ->
  runs (mmap_iter d E (4096 * c)) k1 (fun r k2 => r = inl (4096 * (c + 1)) /\
    exists l2, lazy_upto d lo (c + 1) k l k2 l2).
Proof.
  intros Hlc Hch Hlt Hroom Hum Hh Hlz. unfold mmap_iter. rewrite (proj2 (Z.ltb_lt _ _) Hlt).
  assert (Hch' := Hch). unfold NUPAGES in Hch'.
  destruct (va_vpn (4096 * c)) as (EX & _ & _); [lia|].
  rewrite (proj2 (aligned_vpn c ltac:(lia))) in EX.
  rcall (walk_alloc_runs d (4096 * c) k1 l1); [apply Hlz|apply Hlz| |].
  { by rewrite (vm_only_held _ _ (pe_only _ _ _ _ _ (lz_ext _ _ _ _ _ _ _ Hlz))). }
  intros r k2 (l2 & Ext2 & Epte2 & Hpr2 & Hr). rewrite EX in Hpr2, Hr.
  assert (Hr' : r = tab (memory k2) d (c / 1024) + 4 * PTX (4096 * c) /\ r <> 0 /\
                present (memory k2) d (c / 1024) = true).
  { destruct Hr as [(-> & -> & Hab)|Hr]; [exfalso|done].
    assert (Hc2 : lazy_upto d lo c k l k2 []).
    { destruct Hlz as [X1 X2 X3 X4]. split; [by eapply pt_ext_trans|by eapply ext_uvm| |].
      - intros m Hm. rewrite Epte2 by done. by apply X3.
      - intros j Hj Hp. apply X4; [done|]. destruct (decide (j = c / 1024)) as [->|]; [congruence|].
        by rewrite <- Hpr2. }
    rewrite (lazy_room d lo c hi k l k2 Hlc Hch Hroom Hc2) in Hab. done. }
  destruct Hr' as (-> & Hr0 & Hp2). rewrite (proj2 (Z.eqb_neq _ _) Hr0). rstep. rstep.
  assert (Ev : rd32 (memory k2) (tab (memory k2) d (c / 1024) + 4 * PTX (4096 * c)) = pte (memory k) d c).
  { destruct (va_vpn (4096 * c)) as (_ & ET & _); [lia|].
    rewrite (proj2 (aligned_vpn c ltac:(lia))) in ET.
    assert (E0 : pte (memory k2) d c = pte (memory k) d c).
    { rewrite Epte2, (lz_pte _ _ _ _ _ _ _ Hlz) by lia.
      destruct (Z.ltb_spec c c); [lia|]. by rewrite andb_false_r. }
    rewrite <- E0. unfold pte. by rewrite Hp2, ET. }
  rewrite Ev. pose proof (Hum c ltac:(lia)) as Hcu. unfold umapped in Hcu. rewrite Hcu. rsteps.
  unfold PGSIZE. rewrite u32_small by lia. split; [f_equal; lia|]. exists l2. rewrite <- EX.
  by apply (lazy_step d lo c k l k1 l1 k2 l2); try done; lia.
Qed.

Lemma mmap_end_aligned start n : 0 <= n < 4294967296 -> 0 <= s32 n -> start `mod` 4096 = 0 ->
  u32 (start + PGROUNDUP n) `mod` 4096 = 0.
Proof.
  intros Hn Hs Ha. unfold s32 in Hs. rewrite (u32_small n) in Hs by done.
  destruct (Z.ltb_spec n 2147483648); [|lia].
  destruct (PGROUNDUP_spec n) as [_ Hp]; [lia..|]. unfold u32. dlia.
Qed.

End mmap.

Section mmap_example.
#[local] Existing Instance example_layout.

Lemma user_arg (a0 a1 : Z) n j v : Z.of_nat n <= 50000 ->
  rd32 (memory (user_kernel a0 a1 n)) (tf user_proc + tf_esp) = 0x100 -> 0 <= j < 100 ->
  uword (user_kernel a0 a1 n) user_proc (0x104 + 4 * j) = v ->
  argint j (user_kernel a0 a1 n) = Ret (Some v) (user_kernel a0 a1 n).
Proof.
  intros Hn He Hj Hv. pose proof (user_kernel_ok a0 a1 n Hn) as Hu.
  rewrite (argint_eq _ 0%nat user_proc j 0x100 Hu He).
  replace (0x100 + 4 + 4 * j) with (0x104 + 4 * j) by lia. rewrite u32_small by lia.
  rewrite (fetchint_eq _ 0%nat user_proc) by (done || lia). cbn [sz user_proc].
  destruct (Z.ltb_spec (0x104 + 4 * j) 4096), (Z.leb_spec (0x104 + 4 * j + 4) 4096); try lia.
  cbn [andb]. by rewrite Hv.
Qed.

End mmap_example.
