(* ===== verification/Spinlock.v ===== *)
(** * Spin locks between processors (spinlock.c)

    [pushcli], [popcli] and [holding] run on one processor and are programs of
    the monad over [cpu].  [acquire] and [release] race with the other
    processors: [cpu_step] performs one access to the shared lock at a time,
    and [lock_step] lets any processor take the next one.  The theorems show
    mutual exclusion under every interleaving, that the panics of [acquire]
    and [release] are reached only by misuse although [holding] reads the lock
    without owning it, and that interrupts are off inside critical sections
    and restored after them. *)
From stdpp Require Import base numbers list strings relations.
From Stdlib Require Import ZArith Lia.
From S2P Require Import Prelude Mmu.
#[local] Open Scope Z_scope.

(** ** One processor *)

(** The fields of [struct cpu] that the lock code uses, and the interrupt
    flag of the processor. *)
Record cpu := mkcpu { IF_flag : bool; ncli : Z; intena : bool }.

Definition readeflags : M cpu bool := gets IF_flag.
Definition cli : M cpu unit := modify (fun c => mkcpu false (ncli c) (intena c)).
Definition sti : M cpu unit := modify (fun c => mkcpu true (ncli c) (intena c)).

(** [mycpu] refuses to run with interrupts on. *)
Definition mycpu : M cpu cpu :=
  e <- readeflags ;;
  if e then panic "mycpu called with interrupts enabled" else get.

Definition pushcli : M cpu unit :=
  eflags <- readeflags ;;
  cli ;;;
  c <- mycpu ;;
  when (ncli c =? 0) (modify (fun c => mkcpu (IF_flag c) (ncli c) eflags)) ;;;
  _ <- mycpu ;;
  modify (fun c => mkcpu (IF_flag c) (ncli c + 1) (intena c)).

Definition popcli : M cpu unit :=
  eflags <- readeflags ;;
  if eflags then panic "popcli - interruptible"
  else
    _ <- mycpu ;;
    modify (fun c => mkcpu (IF_flag c) (ncli c - 1) (intena c)) ;;;
    c <- get ;;
    if ncli c <? 0 then panic "popcli"
    else when ((ncli c =? 0) && intena c) sti.

(** ** The lock *)

(** [lk->cpu] is the number of the processor, [None] for null. *)
Record spinlock := mkspinlock { locked : Z; lk_cpu : option nat; pcs : list Z }.

Definition initlock : spinlock := mkspinlock 0 None (replicate 10 0).

(** The callers recorded for debugging: follow the saved %ebp chain while it
    stays in the kernel. *)
Fixpoint callers (m : mem) (n : nat) (ebp : Z) : list Z :=
  match n with
  | O => []
  | S n' =>
      if (ebp =? 0) || (ebp <? KERNBASE) || (ebp =? 0xffffffff) then replicate n 0
      else rd32 m (ebp + 4) :: callers m n' (rd32 m ebp)
  end.
Definition getcallerpcs (m : mem) (v : Z) : list Z := callers m 10 (u32 (v - 8)).

(** ** Interleavings *)
Inductive call := Acquire | Release.

#[global] Instance call_eq_dec : EqDecision call.
Proof. solve_decision. Defined.

(** Where a processor stands inside [acquire(l)] or [release(l)]; [v] is the
    stack address that [acquire] hands to [getcallerpcs]. *)
Inductive point :=
| Running
| Start (c : call) (l : nat) (v : Z)
| HoldPush (c : call) (l : nat) (v : Z)
| HoldLocked (c : call) (l : nat) (v : Z)
| HoldCpu (c : call) (l : nat) (v : Z)
| HoldPop (c : call) (l : nat) (v : Z) (r : bool)
| Xchg (l : nat) (v : Z)
| SetCpu (l : nat) (v : Z)
| SetPcs (l : nat) (v : Z)
| ClearPcs (l : nat)
| ClearCpu (l : nat)
| ClearLocked (l : nat)
| Pop (l : nat)
| Crashed (msg : string) (l : nat).

(** A processor: its registers, its program point, and two ghosts: the locks
    it has won and not given back, and the interrupt flag it last chose while
    it held none. *)
Record thread := mkthread { tcpu : cpu; pt : point; own : list nat; saved : bool }.

Definition locks := nat -> spinlock.
Definition upd_lock (l : nat) (lk : spinlock) (ls : locks) : locks :=
  fun x => if decide (x = l) then lk else ls x.

(** Run processor-local code, then go on at [p]. *)
Definition local (c : M cpu unit) (l : nat) (p : point) (t : thread) : thread :=
  match c (tcpu t) with
  | Ret _ s => mkthread s p (own t) (saved t)
  | Panic msg s => mkthread s (Crashed msg l) (own t) (saved t)
  | _ => mkthread (tcpu t) (Crashed "stuck" l) (own t) (saved t)
  end.
Definition goto (p : point) (t : thread) : thread := mkthread (tcpu t) p (own t) (saved t).

(** One step of processor [me]; [m] is memory as [getcallerpcs] finds it. *)
Definition cpu_step (me : nat) (m : mem) (t : thread) (ls : locks) : thread * locks :=
  match pt t with
  | Running | Crashed _ _ => (t, ls)
  | Start Acquire l v => (local pushcli l (HoldPush Acquire l v) t, ls)
  | Start Release l v => (goto (HoldPush Release l v) t, ls)
  | HoldPush c l v => (local pushcli l (HoldLocked c l v) t, ls)
  | HoldLocked c l v =>
      (goto (if locked (ls l) =? 0 then HoldPop c l v false else HoldCpu c l v) t, ls)
  | HoldCpu c l v =>
      (goto (HoldPop c l v (bool_decide (lk_cpu (ls l) = Some me))) t, ls)
  | HoldPop Acquire l v r =>
      (local popcli l (if r then Crashed "acquire" l else Xchg l v) t, ls)
  | HoldPop Release l v r =>
      (local popcli l (if r then ClearPcs l else Crashed "release" l) t, ls)
  | Xchg l v =>
      let old := locked (ls l) in
      let ls' := upd_lock l (mkspinlock 1 (lk_cpu (ls l)) (pcs (ls l))) ls in
      if old =? 0 then (mkthread (tcpu t) (SetCpu l v) (l :: own t) (saved t), ls')
      else (t, ls')
  | SetCpu l v =>
      (goto (SetPcs l v) t, upd_lock l (mkspinlock (locked (ls l)) (Some me) (pcs (ls l))) ls)
  | SetPcs l v =>
      (goto Running t,
       upd_lock l (mkspinlock (locked (ls l)) (lk_cpu (ls l)) (getcallerpcs m v)) ls)
  | ClearPcs l =>
      (goto (ClearCpu l) t,
       upd_lock l (mkspinlock (locked (ls l)) (lk_cpu (ls l)) (<[0%nat := 0]> (pcs (ls l)))) ls)
  | ClearCpu l =>
      (goto (ClearLocked l) t, upd_lock l (mkspinlock (locked (ls l)) None (pcs (ls l))) ls)
  | ClearLocked l =>
      (mkthread (tcpu t) (Pop l) (filter (fun x => x ≠ l) (own t)) (saved t),
       upd_lock l (mkspinlock 0 (lk_cpu (ls l)) (pcs (ls l))) ls)
  | Pop l => (local popcli l Running t, ls)
  end.

Record machine := mkmachine { threads : list thread; mlocks : locks }.

(** A processor calls [acquire] or [release], changes its interrupt flag while
    it is not inside pushcli (sti in the scheduler, iret), or goes on. *)
Inductive lock_step : machine -> machine -> Prop :=
| step_call i t c l v ths ls :
    ths !! i = Some t -> pt t = Running ->
    lock_step (mkmachine ths ls) (mkmachine (<[i := goto (Start c l v) t]> ths) ls)
| step_flag i t b ths ls :
    ths !! i = Some t -> pt t = Running -> ncli (tcpu t) = 0 ->
    lock_step (mkmachine ths ls)
      (mkmachine (<[i := mkthread (mkcpu b 0 (intena (tcpu t))) Running (own t) b]> ths) ls)
| step_cpu i t m ths ls t' ls' :
    ths !! i = Some t -> cpu_step i m t ls = (t', ls') ->
    lock_step (mkmachine ths ls) (mkmachine (<[i := t']> ths) ls').

(** [n] processors at boot, interrupts off, every lock initialised. *)
Definition boot (n : nat) : machine :=
  mkmachine (replicate n (mkthread (mkcpu false 0 false) Running [] false)) (fun _ => initlock).

(** ** The invariant *)

(** [lk->cpu] is not recorded yet, or no longer. *)
Definition unset (p : point) (l : nat) : bool :=
  match p with
  | SetCpu l' _ | ClearLocked l' => bool_decide (l' = l)
  | _ => false
  end.

(** How many pushcli are pending besides one per owned lock. *)
Definition pushed (p : point) : Z :=
  match p with
  | HoldPush Acquire _ _ | Xchg _ _ | Pop _ => 1
  | HoldLocked c _ _ | HoldCpu c _ _ | HoldPop c _ _ _ =>
      match c with Acquire => 2 | Release => 1 end
  | _ => 0
  end.

(** What the program point says about ownership of its lock. *)
Definition point_ok (p : point) (own : list nat) : Prop :=
  match p with
  | HoldPop _ l _ r => r = true <-> l ∈ own
  | Xchg l _ | Pop l => l ∉ own
  | SetCpu l _ | SetPcs l _ | ClearPcs l | ClearCpu l | ClearLocked l => l ∈ own
  | Crashed msg l => msg = "acquire"%string /\ l ∈ own \/ msg = "release"%string /\ l ∉ own
  | _ => True
  end.

(** The interrupt state: off and remembered in [intena] under pushcli. *)
Definition flag_ok (c : cpu) (n : Z) (sv : bool) : Prop :=
  0 <= n /\ ncli c = n /\
  if n =? 0 then IF_flag c = sv else IF_flag c = false /\ intena c = sv.

Definition crashed (p : point) : bool := match p with Crashed _ _ => true | _ => false end.

Record thread_ok (t : thread) : Prop := {
  to_nodup : NoDup (own t);
  to_point : point_ok (pt t) (own t);
  to_flag : crashed (pt t) = false ->
            flag_ok (tcpu t) (Z.of_nat (length (own t)) + pushed (pt t)) (saved t) }.

(** A lock is free and owned by nobody, or taken and owned by one processor. *)
Definition lock_ok (ths : list thread) (l : nat) (lk : spinlock) : Prop :=
  (locked lk = 0 /\ lk_cpu lk = None /\ forall i t, ths !! i = Some t -> l ∉ own t) \/
  (locked lk = 1 /\ exists i t, ths !! i = Some t /\ l ∈ own t /\
     (forall j t', ths !! j = Some t' -> l ∈ own t' -> j = i) /\
     lk_cpu lk = if unset (pt t) l then None else Some i).

Record lock_inv (s : machine) : Prop := {
  li_threads : Forall thread_ok (threads s);
  li_locks : forall l, lock_ok (threads s) l (mlocks s l) }.

Lemma pushed_nonneg p : 0 <= pushed p.
Proof. by destruct p as [|[] ? ?|[] ? ?|[] ? ?|[] ? ?|[] ? ? ?| | | | | | | |]. Qed.

(** ** pushcli and popcli *)
Lemma pushcli_ok c n sv : flag_ok c n sv ->
  exists c', pushcli c = Ret tt c' /\ flag_ok c' (n + 1) sv.
Proof.
  destruct c as [f k i]. intros (Hn & Hk & Hf). simpl in *. subst k.
  unfold flag_ok. destruct (Z.eqb_spec n 0) as [->|Hne].
  - subst f. eexists. split; [reflexivity|]. simpl. split; [lia|done].
  - destruct Hf as [-> ->].
    exists (mkcpu false (n + 1) sv). split.
    + unfold pushcli, bind, readeflags, gets, cli, modify, mycpu, get, when. simpl.
      by destruct (Z.eqb_spec n 0).
    + simpl. destruct (Z.eqb_spec (n + 1) 0); [lia|]. split; [lia|done].
Qed.

Lemma popcli_ok c n sv : 0 <= n -> flag_ok c (n + 1) sv ->
  exists c', popcli c = Ret tt c' /\ flag_ok c' n sv.
Proof.
  destruct c as [f k i]. intros Hn (_ & Hk & Hf). simpl in *. subst k.
  destruct (Z.eqb_spec (n + 1) 0); [lia|]. destruct Hf as [-> ->].
  unfold popcli, bind, readeflags, gets, modify, mycpu, get, when, sti. simpl.
  replace (n + 1 - 1) with n by lia.
  destruct (Z.ltb_spec n 0); [lia|].
  destruct (Z.eqb_spec n 0) as [->|Hne]; [destruct sv|]; simpl;
    (eexists; split; [reflexivity|]); unfold flag_ok; simpl; [done..|].
  by destruct (Z.eqb_spec n 0).
Qed.

(** Local code that goes from depth [n] to [n'] of pushcli. *)
Lemma local_ok (c : M cpu unit) l p t n n' :
  (forall s, flag_ok s n (saved t) -> exists s', c s = Ret tt s' /\ flag_ok s' n' (saved t)) ->
  flag_ok (tcpu t) n (saved t) ->
  exists s', local c l p t = mkthread s' p (own t) (saved t) /\ flag_ok s' n' (saved t).
Proof.
  intros Hc Hf. destruct (Hc _ Hf) as (s' & E & Hf'). exists s'. unfold local. by rewrite E.
Qed.

(** ** Preservation *)

(** A step that leaves a lock and what its processor says of it alone. *)
Lemma lock_ok_frame ths i t t' l lk lk' :
  ths !! i = Some t -> (l ∈ own t' <-> l ∈ own t) -> unset (pt t') l = unset (pt t) l ->
  locked lk' = locked lk -> lk_cpu lk' = lk_cpu lk ->
  lock_ok ths l lk -> lock_ok (<[i := t']> ths) l lk'.
Proof.
  intros Hi Ho Hu E1 E2 [(H1 & H2 & H3)|(H1 & j & tj & Hj & Hown & Hun & Hc)].
  - left. rewrite E1, E2. split; [done|]. split; [done|].
    intros j t0 [(-> & <- & _)|(_ & Hj)]%list_lookup_insert_Some; [|eauto].
    rewrite Ho. eauto.
  - right. rewrite E1, E2. split; [done|].
    assert (Hun' : forall x t0, <[i:=t']> ths !! x = Some t0 -> l ∈ own t0 -> x = j).
    { intros x t0 [(-> & <- & _)|(_ & Hx)]%list_lookup_insert_Some Hin; [|eauto].
      apply Ho in Hin. eauto. }
    destruct (decide (i = j)) as [->|Hne].
    + exists j, t'. rewrite list_lookup_insert_eq by (by eapply lookup_lt_Some).
      simplify_eq. rewrite Ho, Hu. done.
    + exists j, tj. rewrite list_lookup_insert_ne by done. done.
Qed.

(** The effect of one step on thread and locks, as the invariant sees it. *)
Definition step_ok (ths : list thread) (i : nat) (t' : thread) (ls' : locks) : Prop :=
  thread_ok t' /\ forall l, lock_ok (<[i := t']> ths) l (ls' l).

(** Steps that touch no lock word. *)
Lemma quiet_step ths i t t' ls ls' :
  ths !! i = Some t -> (forall l, lock_ok ths l (ls l)) -> thread_ok t' ->
  own t' = own t -> (forall l, unset (pt t') l = unset (pt t) l) ->
  (forall l, locked (ls' l) = locked (ls l) /\ lk_cpu (ls' l) = lk_cpu (ls l)) ->
  step_ok ths i t' ls'.
Proof.
  intros Hi Hl Ht Ho Hu E. split; [done|]. intros l. destruct (E l).
  eapply lock_ok_frame; eauto. by rewrite Ho.
Qed.

(** Processor-local code between two points that say the same of the locks. *)
Lemma local_step ths i t ls c l p n :
  ths !! i = Some t -> (forall l, lock_ok ths l (ls l)) -> thread_ok t ->
  crashed (pt t) = false -> (forall l, unset (pt t) l = false) -> (forall l, unset p l = false) ->
  point_ok p (own t) ->
  n = Z.of_nat (length (own t)) + pushed (pt t) ->
  (forall s, flag_ok s n (saved t) -> exists s', c s = Ret tt s' /\
     (crashed p = false -> flag_ok s' (Z.of_nat (length (own t)) + pushed p) (saved t))) ->
  step_ok ths i (local c l p t) ls.
Proof.
  intros Hi Hl [Hnd Hp Hf] Hcr Hu Hu' Hp' -> Hc.
  destruct (Hc (tcpu t) (Hf Hcr)) as (s' & E & Hf').
  assert (El : local c l p t = mkthread s' p (own t) (saved t)) by (unfold local; by rewrite E).
  rewrite El. apply (quiet_step ths i t _ ls ls); [done|done|by constructor|done| |done].
  intros l'. by rewrite Hu.
Qed.

Lemma goto_step ths i t ls ls' p :
  ths !! i = Some t -> (forall l, lock_ok ths l (ls l)) -> thread_ok t ->
  crashed (pt t) = false -> (forall l, unset p l = unset (pt t) l) ->
  point_ok p (own t) -> pushed p = pushed (pt t) ->
  (forall l, locked (ls' l) = locked (ls l) /\ lk_cpu (ls' l) = lk_cpu (ls l)) ->
  step_ok ths i (goto p t) ls'.
Proof.
  intros Hi Hl [Hnd Hp Hf] Hcr Hu Hp' Hpu E.
  apply (quiet_step ths i t _ ls ls'); [done|done| |done|done|done].
  constructor; [done|done|]. simpl. rewrite Hpu. auto.
Qed.

(** [holding] reads the lock while others change it, and is still exact. *)
Lemma free_not_owned ths l lk i t :
  lock_ok ths l lk -> ths !! i = Some t -> locked lk = 0 -> l ∉ own t.
Proof. intros [(_ & _ & H)|(H & _)] Hi E; [eauto|lia]. Qed.

Lemma recorded_iff_owned ths l lk i t :
  lock_ok ths l lk -> ths !! i = Some t -> unset (pt t) l = false ->
  lk_cpu lk = Some i <-> l ∈ own t.
Proof.
  intros [(_ & -> & H)|(_ & j & tj & Hj & Hown & Hun & ->)] Hi Hu.
  - split; [done|]. intros Hin. by destruct (H i t Hi).
  - split.
    + destruct (unset (pt tj) l); [done|]. intros [= ->]. congruence.
    + intros Hin. assert (i = j) as -> by eauto. assert (tj = t) as -> by congruence.
      by rewrite Hu.
Qed.

Lemma upd_lock_same l lk ls : upd_lock l lk ls l = lk.
Proof. unfold upd_lock. by rewrite decide_True. Qed.
Lemma upd_lock_other l l' lk ls : l' ≠ l -> upd_lock l lk ls l' = ls l'.
Proof. intros. unfold upd_lock. by rewrite decide_False. Qed.

(** Steps that write the word of one lock: enough to look at that lock. *)
Lemma word_step ths i t t' l lk ls :
  ths !! i = Some t -> (forall l, lock_ok ths l (ls l)) -> thread_ok t' ->
  (forall x, x ≠ l -> (x ∈ own t' <-> x ∈ own t) /\ unset (pt t') x = unset (pt t) x) ->
  lock_ok (<[i := t']> ths) l lk ->
  step_ok ths i t' (upd_lock l lk ls).
Proof.
  intros Hi Hl Ht Hx Hlk. split; [done|]. intros x.
  destruct (decide (x = l)) as [->|Hne]; [by rewrite upd_lock_same|].
  rewrite upd_lock_other by done. destruct (Hx x Hne). by eapply lock_ok_frame.
Qed.

(** The lock that processor [i] owns, whatever the others do. *)
Lemma owned_lock_ok ths i t t' l lk lk' :
  lock_ok ths l lk -> ths !! i = Some t -> l ∈ own t -> l ∈ own t' -> locked lk' = 1 ->
  lk_cpu lk' = (if unset (pt t') l then None else Some i) ->
  lock_ok (<[i := t']> ths) l lk'.
Proof.
  intros [(_ & _ & H)|(H1 & j & tj & Hj & Hown & Hun & Hc)] Hi Hin Hin' E1 E2;
    [by destruct (H i t Hi)|].
  right. split; [done|]. exists i, t'.
  rewrite list_lookup_insert_eq by (by eapply lookup_lt_Some). split; [done|]. split; [done|].
  split; [|done]. rewrite <- (Hun i t Hi Hin) in Hun.
  intros x t0 [(-> & <- & _)|(_ & Hx)]%list_lookup_insert_Some Hin0; [done|eauto].
Qed.

Lemma owned_locked ths l lk i t :
  lock_ok ths l lk -> ths !! i = Some t -> l ∈ own t -> locked lk = 1.
Proof. intros [(_ & _ & H)|(H & _)] Hi Hin; [by destruct (H i t Hi)|done]. Qed.

Lemma xchg_step ths i t ls l v :
  ths !! i = Some t -> (forall l, lock_ok ths l (ls l)) -> thread_ok t -> pt t = Xchg l v ->
  locked (ls l) = 0 ->
  step_ok ths i (mkthread (tcpu t) (SetCpu l v) (l :: own t) (saved t))
    (upd_lock l (mkspinlock 1 (lk_cpu (ls l)) (pcs (ls l))) ls).
Proof.
  intros Hi Hl [Hnd Hp Hf] Ept E0. rewrite Ept in *. simpl in *.
  eapply word_step; [done|done| | |].
  - constructor; simpl; [by constructor|set_solver|]. intros _.
    replace (Z.of_nat (S (length (own t))) + 0) with (Z.of_nat (length (own t)) + 1) by lia. auto.
  - intros x Hne. simpl. rewrite Ept. rewrite bool_decide_eq_false_2 by congruence. set_solver.
  - destruct (Hl l) as [(_ & Hc & Hno)|(H1 & _)]; [|lia].
    right. simpl. split; [done|]. eexists i, _.
    rewrite list_lookup_insert_eq by (by eapply lookup_lt_Some). split; [done|]. simpl.
    rewrite bool_decide_eq_true_2 by done. split; [set_solver|]. split; [|done].
    intros j t' [(-> & <- & _)|(_ & Hj)]%list_lookup_insert_Some Hin; [done|].
    by destruct (Hno j t' Hj).
Qed.

Lemma release_step ths i t ls l :
  ths !! i = Some t -> (forall l, lock_ok ths l (ls l)) -> thread_ok t -> pt t = ClearLocked l ->
  step_ok ths i (mkthread (tcpu t) (Pop l) (filter (fun x => x ≠ l) (own t)) (saved t))
    (upd_lock l (mkspinlock 0 (lk_cpu (ls l)) (pcs (ls l))) ls).
Proof.
  intros Hi Hl [Hnd Hp Hf] Ept. rewrite Ept in *. simpl in *.
  eapply word_step; [done|done| | |].
  - constructor; simpl; [by apply NoDup_filter|rewrite list_elem_of_filter; naive_solver|]. intros _.
    assert (Hlen : length (own t) = S (length (filter (fun x => x ≠ l) (own t)))) by
      (by apply filter_ne_length).
    rewrite Hlen in Hf.
    replace (Z.of_nat (length (filter (fun x => x ≠ l) (own t))) + 1) with
      (Z.of_nat (S (length (filter (fun x => x ≠ l) (own t)))) + 0) by lia. auto.
  - intros x Hne. rewrite Ept. simpl. rewrite bool_decide_eq_false_2 by congruence.
    rewrite list_elem_of_filter. naive_solver.
  - destruct (Hl l) as [(_ & _ & Hno)|(H1 & j & tj & Hj & Hown & Hun & Hc)];
      [by destruct (Hno i t Hi)|].
    left. simpl. split; [done|].
    assert (i = j) as -> by eauto. assert (tj = t) as -> by congruence.
    rewrite Ept in Hc. simpl in Hc.
    rewrite bool_decide_eq_true_2 in Hc by done. split; [done|].
    intros x t' [(-> & <- & _)|(Hne & Hx)]%list_lookup_insert_Some; simpl.
    + rewrite list_elem_of_filter. naive_solver.
    + intros Hin. apply Hne. symmetry. eauto.
Qed.

Ltac step_side :=
  try first [eassumption | reflexivity
    | match goal with E : pt ?t = _ |- _ => rewrite E end;
      first [exact I | reflexivity | intros; reflexivity] | exact I | intros; reflexivity
    | intros; split; reflexivity].

(** Every step of a processor keeps the invariant. *)
Lemma cpu_step_ok ths i t ls m t' ls' :
  ths !! i = Some t -> (forall l, lock_ok ths l (ls l)) -> thread_ok t ->
  cpu_step i m t ls = (t', ls') -> step_ok ths i t' ls'.
Proof.
  intros Hi Hl Ht E. pose proof Ht as [Hnd Hp Hf]. unfold cpu_step in E.
  destruct (pt t) as [|[] l v|c l v|c l v|c l v|[] l v r|l v|l v|l v|l|l|l|l|msg l] eqn:Ept;
    simpl in Hp; try (injection E as <- <-).
  - by eapply quiet_step.
  - (* pushcli in acquire *)
    eapply local_step; step_side. intros s Hs. rewrite Ept in Hs. simpl in *.
    destruct (pushcli_ok _ _ _ Hs) as (s' & Es & Hs'). exists s'. split; [done|]. intros _.
    replace (_ + 1) with (Z.of_nat (length (own t)) + 0 + 1) by lia. done.
  - eapply goto_step; step_side.
  - (* pushcli in holding *)
    eapply local_step; step_side. intros s Hs. rewrite Ept in Hs. simpl in *.
    destruct (pushcli_ok _ _ _ Hs) as (s' & Es & Hs'). exists s'. split; [done|]. intros _.
    destruct c; [replace (_ + 2) with (Z.of_nat (length (own t)) + 1 + 1) by lia
                |replace (_ + 1) with (Z.of_nat (length (own t)) + 0 + 1) by lia]; done.
  - (* reading lk->locked *)
    destruct (Z.eqb_spec (locked (ls l)) 0) as [E0|E0];
      eapply goto_step; step_side.
    simpl. split; [done|]. intros Hin. by destruct (free_not_owned _ _ _ _ _ (Hl l) Hi E0).
  - (* reading lk->cpu *)
    eapply goto_step; step_side. simpl. rewrite bool_decide_eq_true.
    apply (recorded_iff_owned ths); [done|done|by rewrite Ept].
  - (* popcli after holding, in acquire *)
    eapply local_step; step_side; [by destruct r| |].
    + destruct r; simpl; [naive_solver|]. intros Hin. by apply Hp in Hin.
    + intros s Hs. rewrite Ept in Hs. simpl in Hs.
      replace (_ + 2) with (Z.of_nat (length (own t)) + 1 + 1) in Hs by lia.
      apply popcli_ok in Hs as (s' & Es & Hs'); [|lia]. exists s'. split; [done|].
      by destruct r.
  - (* popcli after holding, in release *)
    eapply local_step; step_side; [by destruct r| |].
    + destruct r; simpl; [naive_solver|]. right. split; [done|]. intros Hin. by apply Hp in Hin.
    + intros s Hs. rewrite Ept in Hs. simpl in Hs. apply popcli_ok in Hs as (s' & Es & Hs'); [|lia].
      exists s'. split; [done|]. destruct r; [|done]. simpl. by rewrite Z.add_0_r.
  - (* xchg *)
    destruct (Z.eqb_spec (locked (ls l)) 0) as [E0|E0]; injection E as <- <-.
    + by eapply xchg_step.
    + eapply quiet_step; eauto. intros x. unfold upd_lock. case_decide as Hx; [|done].
      subst x. simpl. split; [|done].
      destruct (Hl l) as [(? & _)|(? & _)]; congruence.
  - (* lk->cpu = mycpu() *)
    eapply (word_step ths i t); eauto.
    + constructor; simpl; [done|done|]. auto.
    + intros x Hne. rewrite Ept. simpl. by rewrite bool_decide_eq_false_2 by congruence.
    + eapply owned_lock_ok; eauto. simpl. by eapply owned_locked.
  - (* pcs *)
    eapply goto_step; [done|done|done|by rewrite Ept|by rewrite Ept|done|by rewrite Ept|].
    intros x. unfold upd_lock. case_decide; [by subst|done].
  - eapply goto_step; [done|done|done|by rewrite Ept|by rewrite Ept|done|by rewrite Ept|].
    intros x. unfold upd_lock. case_decide; [by subst|done].
  - (* lk->cpu = 0 *)
    eapply (word_step ths i t); eauto.
    + constructor; simpl; [done|done|]. auto.
    + intros x Hne. rewrite Ept. simpl. by rewrite bool_decide_eq_false_2 by congruence.
    + eapply owned_lock_ok; eauto; simpl; [by eapply owned_locked|].
      by rewrite bool_decide_eq_true_2.
  - by eapply release_step.
  - (* popcli at the end of release *)
    eapply local_step; step_side.
    intros s Hs. rewrite Ept in Hs. apply popcli_ok in Hs as (s' & Es & Hs'); [|lia].
    exists s'. split; [done|]. by rewrite Z.add_0_r.
  - by eapply quiet_step.
Qed.

Lemma lock_step_inv s s' : lock_inv s -> lock_step s s' -> lock_inv s'.
Proof.
  intros [Ht Hl] Hs.
  assert (G : forall ths ls i t' ls', s = mkmachine ths ls -> step_ok ths i t' ls' ->
            lock_inv (mkmachine (<[i := t']> ths) ls')).
  { intros ths ls i t' ls' -> [H1 H2]. constructor; simpl; [|done].
    by apply Forall_insert. }
  destruct Hs as [i t c l v ths ls Hi Ep|i t b ths ls Hi Ep En|i t m ths ls t' ls' Hi E];
    (eapply G; [reflexivity|]); simpl in *;
    pose proof (Forall_lookup_1 _ _ _ _ Ht Hi) as Hti.
  - eapply goto_step; step_side.
  - destruct Hti as [Hnd Hp Hf]. rewrite Ep in *. simpl in *.
    destruct (Hf eq_refl) as (_ & Hn & _).
    apply (quiet_step _ i t _ ls ls); [done|done| |done|by rewrite Ep|done].
    constructor; simpl; [done|done|]. intros _. unfold flag_ok. rewrite <- Hn, En. done.
  - by eapply cpu_step_ok.
Qed.

Lemma boot_inv n : lock_inv (boot n).
Proof.
  constructor; simpl.
  - apply Forall_replicate. constructor; simpl; [constructor|done|]. intros _. done.
  - intros l. left. split; [done|]. split; [done|].
    intros i t [-> _]%lookup_replicate. simpl. apply not_elem_of_nil.
Qed.

Lemma reachable_lock_inv n s : rtc lock_step (boot n) s -> lock_inv s.
Proof.
  intros H. remember (boot n) as s0. assert (Hi : lock_inv s0) by (subst; apply boot_inv).
  clear Heqs0. induction H; [done|]. eauto using lock_step_inv.
Qed.

(** ** Theorems *)

(** C17. Under every interleaving of any number of processors that call
    [acquire] and [release] on any locks, in any order: at most one processor
    is inside the critical section of a lock; a processor inside one has its
    interrupts off; [acquire] panics only on a lock the processor already
    holds and [release] only on one it does not hold, with no other panic
    (popcli, mycpu) ever reached; and a processor that holds nothing has the
    interrupt flag it had before its first [acquire]. *)
Theorem spinlock_safe n s : rtc lock_step (boot n) s ->
  (forall i j ti tj l, threads s !! i = Some ti -> threads s !! j = Some tj ->
     l ∈ own ti -> l ∈ own tj -> i = j) /\
  (forall i t, threads s !! i = Some t ->
     match pt t with
     | Crashed msg l => msg = "acquire"%string /\ l ∈ own t \/ msg = "release"%string /\ l ∉ own t
     | _ => (own t ≠ [] -> IF_flag (tcpu t) = false) /\
            (pt t = Running -> own t = [] -> IF_flag (tcpu t) = saved t)
     end).
Proof.
  intros [Ht Hl]%reachable_lock_inv. split.
  - intros i j ti tj l Hi Hj Hti Htj.
    destruct (Hl l) as [(_ & _ & H)|(_ & k & tk & Hk & _ & Hun & _)]; [by destruct (H i ti Hi)|].
    by rewrite (Hun i ti Hi Hti), (Hun j tj Hj Htj).
  - intros i t Hi. destruct (Forall_lookup_1 _ _ _ _ Ht Hi) as [_ Hp Hf].
    assert (Hoff : crashed (pt t) = false ->
              (own t ≠ [] -> IF_flag (tcpu t) = false) /\
              (pt t = Running -> own t = [] -> IF_flag (tcpu t) = saved t)).
    { intros Hc. destruct (Hf Hc) as (Hge & _ & Hfl). split.
      - intros Hne. pose proof (pushed_nonneg (pt t)).
        destruct (Z.eqb_spec (Z.of_nat (length (own t)) + pushed (pt t)) 0) as [E|_]; [|apply Hfl].
        destruct (own t); [done|simpl length in E; lia].
      - intros E1 E2. by rewrite E1, E2 in Hfl. }
    destruct (pt t); try (by apply Hoff). done.
Qed.

(** ** Progress *)

(** Processor [i] takes [k] steps while the others wait. *)
Fixpoint solo (i : nat) (m : mem) (k : nat) (t : thread) (ls : locks) : thread * locks :=
  match k with
  | O => (t, ls)
  | S k' => let '(t', ls') := cpu_step i m t ls in solo i m k' t' ls'
  end.

Lemma solo_steps i m k t ths ls t' ls' :
  ths !! i = Some t -> solo i m k t ls = (t', ls') ->
  rtc lock_step (mkmachine ths ls) (mkmachine (<[i := t']> ths) ls').
Proof.
  revert t ths ls. induction k as [|k IH]; intros t ths ls Hi E; simpl in E.
  - injection E as <- <-. by rewrite list_insert_id.
  - destruct (cpu_step i m t ls) as [t1 ls1] eqn:E1.
    eapply rtc_l; [by eapply step_cpu|].
    rewrite <- (list_insert_insert_eq ths i t' t1). apply (IH t1); [|done].
    by rewrite list_lookup_insert_eq by (by eapply lookup_lt_Some).
Qed.

Lemma call_steps i c l v m k t ths ls t' ls' :
  ths !! i = Some t -> pt t = Running -> solo i m k (goto (Start c l v) t) ls = (t', ls') ->
  rtc lock_step (mkmachine ths ls) (mkmachine (<[i := t']> ths) ls').
Proof.
  intros Hi Hp E. eapply rtc_l; [by apply (step_call i t c l v)|].
  rewrite <- (list_insert_insert_eq ths i t' (goto (Start c l v) t)).
  eapply solo_steps; [|exact E]. by rewrite list_lookup_insert_eq by (by eapply lookup_lt_Some).
Qed.

(** What [acquire] does on a free lock, seven accesses later. *)
Lemma solo_acquire i m c l v o sv ls n :
  flag_ok c n sv -> locked (ls l) = 0 ->
  exists c', flag_ok c' (n + 1) sv /\
    solo i m 7 (mkthread c (Start Acquire l v) o sv) ls =
    (mkthread c' Running (l :: o) sv,
     upd_lock l (mkspinlock 1 (Some i) (getcallerpcs m v))
       (upd_lock l (mkspinlock 1 (Some i) (pcs (ls l)))
          (upd_lock l (mkspinlock 1 (lk_cpu (ls l)) (pcs (ls l))) ls))).
Proof.
  intros Hf Hl. destruct (pushcli_ok _ _ _ Hf) as (c1 & E1 & Hf1).
  destruct (pushcli_ok _ _ _ Hf1) as (c2 & E2 & Hf2).
  destruct (popcli_ok _ (n + 1) sv ltac:(destruct Hf; lia) Hf2) as (c3 & E3 & Hf3).
  exists c3. split; [done|].
  cbn [solo]. unfold cpu_step, local, goto. cbn [pt tcpu own saved]. rewrite E1.
  cbn [pt tcpu own saved]. rewrite E2. cbn [pt tcpu own saved]. rewrite Hl. simpl.
  rewrite E3. cbn [pt tcpu own saved]. rewrite Hl. simpl. by rewrite !upd_lock_same.
Qed.

(** What [release] does for the holder, nine accesses later. *)
Lemma solo_release i m c l v o sv ls n :
  0 <= n -> flag_ok c (n + 1) sv -> locked (ls l) = 1 -> lk_cpu (ls l) = Some i ->
  exists c' ls', flag_ok c' n sv /\
    solo i m 9 (mkthread c (Start Release l v) o sv) ls =
      (mkthread c' Running (filter (fun x => x ≠ l) o) sv, ls') /\
    locked (ls' l) = 0 /\ lk_cpu (ls' l) = None.
Proof.
  intros Hn Hf Hl Hc. destruct (pushcli_ok _ _ _ Hf) as (c1 & E1 & Hf1).
  destruct (popcli_ok _ (n + 1) sv ltac:(lia) Hf1) as (c2 & E2 & Hf2).
  destruct (popcli_ok _ n sv Hn Hf2) as (c3 & E3 & Hf3).
  exists c3. eexists. split; [done|].
  cbn [solo]. unfold cpu_step, local, goto. cbn [pt tcpu own saved]. rewrite E1.
  cbn [pt tcpu own saved]. rewrite Hl. simpl. rewrite Hc, bool_decide_eq_true_2 by done.
  cbn [pt tcpu own saved]. rewrite E2. cbn [pt tcpu own saved]. rewrite E3.
  split; [reflexivity|]. by rewrite !upd_lock_same.
Qed.


(** ** Two processors contend for lock 0 *)

(** Processor [i] calls [c] on lock [l] and takes [k] steps. *)
Definition call_at (i : nat) (c : call) (l k : nat) (s : machine) : machine :=
  match threads s !! i with
  | Some t =>
      let '(t', ls') := solo i (fun _ => 0) k (goto (Start c l 0x80003000) t) (mlocks s) in
      mkmachine (<[i := t']> (threads s)) ls'
  | None => s
  end.

Lemma call_at_steps i c l k s t :
  threads s !! i = Some t -> pt t = Running -> rtc lock_step s (call_at i c l k s).
Proof.
  destruct s as [ths ls]. unfold call_at. simpl. intros Hi Hp. rewrite Hi.
  destruct (solo _ _ _ _ _) as [t' ls'] eqn:E.
  by eapply call_steps.
Qed.

(** Processor 0 enables interrupts and acquires lock 0; processor 1 spins. *)
Definition idle (b : bool) : thread := mkthread (mkcpu b 0 false) Running [] b.
Definition contended : machine :=
  call_at 1 Acquire 0 9 (call_at 0 Acquire 0 7 (mkmachine [idle true; idle false] (fun _ => initlock))).

Lemma contended_reachable : rtc lock_step (boot 2) contended.
Proof.
  eapply rtc_l; [by apply (step_flag 0 (idle false) true)|].
  etransitivity; [by apply (call_at_steps 0 Acquire 0 7 _ (idle true))|].
  by apply (call_at_steps 1 Acquire 0 9 _ (idle false)).
Qed.

Lemma spinlock_safe_witness :
  (exists t0 t1, threads contended = [t0; t1] /\ own t0 = [0%nat] /\ own t1 = [] /\
     pt t1 = Xchg 0 0x80003000) /\
  (forall i j ti tj l, threads contended !! i = Some ti -> threads contended !! j = Some tj ->
     l ∈ own ti -> l ∈ own tj -> i = j).
Proof.
  split; [do 2 eexists; done|]. apply (spinlock_safe 2 contended contended_reachable).
Defined.

