(* ===== verification/Monitor.v ===== *)
(** * Sleeping inside critical sections (the sleep/wakeup protocol of proc.c)

    xv6 code that waits does so with a spinlock held: it tests a condition,
    calls [sleep(chan, lk)], and tests again when it runs next.  [sleep] gives
    up the lock and marks the process asleep in one step, because it takes
    [ptable.lock] before it releases [lk]; so the code between two sleeps is a
    critical section.  A component gives its critical sections as a function
    [body]; [mstep] interleaves them between any number of processes, with
    [kill] waking a sleeper at any time. *)
From stdpp Require Import base numbers list relations.
From Stdlib Require Import ZArith Lia.
From S2P Require Import Prelude.
#[local] Open Scope Z_scope.

Section monitor.
Context {S L R : Type}.

(** What a critical section did: the shared state it left, the channels it
    called [wakeup] on, and whether it returned or went to sleep on a channel,
    to go on at [l]. *)
Inductive ending := Return (r : R) | SleepOn (c : Z) (l : L).
Record section := mksection { shared_after : S; wakes : list Z; ends : ending }.

(** A process outside (with the last result), about to run, or asleep. *)
Inductive phase := Outside (last : option R) | Ready (l : L) | Asleep (c : Z) (l : L).
Record process := mkprocess { ph : phase; pkilled : bool }.

(** [body me killed l s]: process [me] runs the section at [l] on [s]. *)
Context (body : nat -> bool -> L -> S -> section).

Record mstate := mkmstate { shared : S; procs : list process }.

(** wakeup(chan): every process asleep on [chan] becomes ready. *)
Definition wake1 (cs : list Z) (p : process) : process :=
  match ph p with
  | Asleep c l => if decide (c ∈ cs) then mkprocess (Ready l) (pkilled p) else p
  | _ => p
  end.

Definition phase_of (e : ending) : phase :=
  match e with Return r => Outside (Some r) | SleepOn c l => Asleep c l end.

(** The state after process [i], at [l], has run its section. *)
Definition run_section (i : nat) (p : process) (l : L) (s : mstate) : mstate :=
  let r := body i (pkilled p) l (shared s) in
  mkmstate (shared_after r)
    (<[i := mkprocess (phase_of (ends r)) (pkilled p)]> (wake1 (wakes r) <$> procs s)).

(** Which calls a process outside may make. *)
Context (may : mstate -> nat -> option R -> L -> Prop).

Inductive mstep : mstate -> mstate -> Prop :=
| mstep_call i o k l s :
    procs s !! i = Some (mkprocess (Outside o) k) -> may s i o l ->
    mstep s (mkmstate (shared s) (<[i := mkprocess (Ready l) k]> (procs s)))
| mstep_run i p l s :
    procs s !! i = Some p -> ph p = Ready l -> mstep s (run_section i p l s)
| mstep_kill i p s :
    procs s !! i = Some p ->
    mstep s (mkmstate (shared s) (<[i := mkprocess (match ph p with
        Asleep _ l => Ready l | q => q end) true]> (procs s))).

(** [n] processes that have called nothing. *)
Definition start (s : S) (n : nat) : mstate :=
  mkmstate s (replicate n (mkprocess (Outside None) false)).
End monitor.

Arguments ending : clear implicits.
Arguments section : clear implicits.
Arguments phase : clear implicits.
Arguments process : clear implicits.
Arguments mstate : clear implicits.

Section lemmas.
Context {S L R : Type} (body : nat -> bool -> L -> S -> section S L R).
Context (may : mstate S L R -> nat -> option R -> L -> Prop).

Lemma wake1_killed cs (p : process L R) : pkilled (wake1 cs p) = pkilled p.
Proof. unfold wake1. destruct (ph p); [done..|]. by case_decide. Qed.

Lemma wake_none (s : mstate S L R) : wake1 [] <$> procs s = procs s.
Proof.
  rewrite <- (list_fmap_id (procs s)) at 2. apply list_fmap_ext. intros _ p _.
  unfold wake1. destruct (ph p); [done..|]. case_decide as H; [|done].
  by apply not_elem_of_nil in H.
Qed.

(** A process after others have run: the same, or woken. *)
Lemma wake1_phase cs (p : process L R) :
  ph (wake1 cs p) = ph p /\ (forall c l, ph p = Asleep c l -> c ∉ cs) \/
  exists c l, ph p = Asleep c l /\ c ∈ cs /\ ph (wake1 cs p) = Ready l.
Proof.
  unfold wake1. destruct (ph p) as [o|l|c l] eqn:E; try (left; split; [done|intros ? ?; congruence]).
  case_decide as H; [right; eauto|]. left. split; [done|]. intros ? ? [= <- <-]. done.
Qed.

(** The processes after a section: the runner, and the others maybe woken. *)
Lemma run_lookup i p l (s : mstate S L R) j q :
  procs s !! i = Some p ->
  procs (run_section body i p l s) !! j = Some q ->
  let r := body i (pkilled p) l (shared s) in
  j = i /\ q = mkprocess (phase_of (ends r)) (pkilled p) \/
  j <> i /\ exists q0, procs s !! j = Some q0 /\ q = wake1 (wakes r) q0.
Proof.
  intros Hi. unfold run_section. simpl.
  intros [(-> & <- & _)|(Hne & Hj)]%list_lookup_insert_Some; [by left|right].
  split; [done|]. apply list_lookup_fmap_Some in Hj as (q0 & -> & Hq). eauto.
Qed.

(** An invariant kept by every call, section and kill holds wherever the
    processes get to. *)
Lemma monitor_inv (I : mstate S L R -> Prop) s s' :
  (forall i o k l s, I s -> procs s !! i = Some (mkprocess (Outside o) k) -> may s i o l ->
     I (mkmstate (shared s) (<[i := mkprocess (Ready l) k]> (procs s)))) ->
  (forall i p l s, I s -> procs s !! i = Some p -> ph p = Ready l -> I (run_section body i p l s)) ->
  (forall i p s, I s -> procs s !! i = Some p ->
     I (mkmstate (shared s) (<[i := mkprocess (match ph p with
        Asleep _ l => Ready l | q => q end) true]> (procs s)))) ->
  I s -> rtc (mstep body may) s s' -> I s'.
Proof.
  intros H1 H2 H3 HI Hr. induction Hr as [|s s1 s2 Hs _ IH]; [done|]. apply IH. clear IH.
  destruct Hs; eauto.
Qed.

(** ** Schedules, for examples *)
Inductive move := Call (i : nat) (l : L) | Run (i : nat) | Kill (i : nat).

Definition play1 (s : mstate S L R) (mv : move) : mstate S L R :=
  match mv with
  | Call i l =>
      match procs s !! i with
      | Some p => mkmstate (shared s) (<[i := mkprocess (Ready l) (pkilled p)]> (procs s))
      | None => s
      end
  | Run i =>
      match procs s !! i with
      | Some p => match ph p with Ready l => run_section body i p l s | _ => s end
      | None => s
      end
  | Kill i =>
      match procs s !! i with
      | Some p => mkmstate (shared s) (<[i := mkprocess (match ph p with
          Asleep _ l => Ready l | q => q end) true]> (procs s))
      | None => s
      end
  end.

(** Every call of the schedule is made by a process outside that may make it. *)
Fixpoint playable (s : mstate S L R) (mvs : list move) : Prop :=
  match mvs with
  | [] => True
  | mv :: mvs' =>
      match mv with
      | Call i l =>
          match procs s !! i with
          | Some p => match ph p with Outside o => may s i o l | _ => False end
          | None => True
          end
      | _ => True
      end /\ playable (play1 s mv) mvs'
  end.

Lemma play_steps s mvs :
  playable s mvs -> rtc (mstep body may) s (foldl play1 s mvs).
Proof.
  revert s. induction mvs as [|mv mvs IH]; intros s; simpl; [done|]. intros [H1 H2].
  etransitivity; [|by apply IH]. destruct mv as [i l|i|i]; simpl in *;
    destruct (procs s !! i) as [p|] eqn:E; try done.
  - destruct p as [[] k]; try done. apply rtc_once. by eapply mstep_call.
  - destruct (ph p) eqn:Ep; try done. apply rtc_once. by eapply mstep_run.
  - apply rtc_once. by eapply mstep_kill.
Qed.
End lemmas.
Arguments move : clear implicits.
