(* ===== verification/Sleeplock.v ===== *)
(** * Sleep locks (sleeplock.c)

    The three operations as critical sections under [lk->lk], run by any
    number of processes with any interleaving and with kills.  A process calls
    [releasesleep] only while it holds the lock, as every caller in the kernel
    does; [acquiresleep] only while it does not (it would wait for itself). *)
From stdpp Require Import base numbers list relations.
From Stdlib Require Import ZArith Lia.
From S2P Require Import Prelude Monitor.
#[local] Open Scope Z_scope.

(** [lk->locked] and [lk->pid]; the name is for debugging. *)
Record sleeplock := mksleeplock { locked : Z; lk_pid : Z }.

Definition initsleeplock : sleeplock := mksleeplock 0 0.

(** [HoldingSleep h]: [h] is a ghost, whether the caller holds the lock. *)
Inductive op := AcquireSleep | ReleaseSleep | HoldingSleep (h : bool).
Inductive res := Acquired | Released | Answer (r : bool) (h : bool).

(** The address of the lock is the channel its waiters sleep on. *)
Definition chan_lk : Z := 0x80110000.

Section sleeplock.
Context (pid : nat -> Z).

Definition acquiresleep (me : nat) (lk : sleeplock) : section sleeplock op res :=
  if locked lk =? 0 then mksection (mksleeplock 1 (pid me)) [] (Return Acquired)
  else mksection lk [] (SleepOn chan_lk AcquireSleep).

Definition releasesleep (lk : sleeplock) : section sleeplock op res :=
  mksection (mksleeplock 0 0) [chan_lk] (Return Released).

Definition holdingsleep (me : nat) (h : bool) (lk : sleeplock) : section sleeplock op res :=
  mksection lk [] (Return (Answer (negb (locked lk =? 0) && (lk_pid lk =? pid me)) h)).

Definition sleeplock_body (me : nat) (killed : bool) (o : op) (lk : sleeplock) :=
  match o with
  | AcquireSleep => acquiresleep me lk
  | ReleaseSleep => releasesleep lk
  | HoldingSleep h => holdingsleep me h lk
  end.

(** Whether a process that called nothing since holds the lock. *)
Definition holds_after (o : option res) : bool :=
  match o with Some Acquired => true | Some (Answer _ h) => h | _ => false end.
Definition holds (p : phase op res) : bool :=
  match p with
  | Outside o => holds_after o
  | Ready ReleaseSleep | Asleep _ ReleaseSleep => true
  | Ready (HoldingSleep h) | Asleep _ (HoldingSleep h) => h
  | _ => false
  end.

Definition sleeplock_may (s : mstate sleeplock op res) (i : nat) (o : option res) (l : op) : Prop :=
  match l with
  | AcquireSleep => holds_after o = false
  | ReleaseSleep => holds_after o = true
  | HoldingSleep h => holds_after o = h
  end.

Notation step := (mstep sleeplock_body sleeplock_may).

(** ** The invariant *)
Record sleeplock_inv (s : mstate sleeplock op res) : Prop := {
  si_unique : forall i j p q, procs s !! i = Some p -> procs s !! j = Some q ->
    holds (ph p) = true -> holds (ph q) = true -> i = j;
  si_locked : forall i p, procs s !! i = Some p -> holds (ph p) = true ->
    locked (shared s) = 1 /\ lk_pid (shared s) = pid i;
  si_owner : locked (shared s) <> 0 -> exists i p, procs s !! i = Some p /\ holds (ph p) = true;
  si_asleep : forall i p c l, procs s !! i = Some p -> ph p = Asleep c l ->
    c = chan_lk /\ l = AcquireSleep /\ locked (shared s) <> 0;
  si_answer : forall i p r h, procs s !! i = Some p -> ph p = Outside (Some (Answer r h)) -> r = h }.

Context (pid_inj : forall i j, pid i = pid j -> i = j).

(** Changing one process without changing what it holds. *)
Lemma inv_phase s i p q :
  sleeplock_inv s -> procs s !! i = Some p -> holds (ph q) = holds (ph p) ->
  (forall c l, ph q <> Asleep c l) -> (forall r h, ph q = Outside (Some (Answer r h)) -> r = h) ->
  sleeplock_inv (mkmstate (shared s) (<[i := q]> (procs s))).
Proof.
  intros [H1 H2 H3 H4 H5] Hi Hh Ha Hans.
  assert (G : forall j x, <[i := q]> (procs s) !! j = Some x ->
    exists y, procs s !! j = Some y /\ holds (ph x) = holds (ph y) /\
      (x = y \/ (forall c l, ph x <> Asleep c l) /\ forall r h, ph x = Outside (Some (Answer r h)) -> r = h)).
  { intros j x [(-> & <- & _)|(_ & Hj)]%list_lookup_insert_Some; eauto 10. }
  constructor; simpl.
  - intros a b x y (x' & Hx & E & _)%G (y' & Hy & E' & _)%G. rewrite E, E'. by eapply H1.
  - intros a x (x' & Hx & E & _)%G. rewrite E. by eapply H2.
  - intros (a & x & Hx & E)%H3. destruct (decide (a = i)) as [->|Hne].
    + exists i, q. rewrite list_lookup_insert_eq by (by eapply lookup_lt_Some). naive_solver.
    + exists a, x. by rewrite list_lookup_insert_ne.
  - intros a x c l (x' & Hx & _ & [->|[E _]])%G Hph; [by eapply H4|]. by destruct (E c l).
  - intros a x r h (x' & Hx & _ & [->|[_ E]])%G Hph; [by eapply H5|]. by apply E.
Qed.

Lemma wake1_holds cs p : (forall c l, ph p = Asleep c l -> l = AcquireSleep) ->
  holds (ph (wake1 cs p)) = holds (ph p).
Proof.
  intros H. destruct (wake1_phase cs p) as [[-> _]|(c & l & E & _ & ->)]; [done|].
  by rewrite E, (H c l E).
Qed.

Lemma acquire_inv s i p :
  sleeplock_inv s -> procs s !! i = Some p -> ph p = Ready AcquireSleep ->
  sleeplock_inv (run_section sleeplock_body i p AcquireSleep s).
Proof.
  intros Hinv Hi Hp. pose proof Hinv as [H1 H2 H3 H4 H5].
  unfold run_section. simpl. unfold acquiresleep.
  destruct (Z.eqb_spec (locked (shared s)) 0) as [E|E]; simpl; rewrite wake_none.
  - assert (Hno : forall j x, procs s !! j = Some x -> holds (ph x) = false).
    { intros j x Hx. destruct (holds (ph x)) eqn:Eh; [|done]. destruct (H2 j x Hx Eh). lia. }
    constructor; simpl.
    + intros a b x y [(-> & <- & _)|(_ & Ha)]%list_lookup_insert_Some
        [(-> & <- & _)|(_ & Hb)]%list_lookup_insert_Some; simpl; [done| | |];
        rewrite ?(Hno _ _ Ha), ?(Hno _ _ Hb); done.
    + intros a x [(-> & <- & _)|(_ & Ha)]%list_lookup_insert_Some; [done|].
      by rewrite (Hno _ _ Ha).
    + intros _. eexists i, _. by rewrite list_lookup_insert_eq by (by eapply lookup_lt_Some).
    + intros a x c l [(-> & <- & _)|(_ & Ha)]%list_lookup_insert_Some; [done|].
      intros Hx. destruct (H4 a x c l Ha Hx) as (-> & -> & ?). lia.
    + intros a x r h [(-> & <- & _)|(_ & Ha)]%list_lookup_insert_Some; [done|]. by eapply H5.
  - constructor; simpl.
    + intros a b x y [(-> & <- & _)|(_ & Ha)]%list_lookup_insert_Some
        [(-> & <- & _)|(_ & Hb)]%list_lookup_insert_Some; simpl; try done. by eapply H1.
    + intros a x [(-> & <- & _)|(_ & Ha)]%list_lookup_insert_Some; [done|]. by eapply H2.
    + intros (a & x & Hx & Eh)%H3. exists a, x. rewrite list_lookup_insert_ne; [done|].
      intros ->. simplify_eq. by rewrite Hp in Eh.
    + intros a x c l [(-> & <- & _)|(_ & Ha)]%list_lookup_insert_Some; [|by eapply H4].
      simpl. intros [= <- <-]. done.
    + intros a x r h [(-> & <- & _)|(_ & Ha)]%list_lookup_insert_Some; [done|]. by eapply H5.
Qed.

Lemma release_inv s i p :
  sleeplock_inv s -> procs s !! i = Some p -> ph p = Ready ReleaseSleep ->
  sleeplock_inv (run_section sleeplock_body i p ReleaseSleep s).
Proof.
  intros [H1 H2 H3 H4 H5] Hi Hp.
  assert (Hno : forall j x, procs s !! j = Some x -> j <> i -> holds (ph (wake1 [chan_lk] x)) = false).
  { intros j x Hx Hne. rewrite wake1_holds by (intros c l E; by destruct (H4 j x c l Hx E) as (_ & -> & _)).
    destruct (holds (ph x)) eqn:Eh; [|done]. destruct Hne.
    apply (H1 j i x p Hx Hi Eh). by rewrite Hp. }
  assert (G : forall j q, procs (run_section sleeplock_body i p ReleaseSleep s) !! j = Some q ->
    holds (ph q) = false /\ (forall c l, ph q <> Asleep c l) /\
    forall r h, ph q = Outside (Some (Answer r h)) -> r = h).
  { intros j q [[-> ->]|(Hne & q0 & Hj & ->)]%run_lookup; [done| |done].
    change (wakes _) with [chan_lk]. split; [by eapply Hno|].
    destruct (wake1_phase [chan_lk] q0) as [[-> Hc]|(c & l & E & _ & ->)]; [|done].
    split; [|intros r h; by apply (H5 j)]. intros c l E. destruct (H4 j q0 c l Hj E) as (-> & _).
    apply (Hc _ _ E). by left. }
  constructor.
  - intros a b x y (E & _)%G. congruence.
  - intros a x (E & _)%G. congruence.
  - done.
  - intros a x c l (_ & E & _)%G Hx. by destruct (E c l).
  - intros a x r h (_ & _ & E)%G. apply E.
Qed.

Lemma holding_inv s i p h :
  sleeplock_inv s -> procs s !! i = Some p -> ph p = Ready (HoldingSleep h) ->
  sleeplock_inv (run_section sleeplock_body i p (HoldingSleep h) s).
Proof.
  intros Hinv Hi Hp. pose proof Hinv as [H1 H2 H3 H4 H5].
  unfold run_section. simpl. rewrite wake_none.
  eapply inv_phase; [done|done|by rewrite Hp|done|]. simpl. intros r h' [= <- <-].
  destruct h.
  - destruct (H2 i p Hi) as [-> ->]; [by rewrite Hp|]. by rewrite Z.eqb_refl.
  - destruct (Z.eqb_spec (locked (shared s)) 0) as [E|E]; [done|]. simpl.
    apply Z.eqb_neq. intros Epid. destruct (H3 E) as (j & q & Hj & Eh).
    destruct (H2 j q Hj Eh) as [_ Ej]. assert (j = i) as -> by (apply pid_inj; congruence).
    simplify_eq. by rewrite Hp in Eh.
Qed.

Lemma sleeplock_reachable n s :
  rtc step (start initsleeplock n) s -> sleeplock_inv s.
Proof.
  apply monitor_inv.
  - intros i o k l s0 Hinv Hi Hm. eapply inv_phase; [done|done| |done|done]. simpl.
    by destruct l.
  - intros i p [| |h] s0 Hinv Hi Hp; [by apply acquire_inv|by apply release_inv|by apply holding_inv].
  - intros i p s0 Hinv Hi. eapply inv_phase; [done|done| | |]; simpl.
    + destruct (ph p) as [| |c l] eqn:E; [done..|]. by destruct l.
    + by destruct (ph p).
    + intros r h. destruct (ph p) eqn:E; [|done..]. intros [= ->]. by eapply (si_answer _ Hinv).
  - constructor; simpl.
    + intros a b x y [-> _]%lookup_replicate. done.
    + intros a x [-> _]%lookup_replicate. done.
    + done.
    + intros a x c l [-> _]%lookup_replicate. done.
    + intros a x r h [-> _]%lookup_replicate. done.
Qed.

(** ** Theorem *)

(** C19. Under every interleaving of processes that acquire, release and ask for
    a sleep lock, with kills at any time: at most one process holds the lock;
    [holdingsleep] answers exactly whether its caller holds it; and no wakeup
    is lost: while some process sleeps on the lock, some process holds it, so
    that every waiter runs again after each release. *)
Theorem sleeplock_safe n s : rtc step (start initsleeplock n) s ->
  (forall i j p q, procs s !! i = Some p -> procs s !! j = Some q ->
     holds (ph p) = true -> holds (ph q) = true -> i = j) /\
  (forall i p r h, procs s !! i = Some p -> ph p = Outside (Some (Answer r h)) -> r = h) /\
  (forall i p c l, procs s !! i = Some p -> ph p = Asleep c l ->
     exists j q, procs s !! j = Some q /\ holds (ph q) = true).
Proof.
  intros [H1 H2 H3 H4 H5]%sleeplock_reachable. split; [done|]. split; [done|].
  intros i p c l Hi Hp. apply H3. by destruct (H4 i p c l Hi Hp) as (_ & _ & ?).
Qed.
End sleeplock.

(** ** Process 0 takes the lock, process 1 waits for it *)
Definition example_pid (i : nat) : Z := Z.of_nat i + 1.

Definition waiting : mstate sleeplock op res :=
  foldl (play1 (sleeplock_body example_pid)) (start initsleeplock 2)
    [Call 0 AcquireSleep; Call 1 AcquireSleep; Run 0; Run 1].

Lemma waiting_reachable :
  rtc (mstep (sleeplock_body example_pid) sleeplock_may) (start initsleeplock 2) waiting.
Proof. apply play_steps. done. Qed.

Lemma sleeplock_safe_witness :
  procs waiting !! 1%nat = Some (mkprocess (Asleep chan_lk AcquireSleep) false) /\
  exists j q, procs waiting !! j = Some q /\ holds (ph q) = true.
Proof.
  split; [reflexivity|].
  destruct (sleeplock_safe example_pid ltac:(unfold example_pid; intros; lia) 2 waiting
              waiting_reachable) as (_ & _ & H).
  by apply (H 1%nat (mkprocess (Asleep chan_lk AcquireSleep) false) chan_lk AcquireSleep).
Defined.
