(* ===== verification/Pipe.v ===== *)
(** * Pipes (pipe.c)

    [pipewrite], [piperead] and [pipeclose] as critical sections under
    [p->lock], run by any number of processes.  The counters [nread] and
    [nwrite] are 32-bit and wrap around.  The theorems show that a pipe is a
    bounded first-in first-out queue of bytes, that without kills no wakeup is
    lost, and that a killed writer can lose one. *)
From stdpp Require Import base numbers list relations.
From Stdlib Require Import ZArith Lia.
From S2P Require Import Prelude Monitor.
#[local] Open Scope Z_scope.

Definition PIPESIZE : Z := 512.

Record pipe := mkpipe {
  data : list Z;
  nread : Z;
  nwrite : Z;
  readopen : bool;
  writeopen : bool;
}.

(** The addresses &p->nread and &p->nwrite, the two sleep channels. *)
Definition chan_nread : Z := 0x80200200.
Definition chan_nwrite : Z := 0x80200204.

(** A fresh pipe page as [pipealloc] initialises it; the buffer is not cleared. *)
Definition pipe_init (junk : list Z) : pipe := mkpipe junk 0 0 true true.

(** [p->data[p->nwrite++ % PIPESIZE] = b] and [p->data[p->nread++ % PIPESIZE]]. *)
Definition put (b : Z) (p : pipe) : pipe :=
  mkpipe (<[Z.to_nat (nwrite p `mod` PIPESIZE) := b]> (data p)) (nread p) (u32 (nwrite p + 1))
         (readopen p) (writeopen p).
Definition front (p : pipe) : Z := data p !!! Z.to_nat (nread p `mod` PIPESIZE).
Definition advance (p : pipe) : pipe :=
  mkpipe (data p) (u32 (nread p + 1)) (nwrite p) (readopen p) (writeopen p).

Definition full (p : pipe) : bool := nwrite p =? u32 (nread p + PIPESIZE).
Definition empty (p : pipe) : bool := nread p =? nwrite p.

(** The calls in progress: a writer with the bytes it has left of [n], a
    reader of at most [n] bytes, and a close of one end. *)
Inductive op := Write (bs : list Z) (n : Z) | Read (n : nat) | Close (writable : bool).
Inductive res := Wrote (n : Z) | Got (bs : list Z) | ReadFailed | Closed (freed : bool).

(** The shared state: the pipe, and two ghosts, every byte ever put into it
    and every byte ever taken out of it. *)
Record pshared := mkpshared { pp : pipe; sent : list Z; received : list Z }.

Notation psection := (section pshared op res).

(** The loop of pipewrite from [bs] on. *)
Fixpoint pipewrite (killed : bool) (bs : list Z) (n : Z) (s : pshared) : psection :=
  match bs with
  | [] => mksection s [chan_nread] (Return (Wrote n))
  | b :: bs' =>
      if full (pp s) then
        if negb (readopen (pp s)) || killed then mksection s [] (Return (Wrote (-1)))
        else mksection s [chan_nread] (SleepOn chan_nwrite (Write bs n))
      else pipewrite killed bs' n (mkpshared (put b (pp s)) (sent s ++ [b]) (received s))
  end.

(** The copying loop of piperead: up to [n] bytes. *)
Fixpoint read_bytes (n : nat) (p : pipe) : list Z * pipe :=
  match n with
  | O => ([], p)
  | S n' =>
      if empty p then ([], p)
      else let '(bs, p') := read_bytes n' (advance p) in (front p :: bs, p')
  end.

Definition piperead (killed : bool) (n : nat) (s : pshared) : psection :=
  if empty (pp s) && writeopen (pp s) then
    if killed then mksection s [] (Return ReadFailed)
    else mksection s [] (SleepOn chan_nread (Read n))
  else
    let '(bs, p') := read_bytes n (pp s) in
    mksection (mkpshared p' (sent s) (received s ++ bs)) [chan_nwrite] (Return (Got bs)).

(** [pipeclose] also says whether it frees the page. *)
Definition pipeclose (writable : bool) (s : pshared) : psection :=
  let p := pp s in
  let p' := if writable then mkpipe (data p) (nread p) (nwrite p) (readopen p) false
            else mkpipe (data p) (nread p) (nwrite p) false (writeopen p) in
  mksection (mkpshared p' (sent s) (received s))
    [if writable then chan_nread else chan_nwrite]
    (Return (Closed (negb (readopen p') && negb (writeopen p')))).

Definition pipe_body (me : nat) (killed : bool) (o : op) (s : pshared) : psection :=
  match o with
  | Write bs n => pipewrite killed bs n s
  | Read n => piperead killed n s
  | Close w => pipeclose w s
  end.

Definition side (o : op) : bool :=
  match o with Write _ _ => true | Read _ => false | Close w => w end.
Definition inside (p : phase op res) : option op :=
  match p with Ready l | Asleep _ l => Some l | Outside _ => None end.
Definition end_open (w : bool) (p : pipe) : bool := if w then writeopen p else readopen p.

(** An end is used only while it is open, and closed only when nobody is
    inside a call on it: file.c closes the pipe when the last descriptor of
    the end goes. *)
Definition pipe_may (s : mstate pshared op res) (i : nat) (o : option res) (l : op) : Prop :=
  end_open (side l) (pp (shared s)) = true /\
  (forall j q l', procs s !! j = Some q -> inside (ph q) = Some l' -> side l' = side l ->
     match l, l' with Close _, _ | _, Close _ => False | _, _ => True end).

(** The bytes in the pipe, oldest first. *)
Definition used (p : pipe) : Z := u32 (nwrite p - nread p).
Definition slot (p : pipe) (j : nat) : nat := Z.to_nat ((nread p + Z.of_nat j) `mod` PIPESIZE).
Definition contents (p : pipe) : list Z := (fun j => data p !!! slot p j) <$> seq 0 (Z.to_nat (used p)).

Record pipe_wf (p : pipe) : Prop := {
  pw_data : Z.of_nat (length (data p)) = PIPESIZE;
  pw_nread : 0 <= nread p < 4294967296;
  pw_nwrite : 0 <= nwrite p < 4294967296;
  pw_used : used p <= PIPESIZE }.

(** ** The ring buffer is a queue *)
Lemma full_used p : pipe_wf p -> full p = (used p =? PIPESIZE).
Proof.
  intros [_ H1 H2 H3]. unfold full, used, PIPESIZE, u32 in *.
  destruct (Z.eqb_spec (nwrite p) ((nread p + 512) `mod` 4294967296)),
           (Z.eqb_spec ((nwrite p - nread p) `mod` 4294967296) 512); dlia.
Qed.

Lemma empty_used p : pipe_wf p -> empty p = (used p =? 0).
Proof.
  intros [_ H1 H2 H3]. unfold empty, used, u32 in *.
  destruct (Z.eqb_spec (nread p) (nwrite p)),
           (Z.eqb_spec ((nwrite p - nread p) `mod` 4294967296) 0); dlia.
Qed.

Lemma length_contents p : length (contents p) = Z.to_nat (used p).
Proof. unfold contents. by rewrite length_fmap, length_seq. Qed.

Lemma used_nonneg p : 0 <= used p.
Proof. unfold used. pose proof (u32_range (nwrite p - nread p)). lia. Qed.

(** 512 divides 2^32: slots are consistent across the wrap-around. *)
Lemma mod_u32 x : u32 x `mod` PIPESIZE = x `mod` PIPESIZE.
Proof. unfold u32, PIPESIZE. dlia. Qed.

Lemma put_ok b p : pipe_wf p -> used p < PIPESIZE ->
  pipe_wf (put b p) /\ contents (put b p) = contents p ++ [b].
Proof.
  intros Hwf Hu. pose proof Hwf as [Hd H1 H2 H3]. pose proof (used_nonneg p) as H0.
  assert (Eu : used (put b p) = used p + 1).
  { unfold used, put, u32, PIPESIZE in *. simpl. dlia. }
  split.
  - constructor; simpl; [by rewrite length_insert|done|apply u32_range|rewrite Eu; lia].
  - unfold contents. rewrite Eu, Z2Nat.inj_add, Nat.add_1_r by lia.
    rewrite seq_S, fmap_app. simpl.
    assert (Hslot : forall j, slot (put b p) j = slot p j) by done.
    assert (Hlt : forall j, (slot p j < length (data p))%nat).
    { intros j. unfold slot, PIPESIZE in *. dlia. }
    f_equal.
    + apply list_fmap_ext. intros k ? [-> Hj]%lookup_seq. rewrite Hslot.
      apply list_lookup_total_insert_ne. unfold slot, used, u32, PIPESIZE in *. dlia.
    + f_equal. rewrite Hslot.
      assert (E : slot p (Z.to_nat (used p)) = Z.to_nat (nwrite p `mod` PIPESIZE)).
      { unfold slot. f_equal. rewrite Z2Nat.id by done. unfold used, u32, PIPESIZE. dlia. }
      rewrite E. apply list_lookup_total_insert_eq. rewrite <- E. apply Hlt.
Qed.

Lemma advance_ok p : pipe_wf p -> 0 < used p ->
  pipe_wf (advance p) /\ contents p = front p :: contents (advance p).
Proof.
  intros Hwf Hu. pose proof Hwf as [Hd H1 H2 H3].
  assert (Eu : used (advance p) = used p - 1).
  { unfold used, advance, u32, PIPESIZE in *. simpl. dlia. }
  split.
  - constructor; simpl; [done|apply u32_range|done|rewrite Eu; lia].
  - unfold contents. rewrite Eu.
    replace (Z.to_nat (used p)) with (S (Z.to_nat (used p - 1))) by lia. simpl. f_equal.
    + unfold front, slot. by rewrite Z.add_0_r.
    + rewrite <- fmap_S_seq, <- list_fmap_compose. apply list_fmap_ext. intros _ j _. simpl.
      f_equal. unfold slot, advance. simpl. f_equal. unfold u32, PIPESIZE. dlia.
Qed.

Lemma read_bytes_ok n p bs p' : pipe_wf p -> read_bytes n p = (bs, p') ->
  pipe_wf p' /\ contents p = bs ++ contents p' /\
  length bs = Nat.min n (length (contents p)) /\
  readopen p' = readopen p /\ writeopen p' = writeopen p.
Proof.
  revert p bs. induction n as [|n IH]; intros p bs Hwf E; simpl in E; [by simplify_eq|].
  rewrite empty_used in E by done. destruct (Z.eqb_spec (used p) 0) as [E0|E0].
  - simplify_eq. rewrite length_contents, E0. done.
  - pose proof (used_nonneg p). destruct (advance_ok p Hwf) as [Hwf' Ec]; [lia|].
    destruct (read_bytes n (advance p)) as [bs' p''] eqn:E'. simplify_eq.
    destruct (IH _ _ Hwf' E') as (Hw & Ec' & El & Er & Ew).
    split; [done|]. rewrite Ec, Ec'. split; [done|]. split; [|done].
    simpl. rewrite Ec' in El. by rewrite El.
Qed.

(** ** Each section *)
Definition stream_ok (s : pshared) : Prop :=
  pipe_wf (pp s) /\ sent s = received s ++ contents (pp s).

Definition same_ends (s s' : pshared) : Prop :=
  readopen (pp s') = readopen (pp s) /\ writeopen (pp s') = writeopen (pp s).

(** What a run of pipewrite with [bs] left did: [ws] went in, [rest] did not. *)
Definition write_post (killed : bool) (bs : list Z) (n : Z) (s : pshared) (r : psection) : Prop :=
  exists ws rest, bs = ws ++ rest /\ stream_ok (shared_after r) /\ same_ends s (shared_after r) /\
    sent (shared_after r) = sent s ++ ws /\ received (shared_after r) = received s /\
    match rest with
    | [] => ends r = Return (Wrote n) /\ wakes r = [chan_nread]
    | _ :: _ =>
        used (pp (shared_after r)) = PIPESIZE /\
        if negb (readopen (pp s)) || killed
        then ends r = Return (Wrote (-1)) /\ wakes r = []
        else ends r = SleepOn chan_nwrite (Write rest n) /\ wakes r = [chan_nread]
    end.

Lemma pipewrite_post killed bs n s : stream_ok s -> write_post killed bs n s (pipewrite killed bs n s).
Proof.
  revert s. induction bs as [|b bs IH]; intros s Hs; pose proof Hs as [Hwf Hstr]; simpl.
  - exists [], []. simpl. rewrite app_nil_r. done.
  - rewrite full_used by done. destruct (Z.eqb_spec (used (pp s)) PIPESIZE) as [Ef|Ef].
    + exists [], (b :: bs). destruct (_ || _); simpl; rewrite app_nil_r; done.
    + destruct (put_ok b (pp s) Hwf) as [Hwf' Ec]; [destruct Hwf; lia|].
      destruct (IH (mkpshared (put b (pp s)) (sent s ++ [b]) (received s)))
        as (ws & rest & -> & H1 & H2 & H3 & H4 & H5).
      { split; simpl; [done|]. by rewrite Ec, Hstr, app_assoc. }
      exists (b :: ws), rest. split; [done|]. split; [done|]. split; [done|].
      rewrite H3. simpl. rewrite <- app_assoc. split; [done|]. done.
Qed.

(** What a run of piperead did. *)
Definition read_post (killed : bool) (n : nat) (s : pshared) (r : psection) : Prop :=
  stream_ok (shared_after r) /\ same_ends s (shared_after r) /\ sent (shared_after r) = sent s /\
  if (used (pp s) =? 0) && writeopen (pp s)
  then shared_after r = s /\ wakes r = [] /\
       ends r = if killed then Return ReadFailed else SleepOn chan_nread (Read n)
  else received (shared_after r) = received s ++ take n (contents (pp s)) /\
       wakes r = [chan_nwrite] /\ ends r = Return (Got (take n (contents (pp s)))).

Lemma piperead_post killed n s : stream_ok s -> read_post killed n s (piperead killed n s).
Proof.
  intros Hs. pose proof Hs as [Hwf Hstr]. unfold piperead, read_post. rewrite <- empty_used by done.
  destruct (empty (pp s) && writeopen (pp s)); [by destruct killed|].
  destruct (read_bytes n (pp s)) as [bs p'] eqn:E. simpl.
  destruct (read_bytes_ok _ _ _ _ Hwf E) as (Hwf' & Ec & El & Er & Ew).
  assert (Et : take n (contents (pp s)) = bs).
  { rewrite Ec, length_app in El. rewrite Ec, take_app, take_ge by lia.
    rewrite (nil_length_inv (take _ _)), app_nil_r; [done|]. rewrite length_take. lia. }
  rewrite Et. split; [|done]. split; simpl; [done|]. by rewrite Hstr, Ec, app_assoc.
Qed.

Lemma pipeclose_post w s : stream_ok s ->
  let r := pipeclose w s in
  stream_ok (shared_after r) /\ sent (shared_after r) = sent s /\ received (shared_after r) = received s /\
  end_open w (pp (shared_after r)) = false /\
  end_open (negb w) (pp (shared_after r)) = end_open (negb w) (pp s) /\
  contents (pp (shared_after r)) = contents (pp s).
Proof. intros [[H1 H2 H3 H4] Hs]. by destruct w. Qed.

Lemma body_stream me killed l s : stream_ok s -> stream_ok (shared_after (pipe_body me killed l s)).
Proof.
  intros Hs. destruct l as [bs n|n|w]; simpl.
  - by destruct (pipewrite_post killed bs n s Hs) as (? & ? & _ & ? & _).
  - by destruct (piperead_post killed n s Hs) as (? & _).
  - apply (pipeclose_post w s Hs).
Qed.

(** ** The invariant of the pipe and its callers *)

(** A sleeper's condition for waiting still holds. *)
Definition must_wait (c : Z) (l : op) (p : pipe) : Prop :=
  match l with
  | Write _ _ => c = chan_nwrite /\ used p = PIPESIZE /\ readopen p = true
  | Read _ => c = chan_nread /\ used p = 0 /\ writeopen p = true
  | Close _ => False
  end.

Notation nobody_killed s := (forall i p, procs s !! i = Some p -> pkilled p = false).

Record pipe_inv (s : mstate pshared op res) : Prop := {
  pi_stream : stream_ok (shared s);
  pi_open : forall i p l, procs s !! i = Some p -> inside (ph p) = Some l ->
    end_open (side l) (pp (shared s)) = true;
  pi_close : forall i j p q w l, procs s !! i = Some p -> inside (ph p) = Some (Close w) ->
    procs s !! j = Some q -> inside (ph q) = Some l -> side l = w -> i = j;
  pi_wait : nobody_killed s -> forall i p c l, procs s !! i = Some p -> ph p = Asleep c l ->
    must_wait c l (pp (shared s)) }.

Lemma stream_used s : stream_ok s -> Z.of_nat (length (sent s)) = Z.of_nat (length (received s)) + used (pp s).
Proof.
  intros [_ ->]. rewrite length_app, length_contents. pose proof (used_nonneg (pp s)). lia.
Qed.

(** A section by an unkilled process wakes every sleeper whose condition it
    ends. *)
Lemma wait_stays me l s c l' : stream_ok s -> must_wait c l' (pp s) ->
  end_open (side l') (pp s) = true -> (forall w, l = Close w -> side l' <> w) ->
  c ∉ wakes (pipe_body me false l s) -> must_wait c l' (pp (shared_after (pipe_body me false l s))).
Proof.
  intros Hs Hw Ho Hcl Hnw. destruct l as [bs n|n|w]; simpl in *.
  - destruct (pipewrite_post false bs n s Hs) as (ws & rest & -> & Hs' & [Er Ew] & Es & Erc & Hend).
    pose proof (stream_used _ Hs). pose proof (stream_used _ Hs') as Hu'.
    rewrite Es, Erc, length_app in Hu'. destruct Hs' as [[_ _ _ Hle] _].
    destruct l' as [bs' n'|n'|w']; simpl in *; [| |done].
    + rewrite Er. destruct Hw as (-> & Hf & ->). split; [done|]. split; [lia|done].
    + destruct Hw as (-> & _). rewrite orb_false_r, Ho in Hend. simpl in Hend.
      exfalso. apply Hnw. destruct rest; [destruct Hend as [_ ->]|destruct Hend as (_ & _ & ->)]; by left.
  - destruct (piperead_post false n s Hs) as (_ & _ & _ & Hend).
    destruct ((used (pp s) =? 0) && writeopen (pp s)) eqn:E; [by destruct Hend as (-> & _)|].
    destruct Hend as (_ & Ewk & _). rewrite Ewk in Hnw.
    destruct l' as [bs' n'|n'|w']; simpl in *; [| |done].
    + destruct Hw as (-> & _). destruct Hnw. by left.
    + destruct Hw as (_ & E0 & E1). by rewrite E0, E1 in E.
  - specialize (Hcl w eq_refl). destruct l' as [bs' n'|n'|w'], w; simpl in *; try done;
      destruct Hw as (-> & _); destruct Hnw; by left.
Qed.

Lemma wake1_inside cs (p : process op res) : inside (ph (wake1 cs p)) = inside (ph p).
Proof. by destruct (wake1_phase cs p) as [[-> _]|(c & l & -> & _ & ->)]. Qed.

(** The ends stay open but for a close; a runner stays inside at its side. *)
Lemma body_ends me k l s w : stream_ok s -> (forall w', l = Close w' -> w' <> w) ->
  end_open w (pp (shared_after (pipe_body me k l s))) = end_open w (pp s).
Proof.
  intros Hs Hw. destruct l as [bs n|n|w']; simpl.
  - destruct (pipewrite_post k bs n s Hs) as (? & ? & _ & _ & [E1 E2] & _). by destruct w.
  - destruct (piperead_post k n s Hs) as (_ & [E1 E2] & _). by destruct w.
  - specialize (Hw w' eq_refl). by destruct w', w.
Qed.

Lemma body_inside me k l s l' : stream_ok s ->
  inside (phase_of (ends (pipe_body me k l s))) = Some l' ->
  side l' = side l /\ (forall w, l <> Close w) /\ (forall w, l' <> Close w) /\
  (k = false -> forall c, phase_of (ends (pipe_body me k l s)) = Asleep c l' ->
     must_wait c l' (pp (shared_after (pipe_body me k l s)))).
Proof.
  intros Hs. destruct l as [bs n|n|w]; simpl; [| |done].
  - destruct (pipewrite_post k bs n s Hs) as (ws & rest & -> & Hs' & [Er Ew] & _ & _ & Hend).
    destruct rest as [|b rest]; [by destruct Hend as [-> _]|]. destruct Hend as [Hf Hend].
    destruct (negb (readopen (pp s)) || k) eqn:E; destruct Hend as [-> _]; [done|].
    intros [= <-]. split; [done|]. split; [done|]. split; [done|].
    intros _ c [= <-]. simpl. rewrite Er. apply orb_false_iff in E as [E _].
    apply negb_false_iff in E. done.
  - destruct (piperead_post k n s Hs) as (_ & _ & _ & Hend).
    destruct ((used (pp s) =? 0) && writeopen (pp s)) eqn:E; [|by destruct Hend as (_ & _ & ->)].
    destruct Hend as (-> & _ & ->). destruct k; [done|].
    intros [= <-]. split; [done|]. split; [done|]. split; [done|].
    intros _ c [= <-]. apply andb_true_iff in E as [E0 E1]. apply Z.eqb_eq in E0. done.
Qed.

Lemma pipe_run_inv i p l s :
  pipe_inv s -> procs s !! i = Some p -> ph p = Ready l -> pipe_inv (run_section pipe_body i p l s).
Proof.
  intros [H1 H2 H3 H4] Hi Hp.
  assert (Hin : inside (ph p) = Some l) by (by rewrite Hp).
  set (r := pipe_body i (pkilled p) l (shared s)).
  assert (Esh : shared (run_section pipe_body i p l s) = shared_after r) by done.
  constructor.
  - by apply body_stream.
  - rewrite Esh. intros j q l' [[-> ->]|(Hne & q0 & Hj & ->)]%run_lookup Hl'; [| |done].
    + apply body_inside in Hl' as (-> & Hnc & _); [|done].
      unfold r. rewrite body_ends; [by eapply H2|done|intros w E; by destruct (Hnc w)].
    + rewrite wake1_inside in Hl'. unfold r. rewrite body_ends; [by eapply H2|done|].
      intros w -> E. apply Hne. symmetry. by eapply (H3 i j p q0 w l').
  - intros a b x y w l' Ha Hx Hb Hy Hsd.
    apply run_lookup in Ha as [[-> ->]|(Hna & x0 & Ha & ->)]; [| |done].
    { apply body_inside in Hx as (_ & _ & Hx & _); [|done]. by destruct (Hx w). }
    rewrite wake1_inside in Hx.
    apply run_lookup in Hb as [[-> ->]|(Hnb & y0 & Hb & ->)]; [| |done].
    + apply body_inside in Hy as (E & _); [|done]. eapply (H3 a i); [done|done|done|done|congruence].
    + rewrite wake1_inside in Hy. by eapply (H3 a b).
  - intros Hk. rewrite Esh.
    assert (Hkp : pkilled p = false).
    { apply (Hk i (mkprocess (phase_of (ends r)) (pkilled p))). unfold run_section. simpl.
      apply list_lookup_insert_eq. rewrite length_fmap. by eapply lookup_lt_Some. }
    assert (Hk0 : nobody_killed s).
    { intros j q Hj. destruct (decide (j = i)) as [->|Hne]; [congruence|].
      rewrite <- (wake1_killed (wakes r) q). apply (Hk j). unfold run_section. simpl.
      rewrite list_lookup_insert_ne by done. rewrite list_lookup_fmap, Hj. done. }
    intros j q c l' [[-> ->]|(Hne & q0 & Hj & ->)]%run_lookup Hq; [| |done].
    + pose proof (body_inside i (pkilled p) l (shared s) l' H1) as Hb. simpl in Hq.
      rewrite Hq in Hb. by apply Hb.
    + destruct (wake1_phase (wakes r) q0) as [[E Hnw]|(c0 & l0 & _ & _ & E)];
        fold r in Hq; rewrite E in Hq; [|done].
      unfold r in *. rewrite Hkp in *. eapply wait_stays; [done|by eapply H4| | |by eapply Hnw].
      * eapply H2; [done|]. by rewrite Hq.
      * intros w -> Hsd. apply Hne. symmetry. eapply (H3 i j p q0 w l'); [done|done|done| |done].
        by rewrite Hq.
Qed.

Lemma call_inv s i o k l :
  pipe_inv s -> procs s !! i = Some (mkprocess (Outside o) k) -> pipe_may s i o l ->
  pipe_inv (mkmstate (shared s) (<[i := mkprocess (Ready l) k]> (procs s))).
Proof.
  intros [H1 H2 H3 H4] Hi [Ho Hex]. constructor; simpl.
  - done.
  - intros j q l' [(-> & <- & _)|(_ & Hj)]%list_lookup_insert_Some Hl'; [|by eapply H2].
    simpl in Hl'. by simplify_eq.
  - intros a b x y w l' [(-> & <- & _)|(Hna & Ha)]%list_lookup_insert_Some Hx
      [(<- & <- & _)|(Hnb & Hb)]%list_lookup_insert_Some Hy Hsd; simpl in *; simplify_eq; [done| | |].
    + by destruct (Hex b y l' Hb Hy).
    + specialize (Hex a x (Close (side l')) Ha Hx eq_refl). by destruct l'.
    + by eapply (H3 a b).
  - intros Hk j q c l' [(-> & <- & _)|(_ & Hj)]%list_lookup_insert_Some Hq; [done|].
    eapply H4; [|done|done]. intros a x Ha. destruct (decide (a = i)) as [->|Hne].
    + simplify_eq. simpl. apply (Hk i (mkprocess (Ready l) k)).
      rewrite list_lookup_insert_eq by (by eapply lookup_lt_Some). done.
    + apply (Hk a). by rewrite list_lookup_insert_ne.
Qed.

Lemma kill_inv s i p :
  pipe_inv s -> procs s !! i = Some p ->
  pipe_inv (mkmstate (shared s) (<[i := mkprocess (match ph p with
    Asleep _ l => Ready l | q => q end) true]> (procs s))).
Proof.
  intros [H1 H2 H3 H4] Hi.
  assert (G : forall j q, <[i := mkprocess (match ph p with Asleep _ l => Ready l | q => q end) true]>
      (procs s) !! j = Some q -> exists q0, procs s !! j = Some q0 /\ inside (ph q) = inside (ph q0)).
  { intros j q [(-> & <- & _)|(_ & Hj)]%list_lookup_insert_Some; [|by eauto].
    exists p. split; [done|]. simpl. by destruct (ph p). }
  constructor; simpl.
  - done.
  - intros j q l (q0 & Hj & E)%G. rewrite E. by eapply H2.
  - intros a b x y w l (x0 & Ha & Ex)%G Hx (y0 & Hb & Ey)%G Hy. rewrite Ex in Hx. rewrite Ey in Hy.
    by eapply (H3 a b).
  - intros Hk. specialize (Hk i). rewrite list_lookup_insert_eq in Hk by (by eapply lookup_lt_Some).
    by specialize (Hk _ eq_refl).
Qed.

Lemma pipe_reachable junk n s : Z.of_nat (length junk) = PIPESIZE ->
  rtc (mstep pipe_body pipe_may) (start (mkpshared (pipe_init junk) [] []) n) s -> pipe_inv s.
Proof.
  intros Hj. apply monitor_inv.
  - intros. by eapply call_inv.
  - intros. by apply pipe_run_inv.
  - intros. by apply kill_inv.
  - constructor; simpl.
    + split; simpl; [|done]. constructor; simpl; [done|lia|lia|done].
    + intros i p l [-> _]%lookup_replicate. done.
    + intros i j p q w l [-> _]%lookup_replicate. done.
    + intros _ i p c l [-> _]%lookup_replicate. done.
Qed.

(** ** Theorems *)

(** C18. A pipe is a bounded queue.  Under every interleaving of readers,
    writers, closes and kills, whatever the wrap-around of the 32-bit
    counters: the bytes ever written are the bytes ever read followed by the
    at most 512 bytes in the buffer, in order, none lost, repeated or
    invented; and the next section of any process does exactly what the calls
    promise: a writer appends a prefix of its bytes, and stops short only when
    the buffer is full, returning -1 if the reader is gone or it is killed and
    sleeping otherwise; a reader takes the oldest bytes up to its limit, and
    waits only on an empty pipe that some writer still has open. *)
Theorem pipe_fifo junk n s :
  Z.of_nat (length junk) = PIPESIZE ->
  rtc (mstep pipe_body pipe_may) (start (mkpshared (pipe_init junk) [] []) n) s ->
  sent (shared s) = received (shared s) ++ contents (pp (shared s)) /\
  Z.of_nat (length (contents (pp (shared s)))) <= PIPESIZE /\
  (forall k bs m, write_post k bs m (shared s) (pipewrite k bs m (shared s))) /\
  (forall k m, read_post k m (shared s) (piperead k m (shared s))).
Proof.
  intros Hj [Hs _ _ _]%pipe_reachable; [|done]. pose proof Hs as [[_ _ _ Hle] Hstr].
  split; [done|]. split.
  - rewrite length_contents, Z2Nat.id by apply used_nonneg. done.
  - split; intros; [by apply pipewrite_post|by apply piperead_post].
Qed.

(** C27. No lost wakeup: as long as no process has been killed, a process that
    sleeps in a pipe has every reason to: a sleeping reader faces an empty
    pipe with the write end open, a sleeping writer a full one with the read
    end open.  Whoever changes that wakes it in the same critical section. *)
Theorem pipe_no_lost_wakeup junk n s i p c l :
  Z.of_nat (length junk) = PIPESIZE ->
  rtc (mstep pipe_body pipe_may) (start (mkpshared (pipe_init junk) [] []) n) s ->
  (forall j q, procs s !! j = Some q -> pkilled q = false) ->
  procs s !! i = Some p -> ph p = Asleep c l -> must_wait c l (pp (shared s)).
Proof. intros Hj [_ _ _ H]%pipe_reachable Hk Hi Hp; [|done]. by eapply H. Qed.

(** ** Examples *)
Definition junk_page : list Z := replicate 512 7.
Definition fresh_pipe : mstate pshared op res :=
  start (mkpshared (pipe_init junk_page) [] []) 3.

(** A writer of 514 bytes fills the pipe and sleeps. *)
Definition big : list Z := Z.of_nat <$> seq 0 514.
Definition full_pipe : mstate pshared op res :=
  foldl (play1 pipe_body) fresh_pipe [Call 1 (Write big 514); Run 1].

(** A trace with single steps: the calls are allowed when nobody closes. *)
Lemma may_open (s : mstate pshared op res) i o l :
  end_open (side l) (pp (shared s)) = true -> (forall w, l <> Close w) ->
  Forall (fun q => forall w, inside (ph q) <> Some (Close w)) (procs s) -> pipe_may s i o l.
Proof.
  intros Ho Hl Hq. split; [done|]. intros j q l' Hj Hin _. rewrite Forall_lookup in Hq.
  destruct l as [| |w]; [| |by destruct (Hl w)]; destruct l' as [| |w']; try done;
    by destruct (Hq j q Hj w').
Qed.

Ltac allowed := apply may_open; [done|done|repeat constructor; done].

Lemma full_pipe_reachable : rtc (mstep pipe_body pipe_may) fresh_pipe full_pipe.
Proof. apply play_steps. split; [allowed|]. split; exact I. Qed.

Lemma pipe_fifo_witness :
  sent (shared full_pipe) = received (shared full_pipe) ++ contents (pp (shared full_pipe)) /\
  length (sent (shared full_pipe)) = 512%nat.
Proof.
  split; [|by vm_compute].
  refine (proj1 (pipe_fifo junk_page 3 full_pipe eq_refl full_pipe_reachable)).
Defined.

Lemma pipe_no_lost_wakeup_witness :
  must_wait chan_nwrite (Write [512; 513] 514) (pp (shared full_pipe)).
Proof.
  apply (pipe_no_lost_wakeup junk_page 3 full_pipe 1 
           (mkprocess (Asleep chan_nwrite (Write [512; 513] 514)) false)).
  - reflexivity.
  - exact full_pipe_reachable.
  - intros [|[|[|j]]] q Hq; vm_compute in Hq; simplify_eq; done.
  - by vm_compute.
  - done.
Defined.

(** A killed writer can lose a wakeup: [pipewrite] returns -1 on a full
    pipe without [wakeup(&p->nread)], also after it has put bytes in.  Process
    0 sleeps in [piperead] on the empty pipe; process 1 writes 600 bytes and
    is killed before it runs.  Then the pipe holds 512 bytes, process 0 still
    sleeps, and no call that would wake it is in progress. *)
Theorem killed_writer_strands_reader :
  exists s, rtc (mstep pipe_body pipe_may) fresh_pipe s /\
    procs s = [mkprocess (Asleep chan_nread (Read 1)) false;
               mkprocess (Outside (Some (Wrote (-1)))) true;
               mkprocess (Outside None) false] /\
    length (contents (pp (shared s))) = 512%nat.
Proof.
  exists (foldl (play1 pipe_body) fresh_pipe
            [Call 0 (Read 1); Run 0; Call 1 (Write (replicate 600 1) 600); Kill 1; Run 1]).
  split; [|by vm_compute].
  apply play_steps. split; [allowed|]. split; [exact I|]. split; [allowed|].
  split; [exact I|]. split; exact I.
Qed.
