(* ===== verification/Block.v ===== *)
(** * Disk blocks as byte lists

    A block is its 512 bytes.  C code overlays structs on a buffer's data;
    here a field is read and written at its byte offset, little-endian. *)
From stdpp Require Import base numbers list.
From Stdlib Require Import ZArith Lia.
From S2P Require Import Prelude.
#[local] Open Scope Z_scope.

Definition BSIZE : Z := 512.
Definition FSSIZE : Z := 1000.
Notation block := (list Z).

Definition is_byte (b : Z) : Prop := 0 <= b < 256.
Definition block_ok (d : block) : Prop := Z.of_nat (length d) = BSIZE /\ Forall is_byte d.
Definition zero_block : block := replicate 512 0.

(** [n] bytes at offset [off], and overwriting bytes from [off] on. *)
Definition seg (off n : Z) (d : block) : list Z := take (Z.to_nat n) (drop (Z.to_nat off) d).
Definition splice (off : Z) (bs : list Z) (d : block) : block := list_inserts (Z.to_nat off) bs d.

Definition get8 (d : block) (off : Z) : Z := d !!! Z.to_nat off.
Definition get16 (d : block) (off : Z) : Z := le_combine (seg off 2 d).
Definition get32 (d : block) (off : Z) : Z := le_combine (seg off 4 d).
Definition put8 (off v : Z) (d : block) : block := splice off [u8 v] d.
Definition put16 (off v : Z) (d : block) : block := splice off (le_split 2 v) d.
Definition put32 (off v : Z) (d : block) : block := splice off (le_split 4 v) d.

Lemma length_splice off bs d : length (splice off bs d) = length d.
Proof. apply length_inserts. Qed.

Lemma length_seg off n d :
  0 <= off -> 0 <= n -> off + n <= Z.of_nat (length d) -> Z.of_nat (length (seg off n d)) = n.
Proof. intros. unfold seg. rewrite length_take, length_drop. lia. Qed.

Lemma lookup_seg off n d i :
  (i < Z.to_nat n)%nat -> seg off n d !! i = d !! (Z.to_nat off + i)%nat.
Proof. intros. unfold seg. by rewrite lookup_take_lt, lookup_drop. Qed.

(** Reading back what was written, and what lies beside it. *)
Lemma seg_splice_same off bs d n :
  0 <= off -> n = Z.of_nat (length bs) -> off + n <= Z.of_nat (length d) ->
  seg off n (splice off bs d) = bs.
Proof.
  intros Ho -> Hl. apply list_eq_same_length with (n := length bs); [| |].
  - done.
  - apply Nat2Z.inj. rewrite length_seg; [done|done|lia|by rewrite length_splice].
  - intros i x y Hi. rewrite lookup_seg by lia. unfold splice.
    rewrite list_lookup_inserts by lia.
    replace (Z.to_nat off + i - Z.to_nat off)%nat with i by lia. congruence.
Qed.

Lemma seg_splice_diff off bs d off' n :
  0 <= off -> 0 <= off' -> 0 <= n ->
  off' + n <= off \/ off + Z.of_nat (length bs) <= off' ->
  seg off' n (splice off bs d) = seg off' n d.
Proof.
  intros Ho Ho' Hn Hd. apply list_eq. intros i.
  destruct (decide (i < Z.to_nat n)%nat) as [Hi|Hi].
  - rewrite !lookup_seg by done. unfold splice.
    destruct Hd as [Hd|Hd]; [rewrite list_lookup_inserts_lt by lia; done|].
    rewrite list_lookup_inserts_ge by lia. done.
  - unfold seg. by rewrite !lookup_take_ge by lia.
Qed.

Lemma splice_bytes off bs d : Forall is_byte bs -> Forall is_byte d -> Forall is_byte (splice off bs d).
Proof. intros. unfold splice. by apply Forall_inserts. Qed.

Lemma splice_ok off bs d : Forall is_byte bs -> block_ok d -> block_ok (splice off bs d).
Proof. intros Hb [H1 H2]. split; [by rewrite length_splice|by apply splice_bytes]. Qed.

Lemma u8_byte v : is_byte (u8 v).
Proof. apply Z.mod_pos_bound. lia. Qed.

Lemma put8_ok off v d : block_ok d -> block_ok (put8 off v d).
Proof. apply splice_ok. repeat constructor; apply u8_byte. Qed.
Lemma put16_ok off v d : block_ok d -> block_ok (put16 off v d).
Proof. apply splice_ok, le_split_bytes. Qed.
Lemma put32_ok off v d : block_ok d -> block_ok (put32 off v d).
Proof. apply splice_ok, le_split_bytes. Qed.

Lemma get32_put32_same off v d :
  0 <= off -> off + 4 <= Z.of_nat (length d) -> get32 (put32 off v d) off = u32 v.
Proof.
  intros. unfold get32, put32. rewrite seg_splice_same by (rewrite ?length_le_split; lia).
  by rewrite le_combine_split.
Qed.

Lemma get16_put16_same off v d :
  0 <= off -> off + 2 <= Z.of_nat (length d) -> get16 (put16 off v d) off = u16 v.
Proof.
  intros. unfold get16, put16. rewrite seg_splice_same by (rewrite ?length_le_split; lia).
  by rewrite le_combine_split.
Qed.

Lemma get32_splice_diff off bs d off' :
  0 <= off -> 0 <= off' -> off' + 4 <= off \/ off + Z.of_nat (length bs) <= off' ->
  get32 (splice off bs d) off' = get32 d off'.
Proof. intros. unfold get32. by rewrite seg_splice_diff by lia. Qed.

Lemma get16_splice_diff off bs d off' :
  0 <= off -> 0 <= off' -> off' + 2 <= off \/ off + Z.of_nat (length bs) <= off' ->
  get16 (splice off bs d) off' = get16 d off'.
Proof. intros. unfold get16. by rewrite seg_splice_diff by lia. Qed.

Lemma get32_put32_diff off v d off' :
  0 <= off -> 0 <= off' -> off' + 4 <= off \/ off + 4 <= off' ->
  get32 (put32 off v d) off' = get32 d off'.
Proof. intros. unfold put32. apply get32_splice_diff; rewrite ?length_le_split; lia. Qed.

Lemma seg_bytes off n d : Forall is_byte d -> Forall is_byte (seg off n d).
Proof. intros. unfold seg. by apply Forall_take, Forall_drop. Qed.

Lemma get32_range d off : block_ok d -> 0 <= off -> off + 4 <= BSIZE -> 0 <= get32 d off < 4294967296.
Proof.
  intros [Hl Hb] ? ?. unfold get32.
  pose proof (le_combine_range (seg off 4 d) (seg_bytes _ _ _ Hb)) as Hr.
  by rewrite length_seg in Hr by lia.
Qed.

Lemma get16_range d off : block_ok d -> 0 <= off -> off + 2 <= BSIZE -> 0 <= get16 d off < 65536.
Proof.
  intros [Hl Hb] ? ?. unfold get16.
  pose proof (le_combine_range (seg off 2 d) (seg_bytes _ _ _ Hb)) as Hr.
  by rewrite length_seg in Hr by lia.
Qed.

Lemma zero_block_ok : block_ok zero_block.
Proof. split; [done|]. apply Forall_replicate. unfold is_byte. lia. Qed.

(** A field of a zeroed block is zero. *)
Lemma seg_zero off n : 0 <= off -> 0 <= n -> off + n <= BSIZE ->
  seg off n zero_block = replicate (Z.to_nat n) 0.
Proof.
  intros. unfold seg, zero_block, BSIZE in *. rewrite drop_replicate, take_replicate.
  f_equal. lia.
Qed.

Create HintDb block discriminated.
#[export] Hint Resolve put8_ok put16_ok put32_ok splice_ok zero_block_ok seg_bytes : block.
