(* ===== verification/Bcache.v ===== *)
(** * What the buffer cache promises to the log and the file system

    The contract of bio.c, as executable operations: a block has one content
    that everybody sees ([view]), which is the cached buffer's if there is one
    and the disk's otherwise; buffers are locked one holder at a time; a
    buffer marked B_DIRTY by the log stays in the cache; and there are NBUF
    buffers.  The file [Bio] proves that bget, bread, bwrite and brelse
    implement these operations. *)
From stdpp Require Import base numbers list strings.
From Stdlib Require Import ZArith Lia.
From S2P Require Import Prelude Block.
#[local] Open Scope Z_scope.

Definition NBUF : Z := 30.

Record blocks := mkblocks {
  disksize : Z;
  disk : Z -> block;
  view : Z -> block;
  dirty : list Z;               (* buffers pinned by B_DIRTY *)
  bheld : list Z;               (* buffers locked by this process *)
  writes : list (Z * block);    (* every disk write so far, in order *)
}.

Definition set_block (b : Z) (d : block) (f : Z -> block) : Z -> block :=
  fun x => if x =? b then d else f x.

(** Buffers that may not be recycled. *)
Definition pinned (s : blocks) : list Z := dirty s ++ filter (fun b => b ∉ dirty s) (bheld s).

(** A buffer is named by its block number. *)
Definition bread (b : Z) : M blocks unit := fun s =>
  if decide (b ∈ bheld s) then Sleep b s
  else if decide (b ∉ dirty s /\ NBUF <= Z.of_nat (length (pinned s))) then Panic "bget: no buffers" s
  else if (b <? 0) || (disksize s <=? b) then Panic "iderw: block out of range" s
  else Ret tt (mkblocks (disksize s) (disk s) (view s) (dirty s) (b :: bheld s) (writes s)).

(** [bp->data]: only while the buffer is locked. *)
Definition bdata (b : Z) : M blocks block := fun s =>
  if decide (b ∈ bheld s) then Ret (view s b) s else Fault "buffer not locked" s.
Definition bset (b : Z) (d : block) : M blocks unit := fun s =>
  if decide (b ∈ bheld s)
  then Ret tt (mkblocks (disksize s) (disk s) (set_block b d (view s)) (dirty s) (bheld s) (writes s))
  else Fault "buffer not locked" s.

Definition bwrite (b : Z) : M blocks unit := fun s =>
  if decide (b ∈ bheld s)
  then Ret tt (mkblocks (disksize s) (set_block b (view s b) (disk s)) (view s)
                 (filter (fun x => x ≠ b) (dirty s)) (bheld s) (writes s ++ [(b, view s b)]))
  else Panic "bwrite" s.

(** [b->flags |= B_DIRTY]. *)
Definition bdirty (b : Z) : M blocks unit := fun s =>
  if decide (b ∈ bheld s)
  then Ret tt (mkblocks (disksize s) (disk s) (view s) (b :: filter (fun x => x ≠ b) (dirty s))
                 (bheld s) (writes s))
  else Fault "buffer not locked" s.

(** Releasing a modified buffer that nothing pins would lose the change. *)
Definition brelse (b : Z) : M blocks unit := fun s =>
  if decide (b ∉ bheld s) then Panic "brelse" s
  else if decide (b ∉ dirty s /\ view s b ≠ disk s b) then Fault "unwritten buffer released" s
  else Ret tt (mkblocks (disksize s) (disk s) (view s) (dirty s)
                 (filter (fun x => x ≠ b) (bheld s)) (writes s)).

Record blocks_ok (s : blocks) : Prop := {
  bo_dirty : NoDup (dirty s);
  bo_held : NoDup (bheld s);
  bo_clean : forall b, b ∉ dirty s -> b ∉ bheld s -> view s b = disk s b;
  bo_view : forall b, block_ok (view s b);
  bo_disk : forall b, block_ok (disk s b) }.

(** ** How the operations run *)
Lemma set_block_same b d f : set_block b d f b = d.
Proof. unfold set_block. by rewrite Z.eqb_refl. Qed.
Lemma set_block_other b d f x : x <> b -> set_block b d f x = f x.
Proof. intros. unfold set_block. by destruct (Z.eqb_spec x b). Qed.

Definition b_held (h : list Z) (s : blocks) : blocks :=
  mkblocks (disksize s) (disk s) (view s) (dirty s) h (writes s).
Definition b_view (v : Z -> block) (s : blocks) : blocks :=
  mkblocks (disksize s) (disk s) v (dirty s) (bheld s) (writes s).

Lemma bread_eq b s : b ∉ bheld s -> 0 <= b < disksize s ->
  b ∈ dirty s \/ Z.of_nat (length (pinned s)) < NBUF ->
  bread b s = Ret tt (b_held (b :: bheld s) s).
Proof.
  intros H1 H2 H3. unfold bread. rewrite decide_False by done. rewrite decide_False by (intros [? ?]; destruct H3; [done|lia]).
  destruct (Z.ltb_spec b 0), (Z.leb_spec (disksize s) b); try lia. done.
Qed.

Lemma bdata_eq b s : b ∈ bheld s -> bdata b s = Ret (view s b) s.
Proof. intros. unfold bdata. by rewrite decide_True. Qed.

Lemma bset_eq b d s : b ∈ bheld s -> bset b d s = Ret tt (b_view (set_block b d (view s)) s).
Proof. intros. unfold bset. by rewrite decide_True. Qed.

Lemma bwrite_eq b s : b ∈ bheld s ->
  bwrite b s = Ret tt (mkblocks (disksize s) (set_block b (view s b) (disk s)) (view s)
                 (filter (fun x => x ≠ b) (dirty s)) (bheld s) (writes s ++ [(b, view s b)])).
Proof. intros. unfold bwrite. by rewrite decide_True. Qed.

Lemma bdirty_eq b s : b ∈ bheld s ->
  bdirty b s = Ret tt (mkblocks (disksize s) (disk s) (view s) (b :: filter (fun x => x ≠ b) (dirty s))
                 (bheld s) (writes s)).
Proof. intros. unfold bdirty. by rewrite decide_True. Qed.

Lemma brelse_eq b s : b ∈ bheld s -> b ∈ dirty s \/ view s b = disk s b ->
  brelse b s = Ret tt (b_held (filter (fun x => x ≠ b) (bheld s)) s).
Proof.
  intros H1 H2. unfold brelse. rewrite decide_False by (intros H; by apply H).
  rewrite decide_False; [done|]. intros [? ?]. by destruct H2.
Qed.
