(* ===== verification/Log.v ===== *)
(** * The redo log and crash safety (log.c)

    The functions of log.c over the operations of the buffer cache.  A crash
    may happen between any two disk writes: [writes] records them, and the
    disk a crash leaves is the initial disk with a prefix of the writes
    applied.  The theorems show that a transaction is atomic: whatever the
    crash point, during the commit or during any number of interrupted
    recoveries, the recovered disk holds either all of its writes or none. *)
From stdpp Require Import base numbers list list_numbers strings sets.
From Stdlib Require Import ZArith Lia.
From S2P Require Import Prelude Block Bcache.
#[local] Open Scope Z_scope.

Definition MAXOPBLOCKS : Z := 10.
Definition LOGSIZE : Z := MAXOPBLOCKS * 3.

(** [log.lh]: the block numbers of the transaction, [log.lh.n] of them. *)
Record logged := mklogged {
  blk : blocks;
  lstart : Z;
  lsize : Z;
  outstanding : Z;
  committing : bool;
  lh : list Z;
}.

Definition set_blk (b : blocks) (s : logged) : logged :=
  mklogged b (lstart s) (lsize s) (outstanding s) (committing s) (lh s).
Definition set_lh (l : list Z) (s : logged) : logged :=
  mklogged (blk s) (lstart s) (lsize s) (outstanding s) (committing s) l.
Definition set_count (o : Z) (c : bool) (s : logged) : logged :=
  mklogged (blk s) (lstart s) (lsize s) o c (lh s).
Definition on_blk {A} (c : M blocks A) : M logged A := zoom blk set_blk c.

(** ** The superblock (fs.c: readsb) *)
Record superblock := mksuperblock {
  size : Z; nblocks : Z; ninodes : Z; nlog : Z; logstart : Z; inodestart : Z; bmapstart : Z }.

Definition readsb : M blocks superblock :=
  bread 1 ;;;
  d <- bdata 1 ;;
  brelse 1 ;;;
  ret (mksuperblock (get32 d 0) (get32 d 4) (get32 d 8) (get32 d 12) (get32 d 16)
                    (get32 d 20) (get32 d 24)).

(** ** The header block: [int n; int block[LOGSIZE]] *)
Fixpoint put_blocks (i : Z) (l : list Z) (d : block) : block :=
  match l with
  | [] => d
  | b :: l' => put_blocks (i + 1) l' (put32 (4 + 4 * i) b d)
  end.
Definition encode (l : list Z) (d : block) : block :=
  put_blocks 0 l (put32 0 (Z.of_nat (length l)) d).
Definition header_n (d : block) : Z := s32 (get32 d 0).
Definition decode (d : block) : list Z :=
  (fun i => get32 d (4 + 4 * i)) <$> seqZ 0 (header_n d).

#[global] Arguments encode : simpl never.
#[global] Arguments decode : simpl never.
#[global] Arguments header_n : simpl never.

(** The counted loops of the file, over [tail] and [lh.block[tail]]. *)
Definition entries (l : list Z) : list (Z * Z) := zip (seqZ 0 (Z.of_nat (length l))) l.

Definition install_trans : M logged unit :=
  s <- get ;;
  for_all (entries (lh s)) (fun '(tail, b) =>
    on_blk (bread (lstart s + tail + 1) ;;;
            bread b ;;;
            d <- bdata (lstart s + tail + 1) ;;
            bset b d ;;;
            bwrite b ;;;
            brelse (lstart s + tail + 1) ;;;
            brelse b)).

(** A header with more than LOGSIZE entries would overrun log.lh.block. *)
Definition read_head : M logged unit :=
  s <- get ;;
  on_blk (bread (lstart s)) ;;;
  d <- on_blk (bdata (lstart s)) ;;
  (if header_n d <=? LOGSIZE then modify (set_lh (decode d)) else fault "log.lh.block overrun") ;;;
  on_blk (brelse (lstart s)).

Definition write_head : M logged unit :=
  s <- get ;;
  on_blk (bread (lstart s) ;;;
          d <- bdata (lstart s) ;;
          bset (lstart s) (encode (lh s) d) ;;;
          bwrite (lstart s) ;;;
          brelse (lstart s)).

Definition recover_from_log : M logged unit :=
  read_head ;;;
  install_trans ;;;
  modify (set_lh []) ;;;
  write_head.

(** sizeof(struct logheader) is 4 + 4*LOGSIZE = 124, below BSIZE. *)
Definition initlog : M logged unit :=
  if BSIZE <=? 4 + 4 * LOGSIZE then panic "initlog: too big logheader"
  else
    sb <- on_blk readsb ;;
    modify (fun s => mklogged (blk s) (logstart sb) (nlog sb) (outstanding s) (committing s) (lh s)) ;;;
    recover_from_log.

(** Sleeping on &log until a commit ends. *)
Definition chan_log : Z := 0x80113000.

Definition begin_op : M logged unit := fun s =>
  if committing s then Sleep chan_log s
  else if LOGSIZE <? Z.of_nat (length (lh s)) + (outstanding s + 1) * MAXOPBLOCKS
  then Sleep chan_log s
  else Ret tt (set_count (outstanding s + 1) (committing s) s).

Definition write_log : M logged unit :=
  s <- get ;;
  for_all (entries (lh s)) (fun '(tail, b) =>
    on_blk (bread (lstart s + tail + 1) ;;;
            bread b ;;;
            d <- bdata b ;;
            bset (lstart s + tail + 1) d ;;;
            bwrite (lstart s + tail + 1) ;;;
            brelse b ;;;
            brelse (lstart s + tail + 1))).

Definition commit : M logged unit :=
  n <- gets (fun s => length (lh s)) ;;
  match n with
  | O => ret tt
  | _ =>
      write_log ;;;
      write_head ;;;
      install_trans ;;;
      modify (set_lh []) ;;;
      write_head
  end.

Definition end_op : M logged unit :=
  modify (fun s => set_count (outstanding s - 1) (committing s) s) ;;;
  s <- get ;;
  if committing s then panic "log.committing"
  else if outstanding s =? 0 then
    modify (set_count 0 true) ;;;
    commit ;;;
    modify (fun s => set_count (outstanding s) false s)
  else ret tt.

(** The scan for the block stops at the first entry that has it. *)
Definition log_write (b : Z) : M logged unit :=
  s <- get ;;
  let n := Z.of_nat (length (lh s)) in
  if (LOGSIZE <=? n) || (lsize s - 1 <=? n) then panic "too big a transaction"
  else if outstanding s <? 1 then panic "log_write outside of trans"
  else
    (if decide (b ∈ lh s) then ret tt else modify (set_lh (lh s ++ [b]))) ;;;
    on_blk (bdirty b).

(** ** The header block *)
Lemma get32_put_blocks_low l : forall i d off, 0 <= i -> 0 <= off -> off + 4 <= 4 + 4 * i ->
  get32 (put_blocks i l d) off = get32 d off.
Proof.
  induction l as [|b l IH]; intros i d off Hi Ho Hlt; simpl; [done|].
  rewrite IH by lia. apply get32_put32_diff; lia.
Qed.

Lemma get32_put_blocks l : forall i d j b, 0 <= i -> Forall (fun b => 0 <= b < 4294967296) l ->
  4 + 4 * (i + Z.of_nat (length l)) <= Z.of_nat (length d) -> l !! j = Some b ->
  get32 (put_blocks i l d) (4 + 4 * (i + Z.of_nat j)) = b.
Proof.
  induction l as [|b l IH]; intros i d j b' Hi Hf Hl Hj; [done|]. simpl length in Hl.
  apply Forall_cons in Hf as [Hb Hf]. simpl. destruct j as [|j]; simplify_eq/=.
  - rewrite Z.add_0_r, get32_put_blocks_low by lia.
    rewrite get32_put32_same by lia. by apply u32_small.
  - replace (i + Z.of_nat (S j)) with (i + 1 + Z.of_nat j) by lia.
    apply IH; [lia|done| |done]. unfold put32. rewrite length_splice. lia.
Qed.

Lemma put_blocks_ok l : forall i d, block_ok d -> block_ok (put_blocks i l d).
Proof. induction l; intros; simpl; auto with block. Qed.

Lemma encode_ok l d : block_ok d -> block_ok (encode l d).
Proof. intros. apply put_blocks_ok. auto with block. Qed.

Lemma decode_encode l d : block_ok d -> Forall (fun b => 0 <= b < 4294967296) l ->
  Z.of_nat (length l) <= LOGSIZE -> header_n (encode l d) = Z.of_nat (length l) /\ decode (encode l d) = l.
Proof.
  intros [Hl Hb] Hf Hn. unfold LOGSIZE, MAXOPBLOCKS, BSIZE in *.
  assert (En : header_n (encode l d) = Z.of_nat (length l)).
  { unfold header_n, encode. rewrite get32_put_blocks_low by lia.
    rewrite get32_put32_same by lia. rewrite u32_small by lia. apply s32_small. lia. }
  split; [done|]. unfold decode. rewrite En.
  apply list_eq_same_length with (n := length l); [done| |].
  - rewrite length_fmap, length_seqZ. lia.
  - intros i x y Hi [z [-> Hz]]%list_lookup_fmap_Some Hy.
    apply lookup_seqZ in Hz as [-> _]. unfold encode.
    apply get32_put_blocks; [lia|done| |done].
    unfold put32. rewrite length_splice. lia.
Qed.

(** ** Effects of the log's steps on the cache *)

(** Copy the content of block [a] to block [b], in the cache and on disk. *)
Definition copied (a b : Z) (s : blocks) : blocks :=
  mkblocks (disksize s) (set_block b (view s a) (disk s)) (set_block b (view s a) (view s))
    (filter (fun x => x ≠ b) (dirty s)) (bheld s) (writes s ++ [(b, view s a)]).
Definition copies (ps : list (Z * Z)) (s : blocks) : blocks :=
  foldl (fun s '(a, b) => copied a b s) s ps.

(** Write the header block with entries [l]. *)
Definition headed (st : Z) (l : list Z) (s : blocks) : blocks :=
  mkblocks (disksize s) (set_block st (encode l (view s st)) (disk s))
    (set_block st (encode l (view s st)) (view s))
    (filter (fun x => x ≠ st) (dirty s)) (bheld s) (writes s ++ [(st, encode l (view s st))]).

Lemma filter_out (x : Z) (h : list Z) : x ∉ h -> filter (fun y => y ≠ x) h = h.
Proof. intros H. apply filter_all. intros y Hy ->. done. Qed.

Lemma filter_head (x : Z) (h : list Z) : x ∉ h -> filter (fun y => y ≠ x) (x :: h) = h.
Proof. intros H. rewrite filter_cons_False by naive_solver. by apply filter_out. Qed.

(** Room for one more buffer besides the pinned ones and block [b]. *)
Definition room (b : Z) (s : blocks) : Prop := b ∈ dirty s \/ Z.of_nat (length (pinned s)) < NBUF.

Lemma pinned_held a s : bheld s = [] -> a ∉ dirty s ->
  length (pinned (b_held (a :: bheld s) s)) = S (length (pinned s)).
Proof.
  intros Hh Ha. unfold pinned. simpl. rewrite Hh, !length_app. simpl.
  rewrite filter_cons_True by done. simpl. lia.
Qed.

(** Both copying loops: lock [x] then [y], copy one to the other, release. *)
Lemma install_step_runs x y s :
  x <> y -> bheld s = [] -> 0 <= x < disksize s -> 0 <= y < disksize s ->
  x ∉ dirty s -> view s x = disk s x -> Z.of_nat (length (pinned s)) + 1 < NBUF \/
    y ∈ dirty s /\ Z.of_nat (length (pinned s)) < NBUF ->
  runs (bread x ;;; bread y ;;; d <- bdata x ;; bset y d ;;; bwrite y ;;; brelse x ;;; brelse y) s
    (fun _ s' => s' = copied x y s).
Proof.
  intros Hne Hh Hx Hy Hdx Hcl Hroom.
  reqn (bread_eq x s); [rewrite Hh; apply not_elem_of_nil|done|right; lia|].
  reqn bread_eq; [simpl; rewrite Hh; set_solver|done| |].
  { simpl. destruct Hroom as [Hr|[Hr _]]; [right|by left]. rewrite pinned_held by done. lia. }
  reqn bdata_eq; [simpl; set_solver|]. reqn bset_eq; [simpl; set_solver|].
  reqn bwrite_eq; [simpl; set_solver|].
  reqn brelse_eq; [simpl; set_solver|right; simpl; by rewrite !set_block_other|].
  reqn brelse_eq.
  { simpl. rewrite filter_cons_True by done. by left. }
  { right. simpl. by rewrite !set_block_same. }
  unfold copied, b_held, b_view. simpl. rewrite set_block_same, Hh.
  rewrite filter_cons_True by done. rewrite (filter_head x []) by apply not_elem_of_nil.
  by rewrite (filter_head y []) by apply not_elem_of_nil.
Qed.

Lemma log_step_runs x y s :
  x <> y -> bheld s = [] -> 0 <= x < disksize s -> 0 <= y < disksize s ->
  x ∉ dirty s -> y ∈ dirty s -> Z.of_nat (length (pinned s)) < NBUF ->
  runs (bread x ;;; bread y ;;; d <- bdata y ;; bset x d ;;; bwrite x ;;; brelse y ;;; brelse x) s
    (fun _ s' => s' = copied y x s).
Proof.
  intros Hne Hh Hx Hy Hdx Hdy Hroom.
  reqn (bread_eq x s); [rewrite Hh; apply not_elem_of_nil|done|right; lia|].
  reqn bread_eq; [simpl; rewrite Hh; set_solver|done|by left|].
  reqn bdata_eq; [simpl; set_solver|]. reqn bset_eq; [simpl; set_solver|].
  reqn bwrite_eq; [simpl; set_solver|].
  reqn brelse_eq; [simpl; set_solver|left; simpl; apply list_elem_of_filter; done|].
  reqn brelse_eq.
  { simpl. rewrite filter_cons_False by naive_solver. rewrite Hh, filter_cons_True by done. by left. }
  { right. simpl. by rewrite !set_block_same. }
  unfold copied, b_held, b_view. simpl. rewrite set_block_same, Hh.
  rewrite (filter_head y [x]) by set_solver. by rewrite (filter_head x []) by apply not_elem_of_nil.
Qed.

Lemma write_head_runs s :
  bheld (blk s) = [] -> 0 <= lstart s < disksize (blk s) -> room (lstart s) (blk s) ->
  runs write_head s (fun _ s' => s' = set_blk (headed (lstart s) (lh s) (blk s)) s).
Proof.
  intros Hh Hr Hroom. unfold write_head. rsteps. apply runs_zoom.
  reqn bread_eq; [rewrite Hh; apply not_elem_of_nil|done|done|].
  reqn bdata_eq; [simpl; set_solver|]. reqn bset_eq; [simpl; set_solver|].
  reqn bwrite_eq; [simpl; set_solver|].
  reqn brelse_eq; [simpl; set_solver|right; simpl; by rewrite !set_block_same|].
  unfold headed, b_held, b_view. simpl. rewrite set_block_same, Hh.
  by rewrite (filter_head (lstart s) []) by apply not_elem_of_nil.
Qed.

(** ** Disk writes *)
Definition apply_writes (ws : list (Z * block)) (d : Z -> block) : Z -> block :=
  foldl (fun d '(b, x) => set_block b x d) d ws.

Lemma apply_writes_app ws ws' d : apply_writes (ws ++ ws') d = apply_writes ws' (apply_writes ws d).
Proof. apply foldl_app. Qed.

Lemma apply_writes_snoc ws b v d :
  apply_writes (ws ++ [(b, v)]) d = set_block b v (apply_writes ws d).
Proof. apply apply_writes_app. Qed.

Lemma apply_writes_out ws d x : x ∉ ws.*1 -> apply_writes ws d x = d x.
Proof.
  revert d. induction ws as [|[b v] ws IH]; intros d Hx; simpl in *; [done|].
  apply not_elem_of_cons in Hx as [Hne Hx]. unfold apply_writes in *. simpl.
  rewrite IH by done. by apply set_block_other.
Qed.

Lemma apply_writes_in ws d x v : NoDup ws.*1 -> (x, v) ∈ ws -> apply_writes ws d x = v.
Proof.
  revert d. induction ws as [|[b w] ws IH]; intros d Hnd Hin; [by apply not_elem_of_nil in Hin|].
  simpl in Hnd. apply NoDup_cons in Hnd as [Hb Hnd].
  apply elem_of_cons in Hin as [[= -> ->]|Hin].
  - unfold apply_writes in *. simpl. change (apply_writes ws (set_block b w d) b = w).
    rewrite apply_writes_out by done. apply set_block_same.
  - by apply (IH (set_block b w d)).
Qed.

(** The writes of a run of copies. *)
Definition copy_writes (ps : list (Z * Z)) (s : blocks) : list (Z * block) :=
  (fun p => (p.2, view s p.1)) <$> ps.

Lemma copy_writes_fst ps s : (copy_writes ps s).*1 = ps.*2.
Proof. unfold copy_writes. rewrite <- list_fmap_compose. done. Qed.

Lemma copies_spec ps : forall s, (forall a, a ∈ ps.*1 -> a ∉ ps.*2) ->
  disksize (copies ps s) = disksize s /\ bheld (copies ps s) = bheld s /\
  disk (copies ps s) = apply_writes (copy_writes ps s) (disk s) /\
  view (copies ps s) = apply_writes (copy_writes ps s) (view s) /\
  writes (copies ps s) = writes s ++ copy_writes ps s /\
  dirty (copies ps s) = filter (fun x => x ∉ ps.*2) (dirty s).
Proof.
  induction ps as [|[a b] ps IH]; intros s Hd.
  { simpl. rewrite app_nil_r, filter_all; [done|]. intros x _. apply not_elem_of_nil. }
  destruct (IH (copied a b s)) as (E1 & E2 & E3 & E4 & E5 & E6).
  { intros x Hx Hx'. apply (Hd x); simpl; by right. }
  assert (Ew : copy_writes ps (copied a b s) = copy_writes ps s).
  { apply list_fmap_ext. intros i [x y] Hi. simpl. f_equal. apply set_block_other. intros ->.
    apply (Hd b); simpl; [right|by left]. by apply (list_elem_of_fmap_2 fst _ (b, y)), (list_elem_of_lookup_2 _ i). }
  change (copies ((a, b) :: ps) s) with (copies ps (copied a b s)).
  rewrite E1, E2, E3, E4, E5, E6, Ew. simpl. rewrite <- app_assoc. repeat split; try done.
  rewrite list_filter_filter. apply list_filter_iff. intros x. rewrite not_elem_of_cons. naive_solver.
Qed.

(** ** What a disk means

    [logical st D b]: the content block [b] has after recovery from disk [D],
    when the log starts at block [st]. *)
Definition logical (st : Z) (D : Z -> block) (b : Z) : block :=
  match list_find (fun x => x = b) (decode (D st)) with
  | Some (i, _) => D (st + Z.of_nat i + 1)
  | None => D b
  end.

(** The header on a disk lists distinct home blocks outside the log area
    [st, st + sz), no more than the area has room for. *)
Record header_ok (st sz dsz : Z) (d : block) : Prop := {
  ho_block : block_ok d;
  ho_n : 0 <= header_n d <= LOGSIZE /\ header_n d <= sz - 1;
  ho_nodup : NoDup (decode d);
  ho_home : Forall (fun b => 0 <= b < dsz /\ (b < st \/ st + sz <= b)) (decode d) }.

(** Copies out of the log area and into it, by position in [l]. *)
Definition to_log (st : Z) (l : list Z) : list (Z * Z) :=
  (fun '(tail, b) => (b, st + tail + 1)) <$> entries l.
Definition from_log (st : Z) (l : list Z) : list (Z * Z) :=
  (fun '(tail, b) => (st + tail + 1, b)) <$> entries l.

Lemma entries_fst l : (entries l).*1 = seqZ 0 (Z.of_nat (length l)).
Proof. unfold entries. apply fst_zip. rewrite length_seqZ. lia. Qed.
Lemma entries_snd l : (entries l).*2 = l.
Proof. unfold entries. apply snd_zip. rewrite length_seqZ. lia. Qed.

Lemma elem_of_entries l tail b : (tail, b) ∈ entries l <->
  exists i, l !! i = Some b /\ tail = Z.of_nat i.
Proof.
  unfold entries. rewrite list_elem_of_lookup. split.
  - intros (i & Hi). apply lookup_zip_Some in Hi as [H1 H2].
    apply lookup_seqZ in H1 as [-> _]. exists i. split; [done|lia].
  - intros (i & Hi & ->). exists i. apply lookup_zip_Some. split; [|done].
    apply lookup_seqZ. pose proof (lookup_lt_Some _ _ _ Hi). lia.
Qed.

Lemma to_log_fst st l : (to_log st l).*1 = l.
Proof.
  unfold to_log. rewrite <- list_fmap_compose. rewrite <- (entries_snd l) at 2.
  apply list_fmap_ext. by intros i [].
Qed.
Lemma from_log_snd st l : (from_log st l).*2 = l.
Proof.
  unfold from_log. rewrite <- list_fmap_compose. rewrite <- (entries_snd l) at 2.
  apply list_fmap_ext. by intros i [].
Qed.
Lemma to_log_snd st l : (to_log st l).*2 = (from_log st l).*1.
Proof.
  unfold to_log, from_log. rewrite <- !list_fmap_compose. apply list_fmap_ext. by intros i [].
Qed.
Lemma from_log_fst st l x : x ∈ (from_log st l).*1 -> st < x <= st + Z.of_nat (length l).
Proof.
  unfold from_log. rewrite <- list_fmap_compose. intros ([t b] & -> & H)%list_elem_of_fmap.
  apply elem_of_entries in H as (i & Hi & ->). simpl. pose proof (lookup_lt_Some _ _ _ Hi). lia.
Qed.
Lemma NoDup_to_log st l : NoDup (to_log st l).*2.
Proof.
  assert (E : (to_log st l).*2 = (fun t => st + t + 1) <$> seqZ 0 (Z.of_nat (length l))).
  { rewrite <- entries_fst. unfold to_log. rewrite <- !list_fmap_compose.
    apply list_fmap_ext. by intros i []. }
  rewrite E. apply NoDup_fmap_2; [intros x y; lia|apply NoDup_seqZ].
Qed.

(** ** The loops *)

(** The transaction [l] fits the log area [st, st + sz), and no buffer is
    locked. *)
Record trans_ok (st sz : Z) (l : list Z) (s : blocks) : Prop := {
  tr_area : 0 <= st /\ st + sz <= disksize s /\ disksize s < 4294967296;
  tr_len : Z.of_nat (length l) <= sz - 1;
  tr_nodup : NoDup l;
  tr_home : Forall (fun b => 0 <= b < disksize s /\ (b < st \/ st + sz <= b)) l;
  tr_held : bheld s = [] }.

Lemma pinned_dirty s : bheld s = [] -> pinned s = dirty s.
Proof. intros E. unfold pinned. rewrite E. apply app_nil_r. Qed.

Section loops.
Context (st sz : Z) (l : list Z) (s : blocks) (Htr : trans_ok st sz l s).

Lemma entry_ok tail b : (tail, b) ∈ entries l ->
  0 <= b < disksize s /\ (b < st \/ st + sz <= b) /\ 0 <= tail /\ tail + 1 <= sz - 1.
Proof.
  intros (i & Hi & ->)%elem_of_entries. pose proof (lookup_lt_Some _ _ _ Hi).
  destruct Htr as [_ Hl _ Hh _]. rewrite Forall_lookup in Hh. specialize (Hh i b Hi). lia.
Qed.

Lemma entries_prefix pre e post : entries l = pre ++ e :: post ->
  e ∈ entries l /\ e ∉ pre /\ forall p, p ∈ pre -> p ∈ entries l.
Proof.
  intros E. rewrite E. split; [set_solver|]. split; [|set_solver].
  assert (Hnd : NoDup (entries l)).
  { apply (NoDup_fmap_1 fst). rewrite entries_fst. apply NoDup_seqZ. }
  rewrite E in Hnd. apply NoDup_app in Hnd as (_ & Hd & _). intros He. apply (Hd e He). by left.
Qed.

Lemma copies_to_log pre : (forall p, p ∈ pre -> p ∈ entries l) ->
  let s' := copies ((fun '(tail, b) => (b, st + tail + 1)) <$> pre) s in
  disksize s' = disksize s /\ bheld s' = bheld s /\
  (forall x, x ∈ dirty s' -> x ∈ dirty s) /\
  (forall x, x ∈ dirty s -> x < st \/ st + sz <= x -> x ∈ dirty s') /\
  (length (dirty s') <= length (dirty s))%nat.
Proof.
  intros Hpre.
  destruct (copies_spec ((fun '(tail, b) => (b, st + tail + 1)) <$> pre) s) as (E1 & E2 & _ & _ & _ & E6).
  { intros a ([x y] & -> & ([t b] & [= -> ->] & Hb)%list_elem_of_fmap)%list_elem_of_fmap
      ([x' y'] & E & ([t' b'] & [= -> ->] & Hb')%list_elem_of_fmap)%list_elem_of_fmap. simpl in E.
    apply Hpre, entry_ok in Hb. apply Hpre, entry_ok in Hb'. lia. }
  cbn zeta. rewrite E1, E2, E6. split; [done|]. split; [done|]. split; [|split].
  - intros x [_ Hx]%list_elem_of_filter. done.
  - intros x Hx Ha. apply list_elem_of_filter. split; [|done].
    intros ([x' y'] & -> & ([t' b'] & [= -> ->] & Hb')%list_elem_of_fmap)%list_elem_of_fmap.
    apply Hpre, entry_ok in Hb'. simpl in Ha. lia.
  - apply length_filter.
Qed.

Lemma copies_from_log pre : (forall p, p ∈ pre -> p ∈ entries l) ->
  let s' := copies ((fun '(tail, b) => (st + tail + 1, b)) <$> pre) s in
  disksize s' = disksize s /\ bheld s' = bheld s /\
  (forall x, x ∈ dirty s' <-> x ∈ dirty s /\ x ∉ pre.*2) /\
  (length (dirty s') <= length (dirty s))%nat /\
  (forall x, st <= x < st + sz -> view s' x = view s x /\ disk s' x = disk s x).
Proof.
  intros Hpre.
  assert (Esnd : ((fun '(tail, b) => (st + tail + 1, b)) <$> pre).*2 = pre.*2).
  { rewrite <- list_fmap_compose. apply list_fmap_ext. by intros i []. }
  destruct (copies_spec ((fun '(tail, b) => (st + tail + 1, b)) <$> pre) s) as (E1 & E2 & E3 & E4 & _ & E6).
  { intros a ([x y] & -> & ([t b] & [= -> ->] & Hb)%list_elem_of_fmap)%list_elem_of_fmap
      ([x' y'] & E & ([t' b'] & [= -> ->] & Hb')%list_elem_of_fmap)%list_elem_of_fmap. simpl in E.
    apply Hpre, entry_ok in Hb. apply Hpre, entry_ok in Hb'. lia. }
  cbn zeta. rewrite E1, E2, E3, E4, E6, Esnd. split; [done|]. split; [done|].
  split; [intros x; rewrite list_elem_of_filter; naive_solver|]. split; [apply length_filter|].
  intros x Hx. split; apply apply_writes_out; rewrite copy_writes_fst, Esnd;
    intros ([t b] & -> & Hb)%list_elem_of_fmap; apply Hpre, entry_ok in Hb; simpl in Hx; lia.
Qed.
End loops.

Lemma write_log_runs s :
  trans_ok (lstart s) (lsize s) (lh s) (blk s) -> NoDup (dirty (blk s)) ->
  (forall b, b ∈ dirty (blk s) <-> b ∈ lh s) -> Z.of_nat (length (lh s)) < NBUF ->
  runs write_log s (fun _ s' => s' = set_blk (copies (to_log (lstart s) (lh s)) (blk s)) s).
Proof.
  intros Htr Hnd Hdirty Hnb. unfold write_log. rsteps.
  apply (runs_for_all (fun pre s' =>
    s' = set_blk (copies ((fun '(tail, b) => (b, lstart s + tail + 1)) <$> pre) (blk s)) s)).
  - intros pre [tail b] post s' E ->. destruct (entries_prefix _ _ _ _ Htr pre _ post E) as (Hin & Hni & Hsub).
    destruct (entry_ok _ _ _ _ Htr tail b Hin) as (Hb & Hout & Ht0 & Ht1).
    destruct (copies_to_log _ _ _ _ Htr pre Hsub) as (E1 & E2 & Hd1 & Hd2 & Hlen).
    set (s1 := copies _ _) in *. destruct Htr as [Ha Hl Hnl Hhome Hh].
    assert (Hll : length (dirty (blk s)) = length (lh s)).
    { apply Permutation_length, NoDup_Permutation; done. }
    assert (Hbl : b ∈ lh s).
    { apply elem_of_entries in Hin as (i & Hi & _). by eapply list_elem_of_lookup_2. }
    apply runs_zoom. cbn [blk set_blk]. eapply runs_conseq; [apply log_step_runs|].
    + lia.
    + by rewrite E2.
    + rewrite E1. lia.
    + by rewrite E1.
    + intros Hx%Hd1%Hdirty. rewrite Forall_forall in Hhome. specialize (Hhome _ Hx). lia.
    + apply Hd2; [by apply Hdirty|lia].
    + rewrite pinned_dirty by (by rewrite E2). lia.
    + intros [] s2 ->. rewrite fmap_app. unfold copies. rewrite foldl_app. done.
  - intros s' ->. done.
  - by destruct s.
Qed.

Lemma install_runs s :
  trans_ok (lstart s) (lsize s) (lh s) (blk s) ->
  (length (dirty (blk s)) < Z.to_nat NBUF)%nat ->
  (dirty (blk s) = [] \/ forall b, b ∈ lh s -> b ∈ dirty (blk s)) ->
  (forall x, lstart s <= x < lstart s + lsize s ->
     x ∉ dirty (blk s) /\ view (blk s) x = disk (blk s) x) ->
  runs install_trans s (fun _ s' => s' = set_blk (copies (from_log (lstart s) (lh s)) (blk s)) s).
Proof.
  intros Htr Hlen Hdirty Harea. unfold install_trans. rsteps.
  apply (runs_for_all (fun pre s' =>
    s' = set_blk (copies ((fun '(tail, b) => (lstart s + tail + 1, b)) <$> pre) (blk s)) s)).
  - intros pre [tail b] post s' E ->. destruct (entries_prefix _ _ _ _ Htr pre _ post E) as (Hin & Hni & Hsub).
    destruct (entry_ok _ _ _ _ Htr tail b Hin) as (Hb & Hout & Ht0 & Ht1).
    destruct (copies_from_log _ _ _ _ Htr pre Hsub) as (E1 & E2 & Hd & Hlen' & Hv).
    set (s1 := copies _ _) in *. destruct Htr as [Ha Hl Hnl Hhome Hh].
    destruct (Harea (lstart s + tail + 1)) as [Hnd Hcl]; [lia|].
    destruct (Hv (lstart s + tail + 1)) as [Ev Ed]; [lia|].
    assert (Hbp : b ∉ pre.*2).
    { intros ([t b'] & -> & Hb')%list_elem_of_fmap. simpl in *.
      apply elem_of_entries in Hin as (i & Hi & ->).
      pose proof (Hsub _ Hb') as (j & Hj & ->)%elem_of_entries.
      assert (i = j) as -> by (by eapply NoDup_lookup). done. }
    assert (Hbl : b ∈ lh s).
    { apply elem_of_entries in Hin as (i & Hi & _). by eapply list_elem_of_lookup_2. }
    apply runs_zoom. cbn [blk set_blk]. eapply runs_conseq; [apply install_step_runs|].
    + lia.
    + by rewrite E2.
    + rewrite E1. lia.
    + by rewrite E1.
    + rewrite Hd. naive_solver.
    + by rewrite Ev, Ed.
    + rewrite pinned_dirty by (by rewrite E2). unfold NBUF in *.
      destruct Hdirty as [Hemp|Hdirty].
      * left. rewrite Hemp in Hlen'. simpl in Hlen'. lia.
      * right. split; [apply Hd; auto|lia].
    + intros [] s2 ->. rewrite fmap_app. unfold copies. rewrite foldl_app. done.
  - intros s' ->. done.
  - by destruct s.
Qed.

(** ** The sequence of writes of a commit and of a recovery *)

(** Copying the log blocks home, from disk [D]. *)
Definition home_writes (st : Z) (l : list Z) (D : Z -> block) : list (Z * block) :=
  (fun '(tail, b) => (b, D (st + tail + 1))) <$> entries l.
(** Copying the cached blocks into the log. *)
Definition log_writes (st : Z) (l : list Z) (v : Z -> block) : list (Z * block) :=
  (fun '(tail, b) => (st + tail + 1, v b)) <$> entries l.

Lemma home_writes_fst st l D : (home_writes st l D).*1 = l.
Proof.
  unfold home_writes. rewrite <- list_fmap_compose. rewrite <- (entries_snd l) at 2.
  apply list_fmap_ext. by intros i [].
Qed.

Lemma log_writes_fst st l v x : x ∈ (log_writes st l v).*1 -> st < x <= st + Z.of_nat (length l).
Proof.
  unfold log_writes. rewrite <- list_fmap_compose. intros ([t b] & -> & H)%list_elem_of_fmap.
  apply elem_of_entries in H as (i & Hi & ->). simpl. pose proof (lookup_lt_Some _ _ _ Hi). lia.
Qed.

Lemma log_writes_nodup st l v : NoDup (log_writes st l v).*1.
Proof.
  assert (E : (log_writes st l v).*1 = (fun t => st + t + 1) <$> seqZ 0 (Z.of_nat (length l))).
  { rewrite <- entries_fst. unfold log_writes. rewrite <- !list_fmap_compose.
    apply list_fmap_ext. by intros i []. }
  rewrite E. apply NoDup_fmap_2; [intros x y; lia|apply NoDup_seqZ].
Qed.

Lemma log_block_written st l v D i b : l !! i = Some b ->
  apply_writes (log_writes st l v) D (st + Z.of_nat i + 1) = v b.
Proof.
  intros Hi. apply apply_writes_in; [apply log_writes_nodup|].
  apply (list_elem_of_fmap_2 (fun '(tail, b) => (st + tail + 1, v b)) _ (Z.of_nat i, b)), elem_of_entries.
  by exists i.
Qed.

(** ** Crash points *)
Section crash.
Context (st sz dsz : Z).
Notation outside b := (b < st \/ st + sz <= b).

Lemma find_home (l : list Z) b :
  match list_find (fun x => x = b) l with
  | Some (i, x) => l !! i = Some b
  | None => b ∉ l
  end.
Proof.
  destruct (list_find (fun x => x = b) l) as [[i x]|] eqn:E.
  - by apply list_find_Some in E as (? & -> & _).
  - apply list_find_None in E. rewrite Forall_forall in E. intros H. by apply (E b H).
Qed.

(** While the header lists [l], installing some of the blocks changes the
    content of no block; nor does erasing the header after all of them. *)
Lemma install_logical D l e pre post :
  decode (D st) = l -> NoDup l -> Forall (fun b => outside b) l ->
  Z.of_nat (length l) <= sz - 1 -> decode e = [] ->
  home_writes st l D ++ [(st, e)] = pre ++ post ->
  (forall b, outside b -> logical st (apply_writes pre D) b = logical st D b) /\
  (apply_writes pre D st = D st \/ apply_writes pre D st = e).
Proof.
  intros El Hnd Hout Hlen He Epre. rewrite Forall_forall in Hout.
  assert (Hcase : (exists post', home_writes st l D = pre ++ post') \/
                  pre = home_writes st l D ++ [(st, e)]).
  { destruct post as [|p post _] using rev_ind; [right; by rewrite app_nil_r in Epre|left].
    rewrite app_assoc in Epre. apply app_inj_tail in Epre as [Epre _]. eauto. }
  destruct Hcase as [[post' Eh]|Epr].
  - assert (Hpre : forall x, x ∈ pre.*1 -> x ∈ l).
    { intros x Hx. rewrite <- (home_writes_fst st l D), Eh, fmap_app. apply elem_of_app. by left. }
    assert (Hin : forall x, st <= x < st + sz -> apply_writes pre D x = D x).
    { intros x Hx. apply apply_writes_out. intros Hx'%Hpre%Hout. lia. }
    split; [|left; apply Hin; lia].
    intros b Hb. unfold logical. rewrite Hin, El by lia. pose proof (find_home l b) as Hf.
    destruct (list_find _ l) as [[i x]|].
    + apply Hin. pose proof (lookup_lt_Some _ _ _ Hf). lia.
    + apply apply_writes_out. auto.
  - assert (Est : apply_writes pre D st = e).
    { rewrite Epr, apply_writes_snoc. apply set_block_same. }
    split; [|by right].
    intros b Hb. unfold logical at 1. rewrite Est, He. simpl.
    rewrite Epr, apply_writes_snoc. rewrite set_block_other by lia.
    unfold logical. rewrite El. pose proof (find_home l b) as Hf.
    destruct (list_find _ l) as [[i x]|].
    + apply apply_writes_in; [by rewrite home_writes_fst|].
      apply (list_elem_of_fmap_2 (fun '(tail, b) => (b, D (st + tail + 1))) _ (Z.of_nat i, b)).
      apply elem_of_entries. by exists i.
    + apply apply_writes_out. by rewrite home_writes_fst.
Qed.

(** Until the header is written, the log blocks do not matter. *)
Lemma log_logical D l v pre post :
  decode (D st) = [] -> Z.of_nat (length l) <= sz - 1 ->
  log_writes st l v = pre ++ post ->
  (forall b, outside b -> logical st (apply_writes pre D) b = D b) /\
  apply_writes pre D st = D st.
Proof.
  intros He Hlen Epre.
  assert (Hpre : forall x, x ∈ pre.*1 -> st < x < st + sz).
  { intros x Hx. assert (Hx' : x ∈ (log_writes st l v).*1) by (rewrite Epre, fmap_app; apply elem_of_app; by left).
    apply log_writes_fst in Hx'. lia. }
  assert (Est : apply_writes pre D st = D st) by (apply apply_writes_out; intros H%Hpre; lia).
  split; [|done]. intros b Hb. unfold logical. rewrite Est, He. simpl.
  apply apply_writes_out. intros H%Hpre. lia.
Qed.

(** Writing the header switches every block of the transaction at once. *)
Lemma header_logical D l v e b :
  decode e = l -> Z.of_nat (length l) <= sz - 1 -> outside b ->
  logical st (set_block st e (apply_writes (log_writes st l v) D)) b =
  if decide (b ∈ l) then v b else D b.
Proof.
  intros He Hlen Hb. unfold logical. rewrite set_block_same, He. pose proof (find_home l b) as Hf.
  destruct (list_find _ l) as [[i x]|].
  - rewrite decide_True by (by eapply list_elem_of_lookup_2).
    rewrite set_block_other by lia. by apply log_block_written.
  - rewrite decide_False, set_block_other by (done || lia).
    apply apply_writes_out. intros H%log_writes_fst. lia.
Qed.
End crash.

(** ** Recovery *)

(** The state of log.c at boot, from disk [D], once initlog has read the
    superblock. *)
Definition fresh (st sz dsz : Z) (D : Z -> block) : logged :=
  mklogged (mkblocks dsz D D [] [] []) st sz 0 false [].

Record disk_ok (st sz dsz : Z) (D : Z -> block) : Prop := {
  do_area : 0 <= st /\ 1 <= sz /\ st + sz <= dsz < 4294967296;
  do_blocks : forall b, block_ok (D b);
  do_header : header_ok st sz dsz (D st) }.

Lemma length_decode d : 0 <= header_n d -> Z.of_nat (length (decode d)) = header_n d.
Proof. intros. unfold decode. rewrite length_fmap, length_seqZ. lia. Qed.

Lemma decode_nil d : block_ok d -> decode (encode [] d) = [] /\ block_ok (encode [] d) /\ header_n (encode [] d) = 0.
Proof.
  intros Hd. destruct (decode_encode [] d Hd) as [En Ed]; [constructor|done|].
  split; [done|]. split; [by apply encode_ok|done].
Qed.

Lemma header_trans st sz dsz D : disk_ok st sz dsz D ->
  trans_ok st sz (decode (D st)) (mkblocks dsz D D [] [] []).
Proof.
  intros [Ha Hb [H1 H2 H3 H4]]. constructor; simpl; [lia|rewrite length_decode; lia|done|done|done].
Qed.

(** install_trans; log.lh.n = 0; write_head(), on a cache with nothing locked. *)
Lemma finish_runs s :
  trans_ok (lstart s) (lsize s) (lh s) (blk s) -> block_ok (view (blk s) (lstart s)) ->
  (length (dirty (blk s)) < Z.to_nat NBUF)%nat -> 1 <= lsize s ->
  (dirty (blk s) = [] \/ forall b, b ∈ lh s -> b ∈ dirty (blk s)) ->
  (forall x, lstart s <= x < lstart s + lsize s ->
     x ∉ dirty (blk s) /\ view (blk s) x = disk (blk s) x) ->
  runs (install_trans ;;; modify (set_lh []) ;;; write_head) s (fun _ s' => exists e,
    decode e = [] /\ header_n e = 0 /\ block_ok e /\ lh s' = [] /\
    s' = set_lh [] (set_blk (blk s') s) /\ bheld (blk s') = [] /\
    disksize (blk s') = disksize (blk s) /\
    (forall b, b ∈ dirty (blk s') -> b ∈ dirty (blk s) /\ b ∉ lh s) /\
    writes (blk s') = writes (blk s) ++ home_writes (lstart s) (lh s) (disk (blk s)) ++ [(lstart s, e)] /\
    disk (blk s') = apply_writes (home_writes (lstart s) (lh s) (disk (blk s)) ++ [(lstart s, e)]) (disk (blk s)) /\
    view (blk s') = apply_writes (home_writes (lstart s) (lh s) (disk (blk s)) ++ [(lstart s, e)]) (view (blk s))).
Proof.
  intros Htr Hbo Hlen Hsz Hdirty Harea. rcall install_runs; [done|done|done|done|].
  intros [] s1 ->. rsteps.
  destruct (copies_from_log _ _ _ _ Htr (entries (lh s))) as (E1 & E2 & Hd & Hlen' & Hv); [done|].
  fold (from_log (lstart s) (lh s)) in *.
  destruct (copies_spec (from_log (lstart s) (lh s)) (blk s)) as (_ & _ & E3 & E4 & E5 & E6).
  { rewrite from_log_snd. intros x Hx%from_log_fst Hx'. destruct Htr as [Ha Hl _ Hh _].
    rewrite Forall_forall in Hh. specialize (Hh x Hx'). lia. }
  assert (Ew : copy_writes (from_log (lstart s) (lh s)) (blk s) =
               home_writes (lstart s) (lh s) (disk (blk s))).
  { unfold copy_writes, from_log, home_writes. rewrite <- list_fmap_compose. apply list_fmap_ext.
    intros i [t b] Hi. simpl. f_equal. apply Harea.
    apply list_elem_of_lookup_2, (entry_ok _ _ _ _ Htr) in Hi. lia. }
  rewrite Ew in *. set (b1 := copies _ _) in *. destruct Htr as [Ha Hl Hnd Hh Hhd].
  assert (Evs : view b1 (lstart s) = view (blk s) (lstart s)) by (apply Hv; lia).
  eapply runs_conseq; [apply write_head_runs; simpl|].
  - by rewrite E2.
  - rewrite E1. lia.
  - right. rewrite pinned_dirty by (by rewrite E2). unfold NBUF in *. lia.
  - intros [] s2 ->. destruct (decode_nil (view b1 (lstart s))) as (He & Heo & Hen); [by rewrite Evs|].
    exists (encode [] (view b1 (lstart s))). simpl. rewrite E1, E2, E5, <- app_assoc.
    split_and!; try done.
    + intros b [_ Hb]%list_elem_of_filter. apply Hd in Hb. by rewrite entries_snd in Hb.
    + by rewrite E3, apply_writes_app.
    + by rewrite E4, apply_writes_app.
Qed.

Lemma read_head_runs st sz dsz D : disk_ok st sz dsz D ->
  runs read_head (fresh st sz dsz D) (fun _ s' => s' = set_lh (decode (D st)) (fresh st sz dsz D)).
Proof.
  intros [Ha Hb [H1 H2 H3 H4]]. unfold read_head. rsteps. apply runs_zoom.
  reqn bread_eq; [apply not_elem_of_nil|simpl; lia|right; done|].
  apply runs_bind, runs_zoom. reqn bdata_eq; [simpl; by left|]. simpl.
  destruct (Z.leb_spec (header_n (D st)) LOGSIZE); [|lia]. rsteps. apply runs_zoom.
  reqn brelse_eq; [simpl; by left|by right|]. simpl.
  unfold b_held, set_lh, set_blk, fresh. simpl. by rewrite (filter_head st []) by apply not_elem_of_nil.
Qed.

Lemma recover_runs st sz dsz D : disk_ok st sz dsz D ->
  runs recover_from_log (fresh st sz dsz D) (fun _ s' => exists e,
    decode e = [] /\ header_n e = 0 /\ block_ok e /\
    writes (blk s') = home_writes st (decode (D st)) D ++ [(st, e)] /\
    disk (blk s') = apply_writes (home_writes st (decode (D st)) D ++ [(st, e)]) D).
Proof.
  intros HD. unfold recover_from_log. rcall read_head_runs; [done|]. intros [] s1 ->.
  eapply runs_conseq; [apply finish_runs; simpl|].
  - by apply header_trans.
  - apply HD.
  - unfold NBUF. lia.
  - destruct HD. lia.
  - by left.
  - intros x Hx. split; [apply not_elem_of_nil|done].
  - intros [] s' (e & He & Hn & Ho & _ & _ & _ & _ & _ & Hw & Hd & _). exists e. done.
Qed.

(** A disk in the middle of an install is still well-formed. *)
Lemma writes_disk_ok st sz dsz D ws :
  disk_ok st sz dsz D -> Forall (fun p => block_ok p.2) ws ->
  (apply_writes ws D st = D st \/ header_ok st sz dsz (apply_writes ws D st)) ->
  disk_ok st sz dsz (apply_writes ws D).
Proof.
  intros [Ha Hb Hh] Hws Hst. constructor; [done| |by destruct Hst as [->|]].
  clear Hst Hh. revert D Hb. induction Hws as [|[b v] ws Hv _ IH]; intros D Hb; [done|].
  apply IH. intros x. unfold set_block. by destruct (x =? b).
Qed.

Lemma home_writes_ok st l D : (forall b, block_ok (D b)) ->
  Forall (fun p => block_ok p.2) (home_writes st l D).
Proof.
  intros Hb. apply Forall_forall. intros p ([t b] & -> & _)%list_elem_of_fmap. apply Hb.
Qed.

Lemma empty_header_ok st sz dsz e : 1 <= sz -> block_ok e -> decode e = [] -> header_n e = 0 ->
  header_ok st sz dsz e.
Proof.
  intros Hsz Ho He Hn. constructor; [done|rewrite Hn; unfold LOGSIZE, MAXOPBLOCKS; lia|rewrite He; constructor..].
Qed.

(** Some recoveries cut short by a crash, then one that runs to its end. *)
Inductive recovered (st sz dsz : Z) : (Z -> block) -> (Z -> block) -> Prop :=
| recovered_done D s' :
    recover_from_log (fresh st sz dsz D) = Ret tt s' -> recovered st sz dsz D (disk (blk s'))
| recovered_crash D s' pre post D' :
    recover_from_log (fresh st sz dsz D) = Ret tt s' -> writes (blk s') = pre ++ post ->
    recovered st sz dsz (apply_writes pre D) D' -> recovered st sz dsz D D'.

(** A crash at any point of a recovery changes nothing. *)
Lemma recover_crash st sz dsz D s' pre post :
  disk_ok st sz dsz D -> recover_from_log (fresh st sz dsz D) = Ret tt s' ->
  writes (blk s') = pre ++ post ->
  disk_ok st sz dsz (apply_writes pre D) /\
  (forall b, b < st \/ st + sz <= b -> logical st (apply_writes pre D) b = logical st D b).
Proof.
  intros HD E Epre. pose proof HD as [Ha Hb [H1 H2 H3 H4]].
  destruct (runs_elim _ _ _ _ _ (recover_runs _ _ _ _ HD) E) as (e & He & Hn & Ho & Hw & _).
  rewrite Hw in Epre.
  destruct (install_logical st sz D (decode (D st)) e pre post) as [Hlog Hst]; try done.
  { eapply Forall_impl; [done|]. simpl. intros b [_ ?]. done. }
  { rewrite length_decode; lia. }
  split; [|done]. apply writes_disk_ok; [done| |].
  - assert (Hall : Forall (fun p : Z * block => block_ok p.2) (home_writes st (decode (D st)) D ++ [(st, e)])).
    { apply Forall_app. split; [by apply home_writes_ok|by apply Forall_singleton]. }
    rewrite Epre in Hall. by apply Forall_app in Hall as [? _].
  - destruct Hst as [->| ->]; [by left|right]. apply empty_header_ok; [lia|done..].
Qed.

Lemma recovered_logical st sz dsz D D' : recovered st sz dsz D D' -> disk_ok st sz dsz D ->
  forall b, b < st \/ st + sz <= b -> D' b = logical st D b.
Proof.
  induction 1 as [D s' E|D s' pre post D' E Epre _ IH]; intros HD b Hb.
  - pose proof HD as [Ha Hbl [H1 H2 H3 H4]].
    destruct (runs_elim _ _ _ _ _ (recover_runs _ _ _ _ HD) E) as (e & He & Hn & Ho & _ & Hd).
    destruct (install_logical st sz D (decode (D st)) e (home_writes st (decode (D st)) D ++ [(st, e)]) [])
      as [Hlog _]; [done|done| |rewrite length_decode; lia|done|by rewrite app_nil_r|].
    { eapply Forall_impl; [done|]. simpl. intros x [_ ?]. done. }
    rewrite <- Hlog by done. rewrite Hd. unfold logical.
    rewrite apply_writes_snoc, set_block_same, He. done.
  - destruct (recover_crash _ _ _ _ _ _ _ HD E Epre) as [HD' Hl].
    rewrite IH by done. by apply Hl.
Qed.

(** ** Commit *)

(** The state in which end_op commits: nothing locked, exactly the blocks of
    the transaction dirty, the header on disk empty. *)
Record commit_ready (s : logged) : Prop := {
  cr_trans : trans_ok (lstart s) (lsize s) (lh s) (blk s);
  cr_blocks : blocks_ok (blk s);
  cr_dirty : forall b, b ∈ dirty (blk s) <-> b ∈ lh s;
  cr_len : 1 <= lsize s /\ Z.of_nat (length (lh s)) < NBUF;
  cr_empty : decode (disk (blk s) (lstart s)) = [] /\ header_n (disk (blk s) (lstart s)) = 0 }.

Lemma ready_area s x : commit_ready s -> lstart s <= x < lstart s + lsize s ->
  x ∉ dirty (blk s) /\ view (blk s) x = disk (blk s) x.
Proof.
  intros [Htr Hbo Hd _ _] Hx.
  assert (Hn : x ∉ dirty (blk s)).
  { rewrite Hd. intros Hin. destruct Htr as [_ _ _ Hh _]. rewrite Forall_forall in Hh.
    specialize (Hh x Hin). lia. }
  split; [done|]. apply Hbo; [done|]. rewrite (tr_held _ _ _ _ Htr). apply not_elem_of_nil.
Qed.

(** The disk after the header of the transaction has been written. *)
Definition committed (s : logged) (e : block) : Z -> block :=
  set_block (lstart s) e (apply_writes (log_writes (lstart s) (lh s) (view (blk s))) (disk (blk s))).

(** write_log(); write_head(): the transaction is on disk, in the log. *)
Lemma write_trans_runs s : commit_ready s ->
  runs (write_log ;;; write_head) s (fun _ s' => exists e1,
    decode e1 = lh s /\ header_n e1 = Z.of_nat (length (lh s)) /\ block_ok e1 /\
    s' = set_blk (blk s') s /\ bheld (blk s') = [] /\ disksize (blk s') = disksize (blk s) /\
    (forall b, b ∈ dirty (blk s') <-> b ∈ lh s) /\
    (length (dirty (blk s')) <= length (lh s))%nat /\
    writes (blk s') = writes (blk s) ++
      log_writes (lstart s) (lh s) (view (blk s)) ++ [(lstart s, e1)] /\
    disk (blk s') = committed s e1 /\
    view (blk s') = set_block (lstart s) e1
      (apply_writes (log_writes (lstart s) (lh s) (view (blk s))) (view (blk s)))).
Proof.
  intros Hr. pose proof Hr as [Htr Hbo Hdl Hlen _].
  rcall write_log_runs; [done|apply Hbo|done|lia|]. intros [] s1 ->.
  destruct (copies_to_log _ _ _ _ Htr (entries (lh s))) as (E1 & E2 & Hd1 & Hd2 & Hdl'); [done|].
  fold (to_log (lstart s) (lh s)) in *.
  assert (Hhome := tr_home _ _ _ _ Htr). rewrite Forall_forall in Hhome.
  destruct (copies_spec (to_log (lstart s) (lh s)) (blk s)) as (_ & _ & E3 & E4 & E5 & _).
  { rewrite to_log_fst, to_log_snd. intros x Hx%Hhome Hx'%from_log_fst.
    pose proof (tr_len _ _ _ _ Htr). lia. }
  assert (Ew : copy_writes (to_log (lstart s) (lh s)) (blk s) = log_writes (lstart s) (lh s) (view (blk s))).
  { unfold copy_writes, to_log, log_writes. rewrite <- list_fmap_compose. apply list_fmap_ext.
    by intros i [t b] Hi. }
  rewrite Ew in *. set (b1 := copies _ _) in *.
  assert (Hll : length (dirty (blk s)) = length (lh s)).
  { apply Permutation_length, NoDup_Permutation; [apply Hbo|apply Htr|done]. }
  assert (Evs : view b1 (lstart s) = view (blk s) (lstart s)).
  { rewrite E4. apply apply_writes_out. intros H%log_writes_fst. lia. }
  pose proof (tr_area _ _ _ _ Htr) as Ha. pose proof (tr_held _ _ _ _ Htr) as Hh.
  assert (Hst : lstart s ∉ dirty b1) by (intros H%Hd1; by apply (ready_area s (lstart s) Hr); [lia|]).
  eapply runs_conseq; [apply write_head_runs; simpl|].
  - by rewrite E2.
  - rewrite E1. lia.
  - right. rewrite pinned_dirty by (by rewrite E2). unfold NBUF in *. lia.
  - intros [] s2 ->. simpl. rewrite Evs.
    destruct (decode_encode (lh s) (view (blk s) (lstart s))) as [Hn1 He1];
      [apply Hbo| |unfold NBUF, LOGSIZE, MAXOPBLOCKS in *; lia|].
    { apply Forall_forall. intros b Hb. specialize (Hhome b Hb). lia. }
    exists (encode (lh s) (view (blk s) (lstart s))).
    rewrite filter_out, E1, E2, E3, E4, E5 by done. split_and!; try done.
    + apply encode_ok, Hbo.
    + intros b. split; [intros H%Hd1; by apply Hdl|]. intros Hb. apply Hd2; [by apply Hdl|].
      specialize (Hhome b Hb). lia.
    + lia.
    + by rewrite <- app_assoc.
Qed.

(** In the committed disk the log block of the [i]th entry is its new content. *)
Lemma committed_log s e i b : lh s !! i = Some b ->
  committed s e (lstart s + Z.of_nat i + 1) = view (blk s) b.
Proof. intros Hi. unfold committed. rewrite set_block_other by lia. by apply log_block_written. Qed.

Lemma home_writes_view s e b : commit_ready s ->
  b < lstart s \/ lstart s + lsize s <= b ->
  apply_writes (home_writes (lstart s) (lh s) (committed s e))
    (set_block (lstart s) e (apply_writes (log_writes (lstart s) (lh s) (view (blk s))) (view (blk s)))) b =
  view (blk s) b.
Proof.
  intros [Htr _ _ Hlen _] Hb. pose proof (tr_len _ _ _ _ Htr).
  destruct (decide (b ∈ lh s)) as [Hin|Hin].
  - apply list_elem_of_lookup in Hin as [i Hi].
    apply apply_writes_in; [rewrite home_writes_fst; apply Htr|].
    rewrite <- (committed_log s e i b Hi).
    apply (list_elem_of_fmap_2 (fun '(tail, b) => (b, committed s e (lstart s + tail + 1))) _ (Z.of_nat i, b)).
    apply elem_of_entries. by exists i.
  - rewrite apply_writes_out by (by rewrite home_writes_fst).
    rewrite set_block_other by lia. apply apply_writes_out. intros H'%log_writes_fst. lia.
Qed.

Lemma commit_runs s : commit_ready s -> lh s <> [] ->
  runs commit s (fun _ s' => exists e1 e0,
    decode e1 = lh s /\ header_n e1 = Z.of_nat (length (lh s)) /\ block_ok e1 /\
    decode e0 = [] /\ header_n e0 = 0 /\ block_ok e0 /\
    lh s' = [] /\ s' = set_lh [] (set_blk (blk s') s) /\ bheld (blk s') = [] /\ dirty (blk s') = [] /\
    writes (blk s') = writes (blk s) ++
      log_writes (lstart s) (lh s) (view (blk s)) ++ (lstart s, e1) ::
      home_writes (lstart s) (lh s) (committed s e1) ++ [(lstart s, e0)] /\
    disk (blk s') = apply_writes (home_writes (lstart s) (lh s) (committed s e1) ++ [(lstart s, e0)])
                      (committed s e1) /\
    (forall b, b < lstart s \/ lstart s + lsize s <= b -> view (blk s') b = view (blk s) b)).
Proof.
  intros Hr Hne. pose proof Hr as [Htr Hbo Hdl Hlen Hemp]. unfold commit. apply runs_bind, runs_gets.
  assert (En : exists n, length (lh s) = S n) by (destruct (lh s); [done|by eexists]).
  destruct En as [n En]. rewrite En. cbv iota. rewrite <- En. clear n En Hne.
  destruct (write_trans_runs s Hr) as ([] & s1 & E & e1 & He1 & Hn1 & Ho1 & Es1 & Hh1 & Hs1 & Hd1 & Hl1 & Hw1 & Hk1 & Hv1).
  destruct (finish_runs s1) as ([] & s2 & E2 & e0 & He0 & Hn0 & Ho0 & Hlh & Es2 & Hh2 & _ & Hd2 & Hw2 & Hk2 & Hv2).
  - rewrite Es1. simpl. destruct Htr. constructor; rewrite ?Hs1; done.
  - rewrite Hv1, Es1. simpl. by rewrite set_block_same.
  - unfold NBUF in *. lia.
  - rewrite Es1. simpl. lia.
  - right. intros b Hb. apply Hd1. by rewrite Es1 in Hb.
  - rewrite Es1. simpl. intros x Hx. split; [rewrite Hd1, <- Hdl; by apply ready_area|].
    rewrite Hv1, Hk1. unfold committed, set_block. destruct (x =? lstart s); [done|].
    destruct (decide (x ∈ (log_writes (lstart s) (lh s) (view (blk s))).*1)) as [Hin|Hin].
    + apply list_elem_of_fmap in Hin as ([y v] & -> & Hin). simpl.
      by rewrite !(apply_writes_in _ _ _ v) by (apply log_writes_nodup || done).
    + rewrite !apply_writes_out by done. by apply ready_area.
  - exists tt, s2. split.
    { revert E E2. unfold bind, modify. destruct (write_log s) as [[] t| | | |]; try done. by intros -> ->. }
    exists e1, e0. rewrite Es1 in Es2, Hd2, Hw2, Hk2, Hv2. simpl in *.
    rewrite Hw1, Hk1 in Hw2. rewrite Hk1 in Hk2. rewrite Hk1, Hv1 in Hv2.
    split_and!; try done.
    + destruct (dirty (blk s2)) as [|b0 ?]; [done|]. destruct (Hd2 b0) as [H1 H2]; [by left|].
      by apply Hd1 in H1.
    + rewrite Hw2, <- !app_assoc. done.
    + intros b Hb. rewrite Hv2, apply_writes_app. simpl. rewrite set_block_other by lia.
      by apply home_writes_view.
Qed.

(** Every crash point of a commit leaves a disk that recovers to the old or
    to the new contents, depending on whether the header was written. *)
Lemma commit_crash s e1 e0 pre post :
  commit_ready s -> decode e1 = lh s -> header_n e1 = Z.of_nat (length (lh s)) -> block_ok e1 ->
  decode e0 = [] -> header_n e0 = 0 -> block_ok e0 ->
  log_writes (lstart s) (lh s) (view (blk s)) ++ (lstart s, e1) ::
    home_writes (lstart s) (lh s) (committed s e1) ++ [(lstart s, e0)] = pre ++ post ->
  disk_ok (lstart s) (lsize s) (disksize (blk s)) (apply_writes pre (disk (blk s))) /\
  forall b, b < lstart s \/ lstart s + lsize s <= b ->
    logical (lstart s) (apply_writes pre (disk (blk s))) b =
    if decide (length pre <= length (lh s))%nat then disk (blk s) b else view (blk s) b.
Proof.
  intros Hr He1 Hn1 Ho1 He0 Hn0 Ho0 Epre. pose proof Hr as [Htr Hbo Hdl Hlen [Hem Hn]].
  pose proof (tr_area _ _ _ _ Htr) as Ha. pose proof (tr_len _ _ _ _ Htr) as Hl.
  set (st := lstart s) in *. set (sz := lsize s) in *. set (D := disk (blk s)) in *.
  set (W := log_writes st (lh s) (view (blk s))) in *.
  assert (HD : disk_ok st sz (disksize (blk s)) D).
  { constructor; [lia|apply Hbo|]. apply empty_header_ok; [lia|apply Hbo|done|done]. }
  assert (HW : Forall (fun p : Z * block => block_ok p.2) W).
  { apply Forall_forall. intros p ([t b] & -> & _)%list_elem_of_fmap. apply Hbo. }
  assert (HlW : length W = length (lh s)).
  { unfold W, log_writes. rewrite length_fmap, <- (length_fmap snd), entries_snd. done. }
  apply app_eq_inv in Epre as [(k & EW & _)|(k & -> & Ek)].
  - (* before the header *)
    destruct (log_logical st sz D (lh s) (view (blk s)) pre k) as [Hlog Est]; [done|done|done|].
    rewrite EW in HW, HlW. apply Forall_app in HW as [HW _]. split; [by apply writes_disk_ok; [| |left]|].
    intros b Hb. rewrite decide_True by (rewrite length_app in HlW; lia). auto.
  - destruct k as [|p k].
    { (* exactly the log blocks *)
      rewrite app_nil_r. destruct (log_logical st sz D (lh s) (view (blk s)) W []) as [Hlog Est];
        [done|done|by rewrite app_nil_r|].
      split; [by apply writes_disk_ok; [| |left]|]. intros b Hb. rewrite decide_True by lia. auto. }
    (* the header and some of the installs *)
    simpl in Ek. injection Ek as <- Ek.
    assert (Ec : apply_writes (W ++ (st, e1) :: k) D = apply_writes k (committed s e1)).
    { rewrite apply_writes_app. done. }
    assert (HC : disk_ok st sz (disksize (blk s)) (committed s e1)).
    { apply (writes_disk_ok _ _ _ D (W ++ [(st, e1)])) in HD as HD'.
      - by rewrite apply_writes_app in HD'.
      - apply Forall_app. split; [done|by apply Forall_singleton].
      - right. rewrite apply_writes_app. simpl. rewrite set_block_same.
        constructor; [done|rewrite Hn1; unfold NBUF, LOGSIZE, MAXOPBLOCKS in *; lia|rewrite He1; apply Htr..]. }
    destruct (install_logical st sz (committed s e1) (lh s) e0 k post) as [Hlog Hst]; try done.
    { unfold committed. rewrite set_block_same. done. }
    { apply Htr. }
    { eapply Forall_impl; [apply Htr|]. simpl. tauto. }
    rewrite Ec. split.
    + apply writes_disk_ok; [done| |].
      * assert (Hall : Forall (fun p : Z * block => block_ok p.2)
                  (home_writes st (lh s) (committed s e1) ++ [(st, e0)])).
        { apply Forall_app. split; [apply home_writes_ok, HC|by apply Forall_singleton]. }
        rewrite Ek in Hall. by apply Forall_app in Hall as [? _].
      * destruct Hst as [->| ->]; [by left|right]. apply empty_header_ok; [lia|done..].
    + intros b Hb. rewrite Hlog by done. rewrite decide_False by (rewrite length_app; simpl; lia).
      unfold committed. rewrite (header_logical st sz) by done.
      case_decide as Hin; [done|]. symmetry. apply Hbo; [by rewrite Hdl|].
      rewrite (tr_held _ _ _ _ Htr). apply not_elem_of_nil.
Qed.

(** ** Theorems *)

(** C10. A transaction is atomic across crashes.  [commit] runs to its end and
    leaves the contents of every block outside the log as the cache has them,
    with an empty log.  And wherever it is cut off, whatever prefix of its
    disk writes has reached the disk: every recovery from that disk, after any
    number of recoveries that crashed themselves, ends with every block
    outside the log as before the transaction if the header had not been
    written, and as after it if it had.  Never a mixture. *)
Theorem commit_atomic s : commit_ready s ->
  runs commit s (fun _ s' =>
    lh s' = [] /\ dirty (blk s') = [] /\
    (forall b, b < lstart s \/ lstart s + lsize s <= b ->
       disk (blk s') b = view (blk s) b /\ view (blk s') b = view (blk s) b) /\
    exists ws, writes (blk s') = writes (blk s) ++ ws /\
      forall pre post D', ws = pre ++ post ->
        recovered (lstart s) (lsize s) (disksize (blk s)) (apply_writes pre (disk (blk s))) D' ->
        forall b, b < lstart s \/ lstart s + lsize s <= b ->
          D' b = if decide (length pre <= length (lh s))%nat then disk (blk s) b else view (blk s) b).
Proof.
  intros Hr. pose proof Hr as [Htr Hbo Hdl Hlen [Hem Hn]].
  assert (Hcl : lh s = [] -> dirty (blk s) = [] /\ forall b, view (blk s) b = disk (blk s) b).
  { intros E. assert (Ed : dirty (blk s) = []).
    { destruct (dirty (blk s)) as [|b ?] eqn:Ed; [done|]. exfalso.
      assert (Hin : b ∈ lh s) by (apply Hdl; by left). rewrite E in Hin. by apply not_elem_of_nil in Hin. }
    split; [done|]. intros b. apply Hbo; rewrite ?Ed, ?(tr_held _ _ _ _ Htr); apply not_elem_of_nil. }
  destruct (decide (lh s = [])) as [E|E].
  - destruct (Hcl E) as [Ed Ev]. unfold commit. apply runs_bind, runs_gets. rewrite E. apply runs_ret.
    split; [done|]. split; [done|]. split; [by intros b _; rewrite Ev|].
    exists []. rewrite app_nil_r. split; [done|]. intros pre post D' Epre Hrec b Hb.
    destruct pre; [|done]. cbn [apply_writes foldl] in Hrec. rewrite decide_True by (simpl; lia).
    rewrite (recovered_logical _ _ _ _ _ Hrec); [unfold logical; by rewrite Hem| |done].
    constructor; [pose proof (tr_area _ _ _ _ Htr); lia|apply Hbo|].
    apply empty_header_ok; [lia|apply Hbo|done|done].
  - eapply runs_conseq; [by apply commit_runs|].
    intros [] s' (e1 & e0 & He1 & Hn1 & Ho1 & He0 & Hn0 & Ho0 & Hl & _ & _ & Hd & Hw & Hk & Hv).
    split; [done|]. split; [done|]. split.
    + intros b Hb. split; [|by apply Hv].
      destruct (commit_crash s e1 e0 _ [] Hr He1 Hn1 Ho1 He0 Hn0 Ho0 (eq_sym (app_nil_r _))) as [_ Hlog].
      specialize (Hlog b Hb). rewrite apply_writes_app in Hlog. cbn [apply_writes foldl] in Hlog.
      fold (committed s e1) (apply_writes (home_writes (lstart s) (lh s) (committed s e1) ++ [(lstart s, e0)])
        (committed s e1)) in Hlog. rewrite <- Hk in Hlog. unfold logical in Hlog.
      assert (Est : disk (blk s') (lstart s) = e0) by (rewrite Hk, apply_writes_app; apply set_block_same).
      rewrite Est, He0, decide_False in Hlog; [done|]. rewrite length_app. unfold log_writes.
      rewrite length_fmap, <- (length_fmap snd), entries_snd. simpl. lia.
    + eexists. split; [exact Hw|]. intros pre post D' Epre Hrec b Hb.
      destruct (commit_crash s e1 e0 pre post Hr He1 Hn1 Ho1 He0 Hn0 Ho0 Epre) as [HD Hlog].
      rewrite (recovered_logical _ _ _ _ _ Hrec HD b Hb). by apply Hlog.
Qed.

(** The log as the kernel finds it at boot. *)
Definition boot_log (dsz : Z) (D : Z -> block) : logged := mklogged (mkblocks dsz D D [] [] []) 0 0 0 false [].

(** C21. Booting recovers: from any disk whose superblock places a log with a
    well-formed header, [initlog] reads the superblock, runs to its end
    without a panic, and leaves an empty log and, in every block outside the
    log area, the committed content of that block. *)
Theorem initlog_recovers dsz D :
  1 < dsz -> disk_ok (get32 (D 1) 16) (get32 (D 1) 12) dsz D ->
  runs initlog (boot_log dsz D) (fun _ s' =>
    lstart s' = get32 (D 1) 16 /\ lsize s' = get32 (D 1) 12 /\ lh s' = [] /\
    outstanding s' = 0 /\ bheld (blk s') = [] /\ dirty (blk s') = [] /\
    decode (disk (blk s') (lstart s')) = [] /\
    forall b, b < lstart s' \/ lstart s' + lsize s' <= b ->
      disk (blk s') b = logical (lstart s') D b /\ view (blk s') b = disk (blk s') b).
Proof.
  intros H1 HD. set (st := get32 (D 1) 16) in *. set (sz := get32 (D 1) 12) in *.
  unfold initlog. change (BSIZE <=? 4 + 4 * LOGSIZE) with false. cbv iota.
  apply runs_bind, runs_zoom. unfold readsb.
  reqn bread_eq; [apply not_elem_of_nil|simpl; lia|by right|].
  reqn bdata_eq; [by left|]. reqn brelse_eq; [by left|by right|]. simpl.
  rewrite (filter_head 1 []) by apply not_elem_of_nil. rsteps. unfold b_held, set_blk. simpl.
  fold st sz. fold (fresh st sz dsz D).
  unfold recover_from_log. rcall read_head_runs; [done|]. intros [] s1 ->.
  pose proof HD as [Ha Hb [Ho1 Hn1 Hnd Hhome]].
  eapply runs_conseq; [apply finish_runs; simpl|].
  - by apply header_trans.
  - done.
  - unfold NBUF. lia.
  - lia.
  - by left.
  - intros x Hx. split; [apply not_elem_of_nil|done].
  - intros [] s' (e & He & Hn & Ho & Hl & Es & Hh & Hs & Hd & Hw & Hk & Hv).
    cbn [fresh set_lh set_blk blk lh lstart lsize disk view dirty writes disksize] in *.
    assert (Est : lstart s' = st) by (by rewrite Es).
    assert (Esz : lsize s' = sz) by (by rewrite Es).
    rewrite Est, Esz. split_and!; try done.
    + by rewrite Es.
    + destruct (dirty (blk s')) as [|b ?]; [done|]. destruct (Hd b) as [H _]; [by left|].
      by apply not_elem_of_nil in H.
    + by rewrite Hk, apply_writes_snoc, set_block_same.
    + intros b Hbo. rewrite Hv, Hk. split; [|done].
      destruct (install_logical st sz D (decode (D st)) e (home_writes st (decode (D st)) D ++ [(st, e)]) [])
        as [Hlog _]; [done|done| |rewrite length_decode; lia|done|by rewrite app_nil_r|].
      { eapply Forall_impl; [done|]. simpl. tauto. }
      rewrite <- Hlog by done. unfold logical.
      rewrite apply_writes_snoc, set_block_same, He. done.
Qed.

(** ** Two blocks of a transaction *)
Definition example_view : Z -> block :=
  set_block 100 (replicate 512 1) (set_block 200 (replicate 512 2) (fun _ => zero_block)).
Definition example_trans : logged :=
  mklogged (mkblocks 1000 (fun _ => zero_block) example_view [200; 100] [] []) 2 30 0 true [100; 200].

Lemma example_view_ok b : block_ok (example_view b).
Proof.
  unfold example_view, set_block.
  destruct (b =? 100); [|destruct (b =? 200); [|apply zero_block_ok]];
    (split; [done|]; apply Forall_replicate; unfold is_byte; lia).
Qed.

Lemma example_ready : commit_ready example_trans.
Proof.
  constructor; simpl.
  - constructor; simpl; [lia|lia|by apply (bool_decide_unpack _); vm_compute| |done].
    repeat constructor; lia.
  - constructor; simpl; [by apply (bool_decide_unpack _); vm_compute|constructor| | |].
    + intros b Hb _. unfold example_view. rewrite !set_block_other; [done|set_solver..].
    + apply example_view_ok.
    + intros _. apply zero_block_ok.
  - set_solver.
  - unfold NBUF. lia.
  - by vm_compute.
Qed.

(** Cut off after the header write, the transaction is there. *)
Lemma commit_atomic_witness :
  exists s', commit example_trans = Ret tt s' /\
    disk (blk s') 100 = replicate 512 1 /\ disk (blk s') 200 = replicate 512 2.
Proof.
  destruct (commit_atomic example_trans example_ready) as ([] & s' & E & _ & _ & Hd & _).
  exists s'. split; [exact E|]. split.
  - exact (proj1 (Hd 100 ltac:(right; simpl; lia))).
  - exact (proj1 (Hd 200 ltac:(right; simpl; lia))).
Defined.

(** A disk that crashed in the middle of an install of block 100. *)
Definition crashed_super : block := put32 12 30 (put32 16 2 zero_block).
Definition crashed_header : block := encode [100] zero_block.
Definition crashed_disk : Z -> block :=
  set_block 1 crashed_super (set_block 2 crashed_header (set_block 3 (replicate 512 5) (fun _ => zero_block))).

Lemma crashed_disk_ok : disk_ok 2 30 1000 crashed_disk.
Proof.
  constructor; [lia| |].
  - intros b. unfold crashed_disk, set_block.
    destruct (b =? 1); [apply put32_ok, put32_ok, zero_block_ok|].
    destruct (b =? 2); [apply encode_ok, zero_block_ok|].
    destruct (b =? 3); [|apply zero_block_ok].
    split; [done|]. apply Forall_replicate. unfold is_byte. lia.
  - change (crashed_disk 2) with crashed_header.
    destruct (decode_encode [100] zero_block) as [En Ed];
      [apply zero_block_ok|repeat constructor; lia|unfold LOGSIZE, MAXOPBLOCKS; simpl; lia|].
    unfold crashed_header.
    constructor; rewrite ?En, ?Ed; [apply encode_ok, zero_block_ok|unfold LOGSIZE, MAXOPBLOCKS; simpl; lia| |].
    + apply NoDup_singleton.
    + apply Forall_singleton. lia.
Qed.

Lemma initlog_recovers_witness :
  exists s', initlog (boot_log 1000 crashed_disk) = Ret tt s' /\
    disk (blk s') 100 = replicate 512 5.
Proof.
  destruct (initlog_recovers 1000 crashed_disk ltac:(lia) crashed_disk_ok)
    as ([] & s' & E & H1 & H2 & _ & _ & _ & _ & _ & H).
  exists s'. split; [exact E|]. rewrite H1, H2 in H.
  rewrite (proj1 (H 100 ltac:(right; vm_compute; congruence))). vm_compute. reflexivity.
Defined.
