(* ===== verification/LogSpace.v ===== *)
(** * Log space under concurrent system calls (log.c: begin_op, end_op, log_write)

    Several processes are inside file system operations at a time; [begin_op]
    admits one only if the log has room for MAXOPBLOCKS more blocks for it and
    for every operation already admitted.  The critical sections under
    [log.lock] are interleaved by [mstep].  An operation counts, as a ghost,
    the blocks it has added to the log.  The theorems say how many blocks an
    operation may write without ever reaching the panic of [log_write]: eight,
    with the log that mkfs lays out, and not the MAXOPBLOCKS of param.h. *)
From stdpp Require Import base numbers list relations sets.
From Stdlib Require Import ZArith Lia.
From S2P Require Import Prelude Monitor Log.
#[local] Open Scope Z_scope.

Record space := mkspace { sp_out : Z; sp_committing : bool; sp_lh : list Z; sp_size : Z }.

(** [k]: how many blocks the operation has added so far. *)
Inductive op := BeginOp | LogWrite (b k : Z) | EndOp (k : Z) | FinishCommit.
Inductive res := InOp (k : Z) | Ended | MustCommit | TooBig | OutsideTrans | CommittingPanic.

Definition space_begin (s : space) : section space op res :=
  if sp_committing s then mksection s [] (SleepOn chan_log BeginOp)
  else if LOGSIZE <? Z.of_nat (length (sp_lh s)) + (sp_out s + 1) * MAXOPBLOCKS
  then mksection s [] (SleepOn chan_log BeginOp)
  else mksection (mkspace (sp_out s + 1) false (sp_lh s) (sp_size s)) [] (Return (InOp 0)).

Definition space_log_write (b k : Z) (s : space) : section space op res :=
  let n := Z.of_nat (length (sp_lh s)) in
  if (LOGSIZE <=? n) || (sp_size s - 1 <=? n) then mksection s [] (Return TooBig)
  else if sp_out s <? 1 then mksection s [] (Return OutsideTrans)
  else if decide (b ∈ sp_lh s) then mksection s [] (Return (InOp k))
  else mksection (mkspace (sp_out s) (sp_committing s) (sp_lh s ++ [b]) (sp_size s)) []
         (Return (InOp (k + 1))).

(** The last operation commits after it has released the lock. *)
Definition space_end (s : space) : section space op res :=
  if sp_committing s
  then mksection (mkspace (sp_out s - 1) true (sp_lh s) (sp_size s)) [] (Return CommittingPanic)
  else if sp_out s - 1 =? 0
  then mksection (mkspace 0 true (sp_lh s) (sp_size s)) [] (Return MustCommit)
  else mksection (mkspace (sp_out s - 1) false (sp_lh s) (sp_size s)) [chan_log] (Return Ended).

(** [commit()] has emptied the log. *)
Definition space_finish (s : space) : section space op res :=
  mksection (mkspace (sp_out s) false [] (sp_size s)) [chan_log] (Return Ended).

Definition space_body (me : nat) (killed : bool) (o : op) (s : space) : section space op res :=
  match o with
  | BeginOp => space_begin s
  | LogWrite b k => space_log_write b k s
  | EndOp _ => space_end s
  | FinishCommit => space_finish s
  end.

Section budget.
Context (w : Z).

(** Operations add at most [w] blocks each; they call log_write and end_op
    only between begin_op and end_op. *)
Definition space_may (s : mstate space op res) (i : nat) (o : option res) (l : op) : Prop :=
  match o, l with
  | (None | Some Ended), BeginOp => True
  | Some (InOp k), LogWrite b k' => k' = k /\ (b ∈ sp_lh (shared s) \/ k < w)
  | Some (InOp k), EndOp k' => k' = k
  | Some MustCommit, FinishCommit => True
  | _, _ => False
  end.

(** The blocks an operation in progress may still add, and whether it counts
    in [log.outstanding]. *)
Definition left (p : phase op res) : Z :=
  match p with
  | Outside (Some (InOp k)) | Ready (LogWrite _ k) | Ready (EndOp k) => MAXOPBLOCKS - k
  | _ => 0
  end.
Definition active (p : phase op res) : Z :=
  match p with
  | Outside (Some (InOp _)) | Ready (LogWrite _ _) | Ready (EndOp _) => 1
  | _ => 0
  end.
Definition committer (p : phase op res) : Z :=
  match p with Outside (Some MustCommit) | Ready FinishCommit => 1 | _ => 0 end.
Definition total (f : phase op res -> Z) (ps : list (process op res)) : Z :=
  foldr (fun p n => f (ph p) + n) 0 ps.

(** What a process may be doing. *)
Definition proc_fine (sh : space) (p : process op res) : Prop :=
  match ph p with
  | Outside (Some (InOp k)) | Ready (EndOp k) => 0 <= k <= w
  | Ready (LogWrite b k) => 0 <= k <= w /\ (b ∈ sp_lh sh \/ k < w)
  | Outside (Some (TooBig | OutsideTrans | CommittingPanic)) => False
  | Asleep c l => c = chan_log /\ l = BeginOp
  | _ => True
  end.

Record space_inv (s : mstate space op res) : Prop := {
  sv_fine : Forall (proc_fine (shared s)) (procs s);
  sv_out : sp_out (shared s) = total active (procs s);
  sv_room : Z.of_nat (length (sp_lh (shared s))) + total left (procs s) <= LOGSIZE;
  sv_idle : sp_committing (shared s) = true -> total active (procs s) = 0;
  sv_commit : total committer (procs s) = Z.b2z (sp_committing (shared s)) }.
End budget.

(** ** Sums over the processes *)
Lemma total_insert f ps i p q : ps !! i = Some p -> total f (<[i := q]> ps) = total f ps - f (ph p) + f (ph q).
Proof.
  revert i. induction ps as [|x ps IH]; intros [|i] Hi; simplify_eq/=; [lia|].
  rewrite IH by done. lia.
Qed.

Lemma total_ext f (g : process op res -> process op res) ps :
  (forall p, p ∈ ps -> f (ph (g p)) = f (ph p)) -> total f (g <$> ps) = total f ps.
Proof.
  induction ps as [|x ps IH]; intros H; [done|].
  change (f (ph (g x)) + total f (g <$> ps) = f (ph x) + total f ps). rewrite H by (by left).
  rewrite IH; [done|]. intros p Hp. apply H. by right.
Qed.

Lemma total_nonneg f ps : (forall p, p ∈ ps -> 0 <= f (ph p)) -> 0 <= total f ps.
Proof.
  induction ps as [|x ps IH]; intros H; simpl; [lia|].
  pose proof (H x ltac:(by left)). pose proof (IH ltac:(intros; apply H; by right)). lia.
Qed.

Lemma total_bound f g c ps : (forall p, p ∈ ps -> f (ph p) <= c * g (ph p)) -> total f ps <= c * total g ps.
Proof.
  induction ps as [|x ps IH]; intros H; simpl; [lia|].
  pose proof (H x ltac:(by left)). pose proof (IH ltac:(intros; apply H; by right)). lia.
Qed.

Lemma total_one f ps i p : ps !! i = Some p -> (forall p, p ∈ ps -> 0 <= f (ph p)) -> f (ph p) <= total f ps.
Proof.
  revert i. induction ps as [|x ps IH]; intros [|i] Hi H; simplify_eq/=.
  - pose proof (total_nonneg f ps ltac:(intros; apply H; by right)). lia.
  - pose proof (IH i Hi ltac:(intros; apply H; by right)). pose proof (H x ltac:(by left)). lia.
Qed.

Lemma wake1_counts cs p : (forall c l, ph p = Asleep c l -> l = BeginOp) ->
  left (ph (wake1 cs p)) = left (ph p) /\ active (ph (wake1 cs p)) = active (ph p) /\ committer (ph (wake1 cs p)) = committer (ph p).
Proof.
  intros Hp. destruct (wake1_phase cs p) as [[E _]|(c & l & E & _ & E')]; unfold left, active, committer.
  - by rewrite E.
  - rewrite E', E. by rewrite (Hp c l E).
Qed.

(** ** The invariant is kept *)
Section preserve.
Context (w : Z) (Hw : 0 <= w <= MAXOPBLOCKS).

Lemma fine_left sh p : proc_fine w sh p -> 0 <= left (ph p) <= MAXOPBLOCKS * active (ph p).
Proof.
  unfold proc_fine, left, active. unfold MAXOPBLOCKS in *.
  destruct (ph p) as [[[]|]|[]|]; lia.
Qed.

Lemma active_nonneg p : 0 <= active (ph p).
Proof. unfold active. destruct (ph p) as [[[]|]|[]|]; lia. Qed.
Lemma committer_nonneg p : 0 <= committer (ph p).
Proof. unfold committer. destruct (ph p) as [[[]|]|[]|]; lia. Qed.

(** The log has room for what a process may still add. *)
Lemma room_for s i p : space_inv w s -> procs s !! i = Some p ->
  Z.of_nat (length (sp_lh (shared s))) + left (ph p) <= LOGSIZE.
Proof.
  intros [Hf _ Hr _ _] Hi. rewrite Forall_forall in Hf.
  pose proof (total_one left _ _ _ Hi ltac:(intros q Hq; apply (fine_left _ _ (Hf q Hq)))). lia.
Qed.

Lemma active_counts s i p : space_inv w s -> procs s !! i = Some p -> active (ph p) = 1 ->
  1 <= sp_out (shared s) /\ sp_committing (shared s) = false.
Proof.
  intros [_ Ho _ Hc _] Hi Ha.
  pose proof (total_one active _ _ _ Hi ltac:(intros; apply active_nonneg)).
  split; [lia|]. destruct (sp_committing (shared s)); [|done]. specialize (Hc eq_refl). lia.
Qed.

(** Replacing the process that runs and the shared state. *)
Lemma space_inv_update s i p q sh cs :
  space_inv w s -> procs s !! i = Some p -> proc_fine w sh q ->
  (forall j x, procs s !! j = Some x -> proc_fine w (shared s) x -> j <> i -> proc_fine w sh x) ->
  sp_out sh = sp_out (shared s) - active (ph p) + active (ph q) ->
  Z.of_nat (length (sp_lh sh)) + (total left (procs s) - left (ph p) + left (ph q)) <= LOGSIZE ->
  (sp_committing sh = true -> total active (procs s) - active (ph p) + active (ph q) = 0) ->
  Z.b2z (sp_committing sh) = Z.b2z (sp_committing (shared s)) - committer (ph p) + committer (ph q) ->
  space_inv w (mkmstate sh (<[i := q]> (wake1 cs <$> procs s))).
Proof.
  intros [Hf Ho Hr Hc Hcm] Hi Hq Hx E1 E2 E3 E4. rewrite Forall_lookup in Hf.
  assert (Hw1 : forall x, x ∈ procs s -> left (ph (wake1 cs x)) = left (ph x) /\
            active (ph (wake1 cs x)) = active (ph x) /\ committer (ph (wake1 cs x)) = committer (ph x)).
  { intros x [j Hj]%list_elem_of_lookup. apply wake1_counts. intros c l E.
    specialize (Hf j x Hj). unfold proc_fine in Hf. rewrite E in Hf. apply Hf. }
  assert (Hin : p ∈ procs s) by (by eapply list_elem_of_lookup_2).
  assert (Hi' : (wake1 cs <$> procs s) !! i = Some (wake1 cs p)) by (by rewrite list_lookup_fmap, Hi).
  assert (G : forall f : phase op res -> Z, (forall x, x ∈ procs s -> f (ph (wake1 cs x)) = f (ph x)) ->
            total f (<[i := q]> (wake1 cs <$> procs s)) = total f (procs s) - f (ph p) + f (ph q)).
  { intros f Hfx. rewrite (total_insert f _ i _ q Hi'), total_ext, Hfx by done. done. }
  constructor; simpl.
  - apply Forall_lookup. intros j x [(-> & <- & _)|(Hne & Hj)]%list_lookup_insert_Some; [done|].
    apply list_lookup_fmap_Some in Hj as (y & -> & Hj).
    pose proof (Hx j y Hj (Hf j y Hj) ltac:(done)) as Hy.
    destruct (wake1_phase cs y) as [[E _]|(c & l & E & _ & E')]; unfold proc_fine in *.
    + by rewrite E.
    + rewrite E in Hy. rewrite E'. by destruct Hy as [_ ->].
  - rewrite G by (intros; by apply Hw1). lia.
  - rewrite G by (intros; by apply Hw1). lia.
  - rewrite G by (intros; by apply Hw1). done.
  - rewrite G by (intros; by apply Hw1). lia.
Qed.

Lemma space_run_inv i p l s :
  LOGSIZE - MAXOPBLOCKS + w < Z.min LOGSIZE (sp_size (shared s) - 1) ->
  space_inv w s -> procs s !! i = Some p -> ph p = Ready l ->
  space_inv w (run_section space_body i p l s).
Proof.
  intros Hsz Hinv Hi Hp. pose proof Hinv as [Hf Ho Hr Hc Hcm].
  pose proof (Forall_lookup_1 _ _ _ _ Hf Hi) as Hpf. pose proof (room_for _ _ _ Hinv Hi) as Hroom.
  pose proof (active_counts _ _ _ Hinv Hi) as Hact. rewrite Forall_lookup in Hf.
  assert (Hle : total left (procs s) <= MAXOPBLOCKS * total active (procs s)).
  { apply total_bound. intros x [j Hj]%list_elem_of_lookup. by apply (fine_left (shared s)), (Hf j). }
  assert (Hpl : left (ph p) = left (Ready l)) by (unfold left; by rewrite Hp).
  assert (Hpa : active (ph p) = active (Ready l)) by (unfold active; by rewrite Hp).
  assert (Hpc : committer (ph p) = committer (Ready l)) by (unfold committer; by rewrite Hp).
  unfold proc_fine in Hpf. rewrite Hp in Hpf. unfold run_section.
  destruct l as [|b k|k|]; simpl in Hpl, Hpa, Hpc |- *.
  - unfold space_begin. destruct (sp_committing (shared s)) eqn:Ec; [|case_match eqn:Eg]; simpl;
      apply (space_inv_update s i p); rewrite ?Hpl, ?Hpa, ?Hpc; simpl; rewrite ?Ec; try done; try lia.
    unfold proc_fine. simpl. lia.
  - destruct (Hact Hpa) as [Hout Hcf]. unfold space_log_write.
    assert (Hn : (LOGSIZE <=? Z.of_nat (length (sp_lh (shared s)))) ||
                 (sp_size (shared s) - 1 <=? Z.of_nat (length (sp_lh (shared s)))) = false).
    { apply orb_false_iff. rewrite !Z.leb_gt. lia. }
    rewrite Hn. destruct (Z.ltb_spec (sp_out (shared s)) 1); [lia|].
    case_decide as Hb; simpl; apply (space_inv_update s i p); rewrite ?Hpl, ?Hpa, ?Hpc; simpl;
      rewrite ?Hcf; try done; try lia.
    + unfold proc_fine. simpl. lia.
    + unfold proc_fine. simpl. destruct Hpf as [? [?|?]]; [done|lia].
    + intros j x Hj Hx _. unfold proc_fine in *. destruct (ph x) as [|[]|]; try done.
      simpl. rewrite elem_of_app. naive_solver.
    + rewrite length_app. simpl. lia.
  - destruct (Hact Hpa) as [Hout Hcf]. unfold space_end. rewrite Hcf.
    destruct (Z.eqb_spec (sp_out (shared s) - 1) 0) as [E0|E0]; simpl;
      apply (space_inv_update s i p); rewrite ?Hpl, ?Hpa, ?Hpc; simpl; rewrite ?Hcf; try done; try lia.
  - assert (Hcm1 : sp_committing (shared s) = true).
    { pose proof (total_one committer _ _ _ Hi ltac:(intros; apply committer_nonneg)) as H1.
      rewrite Hpc in H1. destruct (sp_committing (shared s)); [done|]. simpl in Hcm. lia. }
    specialize (Hc Hcm1).
    apply (space_inv_update s i p); rewrite ?Hpl, ?Hpa, ?Hpc; simpl; rewrite ?Hcm1; try done; try lia.
    intros j x Hj Hx _. unfold proc_fine in *. destruct (ph x) as [|[|b k| |]|] eqn:E; try done.
    exfalso. pose proof (total_one active _ _ _ Hj ltac:(intros; apply active_nonneg)) as H1.
    rewrite E in H1. simpl in H1. lia.
Qed.

(** The size of the log never changes. *)
Lemma run_size i p l s : sp_size (shared (run_section space_body i p l s)) = sp_size (shared s).
Proof.
  unfold run_section. destruct l; simpl; unfold space_begin, space_log_write, space_end;
    repeat case_match; done.
Qed.

(** Changing a process that holds no lock, with what it counts the same. *)
Lemma phase_inv s i p q :
  space_inv w s -> procs s !! i = Some p -> proc_fine w (shared s) q ->
  left (ph q) = left (ph p) -> active (ph q) = active (ph p) -> committer (ph q) = committer (ph p) ->
  space_inv w (mkmstate (shared s) (<[i := q]> (procs s))).
Proof.
  intros Hinv Hi Hq E1 E2 E3. pose proof Hinv as [Hf Ho Hr Hc Hcm].
  rewrite <- (wake_none s). apply (space_inv_update s i p); try done; lia || (intros H; specialize (Hc H); lia).
Qed.

Lemma space_reachable n sz s :
  LOGSIZE - MAXOPBLOCKS + w < Z.min LOGSIZE (sz - 1) ->
  rtc (mstep space_body (space_may w)) (start (mkspace 0 false [] sz) n) s ->
  space_inv w s /\ sp_size (shared s) = sz.
Proof.
  intros Hsz. apply (monitor_inv _ _ (fun s => space_inv w s /\ sp_size (shared s) = sz)).
  - intros i o k l s0 [Hinv Es] Hi Hm. split; [|done].
    pose proof (Forall_lookup_1 _ _ _ _ (sv_fine _ _ Hinv) Hi) as Hp. unfold proc_fine in Hp. simpl in Hp.
    eapply phase_inv; [done|done|unfold proc_fine|..]; simpl;
      destruct l, o as [[]|]; simpl in *; try done; try (destruct Hm; subst; done); subst; done.
  - intros i p l s0 [Hinv Es] Hi Hp. split; [|by rewrite run_size].
    apply space_run_inv; [by rewrite Es|done..].
  - intros i p s0 [Hinv Es] Hi. split; [|done].
    pose proof (Forall_lookup_1 _ _ _ _ (sv_fine _ _ Hinv) Hi) as Hp. unfold proc_fine in Hp.
    eapply phase_inv; [done|done|unfold proc_fine|..]; simpl; destruct (ph p) as [| |c l]; try done;
      destruct Hp as [_ ->]; done.
  - split; [|done]. assert (H0 : forall f : phase op res -> Z, f (Outside None) = 0 ->
      total f (replicate n (mkprocess (Outside None) false)) = 0).
    { intros f Ef. induction n as [|m IH]; [done|]. simpl. rewrite Ef. apply IH. }
    constructor; simpl.
    + by apply Forall_replicate.
    + by rewrite H0.
    + rewrite H0 by done. unfold LOGSIZE, MAXOPBLOCKS. lia.
    + by rewrite H0.
    + by rewrite H0.
Qed.
End preserve.

(** ** Theorems *)

(** C20. With a log of [sz] blocks, if every operation adds at most [w] blocks
    and [20 + w < min(LOGSIZE, sz - 1)], then under every interleaving of
    operations no [log_write] finds the transaction too big or runs outside
    one, no [end_op] meets a commit in progress, the log never exceeds
    LOGSIZE blocks, and [log.outstanding] counts the operations in progress.
    For the log of 30 blocks that mkfs makes, [w] may be 8. *)
Theorem log_space_suffices w n sz s i p :
  0 <= w <= MAXOPBLOCKS -> LOGSIZE - MAXOPBLOCKS + w < Z.min LOGSIZE (sz - 1) ->
  rtc (mstep space_body (space_may w)) (start (mkspace 0 false [] sz) n) s ->
  procs s !! i = Some p ->
  ph p <> Outside (Some TooBig) /\ ph p <> Outside (Some OutsideTrans) /\
  ph p <> Outside (Some CommittingPanic) /\
  Z.of_nat (length (sp_lh (shared s))) <= LOGSIZE /\
  sp_out (shared s) = total active (procs s).
Proof.
  intros Hw Hsz Hr Hi. destruct (space_reachable w Hw n sz s Hsz Hr) as [Hinv _].
  pose proof (room_for w Hw s i p Hinv Hi) as Hroom.
  pose proof (Forall_lookup_1 _ _ _ _ (sv_fine _ _ Hinv) Hi) as Hp. unfold proc_fine in Hp.
  pose proof (fine_left w Hw (shared s) p ltac:(exact Hp)) as Hl.
  split_and!; [intros E; by rewrite E in Hp..|lia|apply Hinv].
Qed.

(** A schedule of one operation of each of three processes, [k] blocks each. *)
Definition op_writes (i : nat) (base k : Z) : list (move op) :=
  mjoin ((fun j => [Call i (LogWrite (base + j) j); Run i]) <$> seqZ 0 k).
Definition three_ops (k : Z) : list (move op) :=
  [Call 0 BeginOp; Run 0; Call 1 BeginOp; Run 1; Call 2 BeginOp; Run 2] ++
  op_writes 0 100 k ++ op_writes 1 200 k ++ op_writes 2 300 k.

Lemma log_space_suffices_witness :
  exists s p, rtc (mstep space_body (space_may 8)) (start (mkspace 0 false [] 30) 3) s /\
    procs s !! 2%nat = Some p /\ ph p <> Outside (Some TooBig) /\ length (sp_lh (shared s)) = 24%nat.
Proof.
  pose (s := foldl (play1 space_body) (start (mkspace 0 false [] 30) 3) (three_ops 8)).
  assert (Hr : rtc (mstep space_body (space_may 8)) (start (mkspace 0 false [] 30) 3) s).
  { apply play_steps. vm_compute. repeat split; try done; by right. }
  exists s, (mkprocess (Outside (Some (InOp 8))) false). split; [exact Hr|].
  split; [by vm_compute|]. split; [|by vm_compute].
  apply (log_space_suffices 8 3 30 s 2 (mkprocess (Outside (Some (InOp 8))) false)).
  - unfold MAXOPBLOCKS. lia.
  - unfold LOGSIZE, MAXOPBLOCKS. lia.
  - exact Hr.
  - by vm_compute.
Defined.

(** MAXOPBLOCKS is not honoured: with the log of LOGSIZE = 30 blocks that
    mkfs makes, one of which is the header, three operations that [begin_op]
    has admitted and that write ten blocks each, as param.h allows, reach
    panic("too big a transaction"). *)
Theorem log_space_overrun :
  exists s, rtc (mstep space_body (space_may MAXOPBLOCKS)) (start (mkspace 0 false [] LOGSIZE) 3) s /\
    procs s !! 2%nat = Some (mkprocess (Outside (Some TooBig)) false) /\
    length (sp_lh (shared s)) = 29%nat.
Proof.
  exists (foldl (play1 space_body) (start (mkspace 0 false [] LOGSIZE) 3) (three_ops 10)).
  split; [|by vm_compute].
  apply play_steps. vm_compute. repeat split; try done; by right.
Qed.
