(* ===== verification/Bio.v ===== *)
(** * The buffer cache (bio.c) and the memory disk (memide.c)

    The thirty buffers, linked through [prev] and [next] in the order of their
    last use, as bget, bread, bwrite and brelse handle them, with the
    synchronous disk driver of memide.c.  The theorem of this file is that
    they implement the contract of [Bcache]: one content per block, whichever
    buffers are recycled. *)
From stdpp Require Import base numbers list strings.
From Stdlib Require Import ZArith Lia.
From S2P Require Import Prelude Block Bcache.
#[local] Open Scope Z_scope.

(** Buffers are numbered 0..NBUF-1; NBUF is the list head [bcache.head]. *)
Definition HEAD : nat := 30.

(** [flags] as its two bits; [lk_pid] is the holder of the sleep lock, 0 when
    free. *)
Record buf := mkbuf {
  B_VALID : bool; B_DIRTY : bool; dev : Z; blockno : Z; refcnt : Z; lk_pid : Z; data : block }.

Record bcache := mkbcache {
  bufs : nat -> buf;
  next : nat -> nat;
  prev : nat -> nat;
  memdisk : Z -> block;
  mdsize : Z;
  io : list (Z * block);
}.

Definition upd {A} (i : nat) (x : A) (f : nat -> A) : nat -> A :=
  fun j => if decide (j = i) then x else f j.
Definition with_buf (i : nat) (b : buf) (c : bcache) : bcache :=
  mkbcache (upd i b (bufs c)) (next c) (prev c) (memdisk c) (mdsize c) (io c).
Definition set_buf (i : nat) (b : buf) : M bcache unit := modify (with_buf i b).
Definition get_buf (i : nat) : M bcache buf := gets (fun c => bufs c i).
Definition set_next (i j : nat) : M bcache unit :=
  modify (fun c => mkbcache (bufs c) (upd i j (next c)) (prev c) (memdisk c) (mdsize c) (io c)).
Definition set_prev (i j : nat) : M bcache unit :=
  modify (fun c => mkbcache (bufs c) (next c) (upd i j (prev c)) (memdisk c) (mdsize c) (io c)).

(** Insert [b] after the head. *)
Definition push_front (b : nat) : M bcache unit :=
  h <- gets (fun c => next c HEAD) ;;
  set_next b h ;;;
  set_prev b HEAD ;;;
  h' <- gets (fun c => next c HEAD) ;;
  set_prev h' b ;;;
  set_next HEAD b.

Definition binit : M bcache unit :=
  set_prev HEAD HEAD ;;;
  set_next HEAD HEAD ;;;
  for_all (seq 0 30) (fun b =>
    h <- gets (fun c => next c HEAD) ;;
    set_next b h ;;;
    set_prev b HEAD ;;;
    x <- get_buf b ;;
    set_buf b (mkbuf (B_VALID x) (B_DIRTY x) (dev x) (blockno x) (refcnt x) 0 (data x)) ;;;
    h' <- gets (fun c => next c HEAD) ;;
    set_prev h' b ;;;
    set_next HEAD b).

Section process.
Context (me : Z).

Definition acquiresleep (i : nat) : M bcache unit :=
  b <- get_buf i ;;
  if lk_pid b =? 0
  then set_buf i (mkbuf (B_VALID b) (B_DIRTY b) (dev b) (blockno b) (refcnt b) me (data b))
  else fun c => Sleep (Z.of_nat i) c.
Definition holdingsleep (i : nat) : M bcache bool :=
  b <- get_buf i ;; ret (negb (lk_pid b =? 0) && (lk_pid b =? me)).
Definition releasesleep (i : nat) : M bcache unit :=
  b <- get_buf i ;;
  set_buf i (mkbuf (B_VALID b) (B_DIRTY b) (dev b) (blockno b) (refcnt b) 0 (data b)).

(** The two searches of bget: follow [step] from [b] to the first buffer that
    satisfies [p], or to the head. *)
Definition walk (step : nat -> nat) (p : nat -> bool) (b : nat) : M bcache (option nat) :=
  loop 32 (fun b => if decide (b = HEAD) then ret (inr None)
                    else if p b then ret (inr (Some b)) else ret (inl (step b))) b.

Definition bget (d bn : Z) : M bcache nat :=
  c <- get ;;
  r <- walk (next c) (fun i => (dev (bufs c i) =? d) && (blockno (bufs c i) =? bn)) (next c HEAD) ;;
  match r with
  | Some i =>
      b <- get_buf i ;;
      set_buf i (mkbuf (B_VALID b) (B_DIRTY b) (dev b) (blockno b) (refcnt b + 1) (lk_pid b) (data b)) ;;;
      acquiresleep i ;;;
      ret i
  | None =>
      r <- walk (prev c) (fun i => (refcnt (bufs c i) =? 0) && negb (B_DIRTY (bufs c i))) (prev c HEAD) ;;
      match r with
      | Some i =>
          b <- get_buf i ;;
          set_buf i (mkbuf false false d bn 1 (lk_pid b) (data b)) ;;;
          acquiresleep i ;;;
          ret i
      | None => panic "bget: no buffers"
      end
  end.

Definition iderw (i : nat) : M bcache unit :=
  h <- holdingsleep i ;;
  if negb h then panic "iderw: buf not locked"
  else
    b <- get_buf i ;;
    c <- get ;;
    if B_VALID b && negb (B_DIRTY b) then panic "iderw: nothing to do"
    else if negb (dev b =? 1) then panic "iderw: request not for disk 1"
    else if (blockno b <? 0) || (mdsize c <=? blockno b) then panic "iderw: block out of range"
    else if B_DIRTY b then
      modify (fun c => mkbcache
        (upd i (mkbuf true false (dev b) (blockno b) (refcnt b) (lk_pid b) (data b)) (bufs c))
        (next c) (prev c) (set_block (blockno b) (data b) (memdisk c)) (mdsize c)
        (io c ++ [(blockno b, data b)]))
    else set_buf i (mkbuf true (B_DIRTY b) (dev b) (blockno b) (refcnt b) (lk_pid b)
                      (memdisk c (blockno b))).

Definition bread (d bn : Z) : M bcache nat :=
  i <- bget d bn ;;
  b <- get_buf i ;;
  (if B_VALID b then ret tt else iderw i) ;;;
  ret i.

Definition bwrite (i : nat) : M bcache unit :=
  h <- holdingsleep i ;;
  if negb h then panic "bwrite"
  else
    b <- get_buf i ;;
    set_buf i (mkbuf (B_VALID b) true (dev b) (blockno b) (refcnt b) (lk_pid b) (data b)) ;;;
    iderw i.

Definition brelse (i : nat) : M bcache unit :=
  h <- holdingsleep i ;;
  if negb h then panic "brelse"
  else
    releasesleep i ;;;
    b <- get_buf i ;;
    set_buf i (mkbuf (B_VALID b) (B_DIRTY b) (dev b) (blockno b) (refcnt b - 1) (lk_pid b) (data b)) ;;;
    b <- get_buf i ;;
    if refcnt b =? 0 then
      c <- get ;; set_prev (next c i) (prev c i) ;;;
      c <- get ;; set_next (prev c i) (next c i) ;;;
      push_front i
    else ret tt.
End process.

(** ** The ring of buffers *)

(** The consecutive pairs on the way from [a] through [l] to [z]. *)
Fixpoint chain (a : nat) (l : list nat) (z : nat) : list (nat * nat) :=
  match l with
  | [] => [(a, z)]
  | b :: l' => (a, b) :: chain b l' z
  end.

Definition ring (n p : nat -> nat) (l : list nat) : Prop :=
  forall a b, (a, b) ∈ chain HEAD l HEAD -> n a = b /\ p b = a.

Lemma upd_same {A} i (x : A) f : upd i x f i = x.
Proof. unfold upd. by rewrite decide_True. Qed.
Lemma upd_other {A} i (x : A) f j : j <> i -> upd i x f j = f j.
Proof. intros. unfold upd. by rewrite decide_False. Qed.

Lemma chain_fst a l z : (chain a l z).*1 = a :: l.
Proof. revert a. induction l as [|b l IH]; intros a; simpl; [done|]. by rewrite IH. Qed.
Lemma chain_snd a l z : (chain a l z).*2 = l ++ [z].
Proof. revert a. induction l as [|b l IH]; intros a; simpl; [done|]. by rewrite IH. Qed.

(** The chain around a position: what precedes and follows it. *)
Lemma chain_app l1 : forall a, exists ini x, (forall b, chain a l1 b = ini ++ [(x, b)]) /\
  forall l2 z y rest, (forall b, chain b l2 z = (b, y) :: rest) -> chain a (l1 ++ l2) z = ini ++ (x, y) :: rest.
Proof.
  induction l1 as [|c l1 IH]; intros a.
  - exists [], a. split; [done|]. intros l2 z y rest E. apply E.
  - destruct (IH c) as (ini & x & E1 & E2). exists ((a, c) :: ini), x. split.
    + intros b. simpl. by rewrite E1.
    + intros l2 z y rest E. simpl. by rewrite (E2 l2 z y rest E).
Qed.

Lemma chain_first l z : exists y rest, forall b, chain b l z = (b, y) :: rest.
Proof. destruct l as [|c l]; [by exists z, []|]. by exists c, (chain c l z). Qed.

Lemma chain_mid l1 b l2 a z : chain a (l1 ++ b :: l2) z = chain a l1 b ++ chain b l2 z.
Proof. revert a. induction l1 as [|c l1 IH]; intros a; simpl; [done|]. by rewrite IH. Qed.

Lemma chain_fun a l z x y y' : NoDup (a :: l) -> (x, y) ∈ chain a l z -> (x, y') ∈ chain a l z -> y = y'.
Proof.
  intros Hnd H1 H2. apply list_elem_of_lookup in H1 as [i Hi]. apply list_elem_of_lookup in H2 as [j Hj].
  assert (i = j); [|congruence]. rewrite <- (chain_fst a l z) in Hnd.
  eapply NoDup_lookup; [exact Hnd| |]; rewrite list_lookup_fmap; [rewrite Hi|rewrite Hj]; done.
Qed.

Lemma NoDup_rot (l : list nat) : NoDup (HEAD :: l) -> NoDup (l ++ [HEAD]).
Proof. intros H. rewrite Permutation_app_comm. done. Qed.

Lemma unlink_ring n p l1 b l2 :
  NoDup (HEAD :: l1 ++ b :: l2) -> ring n p (l1 ++ b :: l2) ->
  ring (upd (p b) (n b) n) (upd (n b) (p b) p) (l1 ++ l2) /\ p b <> b /\ n b <> b.
Proof.
  intros Hnd Hr. destruct (chain_app l1 HEAD) as (ini & x & E1 & E2).
  destruct (chain_first l2 HEAD) as (y & rest & E3).
  assert (Eold : chain HEAD (l1 ++ b :: l2) HEAD = ini ++ (x, b) :: (b, y) :: rest).
  { rewrite chain_mid, E1, E3, <- app_assoc. done. }
  assert (Enew : chain HEAD (l1 ++ l2) HEAD = ini ++ (x, y) :: rest) by (by apply E2).
  unfold ring in *. rewrite Eold in Hr.
  pose proof (NoDup_rot _ Hnd) as Hnd2.
  rewrite <- (chain_fst HEAD _ HEAD), Eold, fmap_app in Hnd.
  rewrite <- (chain_snd HEAD _ HEAD), Eold, fmap_app in Hnd2. simpl in Hnd, Hnd2.
  destruct (Hr x b) as [_ Epb]; [apply elem_of_app; right; by left|].
  destruct (Hr b y) as [Enb _]; [apply elem_of_app; do 2 right; by left|].
  rewrite Epb, Enb, Enew.
  apply NoDup_app in Hnd as (_ & Hd1 & Hn1). apply NoDup_cons in Hn1 as [Hx Hn1].
  apply NoDup_app in Hnd2 as (_ & Hd2 & Hn2). apply NoDup_cons in Hn2 as [Hb Hn2].
  apply NoDup_cons in Hn2 as [Hy _].
  split; [|split; [intros ->; apply Hx; by left|intros ->; apply Hb; by left]].
  intros u v [Huv|[[= -> ->]|Huv]%elem_of_cons]%elem_of_app.
  - destruct (Hr u v) as [E E']; [apply elem_of_app; by left|]. rewrite !upd_other; [done| |].
    + intros ->. apply (Hd2 y); [by apply (list_elem_of_fmap_2 snd _ (u, y))|right; by left].
    + intros ->. apply (Hd1 x); [by apply (list_elem_of_fmap_2 fst _ (x, v))|by left].
  - by rewrite !upd_same.
  - destruct (Hr u v) as [E E']; [apply elem_of_app; do 3 right; done|]. rewrite !upd_other; [done| |].
    + intros ->. apply Hy. by apply (list_elem_of_fmap_2 snd _ (u, y)).
    + intros ->. apply Hx. right. by apply (list_elem_of_fmap_2 fst _ (x, v)).
Qed.

Lemma push_ring n p l b :
  NoDup (HEAD :: l) -> b ∉ l -> b <> HEAD -> ring n p l ->
  ring (upd HEAD b (upd b (n HEAD) n)) (upd (n HEAD) b (upd b HEAD p)) (b :: l) /\ n HEAD <> b.
Proof.
  intros Hnd Hb Hh Hr. destruct (chain_first l HEAD) as (y & rest & E).
  assert (Eold : chain HEAD l HEAD = (HEAD, y) :: rest) by apply E.
  pose proof (NoDup_rot _ Hnd) as Hnd2.
  assert (Hsnd : forall v, v ∈ (chain HEAD l HEAD).*2 -> v <> b).
  { rewrite chain_snd. intros v Hv ->. apply elem_of_app in Hv as [Hv|Hv%list_elem_of_singleton]; done. }
  assert (Hfst : forall u, u ∈ rest.*1 -> u ∈ l).
  { intros u Hu. pose proof (chain_fst HEAD l HEAD) as Ef. rewrite Eold in Ef. simpl in Ef. injection Ef as Ef.
    by rewrite <- Ef. }
  rewrite <- (chain_snd HEAD _ HEAD), Eold in Hnd2. simpl in Hnd2. apply NoDup_cons in Hnd2 as [Hy _].
  apply NoDup_cons in Hnd as [Hhl _]. rewrite Eold in Hsnd. unfold ring in *. rewrite Eold in Hr.
  destruct (Hr HEAD y) as [Eny _]; [by left|]. rewrite Eny.
  assert (Hyb : y <> b) by (apply Hsnd; by left). split; [|done].
  simpl. rewrite E. intros u v [[= -> ->]|[[= -> ->]|Huv]%elem_of_cons]%elem_of_cons.
  - by rewrite upd_same, (upd_other y), upd_same.
  - by rewrite (upd_other HEAD), !upd_same.
  - destruct (Hr u v) as [E1 E2]; [by right|].
    assert (Hu : u ∈ l) by (apply Hfst; by apply (list_elem_of_fmap_2 fst _ (u, v))).
    assert (Hv : v ∈ rest.*2) by (by apply (list_elem_of_fmap_2 snd _ (u, v))).
    rewrite !upd_other; [done|..]; intros ->; try done.
    apply (Hsnd b); [by right|done].
Qed.

(** A walk along the ring is a search of the list. *)
Fixpoint find_first (p : nat -> bool) (l : list nat) : option nat :=
  match l with
  | [] => None
  | b :: l' => if p b then Some b else find_first p l'
  end.

Lemma walk_list step p l c : HEAD ∉ l -> (length l <= 30)%nat ->
  forall b, (forall x y, (x, y) ∈ chain b l HEAD -> step x = y) ->
  walk step p (step b) c = Ret (find_first p l) c.
Proof.
  intros Hh Hl. unfold walk.
  assert (G : forall k b, (length l < k)%nat -> (forall x y, (x, y) ∈ chain b l HEAD -> step x = y) ->
    loop k (fun b => if decide (b = HEAD) then ret (inr None)
                     else if p b then ret (inr (Some b)) else ret (inl (step b))) (step b) c =
    Ret (find_first p l) c).
  { clear Hl. induction l as [|a l IH]; intros k b Hk Hst; (destruct k as [|k]; [lia|]); simpl.
    - rewrite (Hst b HEAD) by (by left). by rewrite decide_True.
    - apply not_elem_of_cons in Hh as [Ha Hh]. rewrite (Hst b a) by (by left).
      rewrite decide_False by done. destruct (p a); [done|]. unfold bind, ret at 1.
      apply IH; [done|simpl in Hk; lia|]. intros x y Hxy. apply Hst. by right. }
  intros b Hst. apply G; [lia|done].
Qed.

(** The backward walk meets the buffers in reverse order. *)
Lemma chain_rev a l z x y : (x, y) ∈ chain z (reverse l) a <-> (y, x) ∈ chain a l z.
Proof.
  revert a. induction l as [|b l IH]; intros a.
  - simpl. rewrite !list_elem_of_singleton. naive_solver.
  - rewrite reverse_cons, chain_mid, elem_of_app, IH. simpl.
    rewrite list_elem_of_singleton, elem_of_cons. naive_solver.
Qed.

Lemma walk_next c p l : ring (next c) (prev c) l -> HEAD ∉ l -> (length l <= 30)%nat ->
  walk (next c) p (next c HEAD) c = Ret (find_first p l) c.
Proof. intros Hr Hh Hl. apply walk_list; [done|done|]. intros x y H. by apply Hr. Qed.

Lemma walk_prev c p l : ring (next c) (prev c) l -> HEAD ∉ l -> (length l <= 30)%nat ->
  walk (prev c) p (prev c HEAD) c = Ret (find_first p (reverse l)) c.
Proof.
  intros Hr Hh Hl. apply walk_list; [by rewrite elem_of_reverse|by rewrite length_reverse|].
  intros x y H. exact (proj2 (Hr _ _ (proj1 (chain_rev _ _ _ _ _) H))).
Qed.

Lemma find_first_Some p l i : find_first p l = Some i -> i ∈ l /\ p i = true.
Proof.
  induction l as [|b l IH]; simpl; [done|]. destruct (p b) eqn:E.
  - intros [= ->]. split; [by left|done].
  - intros H. apply IH in H as [? ?]. split; [by right|done].
Qed.

Lemma find_first_None p l : find_first p l = None -> forall i, i ∈ l -> p i = false.
Proof.
  induction l as [|b l IH]; simpl; intros H i Hi; [by apply not_elem_of_nil in Hi|].
  destruct (p b) eqn:E; [done|]. apply elem_of_cons in Hi as [->|Hi]; [done|auto].
Qed.

(** ** Refinement *)

(** What the clients of the cache do. *)
Inductive bop := OpRead (b : Z) | OpSet (b : Z) (d : block) | OpWrite (b : Z) | OpDirty (b : Z) | OpRelse (b : Z).

(** On the contract; a buffer is used only while it is locked. *)
Definition spec_op (o : bop) : M blocks block :=
  match o with
  | OpRead b => Bcache.bread b ;;; bdata b
  | OpSet b d => bset b d ;;; ret []
  | OpWrite b => fun s => if decide (b ∈ bheld s) then (Bcache.bwrite b ;;; ret []) s
                          else Fault "buffer not locked" s
  | OpDirty b => bdirty b ;;; ret []
  | OpRelse b => fun s => if decide (b ∈ bheld s) then (Bcache.brelse b ;;; ret []) s
                          else Fault "buffer not locked" s
  end.

(** On the buffers; [env] is the client's pointer to the buffer of a block it
    has read. *)
Definition handles := Z -> option nat.
Definition run_op (me : Z) (o : bop) (env : handles) : M bcache (block * handles) :=
  match o with
  | OpRead b =>
      i <- bread me 1 b ;;
      x <- get_buf i ;;
      ret (data x, fun y => if y =? b then Some i else env y)
  | OpSet b d =>
      match env b with
      | Some i =>
          x <- get_buf i ;;
          set_buf i (mkbuf (B_VALID x) (B_DIRTY x) (dev x) (blockno x) (refcnt x) (lk_pid x) d) ;;;
          ret ([], env)
      | None => fault "no buffer"
      end
  | OpWrite b => match env b with Some i => bwrite me i ;;; ret ([], env) | None => fault "no buffer" end
  | OpDirty b =>
      match env b with
      | Some i =>
          x <- get_buf i ;;
          set_buf i (mkbuf (B_VALID x) true (dev x) (blockno x) (refcnt x) (lk_pid x) (data x)) ;;;
          ret ([], env)
      | None => fault "no buffer"
      end
  | OpRelse b => match env b with Some i => brelse me i ;;; ret ([], env) | None => fault "no buffer" end
  end.

(** Buffer [i] holds the content of its block. *)
Record caches (me : Z) (a : blocks) (x : buf) : Prop := {
  ca_valid : B_VALID x = true;
  ca_range : 0 <= blockno x < disksize a;
  ca_data : data x = view a (blockno x);
  ca_dirty : B_DIRTY x = true <-> blockno x ∈ dirty a;
  ca_lock : lk_pid x = (if decide (blockno x ∈ bheld a) then me else 0);
  ca_ref : refcnt x = (if decide (blockno x ∈ bheld a) then 1 else 0) }.

(** A buffer that has never been used. *)
Definition unused (x : buf) : Prop :=
  dev x = 0 /\ B_VALID x = false /\ B_DIRTY x = false /\ refcnt x = 0 /\ lk_pid x = 0.

Record sim (me : Z) (c : bcache) (env : handles) (a : blocks) (l : list nat) : Prop := {
  sm_disk : memdisk c = disk a /\ mdsize c = disksize a /\ io c = writes a;
  sm_ring : ring (next c) (prev c) l;
  sm_perm : l ≡ₚ seq 0 30;
  sm_buf : forall i, i ∈ l -> unused (bufs c i) \/ dev (bufs c i) = 1 /\ caches me a (bufs c i);
  sm_uniq : forall i j, i ∈ l -> j ∈ l -> dev (bufs c i) = 1 -> dev (bufs c j) = 1 ->
    blockno (bufs c i) = blockno (bufs c j) -> i = j;
  sm_in : forall b, b ∈ dirty a \/ b ∈ bheld a ->
    exists i, i ∈ l /\ dev (bufs c i) = 1 /\ blockno (bufs c i) = b;
  sm_env : forall b, b ∈ bheld a ->
    exists i, env b = Some i /\ i ∈ l /\ dev (bufs c i) = 1 /\ blockno (bufs c i) = b;
  sm_ok : NoDup (dirty a) /\ NoDup (bheld a) /\
    forall b, b ∉ dirty a -> b ∉ bheld a -> view a b = disk a b }.

Section simulation.
Context (me : Z) (Hme : me <> 0).

Lemma caches_frame a a' x :
  disksize a' = disksize a -> view a' (blockno x) = view a (blockno x) -> (blockno x ∈ dirty a' <-> blockno x ∈ dirty a) ->
  (blockno x ∈ bheld a' <-> blockno x ∈ bheld a) -> caches me a x -> caches me a' x.
Proof.
  intros Es Hv Hd Hh [H1 H2 H3 H4 H5 H6]. constructor; [done|by rewrite Es|congruence|by rewrite Hd| |];
    rewrite (decide_ext _ _ _ _ Hh); done.
Qed.

(** One buffer and one block change; everything else is left alone. *)
Lemma sim_update c env a l i b c' env' a' l' :
  sim me c env a l -> i ∈ l ->
  dev (bufs c' i) = 1 -> blockno (bufs c' i) = b -> caches me a' (bufs c' i) ->
  (forall j, j <> i -> bufs c' j = bufs c j) ->
  (forall j, j ∈ l -> dev (bufs c j) = 1 -> blockno (bufs c j) = b -> j = i) ->
  (dev (bufs c i) = 1 -> blockno (bufs c i) <> b ->
     blockno (bufs c i) ∉ dirty a /\ blockno (bufs c i) ∉ bheld a) ->
  (forall y, y <> b -> view a' y = view a y /\ (y ∈ dirty a' <-> y ∈ dirty a) /\
     (y ∈ bheld a' <-> y ∈ bheld a)) ->
  disksize a' = disksize a ->
  memdisk c' = disk a' /\ mdsize c' = disksize a' /\ io c' = writes a' ->
  ring (next c') (prev c') l' -> l' ≡ₚ l ->
  (forall y, y <> b -> env' y = env y) -> (b ∈ bheld a' -> env' b = Some i) ->
  NoDup (dirty a') -> NoDup (bheld a') ->
  (forall y, y ∉ dirty a' -> y ∉ bheld a' -> view a' y = disk a' y) ->
  sim me c' env' a' l'.
Proof.
  intros [S1 S2 S3 S4 S5 S6 S7 S8] Hi Hdev Hb Hc Hoth Huniq Hev Hfr Hsz Hdk Hring Hperm Henv Henvb Hn1 Hn2 Hcl.
  assert (Hin : forall j, j ∈ l' <-> j ∈ l) by (intros j; by rewrite Hperm).
  constructor; [done|done|by rewrite Hperm| | | | |done].
  - intros j Hj%Hin. destruct (decide (j = i)) as [->|Hne]; [by right|]. rewrite Hoth by done.
    destruct (S4 j Hj) as [Hu|[Hd Hca]]; [by left|right]. split; [done|].
    destruct (Hfr (blockno (bufs c j))) as (Hv & Hdi & Hhe).
    { intros E. apply Hne. by apply Huniq. }
    by eapply caches_frame.
  - intros j k Hj%Hin Hk%Hin.
    destruct (decide (j = i)) as [->|Hj'], (decide (k = i)) as [->|Hk'];
      rewrite ?(Hoth j), ?(Hoth k) by done; [done| | |by apply S5].
    + rewrite Hb. intros _ H1 H2. symmetry. by apply Huniq.
    + rewrite Hb. intros H1 _ H2. by apply Huniq.
  - intros y Hy. destruct (decide (y = b)) as [->|Hyb]; [exists i; by rewrite Hin|].
    destruct (Hfr y Hyb) as (_ & Hdi & Hhe). rewrite Hdi, Hhe in Hy.
    destruct (S6 y Hy) as (j & Hj & Hd & Hbj). exists j. rewrite Hin.
    destruct (decide (j = i)) as [->|Hne]; [|by rewrite Hoth].
    destruct Hev as [H1 H2]; [done|congruence|]. rewrite Hbj in *. by destruct Hy.
  - intros y Hy. destruct (decide (y = b)) as [->|Hyb]; [exists i; by rewrite Hin, Henvb|].
    destruct (Hfr y Hyb) as (_ & _ & Hhe). rewrite Hhe in Hy.
    destruct (S7 y Hy) as (j & Ej & Hj & Hd & Hbj). exists j. rewrite Hin, Henv by done.
    destruct (decide (j = i)) as [->|Hne]; [|by rewrite Hoth].
    destruct Hev as [H1 H2]; [done|congruence|]. by rewrite Hbj in H2.
Qed.

(** ** Counting buffers *)
Lemma elem_of_pinned a b : b ∈ pinned a <-> b ∈ dirty a \/ b ∈ bheld a.
Proof.
  unfold pinned. rewrite elem_of_app, list_elem_of_filter.
  destruct (decide (b ∈ dirty a)); naive_solver.
Qed.

Lemma NoDup_pinned a : NoDup (dirty a) -> NoDup (bheld a) -> NoDup (pinned a).
Proof.
  intros H1 H2. unfold pinned. apply NoDup_app. split; [done|]. split; [|by apply NoDup_filter].
  intros b Hb [Hn _]%list_elem_of_filter. done.
Qed.

Lemma sim_length c env a l : sim me c env a l -> length l = 30%nat /\ NoDup l /\ HEAD ∉ l.
Proof.
  intros H. pose proof (sm_perm _ _ _ _ _ H) as Hp. split; [by rewrite Hp|].
  split; [rewrite Hp; apply NoDup_seq|]. rewrite Hp, elem_of_seq. unfold HEAD. lia.
Qed.

Lemma pinned_lt c env a l i : sim me c env a l -> i ∈ l ->
  ~ (dev (bufs c i) = 1 /\ blockno (bufs c i) ∈ pinned a) -> Z.of_nat (length (pinned a)) < NBUF.
Proof.
  intros Hs Hi Hn. destruct (sim_length _ _ _ _ Hs) as (Hl & Hnd & _).
  destruct Hs as [_ _ _ _ _ S6 _ (Hd1 & Hd2 & _)].
  assert (Hsub : pinned a ⊆+ (fun j => blockno (bufs c j)) <$> filter (fun j => j ≠ i) l).
  { apply NoDup_submseteq; [by apply NoDup_pinned|]. intros b Hb.
    destruct (S6 b) as (j & Hj & Hdj & Hbj); [by apply elem_of_pinned|].
    apply list_elem_of_fmap. exists j. split; [done|]. apply list_elem_of_filter. split; [|done].
    intros ->. apply Hn. by rewrite Hbj. }
  apply submseteq_length in Hsub. rewrite length_fmap in Hsub.
  pose proof (filter_ne_length i l Hnd Hi). unfold NBUF. lia.
Qed.

Lemma pinned_full c env a l : sim me c env a l ->
  (forall i, i ∈ l -> dev (bufs c i) = 1 /\ blockno (bufs c i) ∈ pinned a) ->
  NBUF <= Z.of_nat (length (pinned a)).
Proof.
  intros Hs Hall. destruct (sim_length _ _ _ _ Hs) as (Hl & Hnd & _).
  assert (Hsub : ((fun j => blockno (bufs c j)) <$> l) ⊆+ pinned a).
  { apply NoDup_submseteq.
    - apply NoDup_alt. intros i j x Hi Hj.
      apply list_lookup_fmap_Some in Hi as (u & -> & Hu). apply list_lookup_fmap_Some in Hj as (v & E & Hv).
      assert (u = v) as ->; [|by eapply NoDup_lookup].
      apply list_elem_of_lookup_2 in Hu, Hv.
      apply (sm_uniq _ _ _ _ _ Hs); [done|done|by apply Hall..|done].
    - intros b (j & -> & Hj)%list_elem_of_fmap. by apply Hall. }
  apply submseteq_length in Hsub. rewrite length_fmap in Hsub. unfold NBUF. lia.
Qed.

(** ** The operations simulate the contract *)
Definition agree (c : bcache) (env : handles) (o : bop) (a : blocks) : Prop :=
  match spec_op o a with
  | Ret d a' => exists env' c' l', run_op me o env c = Ret (d, env') c' /\ sim me c' env' a' l'
  | Panic m _ => exists c', run_op me o env c = Panic m c'
  | Sleep _ _ => exists ch c', run_op me o env c = Sleep ch c'
  | _ => True
  end.

(** bget, one lookup at a time. *)
Lemma bget_eq c l bn : ring (next c) (prev c) l -> HEAD ∉ l -> (length l <= 30)%nat ->
  bget me 1 bn c =
  match find_first (fun i => (dev (bufs c i) =? 1) && (blockno (bufs c i) =? bn)) l with
  | Some i =>
      (b <- get_buf i ;;
       set_buf i (mkbuf (B_VALID b) (B_DIRTY b) (dev b) (blockno b) (refcnt b + 1) (lk_pid b) (data b)) ;;;
       acquiresleep me i ;;; ret i) c
  | None =>
      match find_first (fun i => (refcnt (bufs c i) =? 0) && negb (B_DIRTY (bufs c i))) (reverse l) with
      | Some i => (b <- get_buf i ;; set_buf i (mkbuf false false 1 bn 1 (lk_pid b) (data b)) ;;;
                   acquiresleep me i ;;; ret i) c
      | None => Panic "bget: no buffers" c
      end
  end.
Proof.
  intros Hr Hh Hl. unfold bget. unfold bind at 1, get at 1. unfold bind at 1.
  rewrite (walk_next c _ l) by done. destruct (find_first _ l); [done|].
  unfold bind at 1. rewrite (walk_prev c _ l) by done. by destruct (find_first _ (reverse l)).
Qed.

Lemma spec_read_held a b : b ∈ bheld a -> spec_op (OpRead b) a = Sleep b a.
Proof. intros H. simpl. unfold bind, Bcache.bread. by rewrite decide_True. Qed.

Lemma spec_read_ok a b : b ∉ bheld a -> 0 <= b < disksize a ->
  b ∈ dirty a \/ Z.of_nat (length (pinned a)) < NBUF ->
  spec_op (OpRead b) a = Ret (view a b) (b_held (b :: bheld a) a).
Proof.
  intros H1 H2 H3. simpl. unfold bind. rewrite bread_eq by done.
  by rewrite bdata_eq by (by left).
Qed.

(** The result of a successful read: the buffer locked, its count one. *)
Lemma read_sim_ok c env a l i b x' bufs' :
  sim me c env a l -> i ∈ l -> b ∉ bheld a -> 0 <= b < disksize a ->
  x' = mkbuf true (bool_decide (b ∈ dirty a)) 1 b 1 me (view a b) ->
  bufs' i = x' -> (forall j, j <> i -> bufs' j = bufs c j) ->
  (forall j, j ∈ l -> dev (bufs c j) = 1 -> blockno (bufs c j) = b -> j = i) ->
  (dev (bufs c i) = 1 -> blockno (bufs c i) <> b ->
     blockno (bufs c i) ∉ dirty a /\ blockno (bufs c i) ∉ bheld a) ->
  sim me (mkbcache bufs' (next c) (prev c) (memdisk c) (mdsize c) (io c))
    (fun y => if y =? b then Some i else env y) (b_held (b :: bheld a) a) l.
Proof.
  intros Hs Hi Hh Hr -> Hx Ho Hu Hev. pose proof Hs as [S1 S2 S3 _ _ _ _ (Hd1 & Hd2 & Hcl)].
  eapply (sim_update c env a l i b); simpl; try done; rewrite ?Hx; simpl; try done.
  - constructor; simpl; [done|done|done|by rewrite bool_decide_eq_true| |];
      rewrite decide_True by (by left); done.
  - intros y Hy. split; [done|]. split; [done|]. rewrite elem_of_cons. naive_solver.
  - intros y Hy. by destruct (Z.eqb_spec y b).
  - intros _. by rewrite Z.eqb_refl.
  - by apply NoDup_cons.
  - intros y Hy1 Hy2. apply Hcl; [done|]. intros H. apply Hy2. by right.
Qed.

(** The buffer as bget returns it. *)
Definition locked_by (x : buf) : buf :=
  mkbuf (B_VALID x) (B_DIRTY x) (dev x) (blockno x) (refcnt x) me (data x).

Lemma take_eq i f c : 
  (b <- get_buf i ;; set_buf i (f b) ;;; acquiresleep me i ;;; ret i) c =
  if lk_pid (f (bufs c i)) =? 0
  then Ret i (with_buf i (locked_by (f (bufs c i))) (with_buf i (f (bufs c i)) c))
  else Sleep (Z.of_nat i) (with_buf i (f (bufs c i)) c).
Proof.
  unfold acquiresleep, bind, get_buf, gets, set_buf, modify, ret. cbn [with_buf bufs].
  rewrite upd_same. by destruct (lk_pid _ =? 0).
Qed.

Lemma holding_eq i c : lk_pid (bufs c i) = me -> holdingsleep me i c = Ret true c.
Proof.
  intros E. unfold holdingsleep, bind, get_buf, gets, ret. rewrite E, Z.eqb_refl.
  by rewrite (proj2 (Z.eqb_neq me 0)).
Qed.

(** Reading a block into a buffer that bget has just recycled. *)
Lemma iderw_read_eq i c b dt rc : bufs c i = mkbuf false false 1 b rc me dt ->
  iderw me i c =
  if (b <? 0) || (mdsize c <=? b) then Panic "iderw: block out of range" c
  else Ret tt (with_buf i (mkbuf true false 1 b rc me (memdisk c b)) c).
Proof.
  intros E. unfold iderw, bind at 1. rewrite holding_eq by (by rewrite E).
  unfold bind, get_buf, gets, get. cbn [negb]. cbv beta iota. rewrite E. simpl. by destruct (_ || _).
Qed.

Lemma iderw_write_eq i c b dt v : bufs c i = mkbuf v true 1 b 1 me dt -> 0 <= b < mdsize c ->
  iderw me i c = Ret tt (mkbcache (upd i (mkbuf true false 1 b 1 me dt) (bufs c)) (next c) (prev c)
    (set_block b dt (memdisk c)) (mdsize c) (io c ++ [(b, dt)])).
Proof.
  intros E Hr. unfold iderw, bind at 1. rewrite holding_eq by (by rewrite E).
  unfold bind, get_buf, gets, get. cbn [negb]. cbv beta iota. rewrite E. simpl. rewrite andb_false_r.
  destruct (Z.ltb_spec b 0), (Z.leb_spec (mdsize c) b); try lia. done.
Qed.

Lemma agree_read c env a l b : sim me c env a l -> agree c env (OpRead b) a.
Proof.
  intros Hs. destruct (sim_length _ _ _ _ Hs) as (Hl & Hnd & Hh).
  pose proof Hs as [(S1 & S1' & S1'') S2 _ S4 S5 S6 _ (_ & _ & Hcl)].
  pose proof (bget_eq c l b S2 Hh ltac:(lia)) as Eget.
  destruct (find_first _ l) as [i|] eqn:Ef.
  - (* cached *)
    apply find_first_Some in Ef as [Hi Hp]. zbool. destruct (S4 i Hi) as [[? _]|[Hd Hca]]; [congruence|].
    rewrite take_eq in Eget.
    destruct (bufs c i) as [v d0 dv bn rc lk dt] eqn:Ei. simpl in *. subst dv bn.
    pose proof Hca as [Hv Hr Hdt Hdd Hlk Hrc]. simpl in *. subst.
    unfold agree. destruct (decide (b ∈ bheld a)) as [Hb|Hb].
    + rewrite spec_read_held by done. rewrite (proj2 (Z.eqb_neq me 0)) in Eget by done.
      do 2 eexists. unfold run_op, bread, bind. by rewrite Eget.
    + rewrite spec_read_ok; [|done|done|].
      * eexists (fun y => if y =? b then Some i else env y), _, l. split.
        { unfold run_op, bread, bind. rewrite Eget. simpl.
          unfold get_buf, gets, ret. cbn [with_buf bufs]. rewrite !upd_same. simpl.
          rewrite !upd_same. done. }
        apply (read_sim_ok c env a l i b (mkbuf true d0 1 b 1 me (view a b))); try done.
        -- f_equal. destruct d0; symmetry; [by apply bool_decide_eq_true, Hdd|].
           apply bool_decide_eq_false. intros H%Hdd. done.
        -- by rewrite upd_same.
        -- intros j Hj. cbn [with_buf bufs]. by rewrite !upd_other.
        -- intros j Hj Hdj Hbj. apply S5; [done|done|done|by rewrite Ei|by rewrite Ei].
        -- by rewrite Ei.
      * destruct (decide (b ∈ dirty a)); [by left|right]. eapply (pinned_lt c env a l i); [done|done|].
        rewrite Ei. simpl. rewrite elem_of_pinned. tauto.
  - (* not cached *)
    assert (Hno : forall j, j ∈ l -> dev (bufs c j) = 1 -> blockno (bufs c j) <> b).
    { intros j Hj Hd Hb. pose proof (find_first_None _ _ Ef j Hj) as Hf. simpl in Hf.
      rewrite Hd, Hb, !Z.eqb_refl in Hf. done. }
    assert (Hnb : b ∉ dirty a /\ b ∉ bheld a).
    { split; intros H; destruct (S6 b) as (j & Hj & Hd & Hb); [by auto| |by auto|]; by apply (Hno j). }
    destruct Hnb as [Hnd' Hnh]. unfold agree.
    destruct (find_first _ (reverse l)) as [i|] eqn:Eg.
    + apply find_first_Some in Eg as [Hi Hp]. rewrite elem_of_reverse in Hi. zbool.
      assert (Hun : ~ (dev (bufs c i) = 1 /\ blockno (bufs c i) ∈ pinned a) /\ lk_pid (bufs c i) = 0).
      { destruct (S4 i Hi) as [(? & _ & _ & _ & ?)|[Hd Hca]]; [split; [lia|done]|].
        destruct Hca as [_ _ _ Hdd Hlk Hrc]. destruct (decide (blockno (bufs c i) ∈ bheld a)); [lia|].
        split; [|done]. rewrite elem_of_pinned. intros [_ [H'%Hdd|H']]; [congruence|done]. }
      destruct Hun as [Hun Hlk]. pose proof (pinned_lt c env a l i Hs Hi Hun) as Hlt.
      rewrite take_eq in Eget. simpl in Eget. rewrite Hlk in Eget. simpl in Eget.
      set (c1 := with_buf i _ (with_buf i _ c)) in Eget.
      assert (Ec1 : bufs c1 i = mkbuf false false 1 b 1 me (data (bufs c i))) by apply upd_same.
      pose proof (iderw_read_eq i c1 b _ _ Ec1) as Eio.
      destruct ((b <? 0) || (mdsize c1 <=? b)) eqn:Erange.
      * simpl. unfold bind at 1. unfold Bcache.bread.
        rewrite decide_False, decide_False by (done || lia).
        change (mdsize c1) with (mdsize c) in Erange. rewrite S1' in Erange. rewrite Erange.
        eexists. unfold bread, bind. rewrite Eget.
        unfold get_buf, gets. rewrite Ec1. simpl. by rewrite Eio.
      * apply orb_false_iff in Erange as [Hr1 Hr2]. zbool.
        change (mdsize c1) with (mdsize c) in Hr2. rewrite S1' in Hr2.
        rewrite spec_read_ok by (done || lia || by right).
        eexists (fun y => if y =? b then Some i else env y), _, l. split.
        { unfold run_op, bread, bind. rewrite Eget.
          unfold get_buf, gets, ret. rewrite Ec1. simpl. rewrite Eio. cbn [with_buf bufs].
          rewrite upd_same. simpl. rewrite S1, <- Hcl by done. done. }
        apply (read_sim_ok c env a l i b (mkbuf true false 1 b 1 me (view a b))); try done.
        -- by rewrite bool_decide_eq_false_2.
        -- by rewrite upd_same.
        -- intros j Hj. unfold c1, with_buf. simpl. by rewrite !upd_other.
        -- intros j Hj Hdj Hbj. by destruct (Hno j).
        -- intros H1 H2. rewrite elem_of_pinned in Hun. tauto.
    + assert (Hfull : NBUF <= Z.of_nat (length (pinned a))).
      { apply (pinned_full c env a l Hs). intros i Hi.
        pose proof (find_first_None _ _ Eg i ltac:(by rewrite elem_of_reverse)) as Hf. simpl in Hf.
        destruct (S4 i Hi) as [(_ & _ & Hdi & Hrc & _)|[Hd Hca]]; [by rewrite Hdi, Hrc in Hf|].
        split; [done|]. destruct Hca as [_ _ _ Hdd _ Hrc]. rewrite elem_of_pinned.
        destruct (decide (blockno (bufs c i) ∈ bheld a)); [by right|left]. apply Hdd.
        rewrite Hrc in Hf. by destruct (B_DIRTY (bufs c i)). }
      simpl. unfold bind at 1. unfold Bcache.bread. rewrite decide_False, decide_True by done.
      eexists. unfold bread, bind. by rewrite Eget.
Qed.

(** The buffer of a block that the process holds. *)
Lemma held_buf c env a l b : sim me c env a l -> b ∈ bheld a ->
  exists i, env b = Some i /\ i ∈ l /\
    bufs c i = mkbuf true (bool_decide (b ∈ dirty a)) 1 b 1 me (view a b) /\
    0 <= b < disksize a /\
    (forall j, j ∈ l -> dev (bufs c j) = 1 -> blockno (bufs c j) = b -> j = i).
Proof.
  intros Hs Hb. destruct (sm_env _ _ _ _ _ Hs b Hb) as (i & Ee & Hi & Hd & Hbn). exists i.
  destruct (sm_buf _ _ _ _ _ Hs i Hi) as [[? _]|[_ Hca]]; [congruence|].
  split; [done|]. split; [done|].
  assert (Hu : forall j, j ∈ l -> dev (bufs c j) = 1 -> blockno (bufs c j) = b -> j = i).
  { intros j Hj Hdj Hbj. apply (sm_uniq _ _ _ _ _ Hs); try done. congruence. }
  destruct (bufs c i) as [v d0 dv bn rc lk dt]. simpl in *. subst.
  destruct Hca as [Hv Hr Hdt Hdd Hlk Hrc]. simpl in *. subst. rewrite !decide_True by done.
  split; [|done]. f_equal. destruct d0; symmetry; [by apply bool_decide_eq_true, Hdd|].
  apply bool_decide_eq_false. intros H%Hdd. done.
Qed.

(** What the other operations do to the buffer of a held block. *)
Lemma held_sim c env a l b i c' a' l' :
  sim me c env a l -> env b = Some i -> i ∈ l -> dev (bufs c i) = 1 -> blockno (bufs c i) = b ->
  dev (bufs c' i) = 1 -> blockno (bufs c' i) = b -> caches me a' (bufs c' i) ->
  (forall j, j <> i -> bufs c' j = bufs c j) ->
  (forall y, y <> b -> view a' y = view a y /\ (y ∈ dirty a' <-> y ∈ dirty a) /\
     (y ∈ bheld a' <-> y ∈ bheld a)) ->
  disksize a' = disksize a ->
  memdisk c' = disk a' /\ mdsize c' = disksize a' /\ io c' = writes a' ->
  ring (next c') (prev c') l' -> l' ≡ₚ l -> NoDup (dirty a') -> NoDup (bheld a') ->
  (forall y, y ∉ dirty a' -> y ∉ bheld a' -> view a' y = disk a' y) ->
  sim me c' env a' l'.
Proof.
  intros Hs He Hi Hd Hb Hd' Hb' Hca Ho Hfr Hsz Hdk Hr Hp Hn1 Hn2 Hcl.
  apply (sim_update c env a l i b); try done.
  intros j Hj Hdj Hbj. apply (sm_uniq _ _ _ _ _ Hs); try done. congruence.
Qed.

Lemma filter_ne_iff (b y : Z) (d : list Z) : y <> b -> (y ∈ filter (fun x => x ≠ b) d <-> y ∈ d).
Proof. intros H. rewrite list_elem_of_filter. naive_solver. Qed.

Lemma agree_set c env a l b d : sim me c env a l -> agree c env (OpSet b d) a.
Proof.
  intros Hs. unfold agree. simpl. unfold bset, bind at 1. destruct (decide (b ∈ bheld a)) as [Hb|]; [|done].
  destruct (held_buf _ _ _ _ _ Hs Hb) as (i & Ee & Hi & Ei & Hr & Hu). simpl. rewrite Ee.
  unfold bind, get_buf, gets, set_buf, modify, ret. rewrite Ei. simpl.
  eexists env, _, l. split; [done|]. pose proof Hs as [S1 S2 _ _ _ _ _ (Hn1 & Hn2 & Hcl)].
  apply (held_sim c env a l b i); simpl; try done; rewrite ?upd_same, ?Ei; try done.
  - constructor; simpl; [done|done|by rewrite set_block_same|by rewrite bool_decide_eq_true|by rewrite decide_True..].
  - intros j Hj. by rewrite upd_other.
  - intros y Hy. by rewrite set_block_other.
  - intros y Hy1 Hy2. rewrite set_block_other; [by apply Hcl|]. intros ->. done.
Qed.

Lemma agree_dirty c env a l b : sim me c env a l -> agree c env (OpDirty b) a.
Proof.
  intros Hs. unfold agree. simpl. unfold bdirty, bind at 1. destruct (decide (b ∈ bheld a)) as [Hb|]; [|done].
  destruct (held_buf _ _ _ _ _ Hs Hb) as (i & Ee & Hi & Ei & Hr & Hu). simpl. rewrite Ee.
  unfold bind, get_buf, gets, set_buf, modify, ret. rewrite Ei. simpl.
  eexists env, _, l. split; [done|]. pose proof Hs as [S1 S2 _ _ _ _ _ (Hn1 & Hn2 & Hcl)].
  apply (held_sim c env a l b i); simpl; try done; rewrite ?upd_same, ?Ei; try done.
  - constructor; simpl; [done|done|done|split; [by left|done]|by rewrite decide_True..].
  - intros j Hj. by rewrite upd_other.
  - intros y Hy. split; [done|]. split; [|done]. rewrite elem_of_cons, filter_ne_iff by done. naive_solver.
  - apply NoDup_cons. split; [rewrite list_elem_of_filter; naive_solver|by apply NoDup_filter].
  - intros y Hy1 Hy2. apply Hcl; [|done]. intros H. apply Hy1.
    destruct (decide (y = b)) as [->|]; [by left|right]. by apply filter_ne_iff.
Qed.

Lemma agree_write c env a l b : sim me c env a l -> agree c env (OpWrite b) a.
Proof.
  intros Hs. unfold agree. simpl. destruct (decide (b ∈ bheld a)) as [Hb|]; [|done].
  unfold bind at 1. rewrite bwrite_eq by done. simpl.
  destruct (held_buf _ _ _ _ _ Hs Hb) as (i & Ee & Hi & Ei & Hr & Hu). rewrite Ee.
  pose proof Hs as [(S1 & S1' & S1'') S2 _ _ _ _ _ (Hn1 & Hn2 & Hcl)].
  set (c1 := with_buf i (mkbuf true true 1 b 1 me (view a b)) c).
  assert (Ec1 : bufs c1 i = mkbuf true true 1 b 1 me (view a b)) by apply upd_same.
  pose proof (iderw_write_eq i c1 b _ _ Ec1 ltac:(simpl; by rewrite S1')) as Eio.
  eexists env, _, l. split.
  { unfold bwrite, bind at 1 2. rewrite holding_eq by (by rewrite Ei). simpl.
    unfold bind at 1 2, get_buf, gets, set_buf, modify. rewrite Ei. simpl.
    unfold bind. fold c1. rewrite Eio. done. }
  apply (held_sim c env a l b i); simpl; try done; rewrite ?upd_same, ?Ei; try done.
  - constructor; simpl; [done|done|done| |by rewrite decide_True..].
    split; [done|]. rewrite list_elem_of_filter. naive_solver.
  - intros j Hj. unfold c1, with_buf. simpl. by rewrite !upd_other.
  - intros y Hy. split; [done|]. split; [by apply filter_ne_iff|done].
  - by rewrite S1, S1''.
  - by apply NoDup_filter.
  - intros y Hy1 Hy2. rewrite set_block_other by (by intros ->). apply Hcl; [|done].
    intros H. apply Hy1. apply filter_ne_iff; [by intros ->|done].
Qed.

(** Moving a buffer to the front of the list. *)
Definition relinked (i : nat) (n p : nat -> nat) : (nat -> nat) * (nat -> nat) :=
  let n1 := upd (p i) (n i) n in
  let p1 := upd (n i) (p i) p in
  (upd HEAD i (upd i (n1 HEAD) n1), upd (n1 HEAD) i (upd i HEAD p1)).

Lemma brelse_last_eq i c v dt b d : bufs c i = mkbuf v dt 1 b 1 me d ->
  next c i <> i -> i <> HEAD ->
  brelse me i c =
  Ret tt (mkbcache (upd i (mkbuf v dt 1 b 0 0 d) (upd i (mkbuf v dt 1 b 1 0 d) (bufs c)))
            (relinked i (next c) (prev c)).1 (relinked i (next c) (prev c)).2
            (memdisk c) (mdsize c) (io c)).
Proof.
  intros E H1 H2. unfold brelse, bind at 1. rewrite holding_eq by (by rewrite E).
  unfold releasesleep, push_front, bind, get_buf, get, gets, set_buf, set_prev, set_next, modify.
  cbn [negb with_buf bufs next prev memdisk mdsize io].
  rewrite E. cbn [B_VALID B_DIRTY dev blockno refcnt lk_pid data].
  rewrite !upd_same. simpl.
  rewrite (upd_other (next c i) _ (prev c) i) by done.
  by rewrite (upd_other i _ _ HEAD) by done.
Qed.

Lemma relinked_ring c l1 i l2 : NoDup (HEAD :: l1 ++ i :: l2) ->
  ring (next c) (prev c) (l1 ++ i :: l2) ->
  ring (relinked i (next c) (prev c)).1 (relinked i (next c) (prev c)).2 (i :: l1 ++ l2) /\
  next c i <> i.
Proof.
  intros Hnd Hr. destruct (unlink_ring _ _ _ _ _ Hnd Hr) as (Hr' & _ & Hn). split; [|done].
  assert (Hp : HEAD :: l1 ++ i :: l2 ≡ₚ i :: HEAD :: l1 ++ l2).
  { rewrite (Permutation_app_comm l1 (i :: l2)). simpl. rewrite (Permutation_app_comm l2 l1). constructor. }
  rewrite Hp in Hnd. apply NoDup_cons in Hnd as [Hi Hnd]. apply not_elem_of_cons in Hi as [Hh Hi].
  by apply push_ring.
Qed.

Lemma agree_relse c env a l b : sim me c env a l -> agree c env (OpRelse b) a.
Proof.
  intros Hs. unfold agree. simpl. destruct (decide (b ∈ bheld a)) as [Hb|]; [|done].
  unfold bind at 1, Bcache.brelse. rewrite decide_False by tauto. case_decide as Hdv; [done|]. simpl.
  destruct (held_buf _ _ _ _ _ Hs Hb) as (i & Ee & Hi & Ei & Hr & Hu). rewrite Ee.
  destruct (sim_length _ _ _ _ Hs) as (Hl & Hnd & Hh).
  pose proof Hs as [(S1 & S1' & S1'') S2 S3 _ _ _ _ (Hn1 & Hn2 & Hcl)].
  apply list_elem_of_split in Hi as Hsplit. destruct Hsplit as (l1 & l2 & El).
  destruct (relinked_ring c l1 i l2) as [Hring Hni]; [rewrite <- El; by apply NoDup_cons|by rewrite <- El|].
  pose proof (brelse_last_eq i c _ _ _ _ Ei Hni ltac:(intros ->; done)) as Erl.
  eexists env, _, (i :: l1 ++ l2). split.
  { unfold bind. rewrite Erl. done. }
  assert (Hbh : b ∉ filter (fun x => x ≠ b) (bheld a)) by (rewrite list_elem_of_filter; naive_solver).
  apply (held_sim c env a l b i); try done; try (by rewrite Ei); cbn [bufs];
    rewrite ?upd_same; try done.
  - constructor; simpl; [done|done|done|by rewrite bool_decide_eq_true|by rewrite decide_False..].
  - intros j Hj. simpl. by rewrite !upd_other.
  - intros y Hy. split; [done|]. split; [done|]. by apply filter_ne_iff.
  - rewrite El. rewrite (Permutation_app_comm l1 (i :: l2)). simpl.
    by rewrite (Permutation_app_comm l2 l1).
  - by apply NoDup_filter.
  - simpl. intros y Hy1 Hy2. destruct (decide (y = b)) as [->|Hne].
    + destruct (decide (view a b = disk a b)); [done|]. by destruct Hdv.
    + apply Hcl; [done|]. intros H. apply Hy2. by apply filter_ne_iff.
Qed.

Lemma agree_op c env a l o : sim me c env a l -> agree c env o a.
Proof.
  intros Hs. destruct o; [by eapply agree_read|by eapply agree_set|by eapply agree_write
    |by eapply agree_dirty|by eapply agree_relse].
Qed.
End simulation.

(** ** Boot *)

(** The globals before binit: zeroed buffers, the links arbitrary. *)
Definition boot_cache (D : Z -> block) (sz : Z) : bcache :=
  mkbcache (fun _ => mkbuf false false 0 0 0 0 zero_block) (fun _ => 0%nat) (fun _ => 0%nat) D sz [].
Definition boot_blocks (D : Z -> block) (sz : Z) : blocks := mkblocks sz D D [] [] [].

Lemma binit_runs me D sz : runs binit (boot_cache D sz) (fun _ c =>
  exists l, sim me c (fun _ => None) (boot_blocks D sz) l).
Proof.
  unfold binit. unfold set_prev at 1, set_next at 1. rsteps.
  apply (runs_for_all (fun pre c =>
    ring (next c) (prev c) (reverse pre) /\ (forall i, unused (bufs c i)) /\
    memdisk c = D /\ mdsize c = sz /\ io c = [])).
  - intros pre b post c Epre (Hr & Hu & Hd & Hs & Hio).
    assert (Hb : (b < 30)%nat /\ b ∉ pre /\ NoDup pre /\ HEAD ∉ pre).
    { assert (Hin : forall x, x ∈ pre ++ b :: post -> (x < 30)%nat) by (rewrite <- Epre; intros x Hx%elem_of_seq; lia).
      pose proof (NoDup_seq 0 30) as Hnd. rewrite Epre in Hnd. apply NoDup_app in Hnd as (H1 & H2 & _).
      split; [apply Hin, elem_of_app; right; by left|]. split; [intros H; apply (H2 b H); by left|].
      split; [done|]. intros H. specialize (Hin HEAD ltac:(apply elem_of_app; by left)). unfold HEAD in Hin. lia. }
    destruct Hb as (Hb & Hnb & Hndp & Hhp).
    destruct (push_ring (next c) (prev c) (reverse pre) b) as [Hr' Hne].
    { apply NoDup_cons. rewrite elem_of_reverse. split; [done|]. by rewrite reverse_Permutation. }
    { by rewrite elem_of_reverse. }
    { unfold HEAD. lia. }
    { done. }
    unfold set_next, set_prev, get_buf, set_buf. rsteps. simpl.
    rewrite reverse_app. simpl. split; [|split; [|done]].
    + rewrite (upd_other b _ (next c) HEAD) by (unfold HEAD; lia). exact Hr'.
    + intros j. unfold upd. case_decide; [subst|apply Hu]. specialize (Hu b).
      unfold unused in *. simpl. tauto.
  - intros c (Hr & Hu & Hd & Hs & Hio). exists (reverse (seq 0 30)).
    constructor; simpl.
    + done.
    + done.
    + apply reverse_Permutation.
    + intros i _. by left.
    + intros i j _ _ H. destruct (Hu i). lia.
    + intros b [H|H]; by apply not_elem_of_nil in H.
    + intros b H. by apply not_elem_of_nil in H.
    + split; [constructor|]. split; [constructor|done].
  - simpl. split; [|done]. intros a b [= -> ->]%list_elem_of_singleton. by rewrite !upd_same.
Qed.

(** ** Theorem *)
Fixpoint spec_ops (ops : list bop) : M blocks (list block) :=
  match ops with
  | [] => ret []
  | o :: ops' => d <- spec_op o ;; ds <- spec_ops ops' ;; ret (d :: ds)
  end.
Fixpoint run_ops (me : Z) (ops : list bop) (env : handles) : M bcache (list block) :=
  match ops with
  | [] => ret []
  | o :: ops' =>
      r <- run_op me o env ;; ds <- run_ops me ops' r.2 ;; ret (r.1 :: ds)
  end.

Lemma run_ops_sim me ops : me <> 0 -> forall c env a l, sim me c env a l ->
  match spec_ops ops a with
  | Ret ds a' => exists c' env' l', run_ops me ops env c = Ret ds c' /\ sim me c' env' a' l'
  | Panic m _ => exists c', run_ops me ops env c = Panic m c'
  | Sleep _ _ => exists ch c', run_ops me ops env c = Sleep ch c'
  | _ => True
  end.
Proof.
  intros Hme. induction ops as [|o ops IH]; intros c env a l Hs; simpl; [by exists c, env, l|].
  pose proof (agree_op me Hme c env a l o Hs) as Ha. unfold agree in Ha. unfold bind.
  destruct (spec_op o a) as [d a1|m ?|?|ch ?|]; [| |done| |done].
  - destruct Ha as (env1 & c1 & l1 & E & Hs1). rewrite E. simpl. specialize (IH _ _ _ _ Hs1).
    destruct (spec_ops ops a1) as [ds a2|m ?|?|ch ?|]; [| |done| |done].
    + destruct IH as (c2 & env2 & l2 & E2 & Hs2). rewrite E2. by exists c2, env2, l2.
    + destruct IH as (c2 & E2). rewrite E2. by exists c2.
    + destruct IH as (ch' & c2 & E2). rewrite E2. by exists ch', c2.
  - destruct Ha as (c1 & E). rewrite E. by exists c1.
  - destruct Ha as (ch' & c1 & E). rewrite E. by exists ch', c1.
Qed.

(** C14. The buffer cache implements its contract.  After [binit], for every
    sequence of reads, changes, writes, dirty marks and releases by a process:
    whatever the contract says, the thirty buffers and their list do.  The
    same data is read, the disk ends with the same contents after the same
    writes in the same order, and a read panics or sleeps exactly when the
    contract says so, although the buffers are recycled in least-recently-used
    order behind the client's back. *)
Theorem bcache_refines me D sz ops : me <> 0 ->
  match spec_ops ops (boot_blocks D sz) with
  | Ret ds a => exists c, (binit ;;; run_ops me ops (fun _ => None)) (boot_cache D sz) = Ret ds c /\
      memdisk c = disk a /\ io c = writes a
  | Panic m _ => exists c, (binit ;;; run_ops me ops (fun _ => None)) (boot_cache D sz) = Panic m c
  | Sleep _ _ => exists ch c, (binit ;;; run_ops me ops (fun _ => None)) (boot_cache D sz) = Sleep ch c
  | _ => True
  end.
Proof.
  intros Hme. destruct (binit_runs me D sz) as ([] & c0 & E0 & l & Hs).
  pose proof (run_ops_sim me ops Hme c0 (fun _ => None) _ l Hs) as H. unfold bind. rewrite E0.
  destruct (spec_ops ops (boot_blocks D sz)); [|exact H|exact I|exact H|exact I].
  destruct H as (c' & env' & l' & E & Hs'). exists c'. split; [exact E|]. destruct Hs' as [(H1 & _ & H3) _]. split; assumption.
Qed.

(** Forty blocks read in turn: the buffers are recycled, the data is right. *)
Definition example_disk : Z -> block := fun b => replicate 512 (b `mod` 256).
Definition scan : list bop :=
  mjoin ((fun b => [OpRead b; OpRelse b]) <$> seqZ 0 40) ++
  [OpRead 3; OpSet 3 (replicate 512 9); OpWrite 3; OpRelse 3; OpRead 39; OpRead 3].

Lemma scan_ok :
  match spec_ops scan (boot_blocks example_disk 1000) with
  | Ret ds a => bool_decide (disk a 3 = replicate 512 9 /\ last ds = Some (replicate 512 9))
  | _ => false
  end = true.
Proof. vm_compute. reflexivity. Qed.

Lemma bcache_refines_witness : exists ds a c,
  spec_ops scan (boot_blocks example_disk 1000) = Ret ds a /\
  (binit ;;; run_ops 1 scan (fun _ => None)) (boot_cache example_disk 1000) = Ret ds c /\
  memdisk c 3 = replicate 512 9 /\ last ds = Some (replicate 512 9).
Proof.
  pose proof (bcache_refines 1 example_disk 1000 scan ltac:(lia)) as H. pose proof scan_ok as Hok.
  destruct (spec_ops scan (boot_blocks example_disk 1000)) as [ds a| | | |];
    [|discriminate Hok..].
  apply bool_decide_eq_true in Hok as [H3 Hl].
  destruct H as (c & E' & Hd & _). exists ds, a, c. split; [reflexivity|]. split; [exact E'|].
  rewrite Hd. split; [exact H3|exact Hl].
Defined.
