(* ===== verification/Ide.v ===== *)
(** * ide.c: the disk driver

    The driver talks to the drive through ports.  The drive is not code of the
    repository: it is a type [D] with the port operations [Ata], and [AtaOk]
    states what the driver relies on, the documented behaviour of the registers
    of an ATA drive that reports no error.  [D] also advances on its own
    ([elapse]).  The functions that run under [idelock] are critical sections
    of Monitor; the interrupt handler may run at any time, also when the drive
    has nothing to report. *)
From stdpp Require Import base numbers list list_numbers relations strings.
From Stdlib Require Import ZArith Lia.
From S2P Require Import Prelude Block Bcache Bio Monitor.
#[local] Open Scope Z_scope.

Definition SECTOR_SIZE : Z := 512.
Definition IDE_BSY : Z := 0x80.
Definition IDE_DRDY : Z := 0x40.
Definition IDE_DF : Z := 0x20.
Definition IDE_ERR : Z := 0x01.
Definition IDE_CMD_READ : Z := 0x20.
Definition IDE_CMD_WRITE : Z := 0x30.
Definition IDE_CMD_RDMUL : Z := 0xc4.
Definition IDE_CMD_WRMUL : Z := 0xc5.

(** The ports of a drive; [patience] bounds how often it reports busy. *)
Class Ata (D : Type) := {
  inb : Z -> D -> Z * D;
  outb : Z -> Z -> D -> D;
  outsl : Z -> block -> D -> D;
  insl : Z -> D -> block * D;
  elapse : D -> D;
  patience : D -> nat }.

(** The transfers through the data port, in order: a ghost. *)
Inductive transfer := Wrote (d : Z) (sector : Z) (x : block) | Got (d : Z) (sector : Z) (x : block).

(** Buffers are numbered 0..NBUF-1; [qnext] is the field of each buffer. *)
Record ide (D : Type) := mkide {
  ibufs : nat -> buf; idequeue : option nat; qnext : nat -> option nat; havedisk1 : bool; hw : D; trace : list transfer }.
Arguments mkide {D}.
Arguments ibufs {D}.
Arguments idequeue {D}.
Arguments qnext {D}.
Arguments havedisk1 {D}.
Arguments hw {D}.
Arguments trace {D}.

(** The address of a buffer, as a channel. *)
Definition chan (b : nat) : Z := Z.of_nat b + 1.

Section driver.
Context {D : Type} `{Ata D}.

Definition set_ibuf (b : nat) (x : buf) (s : ide D) : ide D :=
  mkide (upd b x (ibufs s)) (idequeue s) (qnext s) (havedisk1 s) (hw s) (trace s).
Definition set_hw (d : D) (s : ide D) : ide D :=
  mkide (ibufs s) (idequeue s) (qnext s) (havedisk1 s) d (trace s).
Definition set_queue (q : option nat) (s : ide D) : ide D :=
  mkide (ibufs s) q (qnext s) (havedisk1 s) (hw s) (trace s).
Definition set_qnext (b : nat) (q : option nat) (s : ide D) : ide D :=
  mkide (ibufs s) (idequeue s) (upd b q (qnext s)) (havedisk1 s) (hw s) (trace s).
Definition transferred (t : transfer) (s : ide D) : ide D :=
  mkide (ibufs s) (idequeue s) (qnext s) (havedisk1 s) (hw s) (trace s ++ [t]).

Definition status : M (ide D) Z := fun s => let '(r, d) := inb 0x1f7 (hw s) in Ret r (set_hw d s).
Definition out (port v : Z) : M (ide D) unit := modify (fun s => set_hw (outb port v (hw s)) s).

Definition idewait (checkerr : bool) : M (ide D) Z := fun s =>
  (r <- loop (S (patience (hw s))) (fun _ : unit =>
     r <- status ;;
     if negb (Z.land r (Z.lor IDE_BSY IDE_DRDY) =? IDE_DRDY) then ret (inl tt) else ret (inr r)) tt ;;
   ret (if checkerr && negb (Z.land r (Z.lor IDE_DF IDE_ERR) =? 0) then -1 else 0)) s.

Definition ideinit : M (ide D) unit :=
  idewait false ;;;
  out 0x1f6 (Z.lor 0xe0 (Z.shiftl 1 4)) ;;;
  for_each (seqZ 0 1000) (fun _ =>
    r <- status ;;
    if negb (r =? 0) then
      modify (fun s => mkide (ibufs s) (idequeue s) (qnext s) true (hw s) (trace s)) ;;; ret (Some tt)
    else ret None) ;;;
  out 0x1f6 (Z.lor 0xe0 (Z.shiftl 0 4)).

Definition idestart (p : option nat) : M (ide D) unit :=
  match p with
  | None => panic "idestart"
  | Some b =>
      x <- gets (fun s => ibufs s b) ;;
      if FSSIZE <=? blockno x then panic "incorrect blockno"
      else
        let sector_per_block := BSIZE / SECTOR_SIZE in
        let sector := blockno x * sector_per_block in
        let read_cmd := if sector_per_block =? 1 then IDE_CMD_READ else IDE_CMD_RDMUL in
        let write_cmd := if sector_per_block =? 1 then IDE_CMD_WRITE else IDE_CMD_WRMUL in
        if 7 <? sector_per_block then panic "idestart"
        else
          idewait false ;;;
          out 0x3f6 0 ;;;
          out 0x1f2 sector_per_block ;;;
          out 0x1f3 (Z.land sector 0xff) ;;;
          out 0x1f4 (Z.land (Z.shiftr sector 8) 0xff) ;;;
          out 0x1f5 (Z.land (Z.shiftr sector 16) 0xff) ;;;
          out 0x1f6 (Z.lor (Z.lor 0xe0 (Z.shiftl (Z.land (dev x) 1) 4)) (Z.land (Z.shiftr sector 24) 0x0f)) ;;;
          if B_DIRTY x then
            out 0x1f7 write_cmd ;;;
            modify (fun s => set_hw (outsl 0x1f0 (data x) (hw s)) s) ;;;
            modify (transferred (Wrote (Z.land (dev x) 1) sector (data x)))
          else out 0x1f7 read_cmd
  end.

(** Returns the channels it has called [wakeup] on. *)
Definition ideintr : M (ide D) (list Z) :=
  q <- gets idequeue ;;
  match q with
  | None => ret []
  | Some b =>
      n <- gets (fun s => qnext s b) ;;
      modify (set_queue n) ;;;
      x <- gets (fun s => ibufs s b) ;;
      (if B_DIRTY x then ret tt
       else
         r <- idewait true ;;
         if 0 <=? r then
           fun s =>
             let '(w, d) := insl 0x1f0 (hw s) in
             Ret tt (transferred (Got (Z.land (dev x) 1) (blockno x) w)
               (set_hw d (set_ibuf b (mkbuf (B_VALID x) (B_DIRTY x) (dev x) (blockno x) (refcnt x) (lk_pid x) w) s)))
         else ret tt) ;;;
      y <- gets (fun s => ibufs s b) ;;
      modify (set_ibuf b (mkbuf true false (dev y) (blockno y) (refcnt y) (lk_pid y) (data y))) ;;;
      (if bool_decide (n = None) then ret tt else idestart n) ;;;
      ret [chan b]
  end.

(** [*pp]: [None] is the address of [idequeue], [Some b] that of [b->qnext]. *)
Definition at_pp (pp : option nat) (s : ide D) : option nat :=
  match pp with None => idequeue s | Some b => qnext s b end.
Definition set_pp (pp : option nat) (v : option nat) (s : ide D) : ide D :=
  match pp with None => set_queue v s | Some b => set_qnext b v s end.

(** The test of the waiting loop; [sleep] ends the critical section. *)
Definition iderw_wait (b : nat) : M (ide D) unit :=
  x <- gets (fun s => ibufs s b) ;;
  if B_VALID x && negb (B_DIRTY x) then ret tt else fun s => Sleep (chan b) s.

Definition iderw (me : Z) (b : nat) : M (ide D) unit :=
  x <- gets (fun s => ibufs s b) ;;
  if (lk_pid x =? 0) || negb (lk_pid x =? me) then panic "iderw: buf not locked"
  else if B_VALID x && negb (B_DIRTY x) then panic "iderw: nothing to do"
  else
    h <- gets havedisk1 ;;
    if negb (dev x =? 0) && negb h then panic "iderw: ide disk 1 not present"
    else
      modify (set_qnext b None) ;;;
      pp <- loop (S (Z.to_nat NBUF)) (fun pp =>
              v <- gets (at_pp pp) ;;
              match v with Some c => ret (inl (Some c)) | None => ret (inr pp) end) None ;;
      modify (set_pp pp (Some b)) ;;;
      q <- gets idequeue ;;
      (if decide (q = Some b) then idestart (Some b) else ret tt) ;;;
      iderw_wait b.
End driver.

(** ** What the driver relies on *)

(** The command a drive executes. *)
Inductive job := Idle | Reading (drv sector : Z) | Writing (drv sector : Z).

Definition store (drv sector : Z) (x : block) (m : Z -> Z -> block) : Z -> Z -> block :=
  fun d s => if bool_decide (d = drv /\ s = sector) then x else m d s.

(** The registers that take the address of a command. *)
Definition arg_port (p : Z) : bool := bool_decide (p ∈ [0x3f6; 0x1f2; 0x1f3; 0x1f4; 0x1f5; 0x1f6]).
Definition reg_drv (reg : Z -> Z) : Z := Z.land (Z.shiftr (reg 0x1f6) 4) 1.
Definition reg_sector (reg : Z -> Z) : Z :=
  Z.lor (reg 0x1f3) (Z.lor (Z.shiftl (reg 0x1f4) 8) (Z.lor (Z.shiftl (reg 0x1f5) 16) (Z.shiftl (Z.land (reg 0x1f6) 0x0f) 24))).
(** One sector, by its logical number, with an interrupt at the end. *)
Definition reg_ok (reg : Z -> Z) : Prop :=
  reg 0x3f6 = 0 /\ reg 0x1f2 = 1 /\ Z.land (reg 0x1f6) 0xe0 = 0xe0.

(** A drive that reports no error.  [ready] holds from the poll that finds the
    drive ready to the next command. *)
Class AtaOk (D : Type) `{Ata D} := {
  media : D -> Z -> Z -> block;
  reg : D -> Z -> Z;
  doing : D -> job;
  ready : D -> Prop;
  ata_poll d : let '(r, d') := inb 0x1f7 d in
    media d' = media d /\ doing d' = doing d /\
    if Z.land r (Z.lor IDE_BSY IDE_DRDY) =? IDE_DRDY then ready d' /\ Z.land r (Z.lor IDE_DF IDE_ERR) = 0
    else (patience d' < patience d)%nat;
  ata_elapse d : media (elapse d) = media d /\ doing (elapse d) = doing d;
  ata_arg p v d : arg_port p = true -> ready d -> doing d = Idle ->
    media (outb p v d) = media d /\ doing (outb p v d) = Idle /\ ready (outb p v d) /\
    (forall q, arg_port q = true -> reg (outb p v d) q = if q =? p then v else reg d q);
  ata_read d : ready d -> doing d = Idle -> reg_ok (reg d) ->
    media (outb 0x1f7 IDE_CMD_READ d) = media d /\
    doing (outb 0x1f7 IDE_CMD_READ d) = Reading (reg_drv (reg d)) (reg_sector (reg d));
  ata_write d : ready d -> doing d = Idle -> reg_ok (reg d) ->
    media (outb 0x1f7 IDE_CMD_WRITE d) = media d /\
    doing (outb 0x1f7 IDE_CMD_WRITE d) = Writing (reg_drv (reg d)) (reg_sector (reg d));
  ata_outsl x d drv sector : doing d = Writing drv sector ->
    doing (outsl 0x1f0 x d) = Idle /\ media (outsl 0x1f0 x d) = store drv sector x (media d);
  ata_insl d drv sector : ready d -> doing d = Reading drv sector ->
    let '(x, d') := insl 0x1f0 d in x = media d drv sector /\ doing d' = Idle /\ media d' = media d }.

(** ** One transfer *)
Section transfers.
Context {D : Type} `{AtaOk D}.

Lemma idewait_ok c (s : ide D) : runs (idewait c) s (fun r s' => r = 0 /\ exists d', s' = set_hw d' s /\
  ready d' /\ media d' = media (hw s) /\ doing d' = doing (hw s)).
Proof.
  unfold idewait. apply runs_bind. set (n := patience (hw s)).
  assert (Hl : forall n (s0 : ide D) d, s0 = set_hw d s -> media d = media (hw s) -> doing d = doing (hw s) -> (patience d <= n)%nat ->
    runs (loop (S n) (fun _ : unit => r <- status ;;
     if negb (Z.land r (Z.lor IDE_BSY IDE_DRDY) =? IDE_DRDY) then ret (inl tt) else ret (inr r)) tt) s0
      (fun r s' => Z.land r (Z.lor IDE_DF IDE_ERR) = 0 /\ exists d', s' = set_hw d' s /\ ready d' /\ media d' = media (hw s) /\ doing d' = doing (hw s))).
  { clear n. intros n. induction n as [|n IH]; intros s0 d -> Hm Hj Hn; cbn [loop]; apply runs_bind; unfold status, bind, runs; cbn [set_hw hw];
      pose proof (ata_poll d) as Hp; destruct (inb 0x1f7 d) as [r d1]; destruct Hp as (Hm1 & Hj1 & Hp);
      destruct (_ =? IDE_DRDY); cbn [negb].
    1,3: eexists _, _; split; [reflexivity|]; destruct Hp as [Hp1 Hp2]; apply runs_ret; split; [done|]; exists d1; split_and!; [done|done|congruence..].
    - lia.
    - eexists _, _. split; [reflexivity|]. cbv iota. eapply IH; [reflexivity|congruence|congruence|lia]. }
  eapply runs_conseq; [apply (Hl _ s (hw s)); [by destruct s|done|done|unfold n; lia]|].
  intros r s' (Hr & Hs). rewrite Hr. cbn [Z.eqb negb]. rewrite andb_false_r. apply runs_ret. done.
Qed.

(** The registers after the six writes of [idestart]. *)
Definition reg6 (drv sector : Z) : Z := Z.lor (Z.lor 0xe0 (Z.shiftl drv 4)) (Z.land (Z.shiftr sector 24) 0x0f).
Definition program (drv sector : Z) (d : D) : D :=
  outb 0x1f6 (reg6 drv sector)
    (outb 0x1f5 (Z.land (Z.shiftr sector 16) 0xff) (outb 0x1f4 (Z.land (Z.shiftr sector 8) 0xff)
      (outb 0x1f3 (Z.land sector 0xff) (outb 0x1f2 1 (outb 0x3f6 0 d))))).

(** The sector number and the drive, cut into the registers, are put together again. *)
Definition address_ok (drv n : Z) : Prop :=
  Z.land (reg6 drv n) 0xe0 = 0xe0 /\ Z.land (Z.shiftr (reg6 drv n) 4) 1 = drv /\
  Z.lor (Z.land n 0xff) (Z.lor (Z.shiftl (Z.land (Z.shiftr n 8) 0xff) 8)
    (Z.lor (Z.shiftl (Z.land (Z.shiftr n 16) 0xff) 16) (Z.shiftl (Z.land (reg6 drv n) 0x0f) 24))) = n.

Lemma address_regs drv n : 0 <= drv < 2 -> 0 <= n < FSSIZE -> address_ok drv n.
Proof.
  intros Hd Hn. revert n Hn. enough (Hall : Forall (fun dr => Forall (address_ok dr) (seqZ 0 FSSIZE)) (seqZ 0 2)).
  { intros n Hn. rewrite Forall_forall in Hall. specialize (Hall drv ltac:(apply elem_of_seqZ; lia)). rewrite Forall_forall in Hall.
    apply Hall, elem_of_seqZ. lia. }
  unfold address_ok. apply (bool_decide_unpack _). by vm_compute.
Qed.

Lemma program_ok drv sector d : 0 <= drv < 2 -> 0 <= sector < FSSIZE -> ready d -> doing d = Idle ->
  let d' := program drv sector d in
  media d' = media d /\ doing d' = Idle /\ ready d' /\ reg_ok (reg d') /\ reg_drv (reg d') = drv /\ reg_sector (reg d') = sector.
Proof.
  intros Hd Hs Hr Hi. cbv zeta. unfold program.
  destruct (ata_arg 0x3f6 0 d eq_refl Hr Hi) as (Hm1 & Hi1 & Hr1 & E1).
  destruct (ata_arg 0x1f2 1 _ eq_refl Hr1 Hi1) as (Hm2 & Hi2 & Hr2 & E2).
  destruct (ata_arg 0x1f3 (Z.land sector 0xff) _ eq_refl Hr2 Hi2) as (Hm3 & Hi3 & Hr3 & E3).
  destruct (ata_arg 0x1f4 (Z.land (Z.shiftr sector 8) 0xff) _ eq_refl Hr3 Hi3) as (Hm4 & Hi4 & Hr4 & E4).
  destruct (ata_arg 0x1f5 (Z.land (Z.shiftr sector 16) 0xff) _ eq_refl Hr4 Hi4) as (Hm5 & Hi5 & Hr5 & E5).
  destruct (ata_arg 0x1f6 (reg6 drv sector) _ eq_refl Hr5 Hi5) as (Hm6 & Hi6 & Hr6 & E6).
  split; [congruence|]. split; [done|]. split; [done|].
  unfold reg_ok, reg_drv, reg_sector. 
  rewrite !E6 by done. rewrite !E5 by done. rewrite !E4 by done. rewrite !E3 by done. rewrite !E2 by done. rewrite !E1 by done. cbn [Z.eqb Pos.eqb].
  destruct (address_regs drv sector Hd Hs) as (A1 & A2 & A3). done.
Qed.

Definition drive (x : buf) : Z := Z.land (dev x) 1.

(** The drive and the transfers once the request [x] is at the head. *)
Definition started (x : buf) (d : D) (t : list transfer) (d' : D) (t' : list transfer) : Prop :=
  if B_DIRTY x then
    t' = t ++ [Wrote (drive x) (blockno x) (data x)] /\ doing d' = Idle /\ media d' = store (drive x) (blockno x) (data x) (media d)
  else t' = t /\ doing d' = Reading (drive x) (blockno x) /\ media d' = media d.

Lemma drive_range x : 0 <= drive x < 2.
Proof. unfold drive. change 1 with (Z.ones 1). rewrite Z.land_ones by lia. apply Z.mod_pos_bound. lia. Qed.

Lemma idestart_ok b (s : ide D) : doing (hw s) = Idle -> 0 <= blockno (ibufs s b) < FSSIZE ->
  exists s', idestart (Some b) s = Ret tt s' /\ ibufs s' = ibufs s /\ idequeue s' = idequeue s /\ qnext s' = qnext s /\
    havedisk1 s' = havedisk1 s /\ started (ibufs s b) (hw s) (trace s) (hw s') (trace s').
Proof.
  intros Hi Hb. unfold idestart. set (x := ibufs s b) in *. unfold bind at 1, gets at 1. fold x.
  destruct (Z.leb_spec FSSIZE (blockno x)); [lia|]. change (BSIZE / SECTOR_SIZE) with 1. rewrite Z.mul_1_r. change (7 <? 1) with false.
  change (1 =? 1) with true. cbv iota zeta.
  destruct (idewait_ok false s) as (r & s1 & E & _ & d & -> & Hr & Hm & Hd). unfold bind at 1. rewrite E. rewrite Hi in Hd.
  destruct (program_ok (drive x) (blockno x) d (drive_range x) Hb Hr Hd) as (Hm' & Hi' & Hr' & Hok & Hdrv & Hsec).
  unfold started. change (Z.land (dev x) 1) with (drive x). destruct (B_DIRTY x); eexists; (split; [reflexivity|]); cbn; split_and!; try done.
  - destruct (ata_write _ Hr' Hi' Hok) as [_ Hd2]. by apply (ata_outsl (data x) _ _ _ Hd2).
  - destruct (ata_write _ Hr' Hi' Hok) as [Hm2 Hd2]. rewrite Hdrv, Hsec in Hd2. destruct (ata_outsl (data x) _ _ _ Hd2) as [_ Hm3].
    etransitivity; [exact Hm3|congruence].
  - destruct (ata_read _ Hr' Hi' Hok) as [_ Hd2]. by rewrite Hdrv, Hsec in Hd2.
  - destruct (ata_read _ Hr' Hi' Hok) as [Hm2 _]. etransitivity; [exact Hm2|congruence].
Qed.

(** ** The queue *)
Fixpoint linked (nx : nat -> option nat) (p : option nat) (q : list nat) : Prop :=
  match q with
  | [] => p = None
  | b :: q' => p = Some b /\ linked nx (nx b) q'
  end.

Lemma linked_upd nx b v q : forall p, b ∉ q -> linked nx p q -> linked (upd b v nx) p q.
Proof.
  induction q as [|c q IH]; intros p Hb; cbn; [done|]. intros [-> Hq]. split; [done|].
  apply not_elem_of_cons in Hb as [Hc Hb]. rewrite upd_other by done. by apply IH.
Qed.

Lemma linked_snoc nx b c q : forall p, NoDup (q ++ [c]) -> nx b = None -> b ∉ q ++ [c] -> linked nx p (q ++ [c]) ->
  linked (upd c (Some b) nx) p ((q ++ [c]) ++ [b]).
Proof.
  induction q as [|e q IH]; intros p Hnd Hb Hn; cbn.
  - intros [-> _]. apply not_elem_of_cons in Hn as [Hn _]. rewrite upd_same, upd_other by done. done.
  - intros [-> Hq]. cbn in Hnd, Hn. apply NoDup_cons in Hnd as [He Hnd]. apply not_elem_of_cons in Hn as [_ Hn].
    split; [done|]. rewrite upd_other by (intros ->; apply He; set_solver). by apply IH.
Qed.

Lemma walk_end q : forall pp (s : ide D) n, linked (qnext s) (at_pp pp s) q -> (length q < n)%nat ->
  loop n (fun pp => v <- gets (at_pp pp) ;; match v with Some c => ret (inl (Some c)) | None => ret (inr pp) end) pp s =
    Ret (match last q with Some c => Some c | None => pp end) s.
Proof.
  induction q as [|b q IH]; intros pp s [|n] Hq Hn; cbn [linked length] in *; try lia; cbn [loop]; unfold bind, gets.
  - by rewrite Hq.
  - destruct Hq as [-> Hq]. cbn [ret]. rewrite (IH (Some b)); [|exact Hq|lia]. destruct q as [|c q]; [done|].
    change (last (b :: c :: q)) with (last (c :: q)). destruct (last (c :: q)) eqn:El; [done|]. by apply last_None in El.
Qed.

Lemma enqueue_ok b (s : ide D) q : linked (qnext s) (idequeue s) q -> NoDup q -> b ∉ q -> (length q <= 30)%nat ->
  let s1 := set_qnext b None s in let pp := last q in
  loop (S (Z.to_nat NBUF)) (fun pp => v <- gets (at_pp pp) ;; match v with Some c => ret (inl (Some c)) | None => ret (inr pp) end) None s1 = Ret pp s1 /\
  linked (qnext (set_pp pp (Some b) s1)) (idequeue (set_pp pp (Some b) s1)) (q ++ [b]).
Proof.
  intros Hq Hnd Hb Hl. cbv zeta. assert (Hq1 : linked (qnext (set_qnext b None s)) (idequeue s) q) by (by apply linked_upd). split.
  - rewrite (walk_end q); [by destruct (last q)|exact Hq1|]. change (Z.to_nat NBUF) with 30%nat. lia.
  - destruct q as [|c q _] using rev_ind; cbn [last set_pp set_queue set_qnext qnext idequeue app linked].
    + by rewrite upd_same.
    + rewrite last_snoc. cbn [set_pp set_qnext qnext idequeue]. apply linked_snoc; [done|by rewrite upd_same|done|done].
Qed.

(** ** The calls *)

(** A request the driver takes: the caller holds the buffer, and there is work. *)
Definition request_ok (h : bool) (pid : Z) (x : buf) : Prop :=
  lk_pid x = pid /\ B_VALID x && negb (B_DIRTY x) = false /\ (dev x = 0 \/ h = true) /\ 0 <= blockno x < FSSIZE.

(** What the drive is doing for the request at the head. *)
Definition serving (x : buf) (d : D) : Prop := doing d = if B_DIRTY x then Idle else Reading (drive x) (blockno x).

Lemma started_serving x d t d' t' : started x d t d' t' -> serving x d'.
Proof. unfold started, serving. destruct (B_DIRTY x); naive_solver. Qed.

Lemma iderw_ok b pid (s : ide D) q : linked (qnext s) (idequeue s) q -> NoDup q -> b ∉ q -> (length q <= 30)%nat -> pid <> 0 ->
  request_ok (havedisk1 s) pid (ibufs s b) -> (q = [] -> doing (hw s) = Idle) ->
  exists s', iderw pid b s = Sleep (chan b) s' /\ ibufs s' = ibufs s /\ havedisk1 s' = havedisk1 s /\
    linked (qnext s') (idequeue s') (q ++ [b]) /\
    if bool_decide (q = []) then started (ibufs s b) (hw s) (trace s) (hw s') (trace s') else hw s' = hw s /\ trace s' = trace s.
Proof.
  intros Hq Hnd Hb Hl Hp (Hlk & Hw & Hdev & Hbn) Hidle. unfold iderw. unfold bind at 1, gets at 1. set (x := ibufs s b) in *.
  rewrite Hlk, Hw, Z.eqb_refl. destruct (Z.eqb_spec pid 0); [done|]. cbn [negb orb]. unfold bind at 1, gets at 1.
  replace (negb (dev x =? 0) && negb (havedisk1 s)) with false by (destruct Hdev as [-> | ->]; [done|by rewrite andb_false_r]).
  unfold bind at 1, modify at 1. destruct (enqueue_ok b s q Hq Hnd Hb Hl) as [E Hq']. unfold bind at 1. rewrite E. clear E.
  set (s2 := set_pp (last q) (Some b) (set_qnext b None s)) in *. unfold bind at 1, modify at 1. fold s2. unfold bind at 1, gets at 1.
  assert (F : ibufs s2 = ibufs s /\ hw s2 = hw s /\ havedisk1 s2 = havedisk1 s /\ trace s2 = trace s) by (unfold s2; by destruct (last q)).
  destruct F as (Fb & Fh & Fd & Ft).
  assert (Hfin : forall s' : ide D, ibufs s' = ibufs s -> iderw_wait b s' = Sleep (chan b) s').
  { intros s' E. unfold iderw_wait, bind, gets. rewrite E. fold x. by rewrite Hw. }
  destruct q as [|c q]; cbn [app linked] in Hq'; destruct Hq' as [Hh Hq'].
  - rewrite Hh, decide_True by done. destruct (idestart_ok b s2) as (s' & E & E1 & E2 & E3 & E4 & Hst);
      [rewrite Fh; by apply Hidle|by rewrite Fb|]. unfold bind at 1. rewrite E. exists s'. split; [apply Hfin; congruence|].
    split; [congruence|]. split; [congruence|]. rewrite E2, E3, Hh. split; [done|]. rewrite Fb, Fh, Ft in Hst. done.
  - rewrite Hh, decide_False by (intros [= ->]; apply Hb; set_solver). exists s2. split; [by apply Hfin|].
    split_and!; done.
Qed.

(** The buffer after its transfer. *)
Definition done_buf (x : buf) (w : block) : buf := mkbuf true false (dev x) (blockno x) (refcnt x) (lk_pid x) (if B_DIRTY x then data x else w).

Lemma ideintr_idle (s : ide D) : idequeue s = None -> ideintr s = Ret [] s.
Proof. intros E. unfold ideintr, bind, gets. by rewrite E. Qed.

Lemma ideintr_ok b (s : ide D) q : linked (qnext s) (idequeue s) (b :: q) -> NoDup (b :: q) -> serving (ibufs s b) (hw s) ->
  (forall c, c ∈ q -> 0 <= blockno (ibufs s c) < FSSIZE) ->
  let x := ibufs s b in let w := media (hw s) (drive x) (blockno x) in
  let t := if B_DIRTY x then trace s else trace s ++ [Got (drive x) (blockno x) w] in
  exists s' d, ideintr s = Ret [chan b] s' /\ (forall c, ibufs s' c = upd b (done_buf x w) (ibufs s) c) /\ havedisk1 s' = havedisk1 s /\
    linked (qnext s') (idequeue s') q /\ doing d = Idle /\ media d = media (hw s) /\
    match q with [] => hw s' = d /\ trace s' = t | c :: _ => started (ibufs s c) d t (hw s') (trace s') end.
Proof.
  intros Hq Hnd Hsv Hr. cbv zeta. cbn [linked] in Hq. destruct Hq as [Eq Hq]. set (x := ibufs s b) in *.
  set (w := media (hw s) (drive x) (blockno x)). apply NoDup_cons in Hnd as [Hbq _].
  unfold ideintr. unfold bind at 1, gets at 1. rewrite Eq. unfold bind at 1, gets at 1. unfold bind at 1, modify at 1.
  unfold bind at 1, gets at 1. cbn [set_queue ibufs]. fold x. set (n := qnext s b) in *.
  set (t := if B_DIRTY x then trace s else trace s ++ [Got (drive x) (blockno x) w]).
  assert (Hmid : exists d f, doing d = Idle /\ media d = media (hw s) /\ (forall c, c <> b -> f c = ibufs s c) /\
    mkbuf true false (dev (f b)) (blockno (f b)) (refcnt (f b)) (lk_pid (f b)) (data (f b)) = done_buf x w /\
    (if B_DIRTY x then ret tt
     else r <- idewait true ;;
       if 0 <=? r then fun s => let '(w, d) := insl 0x1f0 (hw s) in
         Ret tt (transferred (Got (Z.land (dev x) 1) (blockno x) w)
           (set_hw d (set_ibuf b (mkbuf (B_VALID x) (B_DIRTY x) (dev x) (blockno x) (refcnt x) (lk_pid x) w) s)))
       else ret tt) (set_queue n s) = Ret tt (mkide f n (qnext s) (havedisk1 s) d t)).
  { unfold serving in Hsv. fold x in Hsv. unfold t, done_buf. destruct (B_DIRTY x) eqn:Ed.
    - exists (hw s), (ibufs s). fold x. split_and!; try done. 
    - destruct (idewait_ok true (set_queue n s)) as (r & s1 & E & -> & d & -> & Hrd & Hm & Hj). unfold bind at 1. rewrite E. cbn [Z.leb Z.compare].
      cbn [set_queue hw] in Hm, Hj. rewrite Hsv in Hj. pose proof (ata_insl d _ _ Hrd Hj) as Hin. cbn [set_hw hw]. destruct (insl 0x1f0 d) as [w' d'].
      destruct Hin as (-> & Hi & Hm'). rewrite Hm in *. fold w. eexists d', _. split; [done|]. split; [done|].
      split; [|split; [|reflexivity]]; cbn [set_hw set_queue set_ibuf ibufs].
      + intros c Hc. by apply upd_other.
      + by rewrite upd_same. }
  destruct Hmid as (d & f & Hdi & Hdm & Hf & Hy & E). unfold bind at 1. rewrite E. clear E. unfold bind at 1, gets at 1. cbn [ibufs].
  unfold bind at 1, modify at 1. cbn [set_ibuf ibufs idequeue qnext havedisk1 hw trace]. rewrite Hy.
  assert (Hu : forall c, upd b (done_buf x w) f c = upd b (done_buf x w) (ibufs s) c).
  { intros c. destruct (decide (c = b)) as [->|Hc]; [by rewrite !upd_same|]. rewrite !upd_other by done. by apply Hf. }
  destruct q as [|c q]; cbn [linked] in Hq.
  - rewrite Hq. eexists _, d. split; [reflexivity|]. cbn [ibufs idequeue qnext havedisk1 hw trace linked]. done.
  - destruct Hq as [Eqn Hq]. rewrite Eqn. rewrite bool_decide_false by done. unfold bind at 1.
    assert (Hcb : c <> b) by (intros ->; apply Hbq; set_solver).
    destruct (idestart_ok c (mkide (upd b (done_buf x w) f) (Some c) (qnext s) (havedisk1 s) d t)) as (s' & E & E1 & E2 & E3 & E4 & Hst); cbn [hw ibufs] in *.
    { done. }
    { rewrite Hu, upd_other by done. apply Hr. set_solver. }
    unfold set_ibuf. cbn [ibufs idequeue qnext havedisk1 hw trace]. rewrite E. rewrite Hu, upd_other in Hst by done. exists s', d. split; [reflexivity|]. rewrite E1, E2, E3, E4. done.
Qed.

(** ** Many processes and the interrupt *)

(** [Rw b x n] is the call [iderw(b)]; as ghosts, the buffer and the number of
    transfers at the call.  [Await] goes on after a sleep.  [Fill] stands for
    everything the holder of a buffer, or the buffer cache, does to a buffer
    that is not in a call. *)
Inductive call := Rw (b : nat) (x : buf) (n : nat) | Await (b : nat) (x : buf) (n : nat) | Intr | Tick | Fill (b : nat) (x : buf).
Inductive reply := Finished (x y : buf) (n : nat) | Nothing | Crashed.

Definition pid (i : nat) : Z := Z.of_nat i + 1.

Definition finish (b : nat) (x : buf) (n : nat) (s : ide D) (o : outcome (ide D) unit) : section (ide D) call reply :=
  match o with
  | Ret _ s' => mksection s' [] (Return (Finished x (ibufs s' b) n))
  | Sleep c s' => mksection s' [] (SleepOn c (Await b x n))
  | _ => mksection s [] (Return Crashed)
  end.

Definition ide_body (me : nat) (killed : bool) (l : call) (s : ide D) : section (ide D) call reply :=
  match l with
  | Rw b x n => finish b x n s (iderw (pid me) b s)
  | Await b x n => finish b x n s (iderw_wait b s)
  | Intr => match ideintr s with Ret ws s' => mksection s' ws (Return Nothing) | _ => mksection s [] (Return Crashed) end
  | Tick => mksection (set_hw (elapse (hw s)) s) [] (Return Nothing)
  | Fill b x => mksection (set_ibuf b x s) [] (Return Nothing)
  end.

Definition call_of (p : process call reply) : option call :=
  match ph p with Ready l | Asleep _ l => Some l | Outside _ => None end.
Definition buf_of (l : call) : option nat :=
  match l with Rw b _ _ | Await b _ _ | Fill b _ => Some b | _ => None end.
(** The buffer a process is working on. *)
Definition working (p : process call reply) : option nat := call_of p ≫= buf_of.

Definition ide_may (s : mstate (ide D) call reply) (i : nat) (o : option reply) (l : call) : Prop :=
  let free b := forall j p, procs s !! j = Some p -> working p <> Some b in
  match l with
  | Rw b x n => (b < 30)%nat /\ free b /\ x = ibufs (shared s) b /\ n = length (trace (shared s)) /\ request_ok (havedisk1 (shared s)) (pid i) x
  | Fill b _ => free b
  | Intr | Tick => True
  | Await _ _ _ => False
  end.

(** *** The invariant *)

(** The contents after the transfers [t], and that every read got them. *)
Definition written (m : Z -> Z -> block) (t : list transfer) : Z -> Z -> block :=
  foldl (fun m e => match e with Wrote d s x => store d s x m | Got _ _ _ => m end) m t.
Definition honest (m : Z -> Z -> block) (t : list transfer) : Prop :=
  forall k d s x, t !! k = Some (Got d s x) -> x = written m (take k t) d s.

(** The call on [x] that began after [n] transfers has been served and left [y]. *)
Definition answered (x y : buf) (n : nat) (t : list transfer) : Prop :=
  exists w k, y = done_buf x w /\ (n <= k)%nat /\
    t !! k = Some (if B_DIRTY x then Wrote (drive x) (blockno x) (data x) else Got (drive x) (blockno x) w).

Definition waiting (q : list nat) (f : nat -> buf) (h : bool) (t : list transfer) (i b : nat) (x : buf) (n : nat) : Prop :=
  b ∈ q /\ f b = x /\ request_ok h (pid i) x /\ (n <= length t)%nat /\
  (head q = Some b -> B_DIRTY x = true -> exists k, (n <= k)%nat /\ t !! k = Some (Wrote (drive x) (blockno x) (data x))).

Definition phase_ok (q : list nat) (f : nat -> buf) (h : bool) (t : list transfer) (i : nat) (p : phase call reply) : Prop :=
  match p with
  | Outside (Some (Finished x y n)) => answered x y n t
  | Outside (Some Crashed) => False
  | Ready (Rw b x n) => (b < 30)%nat /\ b ∉ q /\ f b = x /\ request_ok h (pid i) x /\ (n <= length t)%nat
  | Ready (Await b x n) => waiting q f h t i b x n \/ b ∉ q /\ answered x (f b) n t
  | Ready (Fill b _) => b ∉ q
  | Asleep c (Await b x n) => c = chan b /\ waiting q f h t i b x n
  | Asleep _ _ => False
  | _ => True
  end.

Record ide_inv (m : Z -> Z -> block) (q : list nat) (s : mstate (ide D) call reply) : Prop := {
  ii_link : linked (qnext (shared s)) (idequeue (shared s)) q;
  ii_nodup : NoDup q /\ Forall (fun b => (b < 30)%nat) q;
  ii_uniq : forall i j p p' b, procs s !! i = Some p -> procs s !! j = Some p' -> working p = Some b -> working p' = Some b -> i = j;
  ii_phase : forall i p, procs s !! i = Some p -> phase_ok q (ibufs (shared s)) (havedisk1 (shared s)) (trace (shared s)) i (ph p);
  ii_owner : forall b, b ∈ q -> exists i p x n, procs s !! i = Some p /\ call_of p = Some (Await b x n);
  ii_drive : match q with [] => doing (hw (shared s)) = Idle | b :: _ => serving (ibufs (shared s) b) (hw (shared s)) end;
  ii_media : media (hw (shared s)) = written m (trace (shared s));
  ii_honest : honest m (trace (shared s)) }.

Lemma answered_mono x y n t t' : answered x y n t -> t `prefix_of` t' -> answered x y n t'.
Proof. intros (w & k & -> & Hk & Ht) Hp. exists w, k. split; [done|]. split; [done|]. by eapply prefix_lookup_Some. Qed.

(** A phase stays correct when the queue, the buffers and the transfers change
    elsewhere; a write that gets to the head has just been transferred. *)
Lemma phase_frame q f h t q' f' t' i p : phase_ok q f h t i (ph p) -> t `prefix_of` t' ->
  (forall b, working p = Some b -> (b ∈ q' <-> b ∈ q) /\ f' b = f b /\
     (head q' = Some b -> head q = Some b \/ (B_DIRTY (f b) = true ->
        exists k, (length t <= k)%nat /\ t' !! k = Some (Wrote (drive (f b)) (blockno (f b)) (data (f b)))))) ->
  phase_ok q' f' h t' i (ph p).
Proof.
  intros Hp Ht Hb. pose proof (prefix_length _ _ Ht) as Hl. unfold working, call_of in Hb.
  assert (Hw : forall b x n, waiting q f h t i b x n -> (b ∈ q' <-> b ∈ q) -> f' b = f b -> (head q' = Some b -> head q = Some b \/ (B_DIRTY (f b) = true ->
        exists k, (length t <= k)%nat /\ t' !! k = Some (Wrote (drive (f b)) (blockno (f b)) (data (f b))))) -> waiting q' f' h t' i b x n).
  { intros b x n (H1 & <- & H3 & H4 & H5) E1 E2 E3. split; [by apply E1|]. split; [done|]. split; [done|]. split; [lia|].
    intros Hh Hd. destruct (E3 Hh) as [Hh'|Hk].
    - destruct (H5 Hh' Hd) as (k & Hk1 & Hk2). exists k. split; [done|]. by eapply prefix_lookup_Some.
    - destruct (Hk Hd) as (k & Hk1 & Hk2). exists k. split; [lia|done]. }
  destruct p as [[[[]|]|[]|c []] kl]; cbn in *; try done; try (destruct (Hb _ eq_refl) as (E1 & E2 & E3)).
  - by eapply answered_mono.
  - destruct Hp as (H1 & H2 & <- & H4 & H5). rewrite E1. split_and!; [done|done|done|done|lia].
  - destruct Hp as [Hp|[Hq Ha]]; [left; by apply Hw|]. right. rewrite E1, E2. split; [done|]. by eapply answered_mono.
  - by rewrite E1.
  - destruct Hp as [-> Hp]. split; [done|]. by apply Hw.
Qed.

(** The parts of the invariant about who works on what, after one process changed. *)
Lemma uniq_insert (ps : list (process call reply)) i p' :
  (forall i j p p' b, ps !! i = Some p -> ps !! j = Some p' -> working p = Some b -> working p' = Some b -> i = j) ->
  (forall b j p, working p' = Some b -> j <> i -> ps !! j = Some p -> working p <> Some b) ->
  forall i1 j p p1 b, <[i := p']> ps !! i1 = Some p -> <[i := p']> ps !! j = Some p1 -> working p = Some b -> working p1 = Some b -> i1 = j.
Proof.
  intros Hu Hn i1 j p p1 b [(-> & <- & _)|(Hi & H1)]%list_lookup_insert_Some [(-> & <- & _)|(Hj & H2)]%list_lookup_insert_Some Hw1 Hw2.
  - done.
  - exfalso. by eapply (Hn b j).
  - exfalso. by eapply (Hn b i1).
  - by eapply Hu.
Qed.

Lemma uniq_keep (ps : list (process call reply)) i p p' :
  (forall i j p p' b, ps !! i = Some p -> ps !! j = Some p' -> working p = Some b -> working p' = Some b -> i = j) ->
  ps !! i = Some p -> (forall b, working p' = Some b -> working p = Some b) ->
  forall i1 j p1 p2 b, <[i := p']> ps !! i1 = Some p1 -> <[i := p']> ps !! j = Some p2 -> working p1 = Some b -> working p2 = Some b -> i1 = j.
Proof.
  intros Hu Hi Hw. apply uniq_insert; [done|]. intros b j q Hb Hne Hj Hq. apply Hne. by eapply (Hu j i q p b); [..|apply Hw].
Qed.

Lemma owner_keep (ps : list (process call reply)) i p p' b :
  (exists i p x n, ps !! i = Some p /\ call_of p = Some (Await b x n)) -> ps !! i = Some p ->
  (forall x n, call_of p = Some (Await b x n) -> exists x n, call_of p' = Some (Await b x n)) ->
  exists i1 p1 x n, <[i := p']> ps !! i1 = Some p1 /\ call_of p1 = Some (Await b x n).
Proof.
  intros (j & q & x & n & Hj & Hq) Hi Hk. destruct (decide (j = i)) as [->|Hne].
  - simplify_eq. destruct (Hk _ _ Hq) as (x' & n' & E). exists i, p', x', n'. split; [|done]. apply list_lookup_insert_eq. by eapply lookup_lt_Some.
  - exists j, q, x, n. by rewrite list_lookup_insert_ne.
Qed.

Lemma working_await p b x n : call_of p = Some (Await b x n) -> working p = Some b.
Proof. unfold working. by intros ->. Qed.

Lemma free_not_queued m q s b : ide_inv m q s -> (forall j p, procs s !! j = Some p -> working p <> Some b) -> b ∉ q.
Proof.
  intros Hinv Hf Hb. destruct (ii_owner _ _ _ Hinv b Hb) as (i & p & x & n & Hi & Hp). eapply Hf; [exact Hi|]. by eapply working_await.
Qed.

Lemma inv_call m q i o k l s : ide_inv m q s -> procs s !! i = Some (mkprocess (Outside o) k) -> ide_may s i o l ->
  ide_inv m q (mkmstate (shared s) (<[i := mkprocess (Ready l) k]> (procs s))).
Proof.
  intros Hinv Hi Hm. pose proof Hinv as [H1 H2 H3 H4 H5 H6 H7 H8]. split; cbn [shared procs]; try done.
  - apply uniq_insert; [done|]. intros b j p Hw _ Hj. destruct l; cbn in *; simplify_eq; destruct_and?; try done; naive_solver.
  - intros j p [(-> & <- & _)|(Hne & Hj)]%list_lookup_insert_Some; [|by apply H4]. destruct l as [b x n| | | |b x]; cbn in *; try done.
    + destruct Hm as (Hb & Hf & -> & -> & Hr). split_and!; [done|by eapply free_not_queued|done|apply Hr..|lia].
    + by eapply free_not_queued.
  - intros b Hb. eapply owner_keep; [by apply H5|exact Hi|]. done.
Qed.

Lemma inv_kill m q i p s : ide_inv m q s -> procs s !! i = Some p ->
  ide_inv m q (mkmstate (shared s) (<[i := mkprocess (match ph p with Asleep _ l => Ready l | q => q end) true]> (procs s))).
Proof.
  intros Hinv Hi. pose proof Hinv as [H1 H2 H3 H4 H5 H6 H7 H8]. split; cbn [shared procs]; try done.
  - eapply uniq_keep; [done|exact Hi|]. unfold working, call_of. cbn. by destruct (ph p).
  - intros j p' [(-> & <- & _)|(Hne & Hj)]%list_lookup_insert_Some; [|by apply H4]. specialize (H4 _ p Hi).
    destruct p as [[|l|c []] k]; cbn in *; try done. left. by destruct H4.
  - intros b Hb. eapply owner_keep; [by apply H5|exact Hi|]. unfold call_of. cbn. intros x n E. exists x, n. by destruct (ph p).
Qed.

(** A section that neither wakes nor changes the queue. *)
Lemma inv_quiet_step m q i p ph' s sh' : ide_inv m q s -> procs s !! i = Some p ->
  linked (qnext sh') (idequeue sh') q -> havedisk1 sh' = havedisk1 (shared s) -> trace sh' = trace (shared s) ->
  doing (hw sh') = doing (hw (shared s)) -> media (hw sh') = media (hw (shared s)) ->
  (forall b, ibufs sh' b = ibufs (shared s) b \/ b ∉ q /\ working p = Some b) ->
  (forall b x n, call_of p = Some (Await b x n) -> b ∈ q -> call_of (mkprocess ph' (pkilled p)) = call_of p) ->
  (forall b, working (mkprocess ph' (pkilled p)) = Some b -> working p = Some b) ->
  phase_ok q (ibufs sh') (havedisk1 sh') (trace sh') i ph' ->
  ide_inv m q (mkmstate sh' (<[i := mkprocess ph' (pkilled p)]> (procs s))).
Proof.
  intros [H1 H2 H3 H4 H5 H6 H7 H8] Hi Hl Hh Ht Hd Hm Hf Ho Hw Hp. split; cbn [shared procs]; rewrite ?Ht; try done.
  - by eapply uniq_keep.
  - intros j p' [(<- & <- & _)|(Hne & Hj)]%list_lookup_insert_Some; [cbn; by rewrite <- Ht|]. rewrite Hh.
    eapply phase_frame; [by apply H4|done|]. intros b Hb. split; [done|]. split; [|by left].
    destruct (Hf b) as [|[_ E]]; [done|]. exfalso. apply Hne. by eapply (H3 i j p p' b).
  - intros b Hb. eapply owner_keep; [by apply H5|exact Hi|]. intros x n E. exists x, n. by rewrite (Ho b x n).
  - destruct q as [|b q]; [congruence|]. unfold serving in *. rewrite Hd. destruct (Hf b) as [->|[E _]]; [done|]. set_solver.
  - congruence.
Qed.

Lemma inv_await m q i p b x n s : ide_inv m q s -> procs s !! i = Some p -> ph p = Ready (Await b x n) ->
  ide_inv m q (run_section ide_body i p (Await b x n) s).
Proof.
  intros Hinv Hi Hp. pose proof (ii_phase _ _ _ Hinv i p Hi) as Hok. rewrite Hp in Hok. cbn in Hok.
  unfold run_section. cbn [ide_body]. unfold iderw_wait, bind, gets, ret, finish. destruct Hok as [Hw|[Hq Ha]].
  - pose proof Hw as (Hq & <- & (_ & Hv & _) & _). rewrite Hv. cbn [ends shared_after wakes phase_of]. rewrite wake_none.
    apply inv_quiet_step; try done; [apply Hinv|by left|unfold call_of; by rewrite Hp|unfold working, call_of; by rewrite Hp].
  - assert (Hv : B_VALID (ibufs (shared s) b) && negb (B_DIRTY (ibufs (shared s) b)) = true) by (by destruct Ha as (w & k & -> & _)).
    rewrite Hv. cbn [ends shared_after wakes phase_of]. rewrite wake_none.
    apply inv_quiet_step; try done; [apply Hinv|by left|]. unfold call_of. rewrite Hp. intros ? ? ? [= -> -> ->]. done.
Qed.

Lemma inv_tick m q i p s : ide_inv m q s -> procs s !! i = Some p -> ph p = Ready Tick -> ide_inv m q (run_section ide_body i p Tick s).
Proof.
  intros Hinv Hi Hp. unfold run_section. cbn [ide_body ends shared_after wakes phase_of]. rewrite wake_none.
  destruct (ata_elapse (hw (shared s))). apply inv_quiet_step; try done; [apply Hinv|by left|unfold call_of; by rewrite Hp].
Qed.

Lemma inv_fill m q i p b x s : ide_inv m q s -> procs s !! i = Some p -> ph p = Ready (Fill b x) -> ide_inv m q (run_section ide_body i p (Fill b x) s).
Proof.
  intros Hinv Hi Hp. pose proof (ii_phase _ _ _ Hinv i p Hi) as Hok. rewrite Hp in Hok. cbn in Hok.
  unfold run_section. cbn [ide_body ends shared_after wakes phase_of]. rewrite wake_none.
  apply inv_quiet_step; try done; [apply Hinv| |unfold call_of; by rewrite Hp].
  intros c. cbn. destruct (decide (c = b)) as [->|Hc]; [right|left; by apply upd_other]. split; [done|]. unfold working, call_of. by rewrite Hp.
Qed.

Lemma written_snoc m t e : written m (t ++ [e]) = match e with Wrote d s x => store d s x (written m t) | Got _ _ _ => written m t end.
Proof. unfold written. by rewrite foldl_snoc. Qed.

Lemma honest_snoc m t e : honest m t -> match e with Got d s x => x = written m t d s | Wrote _ _ _ => True end -> honest m (t ++ [e]).
Proof.
  intros Hh He k d s x Hk. apply lookup_app_Some in Hk as [Hk|[Hk E]].
  - rewrite take_app_le by (apply lookup_lt_Some in Hk; lia). by apply Hh.
  - apply list_lookup_singleton_Some in E as [E ->]. replace k with (length t) by lia. by rewrite take_app_length.
Qed.

Lemma started_trace m x d t d' t' : started x d t d' t' -> media d = written m t -> honest m t ->
  t `prefix_of` t' /\ media d' = written m t' /\ honest m t'.
Proof.
  unfold started. intros Hs Hm Hh. destruct (B_DIRTY x); destruct Hs as (-> & _ & Hm').
  - split; [by apply prefix_app_r|]. rewrite written_snoc. split; [congruence|]. by apply honest_snoc.
  - split; [done|]. split; [congruence|done].
Qed.

Lemma queue_short q : NoDup q -> Forall (fun b => (b < 30)%nat) q -> (length q <= 30)%nat.
Proof.
  intros Hn Hq. transitivity (length (seq 0 30)); [|done]. apply submseteq_length, NoDup_submseteq; [done|]. intros b Hb.
  rewrite Forall_forall in Hq. apply elem_of_seq. specialize (Hq b Hb). lia.
Qed.

(** [iderw] puts its buffer at the end of the queue and sleeps. *)
Lemma inv_rw m q i p b x n s : ide_inv m q s -> procs s !! i = Some p -> ph p = Ready (Rw b x n) ->
  ide_inv m (q ++ [b]) (run_section ide_body i p (Rw b x n) s).
Proof.
  intros Hinv Hi Hp. pose proof (ii_phase _ _ _ Hinv i p Hi) as Hok. rewrite Hp in Hok. cbn in Hok. destruct Hok as (Hb & Hq & <- & Hr & Hn).
  pose proof Hinv as [H1 [H2 H2'] H3 H4 H5 H6 H7 H8].
  destruct (iderw_ok b (pid i) (shared s) q H1 H2 Hq (queue_short q H2 H2')) as (s' & E & Eb & Eh & Hl & Hst);
    [unfold pid; lia|done|intros ->; done|].
  unfold run_section. cbn [ide_body]. rewrite E. cbn [finish ends shared_after wakes phase_of]. rewrite wake_none.
  assert (Htr : trace (shared s) `prefix_of` trace s' /\ media (hw s') = written m (trace s') /\ honest m (trace s')).
  { destruct (bool_decide (q = [])); [by eapply started_trace|]. by destruct Hst as [-> ->]. }
  destruct Htr as (Hpre & Hmed & Hhon). pose proof (prefix_length _ _ Hpre).
  assert (Hwi : working p = Some b) by (unfold working, call_of; by rewrite Hp).
  split; cbn [shared procs]; try done.
  - split; [apply NoDup_app; split_and!; [done|set_solver|apply NoDup_singleton]|]. apply Forall_app. split; [done|by constructor].
  - eapply uniq_keep; [done|exact Hi|]. by rewrite Hwi.
  - intros j p' [(<- & <- & _)|(Hne & Hj)]%list_lookup_insert_Some.
    + cbn. split; [done|]. rewrite Eb, Eh. split_and!; [set_solver|done|apply Hr..|lia|]. intros Hh Hd.
      destruct q as [|c q]; [|cbn in Hh; set_solver]. rewrite bool_decide_true in Hst by done. unfold started in Hst. rewrite Hd in Hst.
      destruct Hst as (-> & _). exists (length (trace (shared s))). split; [done|]. by rewrite lookup_app_r, Nat.sub_diag by lia.
    + rewrite Eh. eapply phase_frame; [by apply H4|done|]. intros c Hc.
      assert (c <> b) by (intros ->; apply Hne; by eapply (H3 i j p p' b)). split; [set_solver|]. split; [by rewrite Eb|].
      destruct q; cbn; [congruence|by left].
  - intros c Hc. apply elem_of_app in Hc as [Hc|Hc%list_elem_of_singleton].
    + eapply owner_keep; [by apply H5|exact Hi|]. unfold call_of. by rewrite Hp.
    + subst c. eexists i, _, _, _. split; [apply list_lookup_insert_eq; by eapply lookup_lt_Some|]. reflexivity.
  - destruct q as [|c q]; cbn [app].
    + rewrite bool_decide_true in Hst by done. rewrite Eb. by eapply started_serving.
    + rewrite bool_decide_false in Hst by done. destruct Hst as [-> _]. by rewrite Eb.
Qed.

Lemma call_wake cs (p : process call reply) : call_of (wake1 cs p) = call_of p.
Proof. unfold wake1, call_of. destruct (ph p) eqn:E; [by rewrite E..|]. case_decide; [done|by rewrite E]. Qed.
Lemma working_wake cs (p : process call reply) : working (wake1 cs p) = working p.
Proof. unfold working. by rewrite call_wake. Qed.

(** The transfers of an interrupt: the rest of the head's, and the start of the next. *)
Lemma intr_trace m (x : buf) q (f : nat -> buf) (sh sh' : ide D) d : media (hw sh) = written m (trace sh) -> honest m (trace sh) ->
  let w := media (hw sh) (drive x) (blockno x) in
  let t := if B_DIRTY x then trace sh else trace sh ++ [Got (drive x) (blockno x) w] in
  media d = media (hw sh) ->
  match q with [] => hw sh' = d /\ trace sh' = t | c :: _ => started (f c) d t (hw sh') (trace sh') end ->
  trace sh `prefix_of` t /\ t `prefix_of` trace sh' /\ media (hw sh') = written m (trace sh') /\ honest m (trace sh') /\
  (forall c, head q = Some c -> B_DIRTY (f c) = true ->
     exists k, (length (trace sh) <= k)%nat /\ trace sh' !! k = Some (Wrote (drive (f c)) (blockno (f c)) (data (f c)))).
Proof.
  intros Hm Hh w t Hd Hst.
  assert (Ht : trace sh `prefix_of` t /\ media d = written m t /\ honest m t).
  { unfold t. destruct (B_DIRTY x); [by rewrite Hd|]. split; [by apply prefix_app_r|]. rewrite written_snoc. split; [congruence|].
    apply honest_snoc; [done|]. unfold w. by rewrite Hm. }
  destruct Ht as (Hp & Hmt & Hht). pose proof (prefix_length _ _ Hp). split; [done|]. destruct q as [|c q].
  - destruct Hst as [-> ->]. done.
  - destruct (started_trace m _ _ _ _ _ Hst Hmt Hht) as (Hp' & Hm' & Hh'). split_and!; [done..|].
    intros c' [= <-] Hdirty. unfold started in Hst. rewrite Hdirty in Hst. destruct Hst as (-> & _). exists (length t). split; [done|].
    by rewrite lookup_app_r, Nat.sub_diag by lia.
Qed.

(** The call at the head has been served once its transfer is over. *)
Lemma head_answered q f h t i b x n w t' : waiting (b :: q) f h t i b x n ->
  (if B_DIRTY x then t else t ++ [Got (drive x) (blockno x) w]) `prefix_of` t' -> answered x (done_buf x w) n t'.
Proof.
  intros (_ & _ & _ & Hn & Hw) Ht. destruct (B_DIRTY x) eqn:Ed.
  - destruct (Hw eq_refl eq_refl) as (k & Hk & E). exists w, k. rewrite Ed. split_and!; [done|done|]. by eapply prefix_lookup_Some.
  - exists w, (length t). rewrite Ed. split_and!; [done|done|]. eapply prefix_lookup_Some; [|exact Ht]. by rewrite lookup_app_r, Nat.sub_diag by lia.
Qed.

(** A process after the interrupt served [b]. *)
Lemma phase_intr q f h t f' t' i b (p : process call reply) w : phase_ok (b :: q) f h t i (ph p) -> NoDup (b :: q) ->
  (forall c, f' c = upd b (done_buf (f b) w) f c) ->
  t `prefix_of` (if B_DIRTY (f b) then t else t ++ [Got (drive (f b)) (blockno (f b)) w]) ->
  (if B_DIRTY (f b) then t else t ++ [Got (drive (f b)) (blockno (f b)) w]) `prefix_of` t' ->
  (forall c, head q = Some c -> B_DIRTY (f c) = true ->
     exists k, (length t <= k)%nat /\ t' !! k = Some (Wrote (drive (f c)) (blockno (f c)) (data (f c)))) ->
  phase_ok q f' h t' i (ph (wake1 [chan b] p)).
Proof.
  intros Hok [Hbq _]%NoDup_cons Hf Hp1 Hp2 Hh. destruct (decide (working p = Some b)) as [Hw|Hw].
  - assert (Hs : forall x n, waiting (b :: q) f h t i b x n -> answered x (f' b) n t').
    { intros x n Hw'. rewrite Hf, upd_same. pose proof Hw' as (_ & <- & _). by eapply head_answered. }
    unfold working, call_of, wake1 in *. destruct p as [[|[]|c []] k]; cbn in *; simplify_eq; try done.
    + destruct Hok as (_ & Hok & _). set_solver.
    + right. split; [done|]. destruct Hok as [Hok|[Hok _]]; [by apply Hs|set_solver].
    + destruct Hok as [-> Hok]. rewrite decide_True by apply list_elem_of_here. cbn. right. split; [done|by apply Hs].
  - assert (E : ph (wake1 [chan b] p) = ph p).
    { destruct (wake1_phase [chan b] p) as [[E _]|(c & l & Ep & Hc & _)]; [done|]. exfalso. rewrite Ep in Hok. apply Hw.
      unfold working, call_of. rewrite Ep. destruct l; cbn in *; try done. destruct Hok as [-> _]. apply list_elem_of_singleton in Hc.
      unfold chan in Hc. f_equal. lia. }
    rewrite E. eapply phase_frame; [exact Hok|by etransitivity|]. intros c Hc. assert (c <> b) by congruence.
    split; [set_solver|]. split; [by rewrite Hf, upd_other|]. intros Hq. right. by apply Hh.
Qed.

(** [ideintr] serves the head of the queue and wakes its caller. *)
Lemma inv_intr m q i p s : ide_inv m q s -> procs s !! i = Some p -> ph p = Ready Intr ->
  exists q', ide_inv m q' (run_section ide_body i p Intr s).
Proof.
  intros Hinv Hi Hp. pose proof Hinv as [H1 [H2 H2'] H3 H4 H5 H6 H7 H8].
  assert (Hci : call_of p = Some Intr) by (unfold call_of; by rewrite Hp).
  destruct q as [|b q].
  { exists []. unfold run_section. cbn [ide_body]. rewrite ideintr_idle by done. cbn [ends shared_after wakes phase_of]. rewrite wake_none.
    apply inv_quiet_step; try done; [by left|by rewrite Hci]. }
  exists q. assert (Hwait : forall c, c ∈ b :: q -> exists j p x n, procs s !! j = Some p /\ call_of p = Some (Await c x n) /\
    waiting (b :: q) (ibufs (shared s)) (havedisk1 (shared s)) (trace (shared s)) j c x n).
  { intros c Hc. destruct (H5 c Hc) as (j & p' & x & n & Hj & Hp'). exists j, p', x, n. split; [done|]. split; [done|].
    pose proof (H4 j p' Hj) as Hok. unfold call_of in Hp'. destruct (ph p'); simplify_eq; cbn in Hok; naive_solver. }
  destruct (ideintr_ok b (shared s) q H1 H2 H6) as (s' & d & E & Eb & Eh & Hl & Hdi & Hdm & Hst).
  { intros c Hc. destruct (Hwait c ltac:(set_solver)) as (j & p' & x & n & _ & _ & _ & <- & (_ & _ & _ & Hr) & _). done. }
  set (x := ibufs (shared s) b) in *. set (w := media (hw (shared s)) (drive x) (blockno x)) in *.
  set (t := if B_DIRTY x then trace (shared s) else trace (shared s) ++ [Got (drive x) (blockno x) w]) in *.
  destruct (intr_trace m x q (ibufs (shared s)) (shared s) s' d H7 H8 Hdm Hst) as (Hp1 & Hp2 & Hm' & Hh' & Hhd).
  unfold run_section. cbn [ide_body]. rewrite E. cbn [ends shared_after wakes phase_of]. split; cbn [shared procs]; try done.
  - apply NoDup_cons in H2 as [_ H2]. apply Forall_cons in H2' as [_ H2']. done.
  - apply uniq_insert; [|done]. intros i1 j p1 p2 c (q1 & -> & Hj1)%list_lookup_fmap_Some (q2 & -> & Hj2)%list_lookup_fmap_Some.
    rewrite !working_wake. by apply H3.
  - intros j p' [(<- & <- & _)|(Hne & (p0 & -> & Hj)%list_lookup_fmap_Some)]%list_lookup_insert_Some; [done|]. rewrite Eh.
    by eapply phase_intr; [apply H4|..].
  - intros c Hc. destruct (H5 c ltac:(set_solver)) as (j & p' & x' & n & Hj & Hp'). exists j, (wake1 [chan b] p'), x', n.
    rewrite call_wake. split; [|done]. rewrite list_lookup_insert_ne by congruence. by rewrite list_lookup_fmap, Hj.
  - destruct q as [|c q]; [by destruct Hst as [-> _]|]. apply NoDup_cons in H2 as [Hbc _]. rewrite Eb, upd_other by set_solver.
    by eapply started_serving.
Qed.

Lemma ide_reachable n s0 s : idequeue s0 = None -> doing (hw s0) = Idle -> trace s0 = [] ->
  rtc (mstep ide_body ide_may) (start s0 n) s -> exists q, ide_inv (media (hw s0)) q s.
Proof.
  intros Eq Ed Et. apply (monitor_inv ide_body ide_may (fun s => exists q, ide_inv (media (hw s0)) q s)).
  - intros i o k l s1 [q Hinv] Hi Hm. exists q. by eapply inv_call.
  - intros i p l s1 [q Hinv] Hi Hp. destruct l.
    + eexists. by eapply inv_rw.
    + eexists. by eapply inv_await.
    + by eapply inv_intr.
    + eexists. by eapply inv_tick.
    + eexists. by eapply inv_fill.
  - intros i p s1 [q Hinv] Hi. exists q. by apply inv_kill.
  - exists []. assert (Hp : forall i p, procs (start s0 n : mstate (ide D) call reply) !! i = Some p -> p = mkprocess (Outside None) false).
    { intros i p [-> _]%lookup_replicate_1. done. }
    split; cbn [start shared]; rewrite ?Et; try done.
    + split; constructor.
    + intros i j p p' b ->%Hp. done.
    + by intros i p ->%Hp.
    + by intros b ?%elem_of_nil.
Qed.

(** [k] interrupts, and the channels they call [wakeup] on. *)
Fixpoint interrupts (k : nat) : M (ide D) (list Z) :=
  match k with
  | O => ret []
  | S k' => ws <- ideintr ;; rest <- interrupts k' ;; ret (ws ++ rest)
  end.

Lemma drain q : forall s : ide D, linked (qnext s) (idequeue s) q -> NoDup q ->
  match q with [] => True | b :: _ => serving (ibufs s b) (hw s) end -> (forall c, c ∈ q -> 0 <= blockno (ibufs s c) < FSSIZE) ->
  exists s', interrupts (length q) s = Ret (chan <$> q) s' /\ idequeue s' = None.
Proof.
  induction q as [|b q IH]; intros s Hq Hnd Hsv Hr; [by exists s|]. cbn [length interrupts].
  destruct (ideintr_ok b s q Hq Hnd Hsv) as (s1 & d & E & Eb & _ & Hq1 & _ & _ & Hst); [intros c Hc; apply Hr; set_solver|].
  apply NoDup_cons in Hnd as [Hb Hnd]. assert (Ho : forall c, c ∈ q -> ibufs s1 c = ibufs s c) by (intros c Hc; rewrite Eb; apply upd_other; set_solver).
  destruct (IH s1 Hq1 Hnd) as (s2 & E2 & Hn).
  - destruct q as [|c q]; [done|]. rewrite Ho by set_solver. by eapply started_serving.
  - intros c Hc. rewrite Ho by done. apply Hr. set_solver.
  - exists s2. unfold bind. rewrite E, E2. done.
Qed.

End transfers.

(** ** A drive, and a read error *)

(** A drive that is busy for three polls after each command and transfer. *)
Record drive0 := mkdrive0 { d_media : Z -> Z -> block; d_reg : Z -> Z; d_job : job; d_busy : nat }.

#[export] Instance ata_drive0 : Ata drive0 := {
  inb _ d := (if decide (d_busy d = 0%nat) then 0x40 else 0x80, mkdrive0 (d_media d) (d_reg d) (d_job d) (pred (d_busy d)));
  outb p v d :=
    if arg_port p then mkdrive0 (d_media d) (fun q => if q =? p then v else d_reg d q) (d_job d) (d_busy d)
    else mkdrive0 (d_media d) (d_reg d)
      ((if v =? IDE_CMD_READ then Reading else Writing) (reg_drv (d_reg d)) (reg_sector (d_reg d))) 3;
  outsl _ x d :=
    match d_job d with
    | Writing drv sector => mkdrive0 (store drv sector x (d_media d)) (d_reg d) Idle 3
    | _ => d
    end;
  insl _ d :=
    match d_job d with
    | Reading drv sector => (d_media d drv sector, mkdrive0 (d_media d) (d_reg d) Idle 0)
    | _ => ([], d)
    end;
  elapse d := mkdrive0 (d_media d) (d_reg d) (d_job d) (pred (d_busy d));
  patience d := d_busy d }.

#[export] Instance ata_ok_drive0 : AtaOk drive0.
Proof.
  apply (Build_AtaOk drive0 _ d_media d_reg d_job (fun d => d_busy d = 0%nat)).
  - intros [m r j n]. cbn. split; [done|]. split; [done|]. destruct n as [|n]; [done|]. change (n < S n)%nat. lia.
  - done.
  - intros p v [m r j n] Hp Hr Hj. cbn in *. rewrite Hp. by subst.
  - by intros [m r j n].
  - by intros [m r j n].
  - intros x [m r j n] drv sector. cbn. by intros ->.
  - intros [m r j n] drv sector _. cbn. by intros ->.
Defined.

(** Two buffers, held by processes 1 and 2: one to read block 5, one to write it. *)
Definition to_read : buf := mkbuf false false 1 5 1 1 (replicate 512 0).
Definition to_write : buf := mkbuf true true 1 5 1 2 (replicate 512 7).
Definition unbooted : ide drive0 :=
  mkide (fun b => if decide (b = 0%nat) then to_read else to_write) None (fun _ => None) false
    (mkdrive0 (fun _ b => replicate 512 b) (fun _ => 0) Idle 2) [].
Definition booted : ide drive0 := match ideinit unbooted with Ret _ s => s | _ => unbooted end.
Definition schedule : list (move call) :=
  [Call 0 (Rw 0 to_read 0); Run 0; Call 1 (Rw 1 to_write 0); Run 1; Call 2 Intr; Run 2; Run 0].
Definition after_schedule : mstate (ide drive0) call reply := foldl (play1 ide_body) (start booted 3) schedule.

Lemma free_by (ps : list (process call reply)) b : Forall (fun p => working p <> Some b) ps -> forall j p, ps !! j = Some p -> working p <> Some b.
Proof. intros H j p Hj. rewrite Forall_forall in H. apply H. by eapply list_elem_of_lookup_2. Qed.

Lemma may_by (s : mstate (ide drive0) call reply) i o k l : procs s !! i = Some (mkprocess (Outside o) k) -> ide_may s i o l ->
  match procs s !! i with Some p => match ph p with Outside o => ide_may s i o l | _ => False end | None => True end.
Proof. by intros ->. Qed.

Lemma schedule_playable : playable ide_body ide_may (start booted 3) schedule.
Proof.
  assert (Hrw : forall (s : mstate (ide drive0) call reply) i b x, procs s !! i = Some (mkprocess (Outside None) false) ->
    bool_decide ((b < 30)%nat /\ Forall (fun p => working p <> Some b) (procs s)) = true ->
    x = ibufs (shared s) b /\ 0%nat = length (trace (shared s)) /\ request_ok (havedisk1 (shared s)) (pid i) x ->
    match procs s !! i with Some p => match ph p with Outside o => ide_may s i o (Rw b x 0) | _ => False end | None => True end).
  { intros s i b x Hi [Hb Hf]%bool_decide_eq_true Hx. apply (may_by _ _ None false); [done|]. split; [done|]. split; [by apply free_by|done]. }
  split; [apply Hrw; [by vm_compute..|]; vm_compute; split_and!; first [done | by right]|]. split; [exact I|].
  split; [apply Hrw; [by vm_compute..|]; vm_compute; split_and!; first [done | by right]|]. split; [exact I|].
  split; [by apply (may_by _ _ None false); [vm_compute|]|]. done.
Qed.


(** A drive that answers every command with an error. *)
Definition ata_broken : Ata unit := {|
  inb _ d := (Z.lor IDE_DRDY IDE_ERR, d); outb _ _ d := d; outsl _ _ d := d; insl _ d := ([], d); elapse d := d; patience _ := 0%nat |}.

(** A read that fails leaves its buffer valid, with whatever it held before:
    the interrupt handler tests for the error only to skip the transfer. *)
Lemma read_error_marks_valid : exists s', @ideintr unit ata_broken (mkide (fun _ => to_read) (Some 0%nat) (fun _ => None) true tt []) = Ret [chan 0] s' /\
  B_VALID (ibufs s' 0%nat) = true /\ data (ibufs s' 0%nat) = data to_read /\ trace s' = [].
Proof. eexists. split; [reflexivity|]. by vm_compute. Qed.
