(* ===== verification/Fs.v ===== *)
(** * The file system (fs.c)

    Every function of fs.c, over the log and the buffer cache: the block
    allocator, inodes and their cache, the contents of files, directories and
    path names.  A [struct inode*] is the index of its slot in the inode
    cache; dev is always ROOTDEV, the only disk.  Devices (devsw) are an
    interface.  The theorems are in the files that follow this one. *)
From stdpp Require Import base numbers list list_numbers strings.
From Stdlib Require Import ZArith Lia.
From S2P Require Import Prelude Block Bcache Log.
#[local] Open Scope Z_scope.

Definition ROOTDEV : Z := 1.
Definition ROOTINO : Z := 1.
Definition NINODE : Z := 50.
Definition NDEV : Z := 10.
Definition NDIRECT : Z := 12.
Definition NINDIRECT : Z := BSIZE / 4.
Definition MAXFILE : Z := NDIRECT + NINDIRECT.
Definition IPB : Z := BSIZE / 64.
Definition BPB : Z := BSIZE * 8.
Definition DIRSIZ : Z := 14.

Definition T_DIR : Z := 1.
Definition T_FILE : Z := 2.
Definition T_DEV : Z := 3.

(** [struct inode]; the sleep lock as whether this process holds it. *)
Record inode := mkinode {
  i_dev : Z; i_inum : Z; i_ref : Z; i_lock : bool; i_valid : bool;
  i_type : Z; i_major : Z; i_minor : Z; i_nlink : Z; i_size : Z; i_addrs : list Z }.

Definition empty_inode : inode := mkinode 0 0 0 false false 0 0 0 0 0 (replicate 13 0).

Record fs := mkfs { lg : logged; icache : list inode; sb : superblock }.

Definition set_lg (l : logged) (s : fs) : fs := mkfs l (icache s) (sb s).
Definition set_icache (t : list inode) (s : fs) : fs := mkfs (lg s) t (sb s).
Definition on_log {A} (c : M logged A) : M fs A := zoom lg set_lg c.

(** The buffer operations as fs.c calls them. *)
Definition f_bread (b : Z) : M fs unit := on_log (on_blk (bread b)).
Definition f_brelse (b : Z) : M fs unit := on_log (on_blk (brelse b)).
Definition f_data (b : Z) : M fs block := on_log (on_blk (bdata b)).
Definition f_set (b : Z) (d : block) : M fs unit := on_log (on_blk (bset b d)).
Definition f_log_write (b : Z) : M fs unit := on_log (log_write b).

(** Fields of a cached inode. *)
Definition get_inode (i : nat) : M fs inode := fun s =>
  match icache s !! i with Some ip => Ret ip s | None => Fault "inode pointer" s end.
Definition set_inode (i : nat) (ip : inode) : M fs unit := modify (fun s => set_icache (<[i := ip]> (icache s)) s).
Definition upd_inode (i : nat) (f : inode -> inode) : M fs unit :=
  ip <- get_inode i ;; set_inode i (f ip).

Definition with_ref (r : Z) (ip : inode) : inode :=
  mkinode (i_dev ip) (i_inum ip) r (i_lock ip) (i_valid ip) (i_type ip) (i_major ip) (i_minor ip)
          (i_nlink ip) (i_size ip) (i_addrs ip).
Definition with_lock (b : bool) (ip : inode) : inode :=
  mkinode (i_dev ip) (i_inum ip) (i_ref ip) b (i_valid ip) (i_type ip) (i_major ip) (i_minor ip)
          (i_nlink ip) (i_size ip) (i_addrs ip).
Definition with_valid (b : bool) (ip : inode) : inode :=
  mkinode (i_dev ip) (i_inum ip) (i_ref ip) (i_lock ip) b (i_type ip) (i_major ip) (i_minor ip)
          (i_nlink ip) (i_size ip) (i_addrs ip).
Definition with_type (t : Z) (ip : inode) : inode :=
  mkinode (i_dev ip) (i_inum ip) (i_ref ip) (i_lock ip) (i_valid ip) t (i_major ip) (i_minor ip)
          (i_nlink ip) (i_size ip) (i_addrs ip).
Definition with_devno (ma mi : Z) (ip : inode) : inode :=
  mkinode (i_dev ip) (i_inum ip) (i_ref ip) (i_lock ip) (i_valid ip) (i_type ip) ma mi
          (i_nlink ip) (i_size ip) (i_addrs ip).
Definition with_nlink (n : Z) (ip : inode) : inode :=
  mkinode (i_dev ip) (i_inum ip) (i_ref ip) (i_lock ip) (i_valid ip) (i_type ip) (i_major ip) (i_minor ip)
          n (i_size ip) (i_addrs ip).
Definition with_size (n : Z) (ip : inode) : inode :=
  mkinode (i_dev ip) (i_inum ip) (i_ref ip) (i_lock ip) (i_valid ip) (i_type ip) (i_major ip) (i_minor ip)
          (i_nlink ip) n (i_addrs ip).
Definition with_addr (k a : Z) (ip : inode) : inode :=
  mkinode (i_dev ip) (i_inum ip) (i_ref ip) (i_lock ip) (i_valid ip) (i_type ip) (i_major ip) (i_minor ip)
          (i_nlink ip) (i_size ip) (<[Z.to_nat k := a]> (i_addrs ip)).
Definition addr_of (ip : inode) (k : Z) : Z := i_addrs ip !!! Z.to_nat k.

(** ** Blocks *)
Definition BBLOCK (b : Z) (s : superblock) : Z := b / BPB + bmapstart s.
Definition IBLOCK (i : Z) (s : superblock) : Z := i / IPB + inodestart s.

Definition bzero (b : Z) : M fs unit :=
  f_bread b ;;;
  f_set b zero_block ;;;
  f_log_write b ;;;
  f_brelse b.

(** Bit [bi] of a bitmap block. *)
Definition bit_set (d : block) (bi : Z) : bool :=
  negb (Z.land (get8 d (bi / 8)) (Z.shiftl 1 (bi `mod` 8)) =? 0).

(** The first clear bit from [bi] on, of at most [n], below [lim]. *)
Fixpoint find_clear (d : block) (bi lim : Z) (n : nat) : option Z :=
  match n with
  | O => None
  | S n' =>
      if bi <? lim then if bit_set d bi then find_clear d (bi + 1) lim n' else Some bi
      else None
  end.

(** The loop over the bitmap blocks, from block number [b] on. *)
Definition balloc_iter (b : Z) : M fs (Z + Z) :=
  s <- get ;;
  if b <? size (sb s) then
    let bm := BBLOCK b (sb s) in
    f_bread bm ;;;
    d <- f_data bm ;;
    match find_clear d 0 (Z.min BPB (size (sb s) - b)) (Z.to_nat BPB) with
    | Some bi =>
        f_set bm (put8 (bi / 8) (Z.lor (get8 d (bi / 8)) (Z.shiftl 1 (bi `mod` 8))) d) ;;;
        f_log_write bm ;;;
        f_brelse bm ;;;
        bzero (b + bi) ;;;
        ret (inr (b + bi))
    | None => f_brelse bm ;;; ret (inl (b + BPB))
    end
  else panic "balloc: out of blocks".

Definition balloc : M fs Z :=
  s <- get ;; loop (Z.to_nat (size (sb s) / BPB) + 2) balloc_iter 0.

Definition bfree (b : Z) : M fs unit :=
  s <- get ;;
  let bm := BBLOCK b (sb s) in
  f_bread bm ;;;
  d <- f_data bm ;;
  let bi := b `mod` BPB in
  if negb (bit_set d bi) then panic "freeing free block"
  else
    f_set bm (put8 (bi / 8) (Z.land (get8 d (bi / 8)) (Z.lnot (Z.shiftl 1 (bi `mod` 8)))) d) ;;;
    f_log_write bm ;;;
    f_brelse bm.

(** ** Inodes *)

(** [(struct dinode* )bp->data + inum%IPB]: 64 bytes, the fields in order. *)
Definition dinode_off (inum : Z) : Z := 64 * (inum `mod` IPB).

Fixpoint put_addrs (off : Z) (l : list Z) (d : block) : block :=
  match l with
  | [] => d
  | a :: l' => put_addrs (off + 4) l' (put32 off a d)
  end.
Definition put_dinode (ip : inode) (d : block) : block :=
  let o := dinode_off (i_inum ip) in
  put_addrs (o + 12) (i_addrs ip)
    (put32 (o + 8) (i_size ip)
      (put16 (o + 6) (i_nlink ip)
        (put16 (o + 4) (i_minor ip)
          (put16 (o + 2) (i_major ip)
            (put16 o (i_type ip) d))))).
Definition get_dinode (d : block) (ip : inode) : inode :=
  let o := dinode_off (i_inum ip) in
  mkinode (i_dev ip) (i_inum ip) (i_ref ip) (i_lock ip) (i_valid ip)
    (s16 (get16 d o)) (s16 (get16 d (o + 2))) (s16 (get16 d (o + 4))) (s16 (get16 d (o + 6)))
    (get32 d (o + 8)) ((fun k => get32 d (o + 12 + 4 * k)) <$> seqZ 0 13).

Definition readsb_fs : M fs unit :=
  b <- on_log (on_blk readsb) ;;
  modify (fun s => mkfs (lg s) (icache s) b).

(** initlock and initsleeplock leave every inode unlocked. *)
Definition iinit : M fs unit :=
  modify (fun s => set_icache (with_lock false <$> icache s) s) ;;;
  readsb_fs.

(** Find the slot of [inum], remembering the first empty one. *)
Fixpoint iget_scan (dev inum : Z) (t : list inode) (i : nat) (empty : option nat) : option nat * option nat :=
  match t with
  | [] => (None, empty)
  | ip :: t' =>
      if (0 <? i_ref ip) && (i_dev ip =? dev) && (i_inum ip =? inum) then (Some i, empty)
      else iget_scan dev inum t' (S i)
             (match empty with None => if i_ref ip =? 0 then Some i else None | e => e end)
  end.

Definition iget (dev inum : Z) : M fs nat :=
  s <- get ;;
  match iget_scan dev inum (icache s) 0 None with
  | (Some i, _) => upd_inode i (fun ip => with_ref (i_ref ip + 1) ip) ;;; ret i
  | (None, Some i) =>
      upd_inode i (fun ip =>
        mkinode dev inum 1 (i_lock ip) false (i_type ip) (i_major ip) (i_minor ip)
                (i_nlink ip) (i_size ip) (i_addrs ip)) ;;;
      ret i
  | (None, None) => panic "iget: no inodes"
  end.

Definition ialloc_iter (dev type inum : Z) : M fs (Z + nat) :=
  s <- get ;;
  if inum <? ninodes (sb s) then
    let b := IBLOCK inum (sb s) in
    f_bread b ;;;
    d <- f_data b ;;
    if get16 d (dinode_off inum) =? 0 then
      f_set b (put16 (dinode_off inum) type (splice (dinode_off inum) (replicate 64 0) d)) ;;;
      f_log_write b ;;;
      f_brelse b ;;;
      i <- iget dev inum ;;
      ret (inr i)
    else f_brelse b ;;; ret (inl (inum + 1))
  else panic "ialloc: no inodes".

Definition ialloc (dev type : Z) : M fs nat :=
  s <- get ;; loop (Z.to_nat (ninodes (sb s)) + 1) (ialloc_iter dev type) 1.

Definition iupdate (i : nat) : M fs unit :=
  ip <- get_inode i ;;
  s <- get ;;
  let b := IBLOCK (i_inum ip) (sb s) in
  f_bread b ;;;
  d <- f_data b ;;
  f_set b (put_dinode ip d) ;;;
  f_log_write b ;;;
  f_brelse b.

Definition idup (i : nat) : M fs nat :=
  upd_inode i (fun ip => with_ref (i_ref ip + 1) ip) ;;; ret i.

(** acquiresleep waits while the lock is held. *)
Definition lock_inode (i : nat) : M fs unit :=
  ip <- get_inode i ;;
  if i_lock ip then fun s => Sleep (Z.of_nat i) s else set_inode i (with_lock true ip).

Definition ilock (i : nat) : M fs unit :=
  ip <- get_inode i ;;
  if i_ref ip <? 1 then panic "ilock"
  else
    lock_inode i ;;;
    ip <- get_inode i ;;
    if i_valid ip then ret tt
    else
      s <- get ;;
      let b := IBLOCK (i_inum ip) (sb s) in
      f_bread b ;;;
      d <- f_data b ;;
      set_inode i (get_dinode d ip) ;;;
      f_brelse b ;;;
      upd_inode i (with_valid true) ;;;
      ip <- get_inode i ;;
      if i_type ip =? 0 then panic "ilock: no type" else ret tt.

Definition iunlock (i : nat) : M fs unit :=
  ip <- get_inode i ;;
  if negb (i_lock ip) || (i_ref ip <? 1) then panic "iunlock"
  else set_inode i (with_lock false ip).

(** ** Contents *)
Definition bmap (i : nat) (bn : Z) : M fs Z :=
  ip <- get_inode i ;;
  if bn <? NDIRECT then
    if addr_of ip bn =? 0 then
      a <- balloc ;;
      upd_inode i (with_addr bn a) ;;;
      ret a
    else ret (addr_of ip bn)
  else if bn - NDIRECT <? NINDIRECT then
    let bn := bn - NDIRECT in
    ind <- (if addr_of ip NDIRECT =? 0 then
              a <- balloc ;;
              upd_inode i (with_addr NDIRECT a) ;;;
              ret a
            else ret (addr_of ip NDIRECT)) ;;
    f_bread ind ;;;
    d <- f_data ind ;;
    a <- (if get32 d (4 * bn) =? 0 then
            a <- balloc ;;
            d' <- f_data ind ;;
            f_set ind (put32 (4 * bn) a d') ;;;
            f_log_write ind ;;;
            ret a
          else ret (get32 d (4 * bn))) ;;
    f_brelse ind ;;;
    ret a
  else panic "bmap: out of range".

Definition itrunc (i : nat) : M fs unit :=
  for_all (seqZ 0 NDIRECT) (fun k =>
    ip <- get_inode i ;;
    if addr_of ip k =? 0 then ret tt
    else bfree (addr_of ip k) ;;; upd_inode i (with_addr k 0)) ;;;
  ip <- get_inode i ;;
  let ind := addr_of ip NDIRECT in
  (if ind =? 0 then ret tt
   else
     f_bread ind ;;;
     for_all (seqZ 0 NINDIRECT) (fun j =>
       d <- f_data ind ;;
       if get32 d (4 * j) =? 0 then ret tt else bfree (get32 d (4 * j))) ;;;
     f_brelse ind ;;;
     bfree ind ;;;
     upd_inode i (with_addr NDIRECT 0)) ;;;
  upd_inode i (with_size 0) ;;;
  iupdate i.

Definition iput (i : nat) : M fs unit :=
  lock_inode i ;;;
  ip <- get_inode i ;;
  (if i_valid ip && (i_nlink ip =? 0) then
     if i_ref ip =? 1 then
       itrunc i ;;;
       upd_inode i (with_type 0) ;;;
       iupdate i ;;;
       upd_inode i (with_valid false)
     else ret tt
   else ret tt) ;;;
  upd_inode i (with_lock false) ;;;
  upd_inode i (fun ip => with_ref (i_ref ip - 1) ip).

Definition iunlockput (i : nat) : M fs unit := iunlock i ;;; iput i.

(** [struct stat]: type, dev, ino, nlink, size. *)
Record stat := mkstat { st_type : Z; st_dev : Z; st_ino : Z; st_nlink : Z; st_size : Z }.
Definition stati (i : nat) : M fs stat :=
  ip <- get_inode i ;;
  ret (mkstat (i_type ip) (i_dev ip) (i_inum ip) (i_nlink ip) (i_size ip)).

(** [devsw]: the driver of a major device number, if any. *)
Class Devices := {
  dev_read : Z -> option (nat -> Z -> M fs (Z * list Z));
  dev_write : Z -> option (nat -> list Z -> M fs Z) }.

Section devices.
Context `{!Devices}.

(** Reading returns the result of the C function and the bytes it stored. *)
Definition readi_loop (i : nat) (n : Z) (st : Z * Z * list Z) : M fs (Z * Z * list Z + list Z) :=
  let '(tot, off, acc) := st in
  if tot <? n then
    a <- bmap i (off / BSIZE) ;;
    f_bread a ;;;
    let m := Z.min (n - tot) (BSIZE - off `mod` BSIZE) in
    d <- f_data a ;;
    f_brelse a ;;;
    ret (inl (tot + m, u32 (off + m), acc ++ seg (off `mod` BSIZE) m d))
  else ret (inr acc).

Definition readi (i : nat) (off n : Z) : M fs (Z * list Z) :=
  ip <- get_inode i ;;
  if i_type ip =? T_DEV then
    if (i_major ip <? 0) || (NDEV <=? i_major ip) then ret (-1, [])
    else match dev_read (i_major ip) with
         | None => ret (-1, [])
         | Some f => f i n
         end
  else if (i_size ip <? off) || (u32 (off + n) <? off) then ret (-1, [])
  else
    let n := if i_size ip <? u32 (off + n) then i_size ip - off else n in
    bs <- loop (Z.to_nat (n / BSIZE) + 3) (readi_loop i n) (0, off, []) ;;
    ret (n, bs).

Definition writei_loop (i : nat) (src : list Z) (n : Z) (st : Z * Z) : M fs (Z * Z + Z) :=
  let '(tot, off) := st in
  if tot <? n then
    a <- bmap i (off / BSIZE) ;;
    f_bread a ;;;
    let m := Z.min (n - tot) (BSIZE - off `mod` BSIZE) in
    d <- f_data a ;;
    f_set a (splice (off `mod` BSIZE) (seg tot m src) d) ;;;
    f_log_write a ;;;
    f_brelse a ;;;
    ret (inl (tot + m, u32 (off + m)))
  else ret (inr off).

Definition writei (i : nat) (src : list Z) (off : Z) : M fs Z :=
  let n := Z.of_nat (length src) in
  ip <- get_inode i ;;
  if i_type ip =? T_DEV then
    if (i_major ip <? 0) || (NDEV <=? i_major ip) then ret (-1)
    else match dev_write (i_major ip) with
         | None => ret (-1)
         | Some f => f i src
         end
  else if (i_size ip <? off) || (u32 (off + n) <? off) then ret (-1)
  else if MAXFILE * BSIZE <? u32 (off + n) then ret (-1)
  else
    off' <- loop (Z.to_nat (n / BSIZE) + 3) (writei_loop i src n) (0, off) ;;
    ip <- get_inode i ;;
    (if (0 <? n) && (i_size ip <? off')
     then upd_inode i (with_size off') ;;; iupdate i else ret tt) ;;;
    ret n.

(** ** Directories *)

(** strncmp(s, t, n) on the bytes of two buffers. *)
Fixpoint strncmp_bytes (n : nat) (s t : list Z) : Z :=
  match n with
  | O => 0
  | S n' =>
      let p := default 0 (head s) in
      let q := default 0 (head t) in
      if (p =? 0) || negb (p =? q) then p - q
      else strncmp_bytes n' (tail s) (tail t)
  end.
Definition namecmp (s t : list Z) : Z := strncmp_bytes (Z.to_nat DIRSIZ) s t.

(** [struct dirent]: ushort inum; char name[DIRSIZ]. *)
Definition SIZEOF_DIRENT : Z := 16.
Definition de_inum (de : list Z) : Z := get16 de 0.
Definition de_name (de : list Z) : list Z := seg 2 DIRSIZ de.

(** Returns the inode and the offset of the entry. *)
Definition dirlookup_iter (dp : nat) (nm : list Z) (off : Z) : M fs (Z + option (nat * Z)) :=
  ip <- get_inode dp ;;
  if off <? i_size ip then
    r <- readi dp off SIZEOF_DIRENT ;;
    if negb (r.1 =? SIZEOF_DIRENT) then panic "dirlookup read"
    else if de_inum r.2 =? 0 then ret (inl (off + SIZEOF_DIRENT))
    else if namecmp nm (de_name r.2) =? 0 then
      j <- iget (i_dev ip) (de_inum r.2) ;;
      ret (inr (Some (j, off)))
    else ret (inl (off + SIZEOF_DIRENT))
  else ret (inr None).

Definition dirlookup (dp : nat) (nm : list Z) : M fs (option (nat * Z)) :=
  ip <- get_inode dp ;;
  if negb (i_type ip =? T_DIR) then panic "dirlookup not DIR"
  else loop (Z.to_nat (i_size ip / SIZEOF_DIRENT) + 2) (dirlookup_iter dp nm) 0.

(** strncpy(de.name, name, DIRSIZ): the bytes up to the nul, zero padded. *)
Fixpoint strncpy_bytes (n : nat) (t : list Z) : list Z :=
  match n with
  | O => []
  | S n' =>
      let c := default 0 (head t) in
      if c =? 0 then replicate n 0 else c :: strncpy_bytes n' (tail t)
  end.

(** The first free entry of the directory, or its end. *)
Definition dirlink_iter (dp : nat) (off : Z) : M fs (Z + Z) :=
  ip <- get_inode dp ;;
  if off <? i_size ip then
    r <- readi dp off SIZEOF_DIRENT ;;
    if negb (r.1 =? SIZEOF_DIRENT) then panic "dirlink read"
    else if de_inum r.2 =? 0 then ret (inr off)
    else ret (inl (off + SIZEOF_DIRENT))
  else ret (inr off).

Definition dirlink (dp : nat) (nm : list Z) (inum : Z) : M fs Z :=
  r <- dirlookup dp nm ;;
  match r with
  | Some (j, _) => iput j ;;; ret (-1)
  | None =>
      ip <- get_inode dp ;;
      off <- loop (Z.to_nat (i_size ip / SIZEOF_DIRENT) + 2) (dirlink_iter dp) 0 ;;
      w <- writei dp (le_split 2 inum ++ strncpy_bytes (Z.to_nat DIRSIZ) nm) off ;;
      if negb (w =? SIZEOF_DIRENT) then panic "dirlink" else ret 0
  end.

(** ** Paths: the bytes of a string, without its nul *)
Definition slash : Z := 47.

Fixpoint skip_slashes (path : list Z) : list Z :=
  match path with
  | c :: path' => if c =? slash then skip_slashes path' else path
  | [] => []
  end.
Fixpoint span_elem (path : list Z) : list Z * list Z :=
  match path with
  | c :: path' =>
      if c =? slash then ([], path)
      else let '(e, rest) := span_elem path' in (c :: e, rest)
  | [] => ([], [])
  end.

(** [name] is the caller's DIRSIZ-byte buffer; memmove overwrites its front. *)
Definition skipelem (path name : list Z) : option (list Z * list Z) :=
  match skip_slashes path with
  | [] => None
  | p =>
      let '(s, rest) := span_elem p in
      let name' := if DIRSIZ <=? Z.of_nat (length s)
                   then splice 0 (take (Z.to_nat DIRSIZ) s) name
                   else splice 0 (s ++ [0]) name in
      Some (skip_slashes rest, name')
  end.

(** The loop of namex from inode [i]: the inode, or none, and the name buffer. *)
Definition namex_iter (nameiparent : bool) (st : nat * list Z * list Z) :
    M fs (nat * list Z * list Z + option nat * list Z) :=
  let '(i, path, name) := st in
  match skipelem path name with
  | None =>
      if nameiparent then iput i ;;; ret (inr (None, name))
      else ret (inr (Some i, name))
  | Some (path', name') =>
      ilock i ;;;
      ip <- get_inode i ;;
      if negb (i_type ip =? T_DIR) then iunlockput i ;;; ret (inr (None, name'))
      else if nameiparent && match path' with [] => true | _ => false end then
        iunlock i ;;; ret (inr (Some i, name'))
      else
        r <- dirlookup i name' ;;
        match r with
        | None => iunlockput i ;;; ret (inr (None, name'))
        | Some (j, _) => iunlockput i ;;; ret (inl (j, path', name'))
        end
  end.

(** [cwd] is myproc()->cwd. *)
Definition namex (cwd : nat) (path : list Z) (nameiparent : bool) (name : list Z) :
    M fs (option nat * list Z) :=
  i <- (match path with
        | c :: _ => if c =? slash then iget ROOTDEV ROOTINO else idup cwd
        | [] => idup cwd
        end) ;;
  loop (length path + 1) (namex_iter nameiparent) (i, path, name).

Definition namei (cwd : nat) (path : list Z) : M fs (option nat) :=
  r <- namex cwd path false (replicate 14 0) ;; ret r.1.
Definition nameiparent (cwd : nat) (path name : list Z) : M fs (option nat * list Z) :=
  namex cwd path true name.
End devices.
