(* ===== verification/Safe.v ===== *)
(** * Invariants that hold however a call ends

    [always I Q c]: started in a state that satisfies [I], [c] does not run
    out of fuel, and whether it returns, panics, faults or goes to sleep, it
    leaves a state that satisfies [I]; a returned value satisfies [Q].  The
    rules follow the structure of the code, so that the proof for a function
    is a walk over its body ([asteps]). *)
From stdpp Require Import base list.
From Stdlib Require Import ZArith Lia.
From S2P Require Import Prelude.

Definition always {S A} (I : S -> Prop) (Q : A -> Prop) (c : M S A) : Prop := forall s, I s ->
  match c s with
  | Ret a s' => I s' /\ Q a
  | Panic _ s' | Fault _ s' | Sleep _ s' => I s'
  | Spin => False
  end.

Section rules.
Context {S : Type} (I : S -> Prop).

Lemma always_ret {A} (Q : A -> Prop) a : Q a -> always I Q (ret a).
Proof. intros HQ s Hs. done. Qed.
Lemma always_panic {A} (Q : A -> Prop) m : always I Q (panic m).
Proof. intros s Hs. done. Qed.
Lemma always_fault {A} (Q : A -> Prop) m : always I Q (fault m).
Proof. intros s Hs. done. Qed.
Lemma always_get : always I I get.
Proof. intros s Hs. done. Qed.
Lemma always_gets {A} (f : S -> A) : always I (fun _ => True) (gets f).
Proof. intros s Hs. done. Qed.
Lemma always_modify f : (forall s, I s -> I (f s)) -> always I (fun _ => True) (modify f).
Proof. intros H s Hs. by split; [apply H|]. Qed.

Lemma always_mono {A} (P Q : A -> Prop) c : always I P c -> (forall a, P a -> Q a) -> always I Q c.
Proof. intros H HPQ s Hs. specialize (H s Hs). destruct (c s); naive_solver. Qed.
Lemma always_any {A} (P : A -> Prop) c : always I P c -> always I (fun _ => True) c.
Proof. intros H. by eapply always_mono. Qed.

Lemma always_bind {A B} (P : A -> Prop) (Q : B -> Prop) c f :
  always I P c -> (forall a, P a -> always I Q (f a)) -> always I Q (bind c f).
Proof.
  intros Hc Hf s Hs. specialize (Hc s Hs). unfold bind.
  destruct (c s) as [a s'|m s'|w s'|ch s'|]; try done. destruct Hc as [Hs' Ha]. by apply Hf.
Qed.

Lemma always_loop {X R} (P : X -> Prop) (meas : X -> nat) (Q : R -> Prop) body : forall fuel x,
  (forall x, P x -> always I (fun r => match r with
     | inl x' => P x' /\ (meas x' < meas x)%nat
     | inr v => Q v end) (body x)) ->
  P x -> (meas x < fuel)%nat -> always I Q (loop fuel body x).
Proof.
  induction fuel as [|n IH]; intros x Hb HP Hm; [lia|]. cbn [loop].
  eapply always_bind; [by apply Hb|]. intros [x'|v]; cbv beta iota.
  - intros [HP' Hm']. apply IH; [done|done|lia].
  - intros HQ. by apply always_ret.
Qed.

Lemma always_for_all {X} (l : list X) body :
  (forall x, x ∈ l -> always I (fun _ => True) (body x)) -> always I (fun _ => True) (for_all l body).
Proof.
  induction l as [|x l IH]; intros Hb; cbn [for_all]; [by apply always_ret|].
  eapply always_bind; [apply Hb; by left|]. intros _ _. apply IH. intros y Hy. apply Hb. by right.
Qed.

(** Code over a part of the state. *)
Lemma always_zoom {T A} (J : T -> Prop) (Q : A -> Prop) g p (c : M T A) :
  always J Q c -> (forall s, I s -> J (g s)) -> (forall s t, I s -> J t -> I (p t s)) ->
  always I Q (zoom g p c).
Proof.
  intros Hc Hg Hp s Hs. specialize (Hc (g s) (Hg s Hs)). unfold zoom.
  destruct (c (g s)); try (by apply Hp); [|done]. destruct Hc as [Ht Hq]. split; [by apply Hp|done].
Qed.
End rules.

(** Strengthening the invariant by a fact about the state at hand. *)
Lemma always_pin {S A} (I : S -> Prop) (Q : A -> Prop) c :
  (forall s, I s -> exists J : S -> Prop, J s /\ (forall t, J t -> I t) /\ always J Q c) -> always I Q c.
Proof.
  intros H s Hs. destruct (H s Hs) as (J & HJ & HJI & Hc). specialize (Hc s HJ).
  destruct (c s); naive_solver.
Qed.

(** What the rules say of a run. *)
Lemma always_elim {S A} (I : S -> Prop) (Q : A -> Prop) c s : always I Q c -> I s ->
  match c s with Ret _ s' | Panic _ s' | Fault _ s' | Sleep _ s' => I s' | Spin => False end.
Proof. intros H Hs. specialize (H s Hs). destruct (c s); naive_solver. Qed.

Create HintDb safe discriminated.

(** Walk over the code; calls are closed by the lemmas in the [safe] hints. *)
Ltac astep :=
  lazymatch goal with
  | |- always _ _ (@bind _ unit _ _ _) => apply (always_bind _ (fun _ => True)); [astep|intros; cbv beta]
  | |- always _ _ (bind _ _) => eapply always_bind; [astep|intros; cbv beta]
  | |- always _ _ (ret _) => apply always_ret
  | |- always _ _ (panic _) => apply always_panic
  | |- always _ _ (fault _) => apply always_fault
  | |- always _ _ get => apply always_get
  | |- always _ _ (gets _) => apply always_gets
  | |- always _ _ (modify _) => apply always_modify; try done
  | |- always _ _ (match ?b with _ => _ end) => destruct b eqn:?
  | |- always _ _ (let _ := _ in _) => cbv zeta
  | |- always _ (fun _ => True) _ => first [solve [eauto with safe] | solve [eapply always_any; eauto with safe] | idtac]
  | |- always _ _ _ => first [solve [eauto with safe] | idtac]
  | |- _ => idtac
  end.
Ltac asteps := repeat (progress (astep; cbv beta)).
