(* ===== verification/FsBlock.v ===== *)
(** * The block allocator (fs.c: bzero, balloc, bfree)

    How the file system uses buffers inside a transaction: a block is read,
    changed, logged and released, and the cache's view of it changes at once.
    On top of that, [balloc] and [bfree] against the set of used blocks that
    the bitmap represents. *)
From stdpp Require Import base numbers list list_numbers strings.
From Stdlib Require Import ZArith Lia.
From S2P Require Import Prelude Block Bcache Log Fs.
#[local] Open Scope Z_scope.

(** ** Buffers inside a transaction *)

(** What the cache shows of a block. *)
Definition V (s : fs) : Z -> block := view (blk (lg s)).
Definition held (s : fs) : list Z := bheld (blk (lg s)).
Definition loglen (s : fs) : Z := Z.of_nat (length (lh (lg s))).

Definition hold (h : list Z) (s : fs) : fs := set_lg (set_blk (b_held h (blk (lg s))) (lg s)) s.
Definition setv (b : Z) (d : block) (s : fs) : fs :=
  set_lg (set_blk (b_view (set_block b d (V s)) (blk (lg s))) (lg s)) s.

(** The state after [log_write(b)]: the block is in the log and pinned. *)
Definition mark_blk (b : Z) (s : blocks) : blocks :=
  mkblocks (disksize s) (disk s) (view s) (b :: filter (fun x => x ≠ b) (dirty s)) (bheld s) (writes s).
Definition mark_lh (b : Z) (l : list Z) : list Z := if decide (b ∈ l) then l else l ++ [b].
Definition mark (b : Z) (s : fs) : fs :=
  set_lg (set_blk (mark_blk b (blk (lg s))) (set_lh (mark_lh b (lh (lg s))) (lg s))) s.

(** The state after a block was changed, logged and released. *)
Definition logset (b : Z) (d : block) (s : fs) : fs := mark b (setv b d s).

(** What is not in the log is on disk. *)
Record op_ok (s : fs) : Prop := {
  oo_lh : NoDup (lh (lg s));
  oo_dirty : NoDup (dirty (blk (lg s)));
  oo_same : forall b, b ∈ dirty (blk (lg s)) <-> b ∈ lh (lg s);
  oo_clean : forall b, b ∉ lh (lg s) -> V s b = disk (blk (lg s)) b;
  oo_view : forall b, block_ok (V s b) }.

(** A buffer is left besides those pinned by the log and one more. *)
Definition roomy (s : fs) : Prop := loglen s + 1 < NBUF.

(** Inside an operation, with room in the log for [k] more blocks. *)
Definition spare (k : Z) (s : fs) : Prop :=
  1 <= outstanding (lg s) /\ loglen s + k < Z.min LOGSIZE (lsize (lg s) - 1).

Lemma hold_id s : hold (held s) s = s.
Proof. by destruct s as [[[] ] ]. Qed.
Lemma hold_logset h b d s : hold h (logset b d s) = logset b d (hold h s).
Proof. done. Qed.

Lemma V_logset b d s : V (logset b d s) = set_block b d (V s).
Proof. done. Qed.
Lemma V_same b d s : V (logset b d s) b = d.
Proof. apply set_block_same. Qed.
Lemma V_other b d s x : x <> b -> V (logset b d s) x = V s x.
Proof. apply set_block_other. Qed.

Lemma length_mark_lh b l : (length (mark_lh b l) <= S (length l))%nat.
Proof. unfold mark_lh. case_decide; rewrite ?length_app; simpl; lia. Qed.
Lemma elem_of_mark_lh b l x : x ∈ mark_lh b l <-> x = b \/ x ∈ l.
Proof. unfold mark_lh. case_decide; [|rewrite elem_of_app, list_elem_of_singleton]; naive_solver. Qed.
Lemma NoDup_mark_lh b l : NoDup l -> NoDup (mark_lh b l).
Proof.
  intros. unfold mark_lh. case_decide; [done|]. apply NoDup_app.
  split; [done|]. split; [|apply NoDup_singleton]. intros x Hx ->%list_elem_of_singleton. done.
Qed.

Lemma op_ok_hold h s : op_ok s -> op_ok (hold h s).
Proof. by intros []. Qed.
Lemma op_ok_logset b d s : block_ok d -> op_ok s -> op_ok (logset b d s).
Proof.
  intros Hd [H1 H2 H3 H4 H5]. split; simpl.
  - by apply NoDup_mark_lh.
  - constructor; [|by apply NoDup_filter]. rewrite list_elem_of_filter. naive_solver.
  - intros x. rewrite elem_of_mark_lh, elem_of_cons, list_elem_of_filter, <- H3.
    destruct (decide (x = b)); naive_solver.
  - intros x Hx. rewrite elem_of_mark_lh in Hx. rewrite V_other by naive_solver. apply H4. naive_solver.
  - intros x. destruct (decide (x = b)) as [->|]; [by rewrite V_same|by rewrite V_other].
Qed.

Lemma length_dirty s : op_ok s -> length (dirty (blk (lg s))) = length (lh (lg s)).
Proof. intros H. apply Permutation_length, NoDup_Permutation; apply H. Qed.

Lemma spare_mono k k' s : spare k s -> k' <= k -> spare k' s.
Proof. unfold spare. lia. Qed.
Lemma spare_roomy k s : spare k s -> 1 <= k -> roomy s.
Proof. unfold spare, roomy, LOGSIZE, MAXOPBLOCKS, NBUF. lia. Qed.

(** ** The buffer operations, one step each *)
Section steps.
Context {A : Type} (Q : A -> fs -> Prop).

Lemma fread_runs b k s :
  op_ok s -> b ∉ held s -> (length (held s) <= 1)%nat -> roomy s -> 0 <= b < disksize (blk (lg s)) ->
  runs (k tt) (hold (b :: held s) s) Q -> runs (bind (f_bread b) k) s Q.
Proof.
  intros Hok Hb Hl Hs Hr Hk. apply runs_bind, runs_zoom, runs_zoom.
  eexists _, _. split; [apply bread_eq; [done|done|]|apply Hk].
  right. unfold pinned. rewrite length_app, length_dirty by done.
  pose proof (length_filter (fun b => b ∉ dirty (blk (lg s))) (bheld (blk (lg s)))) as Hf.
  unfold held, roomy, loglen, NBUF in *. lia.
Qed.

Lemma fdata_runs b k s : b ∈ held s -> runs (k (V s b)) s Q -> runs (bind (f_data b) k) s Q.
Proof.
  intros Hb Hk. apply runs_bind, runs_zoom, runs_zoom. eexists _, _. split; [by apply bdata_eq|].
  by destruct s as [[] ].
Qed.

Lemma fset_runs b d k s : b ∈ held s -> runs (k tt) (setv b d s) Q -> runs (bind (f_set b d) k) s Q.
Proof.
  intros Hb Hk. apply runs_bind, runs_zoom, runs_zoom. eexists _, _. by split; [apply bset_eq|].
Qed.

Lemma flog_runs b k s :
  b ∈ held s -> spare 0 s -> runs (k tt) (mark b s) Q ->
  runs (bind (f_log_write b) k) s Q.
Proof.
  intros Hb [Ho Hs] Hk. apply runs_bind, runs_zoom. unfold log_write. rsteps. cbv beta.
  unfold loglen in Hs.
  destruct (Z.leb_spec LOGSIZE (Z.of_nat (length (lh (lg s))))); [lia|].
  destruct (Z.leb_spec (lsize (lg s) - 1) (Z.of_nat (length (lh (lg s))))); [lia|]. simpl.
  destruct (Z.ltb_spec (outstanding (lg s)) 1); [lia|]. apply runs_bind.
  exists tt, (set_lh (mark_lh b (lh (lg s))) (lg s)). split.
  - unfold mark_lh. case_decide; [|done]. by destruct s as [[] ].
  - apply runs_zoom. eexists _, _. by split; [apply bdirty_eq|].
Qed.

Lemma frelse_runs b h k s :
  held s = b :: h -> b ∉ h -> b ∈ dirty (blk (lg s)) \/ V s b = disk (blk (lg s)) b ->
  runs (k tt) (hold h s) Q -> runs (bind (f_brelse b) k) s Q.
Proof.
  intros Hh Hb Hc Hk. apply runs_bind, runs_zoom, runs_zoom. eexists _, _. split.
  { apply brelse_eq; [|done]. unfold held in Hh. rewrite Hh. by left. }
  unfold held in Hh. rewrite Hh, filter_head by done. apply Hk.
Qed.

(** A block read and released without a change. *)
Lemma frelse_same b k s :
  op_ok s -> b ∉ held s -> runs (k tt) s Q -> runs (bind (f_brelse b) k) (hold (b :: held s) s) Q.
Proof.
  intros Hok Hb Hk. eapply frelse_runs; [done|done| |].
  - destruct (decide (b ∈ lh (lg s))); [left; by apply Hok|right; by apply Hok].
  - change (runs (k tt) (hold (held s) s) Q). by rewrite hold_id.
Qed.

(** A block read, changed, logged and released. *)
Lemma fupdate_runs b d k s :
  op_ok s -> b ∉ held s -> spare 0 s -> runs (k tt) (logset b d s) Q ->
  runs (f_set b d ;;; f_log_write b ;;; f_brelse b ;;; k tt) (hold (b :: held s) s) Q.
Proof.
  intros Hok Hb Hs Hk. apply fset_runs; [by left|]. apply flog_runs; [by left|done|].
  eapply frelse_runs; [done|done|left; by left|].
  change (runs (k tt) (logset b d (hold (held s) s)) Q). by rewrite hold_id.
Qed.
End steps.

Lemma fupdate_end b d s Q :
  op_ok s -> b ∉ held s -> spare 0 s -> Q tt (logset b d s) ->
  runs (f_set b d ;;; f_log_write b ;;; f_brelse b) (hold (b :: held s) s) Q.
Proof.
  intros. destruct (fupdate_runs Q b d (fun _ => ret tt) s) as (a & s' & E & HQ); try done.
  { by apply runs_ret. }
  exists a, s'. split; [|done]. revert E. unfold bind.
  repeat (match goal with |- context [match ?c with Ret _ _ => _ | _ => _ end] => destruct c as [[]| | | |] end; try done).
Qed.

(** ** Bits of a bitmap block *)
Definition set_bit (i : Z) (d : block) : block :=
  put8 (i / 8) (Z.lor (get8 d (i / 8)) (Z.shiftl 1 (i `mod` 8))) d.
Definition clear_bit (i : Z) (d : block) : block :=
  put8 (i / 8) (Z.land (get8 d (i / 8)) (Z.lnot (Z.shiftl 1 (i `mod` 8)))) d.

Lemma land_bit x k : 0 <= k -> negb (Z.land x (Z.shiftl 1 k) =? 0) = Z.testbit x k.
Proof.
  intros Hk. rewrite Z.shiftl_1_l. destruct (Z.testbit x k) eqn:E.
  - apply negb_true_iff, Z.eqb_neq. intros H0.
    apply (f_equal (fun z => Z.testbit z k)) in H0.
    by rewrite Z.land_spec, E, Z.pow2_bits_true, Z.bits_0 in H0 by lia.
  - apply negb_false_iff, Z.eqb_eq, Z.bits_inj_0. intros j.
    rewrite Z.land_spec, Z.pow2_bits_eqb by lia. destruct (Z.eqb_spec k j); [subst; by rewrite E|].
    by rewrite andb_false_r.
Qed.

Lemma get8_put8 o v d o' :
  0 <= o < Z.of_nat (length d) -> 0 <= o' -> get8 (put8 o v d) o' = if o' =? o then u8 v else get8 d o'.
Proof.
  intros Ho Ho'. unfold get8, put8, splice. simpl. destruct (Z.eqb_spec o' o) as [->|Hne].
  - apply list_lookup_total_correct. rewrite list_lookup_insert_eq by lia. done.
  - rewrite list_lookup_total_insert_ne by lia. done.
Qed.

Lemma testbit_u8 v k : 0 <= k < 8 -> Z.testbit (u8 v) k = Z.testbit v k.
Proof. intros. unfold u8. change 256 with (2 ^ 8). apply Z.mod_pow2_bits_low. lia. Qed.

Lemma bit_set_put8 d i v j :
  block_ok d -> 0 <= i < BPB -> 0 <= j < BPB ->
  bit_set (put8 (i / 8) v d) j =
    Z.testbit (if j / 8 =? i / 8 then v else get8 d (j / 8)) (j `mod` 8).
Proof.
  intros [Hl _] Hi Hj. unfold BPB, BSIZE in *. unfold bit_set.
  rewrite land_bit, get8_put8 by dlia. destruct (j / 8 =? i / 8); [|done].
  apply testbit_u8. dlia.
Qed.

Lemma bit_pos i j : 0 <= i -> 0 <= j -> j / 8 = i / 8 -> (j `mod` 8 =? i `mod` 8) = (j =? i).
Proof. intros. destruct (Z.eqb_spec j i), (Z.eqb_spec (j `mod` 8) (i `mod` 8)); dlia. Qed.

Lemma bit_set_set d i j : block_ok d -> 0 <= i < BPB -> 0 <= j < BPB ->
  bit_set (set_bit i d) j = (j =? i) || bit_set d j.
Proof.
  intros Hd Hi Hj. unfold set_bit. rewrite bit_set_put8 by done.
  unfold bit_set at 1. rewrite land_bit by dlia.
  destruct (Z.eqb_spec (j / 8) (i / 8)) as [E|E].
  - rewrite Z.lor_spec, Z.shiftl_1_l, Z.pow2_bits_eqb by dlia.
    rewrite (Z.eqb_sym (i `mod` 8)), bit_pos, <- E by lia. by rewrite orb_comm.
  - destruct (Z.eqb_spec j i); [by subst|done].
Qed.

Lemma bit_set_clear d i j : block_ok d -> 0 <= i < BPB -> 0 <= j < BPB ->
  bit_set (clear_bit i d) j = negb (j =? i) && bit_set d j.
Proof.
  intros Hd Hi Hj. unfold clear_bit. rewrite bit_set_put8 by done.
  unfold bit_set at 1. rewrite land_bit by dlia.
  destruct (Z.eqb_spec (j / 8) (i / 8)) as [E|E].
  - rewrite Z.land_spec, Z.lnot_spec, Z.shiftl_1_l, Z.pow2_bits_eqb by dlia.
    rewrite (Z.eqb_sym (i `mod` 8)), bit_pos, <- E by lia. by rewrite andb_comm.
  - destruct (Z.eqb_spec j i); [by subst|done].
Qed.

Lemma find_clear_spec d lim n : forall bi, lim - bi <= Z.of_nat n ->
  match find_clear d bi lim n with
  | Some r => bi <= r < lim /\ bit_set d r = false /\ (forall j, bi <= j < r -> bit_set d j = true)
  | None => forall j, bi <= j < lim -> bit_set d j = true
  end.
Proof.
  induction n as [|n IH]; intros bi Hn; simpl; [intros; lia|].
  destruct (Z.ltb_spec bi lim); [|intros; lia].
  destruct (bit_set d bi) eqn:E; [|split_and!; [lia|lia|done|intros; lia]].
  specialize (IH (bi + 1) ltac:(lia)). destruct (find_clear d (bi + 1) lim n) as [r|].
  - destruct IH as (Hr & Hc & Hl). split_and!; [lia|lia|done|].
    intros j Hj. destruct (decide (j = bi)) as [->|]; [done|apply Hl; lia].
  - intros j Hj. destruct (decide (j = bi)) as [->|]; [done|apply IH; lia].
Qed.

(** ** The file system's layout and the set of used blocks *)
Definition used (s : fs) (b : Z) : bool := bit_set (V s (BBLOCK b (sb s))) (b `mod` BPB).

(** The first block after the bitmap. *)
Definition dstart (b : superblock) : Z := bmapstart b + size b / BPB + 1.

Record layout_ok (b : superblock) (dsz : Z) : Prop := {
  lo_size : 0 < size b <= dsz;
  lo_width : dsz <= 4294967296;
  lo_inodes : 0 <= ninodes b /\ 0 <= inodestart b /\ inodestart b + ninodes b / IPB + 1 <= bmapstart b;
  lo_data : dstart b <= size b }.

Record fs_ok (s : fs) : Prop := {
  fo_op : op_ok s;
  fo_layout : layout_ok (sb s) (disksize (blk (lg s)));
  fo_bitmap : forall b, 0 <= b < dstart (sb s) -> used s b = true }.

Lemma dstart_pos s : layout_ok (sb s) (disksize (blk (lg s))) -> 0 < dstart (sb s).
Proof.
  intros [H1 H2 H3 H4]. unfold dstart in *. change IPB with 8 in *. change BPB with 4096 in *. dlia.
Qed.

Lemma BBLOCK_range s b : layout_ok (sb s) (disksize (blk (lg s))) -> 0 <= b < size (sb s) ->
  0 <= BBLOCK b (sb s) < dstart (sb s).
Proof.
  intros [H1 H2 H3 H4] Hb. unfold BBLOCK, dstart in *. change IPB with 8 in *. change BPB with 4096 in *. dlia.
Qed.

Lemma IBLOCK_range s i : layout_ok (sb s) (disksize (blk (lg s))) -> 0 <= i < ninodes (sb s) ->
  0 <= IBLOCK i (sb s) < bmapstart (sb s).
Proof. intros [H1 H2 H3 H4] Hb. unfold IBLOCK, dstart in *. change IPB with 8 in *. change BPB with 4096 in *. dlia. Qed.

(** ** Log space: the blocks already in the log and the known ones to come *)
Definition need (S : list Z) (s : fs) : Z :=
  loglen s + Z.of_nat (length (filter (fun b => b ∉ lh (lg s)) S)).
Definition fits (S : list Z) (k : Z) (s : fs) : Prop :=
  1 <= outstanding (lg s) /\ need S s + k + 1 < Z.min LOGSIZE (lsize (lg s) - 1).

Lemma fits_spare S k s : fits S k s -> spare (k + 1) s.
Proof. unfold fits, spare, need. lia. Qed.

Lemma filter_mark_le b l (S : list Z) :
  (length (filter (fun x => x ∉ mark_lh b l) S) <= length (filter (fun x => x ∉ l) S))%nat.
Proof.
  induction S as [|x S IH]; [done|]. rewrite !filter_cons.
  repeat case_decide; simpl; rewrite ?elem_of_mark_lh in *; naive_solver lia.
Qed.
Lemma filter_mark_lt b l (S : list Z) : b ∈ S -> b ∉ l ->
  (length (filter (fun x => x ∉ mark_lh b l) S) < length (filter (fun x => x ∉ l) S))%nat.
Proof.
  intros Hb Hl. induction S as [|x S IH]; [by apply not_elem_of_nil in Hb|].
  rewrite !filter_cons. pose proof (filter_mark_le b l S) as Hle.
  apply elem_of_cons in Hb as [->|Hb].
  - rewrite decide_False by (rewrite elem_of_mark_lh; naive_solver).
    rewrite decide_True by done. simpl. lia.
  - specialize (IH Hb). repeat case_decide; simpl; rewrite ?elem_of_mark_lh in *; naive_solver lia.
Qed.

Lemma need_old S b d s : b ∈ lh (lg s) -> need S (logset b d s) = need S s.
Proof. intros H. unfold need, loglen. simpl. unfold mark_lh. by rewrite decide_True. Qed.
Lemma need_in S b d s : b ∈ S -> need S (logset b d s) <= need S s.
Proof.
  intros H. destruct (decide (b ∈ lh (lg s))) as [|Hn]; [by rewrite need_old|].
  unfold need, loglen. simpl. pose proof (filter_mark_lt b (lh (lg s)) S H Hn).
  pose proof (length_mark_lh b (lh (lg s))). lia.
Qed.
Lemma need_any S b d s : need S (logset b d s) <= need S s + 1.
Proof.
  unfold need, loglen. simpl. pose proof (filter_mark_le b (lh (lg s)) S).
  pose proof (length_mark_lh b (lh (lg s))). lia.
Qed.
Lemma need_cons b S s : need S s <= need (b :: S) s <= need S s + 1.
Proof. unfold need. rewrite filter_cons. case_decide; simpl; lia. Qed.
Lemma need_cons_old b S s : b ∈ lh (lg s) -> need (b :: S) s = need S s.
Proof. intros. unfold need. by rewrite filter_cons_False by naive_solver. Qed.

(** ** balloc *)

(** The state after block [b] was allocated: marked in the bitmap and zeroed. *)
Definition allocated (b : Z) (s : fs) : fs :=
  logset b zero_block
    (logset (BBLOCK b (sb s)) (set_bit (b `mod` BPB) (V s (BBLOCK b (sb s)))) s).

Definition bitmap_blocks (b : superblock) : list Z := seqZ (bmapstart b) (size b / BPB + 1).

Lemma elem_of_bitmap s b : 0 <= b < size (sb s) -> BBLOCK b (sb s) ∈ bitmap_blocks (sb s).
Proof.
  intros Hb. unfold BBLOCK, bitmap_blocks. apply elem_of_seqZ. change BPB with 4096. dlia.
Qed.

(** The buffers that may be locked around a call of [balloc]. *)
Definition held_ok (s : fs) : Prop :=
  (length (held s) <= 1)%nat /\ forall x, x ∈ held s -> dstart (sb s) <= x /\ used s x = true.

Definition balloc_post (s : fs) (o : outcome fs Z) : Prop :=
  match o with
  | Ret b s' =>
      0 <= b < size (sb s) /\ used s b = false /\ (forall j, 0 <= j < b -> used s j = true) /\
      s' = allocated b s
  | Panic msg s' =>
      msg = "balloc: out of blocks"%string /\ s' = s /\ forall j, 0 <= j < size (sb s) -> used s j = true
  | _ => False
  end.

Lemma used_in s b j : b `mod` BPB = 0 -> b <= j < b + BPB ->
  used s j = bit_set (V s (BBLOCK b (sb s))) (j - b).
Proof.
  intros Hb Hj. unfold used, BBLOCK. change BPB with 4096 in *.
  replace (j / 4096) with (b / 4096) by dlia. by replace (j `mod` 4096) with (j - b) by dlia.
Qed.

Lemma runs_eq {S A} (c c' : M S A) s Q : c s = c' s -> runs c' s Q -> runs c s Q.
Proof. intros E (a & s' & E' & HQ). exists a, s'. by rewrite E. Qed.

Section balloc.
Context (S : list Z) (s : fs).
Context (Hok : fs_ok s) (Hh : held_ok s) (Hf : fits S 1 s).
Context (HS : forall b, b ∈ bitmap_blocks (sb s) -> b ∈ S).

Let free b := 0 <= b < size (sb s) /\ used s b = false.

Lemma free_not_held b : free b -> b ∉ held s.
Proof. intros [_ Hu] Hb. apply Hh in Hb as [_ Hb]. congruence. Qed.

Lemma bm_ready b : 0 <= b < size (sb s) ->
  let bm := BBLOCK b (sb s) in
  0 <= bm < disksize (blk (lg s)) /\ bm ∉ held s /\ bm ∈ S.
Proof.
  intros Hb bm. pose proof (BBLOCK_range s b (fo_layout s Hok) Hb) as Hr.
  destruct (fo_layout s Hok) as [H1 _ _ H4].
  split; [unfold bm; lia|]. split; [|by apply HS, elem_of_bitmap].
  intros Hbm. apply Hh in Hbm. unfold bm in *. lia.
Qed.

Lemma free_ready b : free b -> 0 <= b < disksize (blk (lg s)).
Proof. intros [Hb _]. destruct (fo_layout s Hok). lia. Qed.

Lemma bzero_runs b (t : fs) (Q : unit -> fs -> Prop) :
  op_ok t -> held t = held s -> b ∉ held s -> 0 <= b < disksize (blk (lg t)) -> spare 1 t ->
  Q tt (logset b zero_block t) -> runs (bzero b) t Q.
Proof.
  intros Ht Eh Hb Hr Hs HQ. unfold bzero. apply fread_runs; try done; try (rewrite Eh; (apply Hh || done)); [by apply (spare_roomy 1)|].
  apply fupdate_end; [done|by rewrite Eh|by apply (spare_mono 1); [|lia]|done].
Qed.

Lemma balloc_iter_spec b : 0 <= b -> b `mod` BPB = 0 ->
  (forall j, 0 <= j < b -> j < size (sb s) -> used s j = true) ->
  match balloc_iter b s with
  | Ret (inl b') s' => b < size (sb s) /\ b' = b + BPB /\ s' = s /\
      forall j, 0 <= j < b' -> j < size (sb s) -> used s j = true
  | Ret (inr r) s' => balloc_post s (Ret r s')
  | Panic m s' => balloc_post s (Panic m s')
  | _ => False
  end.
Proof.
  intros Hb0 Hbm Hlow. unfold balloc_iter. unfold bind at 1, get at 1.
  destruct (Z.ltb_spec b (size (sb s))) as [Hlt|Hge].
  2: { split_and!; [done|done|]. intros j Hj. apply Hlow; lia. }
  destruct (bm_ready b ltac:(lia)) as (Hbr & Hbh & HbS).
  pose proof (fits_spare S 1 s Hf) as Hs. pose proof (fo_op s Hok) as Hop.
  set (bm := BBLOCK b (sb s)) in *. set (lim := Z.min BPB (size (sb s) - b)).
  pose proof (find_clear_spec (V s bm) lim (Z.to_nat BPB) 0) as Hfc.
  match goal with |- match ?c s with _ => _ end => assert (R : runs c s (fun r s' => match r with
    | inl b' => b < size (sb s) /\ b' = b + BPB /\ s' = s /\
        forall j, 0 <= j < b' -> j < size (sb s) -> used s j = true
    | inr r => balloc_post s (Ret r s') end)) end.
  { apply fread_runs; try done; [apply Hh|by apply (spare_roomy 2)|].
    apply fdata_runs; [by left|]. change (V (hold _ s) bm) with (V s bm).
    destruct (find_clear (V s bm) 0 lim (Z.to_nat BPB)) as [bi|].
    - destruct Hfc as (Hbi & Hbc & Hbl); [lia|].
      assert (Eb : used s (b + bi) = false).
      { rewrite (used_in s b) by (done || lia). by replace (b + bi - b) with bi by lia. }
      assert (Hfree : free (b + bi)) by (split; [lia|done]).
      assert (Ebm : BBLOCK (b + bi) (sb s) = bm /\ (b + bi) `mod` BPB = bi).
      { unfold bm, BBLOCK. change BPB with 4096 in *. dlia. }
      apply (fupdate_runs _ bm (set_bit bi (V s bm)) (fun _ => bzero (b + bi) ;;; ret (inr (b + bi)))); try done.
      { by apply (spare_mono 2); [|lia]. }
      apply runs_bind, bzero_runs; [|done|by apply free_not_held|by apply free_ready| |].
      + apply op_ok_logset; [apply put8_ok, Hop|done].
      + pose proof (need_in S bm (set_bit bi (V s bm)) s HbS) as Hn.
        unfold fits in Hf. unfold spare, need in *. simpl in *. lia.
      + apply runs_ret. split_and!; [lia|lia|done| |].
        * intros j Hj. destruct (decide (j < b)); [apply Hlow; lia|].
          rewrite (used_in s b) by (done || lia). apply Hbl. lia.
        * unfold allocated. by rewrite (proj1 Ebm), (proj2 Ebm).
    - eapply frelse_same; [done|done|]. apply runs_ret. split_and!; [done|done|done|].
      intros j Hj Hjs. destruct (decide (j < b)); [apply Hlow; lia|].
      rewrite (used_in s b) by (done || lia). apply Hfc; lia. }
  destruct R as (r & s' & E & HQ). rewrite E. by destruct r.
Qed.

Lemma balloc_total : balloc_post s (balloc s).
Proof.
  unfold balloc. unfold bind, get.
  assert (G : forall n b, 0 <= b -> b `mod` BPB = 0 ->
    (forall j, 0 <= j < b -> j < size (sb s) -> used s j = true) ->
    size (sb s) - b <= Z.of_nat n * BPB -> balloc_post s (loop (Datatypes.S n) balloc_iter b s)).
  { induction n as [|n IH]; intros b Hb Hm Hl Hn; pose proof (balloc_iter_spec b Hb Hm Hl) as Hi;
      cbn [loop]; unfold bind at 1;
      destruct (balloc_iter b s) as [[b'|r] s'|m s'|w s'|c s'|]; try done;
      destruct Hi as (Hlt & -> & -> & Hl'); [lia|].
    apply IH; [change BPB with 4096 in *; lia| |done|change BPB with 4096 in *; lia].
    change BPB with 4096 in *. dlia. }
  replace (Z.to_nat (size (sb s) / BPB) + 2)%nat
    with (Datatypes.S (Z.to_nat (size (sb s) / BPB) + 1)) by lia.
  apply G; [lia|done|lia|]. change BPB with 4096. destruct (fo_layout s Hok). dlia.
Qed.
End balloc.

(** ** What an allocation and a release do to the used blocks *)
Lemma BBLOCK_same s b x : BBLOCK x (sb s) = BBLOCK b (sb s) -> x `mod` BPB = b `mod` BPB -> x = b.
Proof. unfold BBLOCK. change BPB with 4096. intros. dlia. Qed.

Lemma fs_ok_frame s s' :
  op_ok s' -> sb s' = sb s -> disksize (blk (lg s')) = disksize (blk (lg s)) ->
  (forall b, 0 <= b < dstart (sb s) -> used s b = true -> used s' b = true) -> fs_ok s -> fs_ok s'.
Proof.
  intros Ho Es Ed Hu [H1 H2 H3]. split; [done|by rewrite Es, Ed|].
  intros b Hb. rewrite Es in Hb. by apply Hu, H3.
Qed.

(** Changing a block outside the bitmap leaves the used blocks as they are. *)
Lemma used_frame s s' x :
  sb s' = sb s -> V s' (BBLOCK x (sb s)) = V s (BBLOCK x (sb s)) -> used s' x = used s x.
Proof. intros E1 E2. unfold used. by rewrite E1, E2. Qed.

Lemma used_logset b d s x :
  fs_ok s -> dstart (sb s) <= b -> 0 <= x < size (sb s) -> used (logset b d s) x = used s x.
Proof.
  intros Hok Hb Hx. apply used_frame; [done|]. apply V_other.
  pose proof (BBLOCK_range s x (fo_layout s Hok) Hx). lia.
Qed.

Lemma fs_ok_logset b d s : fs_ok s -> block_ok d -> dstart (sb s) <= b -> fs_ok (logset b d s).
Proof.
  intros Hok Hd Hb. eapply (fs_ok_frame s); [apply op_ok_logset; [done|apply Hok]|done|done| |done].
  intros x Hx Hu. rewrite used_logset; [done..|]. pose proof (lo_data _ _ (fo_layout s Hok)). lia.
Qed.

Lemma mod_BPB b : 0 <= b `mod` BPB < BPB.
Proof. apply Z.mod_pos_bound. by compute. Qed.

(** Changing one bit of the bitmap. *)
Lemma used_bit s b x v (f : Z -> block -> block) :
  (forall d j, block_ok d -> 0 <= j < BPB -> bit_set (f (b `mod` BPB) d) j = if j =? b `mod` BPB then v else bit_set d j) ->
  op_ok s ->
  used (logset (BBLOCK b (sb s)) (f (b `mod` BPB) (V s (BBLOCK b (sb s)))) s) x =
    if x =? b then v else used s x.
Proof.
  intros Hf Hok. unfold used. simpl sb.
  destruct (Z.eqb_spec (BBLOCK x (sb s)) (BBLOCK b (sb s))) as [E|E].
  - rewrite E, V_same, Hf by (apply Hok || apply mod_BPB).
    destruct (Z.eqb_spec (x `mod` BPB) (b `mod` BPB)) as [E'|E'].
    + rewrite (BBLOCK_same s b x) by done. by rewrite Z.eqb_refl.
    + destruct (Z.eqb_spec x b); [by subst|done].
  - rewrite V_other by done. destruct (Z.eqb_spec x b); [by subst|done].
Qed.

Lemma set_bit_ok i d : block_ok d -> block_ok (set_bit i d).
Proof. apply put8_ok. Qed.
Lemma clear_bit_ok i d : block_ok d -> block_ok (clear_bit i d).
Proof. apply put8_ok. Qed.

Section allocated.
Context (s : fs) (b : Z) (Hok : fs_ok s) (Hb : 0 <= b < size (sb s)) (Hu : used s b = false).

Lemma free_data : dstart (sb s) <= b.
Proof.
  destruct (decide (b < dstart (sb s))); [|lia]. rewrite (fo_bitmap s Hok) in Hu by lia. done.
Qed.

Let bm := BBLOCK b (sb s).
Let s1 := logset bm (set_bit (b `mod` BPB) (V s bm)) s.

Lemma op_ok_bm : op_ok s1.
Proof. apply op_ok_logset; [apply set_bit_ok|]; apply Hok. Qed.

Lemma used_bm x : used s1 x = (x =? b) || used s x.
Proof.
  unfold s1, bm. rewrite (used_bit s b x true set_bit); [by destruct (x =? b)| |apply Hok].
  intros d j Hd Hj. rewrite bit_set_set by (done || apply mod_BPB). by destruct (j =? _).
Qed.

Lemma fs_ok_bm : fs_ok s1.
Proof.
  eapply (fs_ok_frame s); [apply op_ok_bm|done|done| |done].
  intros x _ Hx. rewrite used_bm, Hx. apply orb_true_r.
Qed.

Lemma fs_ok_allocated : fs_ok (allocated b s).
Proof. apply fs_ok_logset; [apply fs_ok_bm|apply zero_block_ok|apply free_data]. Qed.

Lemma used_allocated x : 0 <= x < size (sb s) -> used (allocated b s) x = (x =? b) || used s x.
Proof.
  intros Hx. unfold allocated. fold bm. fold s1.
  rewrite used_logset; [apply used_bm|apply fs_ok_bm|apply free_data|done].
Qed.

Lemma V_allocated x : x <> b -> x ∉ bitmap_blocks (sb s) -> V (allocated b s) x = V s x.
Proof.
  intros Hx Hbm. unfold allocated. rewrite V_other by done. apply V_other.
  intros ->. by apply Hbm, elem_of_bitmap.
Qed.

Lemma V_allocated_same : V (allocated b s) b = zero_block.
Proof. apply V_same. Qed.

Lemma need_allocated S : (forall b, b ∈ bitmap_blocks (sb s) -> b ∈ S) ->
  need S (allocated b s) <= need S s + 1.
Proof.
  intros HS. unfold allocated. pose proof (need_any S b zero_block s1).
  pose proof (need_in S bm (set_bit (b `mod` BPB) (V s bm)) s (HS _ (elem_of_bitmap s b Hb))).
  unfold s1, bm in *. lia.
Qed.

Lemma lh_allocated x : x ∈ lh (lg s) \/ x = b -> x ∈ lh (lg (allocated b s)).
Proof. intros Hx. simpl. rewrite !elem_of_mark_lh. destruct Hx; [right; by right|by left]. Qed.
End allocated.

Lemma bfree_runs s b (Q : unit -> fs -> Prop) :
  fs_ok s -> held s = [] -> fits (bitmap_blocks (sb s)) 0 s -> 0 <= b < size (sb s) -> used s b = true ->
  Q tt (logset (BBLOCK b (sb s)) (clear_bit (b `mod` BPB) (V s (BBLOCK b (sb s)))) s) ->
  runs (bfree b) s Q.
Proof.
  intros Hok Hh Hf Hb Hu HQ. unfold bfree. apply runs_bind, runs_get. set (bm := BBLOCK b (sb s)) in *.
  pose proof (fits_spare _ _ _ Hf) as Hs.
  pose proof (BBLOCK_range s b (fo_layout s Hok) Hb) as Hr. fold bm in Hr.
  pose proof (lo_size _ _ (fo_layout s Hok)). pose proof (lo_data _ _ (fo_layout s Hok)).
  apply fread_runs; [apply Hok|rewrite Hh; apply not_elem_of_nil|rewrite Hh; simpl; lia|by apply (spare_roomy 1)|lia|].
  apply fdata_runs; [by left|]. change (V (hold _ s) bm) with (V s bm).
  change (bit_set (V s bm) (b `mod` BPB)) with (used s b). rewrite Hu. cbn [negb].
  apply fupdate_end; [apply Hok|rewrite Hh; apply not_elem_of_nil|by apply (spare_mono 1); [|lia]|done].
Qed.

(** The number of free blocks. *)
Definition nfree (s : fs) : Z :=
  Z.of_nat (length (filter (fun b => used s b = false) (seqZ 0 (size (sb s))))).

Lemma nfree_ext s s' : sb s' = sb s -> (forall x, 0 <= x < size (sb s) -> used s' x = used s x) ->
  nfree s' = nfree s.
Proof.
  intros E H. unfold nfree. rewrite E. do 2 f_equal. apply filter_ext_in.
  intros x Hx%elem_of_seqZ. by rewrite H by lia.
Qed.

Lemma nfree_allocated s b : fs_ok s -> 0 <= b < size (sb s) -> used s b = false ->
  nfree (allocated b s) = nfree s - 1.
Proof.
  intros Hok Hb Hu. unfold nfree. change (sb (allocated b s)) with (sb s).
  rewrite (filter_ne_length b (filter (fun b => used s b = false) (seqZ 0 (size (sb s))))).
  - rewrite list_filter_filter.
    rewrite (filter_ext_in (fun x => used (allocated b s) x = false) (fun a => a ≠ b /\ used s a = false)); [lia|].
    intros x Hx%elem_of_seqZ. rewrite used_allocated by (done || lia).
    destruct (Z.eqb_spec x b); simpl; naive_solver.
  - apply NoDup_filter, NoDup_seqZ.
  - apply list_elem_of_filter. split; [done|]. apply elem_of_seqZ. lia.
Qed.

(** With a free block [balloc] returns. *)
Lemma balloc_runs S s (Q : Z -> fs -> Prop) :
  fs_ok s -> held_ok s -> fits S 1 s -> (forall b, b ∈ bitmap_blocks (sb s) -> b ∈ S) -> 0 < nfree s ->
  (forall b, 0 <= b < size (sb s) -> used s b = false -> Q b (allocated b s)) -> runs balloc s Q.
Proof.
  intros Hok Hh Hf HS Hn HQ. pose proof (balloc_total S s Hok Hh Hf HS) as HP. unfold runs.
  destruct (balloc s) as [b s'|m s'|w s'|c s'|]; try done.
  - destruct HP as (Hb & Hu & _ & ->). eexists _, _. split; [done|by apply HQ].
  - destruct HP as (_ & _ & Hall). exfalso. revert Hn. unfold nfree.
    rewrite (filter_ext_in _ (fun _ => False)).
    + assert (E : forall l : list Z, filter (fun _ => False) l = []) by (induction l; done).
      rewrite E. simpl. lia.
    + intros x Hx%elem_of_seqZ. rewrite Hall by lia. done.
Qed.

(** ** Theorems *)

(** C22. The block allocator.  In a transaction with room in the log, [balloc]
    returns the lowest block that the bitmap has free, never one below the
    data area, zeroed and marked, and changes no other block outside the
    bitmap; the log grows by at most the bitmap and that block.  When there
    is no free block, and only then, it panics, having changed nothing. *)
Theorem balloc_correct s :
  fs_ok s -> held_ok s -> fits (bitmap_blocks (sb s)) 1 s ->
  match balloc s with
  | Ret b s' =>
      (dstart (sb s) <= b < size (sb s) /\ used s b = false /\ forall j, 0 <= j < b -> used s j = true) /\
      V s' b = zero_block /\
      (forall x, 0 <= x < size (sb s) -> used s' x = (x =? b) || used s x) /\
      (forall x, x <> b -> x ∉ bitmap_blocks (sb s) -> V s' x = V s x) /\
      fs_ok s' /\ held s' = held s /\ icache s' = icache s /\
      loglen s' <= need (bitmap_blocks (sb s)) s + 1
  | Panic msg s' =>
      msg = "balloc: out of blocks"%string /\ s' = s /\ forall j, 0 <= j < size (sb s) -> used s j = true
  | _ => False
  end.
Proof.
  intros Hok Hh Hf. pose proof (balloc_total _ s Hok Hh Hf (fun _ H => H)) as HP.
  destruct (balloc s) as [b s'|m s'|w s'|c s'|]; try done.
  destruct HP as (Hb & Hu & Hlow & ->).
  split_and!; try done; try lia.
  - by apply free_data.
  - apply V_allocated_same.
  - intros x. by apply used_allocated.
  - intros x. by apply V_allocated.
  - by apply fs_ok_allocated.
  - pose proof (need_allocated s b Hb (bitmap_blocks (sb s)) (fun _ H => H)).
    unfold need at 1 in H. lia.
Qed.

(** Freeing what was allocated: after [balloc] returned a block, [bfree] of
    it runs, and the used blocks are again those from before the allocation;
    every block outside the bitmap and the one allocated is as before. *)
Theorem bfree_balloc s b s' :
  fs_ok s -> held s = [] -> fits (bitmap_blocks (sb s)) 1 s -> balloc s = Ret b s' ->
  runs (bfree b) s' (fun _ s'' =>
    (forall x, 0 <= x < size (sb s) -> used s'' x = used s x) /\ fs_ok s'' /\
    (forall x, x <> b -> x ∉ bitmap_blocks (sb s) -> V s'' x = V s x)).
Proof.
  intros Hok Hh Hf E.
  assert (Hho : held_ok s) by (split; rewrite Hh; [simpl; lia|intros x Hx; by apply not_elem_of_nil in Hx]).
  pose proof (balloc_total _ s Hok Hho Hf (fun _ H => H)) as HP. rewrite E in HP.
  destruct HP as (Hb & Hu & _ & ->).
  pose proof (fs_ok_allocated s b Hok Hb Hu) as Hok'.
  assert (Hub : used (allocated b s) b = true) by (rewrite used_allocated, Z.eqb_refl by done; done).
  apply bfree_runs; [done|done| |done|done|].
  { pose proof (need_allocated s b Hb (bitmap_blocks (sb s)) (fun _ H => H)) as Hn.
    destruct Hf as [Ho Hf]. split; [done|]. change (sb (allocated b s)) with (sb s).
    change (lsize (lg (allocated b s))) with (lsize (lg s)). lia. }
  set (t := allocated b s) in *. change (sb s) with (sb t).
  assert (Hus : forall x, used (logset (BBLOCK b (sb t)) (clear_bit (b `mod` BPB) (V t (BBLOCK b (sb t)))) t) x
                = if x =? b then false else used t x).
  { intros x. apply (used_bit t b x false clear_bit); [|apply Hok'].
    intros d j Hd Hj. rewrite bit_set_clear by (done || apply mod_BPB). by destruct (j =? _). }
  split_and!.
  - intros x Hx. rewrite Hus. destruct (Z.eqb_spec x b) as [->|Hne]; [done|].
    unfold t. rewrite used_allocated by done. by rewrite (proj2 (Z.eqb_neq x b) Hne).
  - eapply (fs_ok_frame t); [apply op_ok_logset; [apply clear_bit_ok|]; apply Hok'|done|done| |done].
    intros x Hx Hxu. rewrite Hus, Hxu. pose proof (free_data s b Hok Hb Hu).
    change (sb t) with (sb s) in Hx. destruct (Z.eqb_spec x b); [lia|done].
  - intros x Hx Hbm. rewrite V_other by (intros ->; by apply Hbm, elem_of_bitmap).
    by apply V_allocated.
Qed.
