(* ===== verification/FsInode.v ===== *)
(** * Inodes on disk and in the cache (fs.c: iupdate, ilock, iget, idup, iput)

    The 64-byte encoding of an inode and its round trip through [iupdate] and
    [ilock]; and the inode cache, in which an inode number has at most one
    slot. *)
From stdpp Require Import base numbers list list_numbers strings.
From Stdlib Require Import ZArith Lia.
From S2P Require Import Prelude Block Bcache Log Fs FsBlock.
#[local] Open Scope Z_scope.

(** ** The encoding of an inode *)
Definition short (x : Z) : Prop := -32768 <= x < 32768.

Record fields_ok (ip : inode) : Prop := {
  fd_type : short (i_type ip);
  fd_major : short (i_major ip);
  fd_minor : short (i_minor ip);
  fd_nlink : short (i_nlink ip);
  fd_size : 0 <= i_size ip < 4294967296;
  fd_addrs : length (i_addrs ip) = 13%nat /\ Forall (fun a => 0 <= a < 4294967296) (i_addrs ip) }.

(** The fields that are on disk, put into a cache entry. *)
Definition with_disk (ip ip0 : inode) : inode :=
  mkinode (i_dev ip0) (i_inum ip0) (i_ref ip0) (i_lock ip0) (i_valid ip0) (i_type ip) (i_major ip)
          (i_minor ip) (i_nlink ip) (i_size ip) (i_addrs ip).

Lemma s16_u16 x : short x -> s16 (u16 x) = x.
Proof. unfold short, s16, u16. intros. repeat case_match; dlia. Qed.

Lemma length_put_addrs l : forall off d, length (put_addrs off l d) = length d.
Proof. induction l; intros; simpl; [done|]. rewrite IHl. apply length_splice. Qed.

Lemma put_addrs_ok l : forall off d, block_ok d -> block_ok (put_addrs off l d).
Proof. induction l; intros; simpl; auto with block. Qed.

Lemma seg_put_addrs l : forall off d off' n, 0 <= off -> 0 <= off' -> 0 <= n ->
  off' + n <= off \/ off + 4 * Z.of_nat (length l) <= off' ->
  seg off' n (put_addrs off l d) = seg off' n d.
Proof.
  induction l as [|a l IH]; intros off d off' n H1 H2 H3 H4; simpl in *; [done|].
  rewrite IH by lia. apply seg_splice_diff; rewrite ?length_le_split; lia.
Qed.

Lemma get32_put_addrs l : forall off d k a, 0 <= off -> off + 4 * Z.of_nat (length l) <= Z.of_nat (length d) ->
  Forall (fun a => 0 <= a < 4294967296) l -> l !! k = Some a ->
  get32 (put_addrs off l d) (off + 4 * Z.of_nat k) = a.
Proof.
  induction l as [|b l IH]; intros off d k a H1 H2 Hf Hk; simpl in *; [done|].
  apply Forall_cons in Hf as [Hb Hf]. destruct k as [|k]; simplify_eq/=.
  - rewrite Z.add_0_r. unfold get32. rewrite seg_put_addrs by lia.
    change (get32 (put32 off a d) off = a). rewrite get32_put32_same by lia. by apply u32_small.
  - replace (off + 4 * Z.of_nat (S k)) with (off + 4 + 4 * Z.of_nat k) by lia.
    apply IH; [lia| |done|done]. unfold put32. rewrite length_splice. lia.
Qed.

Lemma dinode_range inum : 0 <= dinode_off inum /\ dinode_off inum + 64 <= 512.
Proof. unfold dinode_off. change IPB with 8. dlia. Qed.

Lemma put_dinode_ok ip d : block_ok d -> block_ok (put_dinode ip d).
Proof. intros. apply put_addrs_ok. auto 10 with block. Qed.

(** A field that [put_dinode] writes elsewhere. *)
Lemma seg_put_dinode ip d off n : length (i_addrs ip) = 13%nat -> 0 <= off -> 0 <= n ->
  off + n <= dinode_off (i_inum ip) \/ dinode_off (i_inum ip) + 64 <= off ->
  seg off n (put_dinode ip d) = seg off n d.
Proof.
  intros Hl H1 H2 H3. pose proof (dinode_range (i_inum ip)). unfold put_dinode.
  rewrite seg_put_addrs by lia. unfold put32, put16.
  rewrite !seg_splice_diff by (rewrite ?length_le_split; lia). done.
Qed.

Lemma get_put_dinode ip ip0 d : block_ok d -> fields_ok ip -> i_inum ip0 = i_inum ip ->
  get_dinode (put_dinode ip d) ip0 = with_disk ip ip0.
Proof.
  intros [Hl Hb] [F1 F2 F3 F4 F5 [F6 F7]] Ei. unfold BSIZE in Hl. unfold get_dinode, with_disk. rewrite Ei.
  pose proof (dinode_range (i_inum ip)) as Hr. set (o := dinode_off (i_inum ip)) in *.
  assert (L16 : forall a v e, length (put16 a v e) = length e) by (intros; apply length_splice).
  assert (L32 : forall a v e, length (put32 a v e) = length e) by (intros; apply length_splice).
  assert (G : forall off n, 0 <= off -> 0 <= n -> off + n <= o + 12 ->
    seg off n (put_dinode ip d) = seg off n (put32 (o + 8) (i_size ip) (put16 (o + 6) (i_nlink ip)
      (put16 (o + 4) (i_minor ip) (put16 (o + 2) (i_major ip) (put16 o (i_type ip) d)))))).
  { intros. apply seg_put_addrs; lia. }
  assert (D16 : forall a v e off n, 0 <= a -> 0 <= off -> 0 <= n -> off + n <= a \/ a + 2 <= off ->
    seg off n (put16 a v e) = seg off n e) by (intros; apply seg_splice_diff; rewrite ?length_le_split; lia).
  assert (D32 : forall a v e off n, 0 <= a -> 0 <= off -> 0 <= n -> off + n <= a \/ a + 4 <= off ->
    seg off n (put32 a v e) = seg off n e) by (intros; apply seg_splice_diff; rewrite ?length_le_split; lia).
  assert (S16 : forall off v e, 0 <= off -> off + 2 <= Z.of_nat (length e) ->
    le_combine (seg off 2 (put16 off v e)) = u16 v) by (intros; by apply get16_put16_same).
  unfold get16. rewrite !G by lia. rewrite !D32 by lia.
  f_equal.
  - rewrite !D16, S16 by (rewrite ?L16; lia). by apply s16_u16.
  - rewrite !D16, S16 by (rewrite ?L16; lia). by apply s16_u16.
  - rewrite !D16, S16 by (rewrite ?L16; lia). by apply s16_u16.
  - rewrite S16 by (rewrite ?L16; lia). by apply s16_u16.
  - unfold get32. rewrite G by lia. change (get32 (put32 (o + 8) (i_size ip)
      (put16 (o + 6) (i_nlink ip) (put16 (o + 4) (i_minor ip) (put16 (o + 2) (i_major ip)
        (put16 o (i_type ip) d))))) (o + 8) = i_size ip).
    rewrite get32_put32_same by (rewrite ?L16; lia). by apply u32_small.
  - apply list_eq_same_length with (n := 13%nat); [done|by rewrite length_fmap, length_seqZ|].
    intros k x y Hk [z [-> Hz]]%list_lookup_fmap_Some Hy. apply lookup_seqZ in Hz as [-> _].
    unfold put_dinode. fold o. rewrite Z.add_0_l. apply get32_put_addrs; [lia| |done|done].
    rewrite !L32, !L16. lia.
Qed.

Lemma get_put_dinode_other ip ip0 d : length (i_addrs ip) = 13%nat ->
  i_inum ip0 `mod` IPB <> i_inum ip `mod` IPB -> get_dinode (put_dinode ip d) ip0 = get_dinode d ip0.
Proof.
  intros Hl Hne. pose proof (dinode_range (i_inum ip0)).
  assert (Hd : dinode_off (i_inum ip0) + 64 <= dinode_off (i_inum ip) \/
               dinode_off (i_inum ip) + 64 <= dinode_off (i_inum ip0)).
  { unfold dinode_off. change IPB with 8 in *. dlia. }
  unfold get_dinode, get16, get32. f_equal; try (rewrite seg_put_dinode by lia; done).
  apply list_fmap_ext. intros k x [-> Hk]%lookup_seqZ. rewrite seg_put_dinode by lia. done.
Qed.

(** ** iupdate and ilock *)
Lemma used_logset_low b d s x :
  fs_ok s -> b < bmapstart (sb s) -> 0 <= x < size (sb s) -> used (logset b d s) x = used s x.
Proof.
  intros Hok Hb Hx. apply used_frame; [done|]. apply V_other.
  unfold BBLOCK. change BPB with 4096. dlia.
Qed.

Lemma fs_ok_logset_low b d s : fs_ok s -> block_ok d -> b < bmapstart (sb s) -> fs_ok (logset b d s).
Proof.
  intros Hok Hd Hb. eapply (fs_ok_frame s); [apply op_ok_logset; [done|apply Hok]|done|done| |done].
  intros x Hx Hu. rewrite used_logset_low; [done..|]. pose proof (lo_data _ _ (fo_layout s Hok)). lia.
Qed.

Lemma iblock_ready s inum : fs_ok s -> 0 <= inum < ninodes (sb s) ->
  0 <= IBLOCK inum (sb s) < bmapstart (sb s) /\ 0 <= IBLOCK inum (sb s) < disksize (blk (lg s)).
Proof.
  intros Hok Hi. pose proof (IBLOCK_range s inum (fo_layout s Hok) Hi) as Hr.
  pose proof (lo_size _ _ (fo_layout s Hok)). pose proof (lo_data _ _ (fo_layout s Hok)) as Hd.
  split; [done|]. unfold dstart in Hd. change BPB with 4096 in Hd. dlia.
Qed.

Lemma get_inode_runs {A} i ip s (k : inode -> M fs A) Q :
  icache s !! i = Some ip -> runs (k ip) s Q -> runs (bind (get_inode i) k) s Q.
Proof. intros E H. apply runs_bind. exists ip, s. unfold get_inode. by rewrite E. Qed.

Lemma upd_inode_runs {A} i ip f s (k : unit -> M fs A) Q :
  icache s !! i = Some ip -> runs (k tt) (set_icache (<[i := f ip]> (icache s)) s) Q ->
  runs (bind (upd_inode i f) k) s Q.
Proof.
  intros E H. apply runs_bind. unfold upd_inode. eapply get_inode_runs; [done|].
  unfold set_inode. by apply runs_modify.
Qed.

(** The state after [iupdate]. *)
Definition saved (ip : inode) (s : fs) : fs :=
  let b := IBLOCK (i_inum ip) (sb s) in logset b (put_dinode ip (V s b)) s.

Lemma iupdate_runs i ip s (Q : unit -> fs -> Prop) :
  icache s !! i = Some ip -> fs_ok s -> held s = [] -> spare 1 s -> 0 <= i_inum ip < ninodes (sb s) ->
  Q tt (saved ip s) -> runs (iupdate i) s Q.
Proof.
  intros Hi Hok Hh Hs Hn HQ. unfold iupdate. eapply get_inode_runs; [done|]. apply runs_bind, runs_get.
  destruct (iblock_ready s _ Hok Hn) as [H1 H2].
  assert (Hnh : IBLOCK (i_inum ip) (sb s) ∉ held s) by (rewrite Hh; apply not_elem_of_nil).
  apply fread_runs; [apply Hok|done|rewrite Hh; simpl; lia|by apply (spare_roomy 1)|done|].
  apply fdata_runs; [by left|]. change (V (hold _ s)) with (V s).
  apply fupdate_end; [apply Hok|done|by apply (spare_mono 1); [|lia]|done].
Qed.

(** The cache entry that [ilock] leaves. *)
Definition loaded (s : fs) (ip : inode) : inode :=
  if i_valid ip then with_lock true ip
  else with_valid true (get_dinode (V s (IBLOCK (i_inum ip) (sb s))) (with_lock true ip)).

Lemma ilock_runs i ip s (Q : unit -> fs -> Prop) :
  icache s !! i = Some ip -> fs_ok s -> held s = [] -> roomy s -> 0 <= i_inum ip < ninodes (sb s) ->
  1 <= i_ref ip -> i_lock ip = false -> (i_valid ip = false -> i_type (loaded s ip) <> 0) ->
  Q tt (set_icache (<[i := loaded s ip]> (icache s)) s) -> runs (ilock i) s Q.
Proof.
  intros Hi Hok Hh Hs Hn Hr Hl Ht HQ. unfold ilock. eapply get_inode_runs; [done|].
  assert (Hlt : (i < length (icache s))%nat) by (by eapply lookup_lt_Some).
  destruct (Z.ltb_spec (i_ref ip) 1); [lia|]. apply runs_bind.
  unfold lock_inode. eapply get_inode_runs; [done|]. rewrite Hl. apply runs_modify.
  set (s1 := set_icache (<[i := with_lock true ip]> (icache s)) s).
  assert (Hi1 : icache s1 !! i = Some (with_lock true ip)) by (by apply list_lookup_insert_eq).
  eapply get_inode_runs; [done|]. unfold loaded in *. simpl i_valid.
  destruct (i_valid ip); [by apply runs_ret|]. apply runs_bind, runs_get. simpl i_inum.
  destruct (iblock_ready s _ Hok Hn) as [H1 H2].
  assert (Hnh : IBLOCK (i_inum ip) (sb s) ∉ held s1) by (change (held s1) with (held s); rewrite Hh; apply not_elem_of_nil).
  assert (Hop : op_ok s1) by (by destruct Hok as [[] ? ?]).
  apply fread_runs; [done|done|change (held s1) with (held s); rewrite Hh; simpl; lia|done|done|].
  apply fdata_runs; [by left|]. change (V (hold _ s1)) with (V s). change (sb s1) with (sb s).
  apply runs_bind. apply runs_modify. set (d := V s (IBLOCK (i_inum ip) (sb s))) in *.
  match goal with |- runs _ ?t _ => change t with
    (hold (IBLOCK (i_inum ip) (sb s) :: held s1)
       (set_icache (<[i := get_dinode d (with_lock true ip)]> (icache s1)) s1)) end.
  apply (frelse_same _ _ _ (set_icache (<[i := get_dinode d (with_lock true ip)]> (icache s1)) s1));
    [by destruct Hop|done|].
  eapply upd_inode_runs; [simpl; rewrite list_insert_insert_eq; by apply list_lookup_insert_eq|].
  simpl icache. rewrite !list_insert_insert_eq.
  eapply get_inode_runs; [simpl; by apply list_lookup_insert_eq|].
  destruct (Z.eqb_spec (i_type (with_valid true (get_dinode d (with_lock true ip)))) 0) as [E|_].
  - by apply Ht in E.
  - by apply runs_ret.
Qed.

(** ** The inode cache *)
Definition hit (dev inum : Z) (ip : inode) : bool := (0 <? i_ref ip) && (i_dev ip =? dev) && (i_inum ip =? inum).

(** An inode in use has one slot, and counts are not negative. *)
Record cache_ok (t : list inode) : Prop := {
  co_ref : forall i ip, t !! i = Some ip -> 0 <= i_ref ip;
  co_one : forall i j ip dev inum jp, t !! i = Some ip -> t !! j = Some jp ->
    hit dev inum ip = true -> hit dev inum jp = true -> i = j }.

Lemma iget_scan_spec dev inum t : forall i e,
  match iget_scan dev inum t i e with
  | (Some j, _) => exists k ip, j = (i + k)%nat /\ t !! k = Some ip /\ hit dev inum ip = true
  | (None, e') =>
      (forall k ip, t !! k = Some ip -> hit dev inum ip = false) /\
      match e with
      | Some _ => e' = e
      | None => match e' with
                | Some j => exists k ip, j = (i + k)%nat /\ t !! k = Some ip /\ i_ref ip = 0
                | None => forall k ip, t !! k = Some ip -> i_ref ip <> 0
                end
      end
  end.
Proof.
  induction t as [|ip t IH]; intros i e; cbn [iget_scan].
  { split; [done|]. by destruct e. }
  fold (hit dev inum ip). destruct (hit dev inum ip) eqn:Eh.
  { exists 0%nat, ip. by rewrite Nat.add_0_r. }
  specialize (IH (S i) (match e with None => if i_ref ip =? 0 then Some i else None | e => e end)).
  destruct (iget_scan dev inum t (S i) _) as [[j|] e'].
  - destruct IH as (k & ip' & -> & Hk & Hh). exists (S k), ip'. split_and!; [lia|done|done].
  - destruct IH as [Hno He]. split.
    { intros [|k] ip' Hk; simplify_eq/=; [done|by apply (Hno k)]. }
    destruct e as [e0|]; [done|]. destruct (Z.eqb_spec (i_ref ip) 0) as [E0|E0].
    + subst e'. exists 0%nat, ip. by rewrite Nat.add_0_r.
    + destruct e' as [j|].
      * destruct He as (k & ip' & -> & Hk & Hz). exists (S k), ip'. split_and!; [lia|done|done].
      * intros [|k] ip' Hk; simplify_eq/=; [done|by apply (He k)].
Qed.

Lemma cache_ok_insert t i ip : cache_ok t -> (i < length t)%nat -> 0 <= i_ref ip ->
  (forall dev inum j jp, hit dev inum ip = true -> t !! j = Some jp -> hit dev inum jp = true -> j = i) ->
  cache_ok (<[i := ip]> t).
Proof.
  intros [H1 H2] Hi Hr Hone. split.
  - intros j jp [(<- & <- & _)|(? & ?)]%list_lookup_insert_Some; eauto.
  - intros j j' jp dev inum jp' Hj Hj' Hh Hh'.
    apply list_lookup_insert_Some in Hj as [(<- & <- & _)|(Hne & Hj)];
      apply list_lookup_insert_Some in Hj' as [(<- & <- & _)|(Hne' & Hj')]; eauto.
    symmetry. eauto.
Qed.

(** ** Theorems *)

(** C23. An inode survives the cache: after [iupdate] has written a cached
    inode, [ilock] of any cache entry for the same number that has to be read
    from disk finds exactly the fields that were written, and the disk fields
    of every other inode are untouched. *)
Theorem iupdate_ilock s i ip :
  fs_ok s -> held s = [] -> spare 2 s -> icache s !! i = Some ip -> fields_ok ip ->
  0 <= i_inum ip < ninodes (sb s) -> i_type ip <> 0 ->
  runs (iupdate i) s (fun _ s1 => fs_ok s1 /\
    (forall t j jp, t !! j = Some jp -> i_inum jp = i_inum ip -> 1 <= i_ref jp ->
       i_lock jp = false -> i_valid jp = false ->
       runs (ilock j) (set_icache t s1) (fun _ s2 =>
         icache s2 = <[j := with_valid true (with_lock true (with_disk ip jp))]> t /\ V s2 = V s1)) /\
    (forall jp, 0 <= i_inum jp -> i_inum jp <> i_inum ip ->
       get_dinode (V s1 (IBLOCK (i_inum jp) (sb s))) jp = get_dinode (V s (IBLOCK (i_inum jp) (sb s))) jp)).
Proof.
  intros Hok Hh Hs Hi Hf Hn Ht. destruct (iblock_ready s _ Hok Hn) as [H1 H2].
  assert (Hb : forall b, block_ok (V s b)) by apply Hok.
  apply (iupdate_runs i ip s); try done; [by apply (spare_mono 2); [|lia]|].
  assert (Hroom : roomy (saved ip s)).
  { pose proof (need_any [] (IBLOCK (i_inum ip) (sb s)) (put_dinode ip (V s (IBLOCK (i_inum ip) (sb s)))) s) as Hl.
    destruct Hs as [_ Hs]. unfold need, saved, roomy, NBUF, LOGSIZE, MAXOPBLOCKS in *. simpl in *. lia. }
  assert (Hok1 : fs_ok (saved ip s)).
  { apply fs_ok_logset_low; [done|by apply put_dinode_ok|lia]. }
  split_and!; [done| |].
  - intros t j jp Hj En Hr Hl Hv.
    assert (El : loaded (set_icache t (saved ip s)) jp = with_valid true (with_lock true (with_disk ip jp))).
    { unfold loaded. rewrite Hv, En. change (V (set_icache t (saved ip s))) with (V (saved ip s)).
      unfold saved. simpl sb. rewrite V_same, get_put_dinode by done. done. }
    apply (ilock_runs j jp); try done; [by destruct Hok1 as [[] ? ?]|by rewrite En| |].
    + rewrite El. done.
    + rewrite El. done.
  - intros jp Hj Hne. unfold saved.
    destruct (Z.eq_dec (IBLOCK (i_inum jp) (sb s)) (IBLOCK (i_inum ip) (sb s))) as [E|E].
    + rewrite E, V_same. apply get_put_dinode_other; [by apply Hf|].
      unfold IBLOCK in E. change IPB with 8 in *. dlia.
    + by rewrite V_other.
Qed.

(** C24. [iget] gives every inode at most one cache entry.  If the inode is
    cached its entry is returned with one more reference; otherwise a free
    entry is taken for it, not yet valid; no other entry changes.  It panics,
    changing nothing, exactly when the inode is not cached and every entry is
    in use. *)
Theorem iget_correct dev inum s : cache_ok (icache s) ->
  match iget dev inum s with
  | Ret i s' => cache_ok (icache s') /\ exists ip, icache s !! i = Some ip /\
      if hit dev inum ip then s' = set_icache (<[i := with_ref (i_ref ip + 1) ip]> (icache s)) s
      else (forall j jp, icache s !! j = Some jp -> hit dev inum jp = false) /\ i_ref ip = 0 /\
        exists ip', s' = set_icache (<[i := ip']> (icache s)) s /\
          i_dev ip' = dev /\ i_inum ip' = inum /\ i_ref ip' = 1 /\ i_valid ip' = false
  | Panic m s' => m = "iget: no inodes"%string /\ s' = s /\
      forall j jp, icache s !! j = Some jp -> hit dev inum jp = false /\ i_ref jp <> 0
  | _ => False
  end.
Proof.
  intros Hc. unfold iget. unfold bind at 1, get.
  pose proof (iget_scan_spec dev inum (icache s) 0 None) as Hs.
  destruct (iget_scan dev inum (icache s) 0 None) as [[i|] [e|]].
  1,2: destruct Hs as (k & ip & -> & Hk & Hh); simpl; unfold upd_inode, get_inode, set_inode, bind, modify;
    rewrite Hk; unfold ret; simpl; assert (Hr := co_ref _ Hc k ip Hk);
    assert (Hlt : (k < length (icache s))%nat) by (by eapply lookup_lt_Some).
  1,2: split; [|exists ip; by rewrite Hh].
  1,2: apply cache_ok_insert; [done|done|simpl; lia|]; intros d n j jp H1 H2 H3;
    apply (co_one _ Hc j k jp d n ip); try done; unfold hit in *; simpl in *; zbool;
    rewrite !andb_true_iff, Z.ltb_lt, !Z.eqb_eq; lia.
  - destruct Hs as (Hno & k & ip & -> & Hk & Hz). simpl.
    unfold upd_inode, get_inode, set_inode, bind, modify. rewrite Hk. unfold ret.
    assert (Hlt : (k < length (icache s))%nat) by (by eapply lookup_lt_Some). split.
    + apply cache_ok_insert; [done|done|simpl; lia|]. intros d n j jp H1 H2 H3. exfalso.
      unfold hit in H1. simpl in H1. zbool. subst d n. by rewrite (Hno j jp) in H3.
    + exists ip. split; [done|]. rewrite (Hno k ip Hk). split_and!; [done|done|]. by eexists.
  - destruct Hs as [Hno Hz]. split_and!; [done|done|]. intros j jp Hj. split; [by apply (Hno j)|by apply (Hz j)].
Qed.
