(* ===== verification/FsMap.v ===== *)
(** * The block map of a file (fs.c: bmap)

    The direct and indirect blocks of an inode as slots, what it means for an
    inode to be well formed, and what [bmap] adds to it: at most one data
    block and one indirect block, with the log space and the free blocks this
    takes accounted for. *)
From stdpp Require Import base numbers list list_numbers strings.
From Stdlib Require Import ZArith Lia.
From S2P Require Import Prelude Block Bcache Log Fs FsBlock FsInode.
#[local] Open Scope Z_scope.

(** ** Slots of an inode *)
Definition MF : Z := 140.

Definition ind_of (ip : inode) : Z := addr_of ip 12.

(** Slots 0 to 139 are the blocks of the file, slot 140 the indirect block. *)
Definition slot (s : fs) (ip : inode) (k : Z) : Z :=
  if k =? MF then ind_of ip
  else if k <? 12 then addr_of ip k
  else if ind_of ip =? 0 then 0 else get32 (V s (ind_of ip)) (4 * (k - 12)).

Record inode_ok (s : fs) (ip : inode) : Prop := {
  io_len : length (i_addrs ip) = 13%nat;
  io_inum : 0 <= i_inum ip < ninodes (sb s);
  io_size : 0 <= i_size ip <= MF * 512;
  io_slot : forall k, 0 <= k <= MF -> slot s ip k <> 0 ->
    dstart (sb s) <= slot s ip k < size (sb s) /\ used s (slot s ip k) = true;
  io_inj : forall k k', 0 <= k <= MF -> 0 <= k' <= MF -> slot s ip k <> 0 ->
    slot s ip k = slot s ip k' -> k = k';
  io_alloc : forall k, 0 <= k -> k * 512 < i_size ip -> slot s ip k <> 0 }.

Definition with_addrs (l : list Z) (ip : inode) : inode :=
  mkinode (i_dev ip) (i_inum ip) (i_ref ip) (i_lock ip) (i_valid ip) (i_type ip) (i_major ip)
          (i_minor ip) (i_nlink ip) (i_size ip) l.

(** Blocks known to be written: the indirect block, the inode's, the bitmap. *)
Definition meta (s : fs) (ip : inode) : list Z := IBLOCK (i_inum ip) (sb s) :: bitmap_blocks (sb s).
Definition indS (ip : inode) : list Z := if ind_of ip =? 0 then [] else [ind_of ip].

(** What may still be needed for an indirect block. *)
Definition credit (ip : inode) : Z := if ind_of ip =? 0 then 1 else 0.
Definition logcost (s : fs) (ip : inode) : Z := need (indS ip ++ meta s ip) s + credit ip.

(** Log space and free blocks for [m] more data blocks. *)
Record ready (m : Z) (s : fs) (ip : inode) : Prop := {
  rd_out : 1 <= outstanding (lg s);
  rd_log : logcost s ip + m + 1 < Z.min LOGSIZE (lsize (lg s) - 1);
  rd_free : m + credit ip <= nfree s }.

(** [s'] and [ip'] are [s] and [ip] with slots added, at a cost of [m] data
    blocks. *)
Record extends (i : nat) (m : Z) (s : fs) (ip : inode) (s' : fs) (ip' : inode) : Prop := {
  ex_cache : icache s' = <[i := ip']> (icache s);
  ex_sb : sb s' = sb s;
  ex_held : held s' = held s;
  ex_lg : disksize (blk (lg s')) = disksize (blk (lg s)) /\ lsize (lg s') = lsize (lg s) /\
          outstanding (lg s') = outstanding (lg s);
  ex_ip : exists l, ip' = with_addrs l ip;
  ex_ok : fs_ok s';
  ex_iok : inode_ok s' ip';
  ex_slot : forall k, 0 <= k <= MF -> slot s ip k <> 0 -> slot s' ip' k = slot s ip k;
  ex_fresh : forall k, 0 <= k <= MF -> slot s ip k = 0 -> slot s' ip' k <> 0 ->
    used s (slot s' ip' k) = false;
  ex_used : forall x, 0 <= x < size (sb s) -> used s x = true -> used s' x = true;
  ex_log : logcost s' ip' <= logcost s ip + m;
  ex_free : nfree s - credit ip - m <= nfree s' - credit ip' }.

Lemma ready_extends i m n s ip s' ip' :
  extends i m s ip s' ip' -> ready n s ip -> ready (n - m) s' ip'.
Proof.
  intros E [H1 H2 H3]. destruct (ex_lg _ _ _ _ _ _ E) as (_ & El & Eo).
  pose proof (ex_log _ _ _ _ _ _ E). pose proof (ex_free _ _ _ _ _ _ E).
  split; rewrite ?El, ?Eo; lia.
Qed.

Lemma extends_refl i s ip : icache s !! i = Some ip -> fs_ok s -> inode_ok s ip -> extends i 0 s ip s ip.
Proof.
  intros Hi Hok Hio. split; try done; try lia.
  - by rewrite list_insert_id.
  - exists (i_addrs ip). by destruct ip.
Qed.

Lemma extends_trans i m n s ip s1 ip1 s2 ip2 :
  extends i m s ip s1 ip1 -> extends i n s1 ip1 s2 ip2 -> extends i (m + n) s ip s2 ip2.
Proof.
  intros [A1 A2 A3 A4 A5 A6 A7 A8 A9 A10 A11 A12] [B1 B2 B3 B4 B5 B6 B7 B8 B9 B10 B11 B12].
  split; try done; try congruence; try lia.
  - rewrite B1, A1. apply list_insert_insert_eq.
  - destruct A5 as [l1 ->], B5 as [l2 ->]. by exists l2.
  - intros k Hk H0. rewrite B8; rewrite ?A8; done.
  - intros k Hk H0 H2. destruct (decide (slot s1 ip1 k = 0)) as [E|E].
    + specialize (B9 k Hk E H2). destruct (used s (slot s2 ip2 k)) eqn:Eu; [|done].
      pose proof (io_slot _ _ B7 k Hk H2) as [Hr _]. rewrite B2, A2 in Hr.
      pose proof (dstart_pos _ (fo_layout _ B6)) as Hd. rewrite B2, A2 in Hd.
      rewrite <- B9. symmetry. apply A10; [lia|done].
    + rewrite B8 by done. by apply A9.
  - intros x Hx Hu. apply B10; [by rewrite A2|]. by apply A10.
Qed.

(** ** Adding one slot *)
Lemma inode_ok_add s ip s' ip' k0 a l :
  fs_ok s -> inode_ok s ip -> sb s' = sb s -> 0 <= a < size (sb s) -> used s a = false ->
  (forall x, 0 <= x < size (sb s) -> used s' x = (x =? a) || used s x) ->
  0 <= k0 <= MF -> slot s ip k0 = 0 -> slot s' ip' k0 = a ->
  (forall k, 0 <= k <= MF -> k <> k0 -> slot s' ip' k = slot s ip k) ->
  ip' = with_addrs l ip -> length l = 13%nat -> inode_ok s' ip'.
Proof.
  intros Hok [H1 H2 H3 H4 H5 H6] Es Ha Hfree Hu Hk0 Ez Ea Eo -> Hl.
  pose proof (free_data s a Hok Ha Hfree) as Hd. pose proof (dstart_pos _ (fo_layout _ Hok)) as Hp.
  assert (Hne : forall k, 0 <= k <= MF -> k <> k0 -> slot s' (with_addrs l ip) k <> a \/ a = 0).
  { intros k Hk Hkk. rewrite Eo by done. destruct (decide (slot s ip k = a)) as [E|]; [|by left].
    destruct (decide (a = 0)); [by right|]. destruct (H4 k Hk) as [_ Hx]; [by rewrite E|].
    rewrite E, Hfree in Hx. done. }
  split; simpl; rewrite ?Es; try done.
  - intros k Hk Hn. destruct (decide (k = k0)) as [->|Hkk].
    + rewrite Ea in *. split; [lia|]. by rewrite Hu, Z.eqb_refl by lia.
    + rewrite Eo in * by done. destruct (H4 k Hk Hn) as [Hr Hx]. split; [done|].
      rewrite Hu, Hx, orb_true_r by lia. done.
  - intros k k' Hk Hk' Hn E. destruct (decide (k = k0)) as [->|Hkk], (decide (k' = k0)) as [->|Hkk'].
    + done.
    + exfalso. rewrite Ea in *. destruct (Hne k' Hk' Hkk'); congruence.
    + exfalso. rewrite Ea in E. destruct (Hne k Hk Hkk); congruence.
    + rewrite !Eo in * by done. by apply H5.
  - intros k Hk Hs. destruct (decide (k = k0)) as [->|Hkk]; [rewrite Ea; lia|].
    rewrite Eo; [by apply H6|unfold MF in *; lia|done].
Qed.

Lemma addr_with k a ip j : 0 <= k -> 0 <= j < Z.of_nat (length (i_addrs ip)) ->
  addr_of (with_addr k a ip) j = if j =? k then a else addr_of ip j.
Proof.
  intros Hk Hj. unfold addr_of, with_addr. simpl. destruct (Z.eqb_spec j k) as [->|Hne].
  - apply list_lookup_total_correct. rewrite list_lookup_insert_eq by lia. done.
  - rewrite list_lookup_total_insert_ne by lia. done.
Qed.

Section grant.
Context (i : nat) (s : fs) (ip : inode).
Context (Hi : icache s !! i = Some ip) (Hok : fs_ok s) (Hio : inode_ok s ip).

Lemma slot_range k : 0 <= k <= MF -> slot s ip k <> 0 ->
  dstart (sb s) <= slot s ip k < size (sb s) /\ used s (slot s ip k) = true /\
  slot s ip k ∉ bitmap_blocks (sb s).
Proof.
  intros Hk Hn. destruct (io_slot _ _ Hio k Hk Hn) as [Hr Hu]. split_and!; try done; try lia.
  unfold bitmap_blocks. rewrite elem_of_seqZ. unfold dstart in Hr. lia.
Qed.

Lemma ind_range : ind_of ip <> 0 ->
  dstart (sb s) <= ind_of ip < size (sb s) /\ used s (ind_of ip) = true /\
  ind_of ip ∉ bitmap_blocks (sb s).
Proof. intros H. by apply (slot_range MF). Qed.

Lemma slot_bytes k : 12 <= k < MF -> ind_of ip <> 0 -> slot s ip k = get32 (V s (ind_of ip)) (4 * (k - 12)).
Proof.
  intros Hk H0. unfold slot, MF in *. destruct (Z.eqb_spec k 140); [lia|].
  destruct (Z.ltb_spec k 12); [lia|]. by destruct (Z.eqb_spec (ind_of ip) 0).
Qed.

Lemma slot_direct k : 0 <= k < 12 -> slot s ip k = addr_of ip k.
Proof.
  intros Hk. unfold slot, MF. destruct (Z.eqb_spec k 140); [lia|]. by destruct (Z.ltb_spec k 12); [|lia].
Qed.

Context (a : Z) (Ha : 0 <= a < size (sb s)) (Hfree : used s a = false).

Lemma used_ne x : used s x = true -> x <> a.
Proof. congruence. Qed.

(** [ip->addrs[k] = balloc()] *)
Definition granted (k : Z) : fs := set_icache (<[i := with_addr k a ip]> (icache s)) (allocated a s).

Lemma granted_slot k : 0 <= k <= 12 -> addr_of ip k = 0 ->
  let k0 := if k =? 12 then MF else k in
  slot s ip k0 = 0 /\ slot (granted k) (with_addr k a ip) k0 = a /\
  forall j, 0 <= j <= MF -> j <> k0 -> slot (granted k) (with_addr k a ip) j = slot s ip j.
Proof.
  intros Hk Hz k0. pose proof (io_len _ _ Hio) as Hl.
  assert (Ei : ind_of (with_addr k a ip) = if k =? 12 then a else ind_of ip).
  { unfold ind_of. rewrite addr_with by lia. by rewrite Z.eqb_sym. }
  assert (Ed : forall j, 0 <= j < 12 -> addr_of (with_addr k a ip) j = if j =? k then a else addr_of ip j)
    by (intros; apply addr_with; lia).
  unfold slot, k0, MF in *. rewrite !Ei. destruct (Z.eqb_spec k 12) as [->|Hk12].
  - simpl. split_and!; [done|done|]. intros j Hj Hne. destruct (Z.eqb_spec j 140); [done|].
    destruct (Z.ltb_spec j 12); [rewrite Ed by lia; by destruct (Z.eqb_spec j 12); [lia|]|].
    unfold ind_of. rewrite Hz. simpl. destruct (Z.eqb_spec a 0); [done|].
    change (V (granted 12) a) with (V (allocated a s) a). rewrite V_allocated_same.
    unfold get32. rewrite seg_zero by (unfold BSIZE; lia). done.
  - rewrite (proj2 (Z.eqb_neq k 140)) by lia. rewrite (proj2 (Z.ltb_lt k 12)) by lia.
    split_and!; [done|rewrite Ed, Z.eqb_refl by lia; done|]. intros j Hj Hne.
    destruct (j =? 140) eqn:E140; [done|]. destruct (Z.ltb_spec j 12).
    + rewrite Ed by lia. by destruct (Z.eqb_spec j k).
    + destruct (Z.eqb_spec (ind_of ip) 0) as [|Hi0]; [done|].
      destruct (ind_range Hi0) as (_ & Hu & Hb).
      change (V (granted k)) with (V (allocated a s)). by rewrite V_allocated by (done || by apply used_ne).
Qed.

Lemma granted_ok k : fs_ok (granted k).
Proof. by destruct (fs_ok_allocated s a Hok Ha Hfree) as [[] ? ?]. Qed.

Lemma granted_used k x : 0 <= x < size (sb s) -> used (granted k) x = (x =? a) || used s x.
Proof. apply (used_allocated s a Hok Ha Hfree). Qed.

Lemma bitmap_meta ip' b : b ∈ bitmap_blocks (sb s) -> b ∈ indS ip' ++ meta s ip.
Proof. intros. apply elem_of_app. right. by apply elem_of_cons; right. Qed.

Lemma granted_logcost k : 0 <= k <= 12 -> addr_of ip k = 0 ->
  logcost (granted k) (with_addr k a ip) <= logcost s ip + (if k =? 12 then 0 else 1).
Proof.
  intros Hk Hz. pose proof (io_len _ _ Hio) as Hl.
  assert (Ei : ind_of (with_addr k a ip) = if k =? 12 then a else ind_of ip).
  { unfold ind_of. rewrite addr_with by lia. by rewrite Z.eqb_sym. }
  unfold logcost, credit, indS. rewrite Ei.
  change (meta (granted k) (with_addr k a ip)) with (meta s ip).
  pose proof (free_data s a Hok Ha Hfree). pose proof (dstart_pos _ (fo_layout _ Hok)).
  destruct (Z.eqb_spec k 12) as [->|Hk12].
  - unfold ind_of. rewrite Hz. simpl. destruct (Z.eqb_spec a 0); [lia|].
    change (need _ (granted 12)) with (need (a :: meta s ip) (allocated a s)).
    rewrite need_cons_old.
    2: { apply (lh_allocated s a). by right. }
    pose proof (need_allocated s a Ha (meta s ip) (fun b Hb => list_elem_of_further _ _ _ Hb)). lia.
  - match goal with |- need ?S _ + ?c <= _ => pose proof (need_allocated s a Ha S) as Hn end.
    change (need ?S (granted k)) with (need S (allocated a s)).
    specialize (Hn (bitmap_meta ip)). unfold indS in Hn. lia.
Qed.

Lemma granted_extends k : 0 <= k <= 12 -> addr_of ip k = 0 ->
  extends i (if k =? 12 then 0 else 1) s ip (granted k) (with_addr k a ip).
Proof.
  intros Hk Hz. destruct (granted_slot k Hk Hz) as (E0 & Ea & Eo).
  set (k0 := if k =? 12 then MF else k) in *.
  assert (Hk0 : 0 <= k0 <= MF) by (unfold k0, MF; destruct (Z.eqb_spec k 12); lia).
  split; try done.
  - exists (<[Z.to_nat k := a]> (i_addrs ip)). done.
  - apply granted_ok.
  - eapply (inode_ok_add s ip _ _ k0 a); try done; [by apply granted_used|].
    rewrite length_insert. apply Hio.
  - intros j Hj Hn. apply Eo; [done|]. intros ->. done.
  - intros j Hj Hn Hj'. destruct (decide (j = k0)) as [->|]; [by rewrite Ea|].
    by rewrite Eo in Hj' by done.
  - intros x Hx Hu. by rewrite granted_used, Hu, orb_true_r.
  - by apply granted_logcost.
  - change (nfree (granted k)) with (nfree (allocated a s)). rewrite nfree_allocated by done.
    pose proof (io_len _ _ Hio). pose proof (free_data s a Hok Ha Hfree).
    pose proof (dstart_pos _ (fo_layout _ Hok)).
    unfold credit, ind_of. rewrite addr_with by lia. rewrite (Z.eqb_sym 12).
    destruct (Z.eqb_spec k 12) as [->|]; [|lia]. rewrite Hz. simpl.
    destruct (Z.eqb_spec a 0); lia.
Qed.

Lemma granted_view k x : used s x = true -> x ∉ bitmap_blocks (sb s) -> V (granted k) x = V s x.
Proof. intros Hu Hx. apply (V_allocated s a Ha); [by apply used_ne|done]. Qed.

(** [a[bn] = balloc()] in the indirect block *)
Definition entered (bn : Z) : fs :=
  logset (ind_of ip) (put32 (4 * (bn - 12)) a (V s (ind_of ip))) (allocated a s).

Context (bn : Z) (Hbn : 12 <= bn < MF) (Hind : ind_of ip <> 0) (Hz : slot s ip bn = 0).

Lemma entered_slot : slot (entered bn) ip bn = a /\
  forall j, 0 <= j <= MF -> j <> bn -> slot (entered bn) ip j = slot s ip j.
Proof.
  pose proof (oo_view _ (fo_op _ Hok) (ind_of ip)) as [Hl _]. unfold BSIZE in Hl.
  pose proof (lo_size _ _ (fo_layout _ Hok)). pose proof (lo_width _ _ (fo_layout _ Hok)).
  unfold slot, MF in *. split.
  - destruct (Z.eqb_spec bn 140); [lia|]. destruct (Z.ltb_spec bn 12); [lia|].
    destruct (Z.eqb_spec (ind_of ip) 0); [done|]. unfold entered. rewrite V_same.
    rewrite get32_put32_same by lia. apply u32_small. lia.
  - intros j Hj Hne. destruct (Z.eqb_spec j 140); [done|]. destruct (Z.ltb_spec j 12); [done|].
    destruct (Z.eqb_spec (ind_of ip) 0); [done|]. unfold entered. rewrite V_same.
    by rewrite get32_put32_diff by lia.
Qed.

Lemma entered_ok : fs_ok (entered bn).
Proof.
  apply fs_ok_logset; [by apply fs_ok_allocated|apply put32_ok, (fo_op _ Hok)|]. by apply ind_range.
Qed.

Lemma entered_used x : 0 <= x < size (sb s) -> used (entered bn) x = (x =? a) || used s x.
Proof.
  intros Hx. unfold entered. rewrite used_logset; [by apply used_allocated|by apply fs_ok_allocated| |done].
  by apply ind_range.
Qed.

Lemma entered_extends : extends i 1 s ip (entered bn) ip.
Proof.
  destruct entered_slot as [Ea Eo]. assert (Hbn' : 0 <= bn <= MF) by lia.
  assert (Eip : ip = with_addrs (i_addrs ip) ip) by (by destruct ip).
  split; try done.
  - symmetry. by apply list_insert_id.
  - by exists (i_addrs ip).
  - apply entered_ok.
  - eapply (inode_ok_add s ip _ _ bn a); try done; [by apply entered_used|apply Hio].
  - intros j Hj Hn. apply Eo; [done|]. intros ->. done.
  - intros j Hj Hn Hj'. destruct (decide (j = bn)) as [->|]; [by rewrite Ea|].
    by rewrite Eo in Hj' by done.
  - intros x Hx Hu. by rewrite entered_used, Hu, orb_true_r.
  - unfold logcost, indS. destruct (Z.eqb_spec (ind_of ip) 0); [done|].
    change (meta (entered bn) ip) with (meta s ip). unfold entered.
    match goal with |- need ?S _ + _ <= _ => pose proof (need_in S (ind_of ip)
      (put32 (4 * (bn - 12)) a (V s (ind_of ip))) (allocated a s)) as H1; pose proof (need_allocated s a Ha S) as H2 end.
    specialize (H1 ltac:(by left)). specialize (H2 ltac:(intros b Hb; apply elem_of_app; right; by right)). lia.
  - rewrite (nfree_ext (allocated a s) (entered bn)); [rewrite nfree_allocated by done; lia|done|].
    intros x Hx. rewrite entered_used by done. symmetry. by apply used_allocated.
Qed.

Lemma entered_view x : used s x = true -> x ∉ bitmap_blocks (sb s) -> x <> ind_of ip -> V (entered bn) x = V s x.
Proof.
  intros Hu Hx Hn. unfold entered. rewrite V_other by done.
  apply (V_allocated s a Ha); [by apply used_ne|done].
Qed.
End grant.

(** ** bmap *)
Definition bmap_post (i : nat) (bn : Z) (s : fs) (ip : inode) (a : Z) (s' : fs) : Prop := exists ip',
  extends i (if slot s ip bn =? 0 then 1 else 0) s ip s' ip' /\ slot s' ip' bn = a /\ a <> 0 /\
  (slot s ip bn <> 0 -> s' = s /\ ip' = ip) /\
  (slot s ip bn = 0 -> V s' a = zero_block /\ a ∈ lh (lg s')) /\
  (forall k, 0 <= k < MF -> k <> bn -> slot s' ip' k = slot s ip k) /\
  (forall x, 0 <= x < size (sb s) -> used s x = true -> x ∉ bitmap_blocks (sb s) ->
     (ind_of ip <> 0 -> x <> ind_of ip) -> V s' x = V s x).

Lemma ready_fits m s ip : ready m s ip -> 0 < m -> fits (indS ip ++ meta s ip) 1 s.
Proof.
  intros [H1 H2 H3] Hm. split; [done|]. unfold logcost, credit in H2.
  destruct (ind_of ip =? 0); lia.
Qed.
Lemma ready_nfree m s ip : ready m s ip -> 0 < m -> 0 < nfree s.
Proof. intros [H1 H2 H3] Hm. unfold credit in H3. destruct (ind_of ip =? 0); lia. Qed.

Lemma bmap_ind_runs i bn s ip :
  icache s !! i = Some ip -> fs_ok s -> inode_ok s ip -> held s = [] -> 12 <= bn < MF -> ind_of ip <> 0 ->
  roomy s -> (slot s ip bn = 0 -> ready 1 s ip) ->
  runs (f_bread (ind_of ip) ;;;
        d <- f_data (ind_of ip) ;;
        a <- (if get32 d (4 * (bn - 12)) =? 0 then
                a <- balloc ;;
                d' <- f_data (ind_of ip) ;;
                f_set (ind_of ip) (put32 (4 * (bn - 12)) a d') ;;;
                f_log_write (ind_of ip) ;;;
                ret a
              else ret (get32 d (4 * (bn - 12)))) ;;
        f_brelse (ind_of ip) ;;; ret a) s (bmap_post i bn s ip).
Proof.
  intros Hi Hok Hio Hh Hbn Hind Hroom Hrd.
  destruct (ind_range s ip Hio Hind) as (Hr & Hu & Hnb).
  pose proof (lo_size _ _ (fo_layout _ Hok)) as Hsz. pose proof (dstart_pos _ (fo_layout _ Hok)).
  assert (Hnh : ind_of ip ∉ held s) by (rewrite Hh; apply not_elem_of_nil).
  apply fread_runs; [apply Hok|done|rewrite Hh; simpl; lia|done|lia|].
  apply fdata_runs; [by left|]. change (V (hold _ s) (ind_of ip)) with (V s (ind_of ip)).
  rewrite <- (slot_bytes s ip bn Hbn Hind). apply runs_bind.
  destruct (Z.eqb_spec (slot s ip bn) 0) as [Ez|Ez].
  - specialize (Hrd Ez). apply runs_bind.
    assert (Hok' : fs_ok (hold (ind_of ip :: held s) s)) by (by destruct Hok as [[] ? ?]).
    apply (balloc_runs (indS ip ++ meta s ip)); [done| |exact (ready_fits 1 s ip Hrd eq_refl)| |exact (ready_nfree 1 s ip Hrd eq_refl)|].
    + split; simpl; rewrite Hh; [simpl; lia|]. intros x ->%list_elem_of_singleton. split; [apply Hr|done].
    + intros b Hb. apply elem_of_app. right. by right.
    + intros a Ha Hfree. change (used (hold _ s) a) with (used s a) in Hfree.
      change (allocated a (hold (ind_of ip :: held s) s)) with (hold (ind_of ip :: held s) (allocated a s)).
      assert (Ei : V (allocated a s) (ind_of ip) = V s (ind_of ip)).
      { apply V_allocated; [done|by apply (used_ne s)|done]. }
      apply fdata_runs; [by left|]. change (V (hold _ (allocated a s)) (ind_of ip)) with (V (allocated a s) (ind_of ip)).
      rewrite Ei. apply fset_runs; [by left|]. apply flog_runs; [by left| |].
      { pose proof (need_allocated s a Ha (indS ip ++ meta s ip)
          ltac:(intros b Hb; apply elem_of_app; right; by right)) as Hn.
        destruct Hrd as [R1 R2 _]. split; [done|]. unfold logcost, credit in R2.
        rewrite (proj2 (Z.eqb_neq _ _) Hind) in R2. unfold need at 1 in Hn. simpl in *.
        change (loglen _) with (loglen (allocated a s)). lia. }
      apply runs_ret. eapply frelse_runs; [done|done|left; by left|].
      match goal with |- runs _ ?t _ => change t with (logset (ind_of ip)
        (put32 (4 * (bn - 12)) a (V s (ind_of ip))) (hold (held (allocated a s)) (allocated a s))) end.
      rewrite hold_id. apply runs_ret. exists ip. destruct (entered_slot s ip Hok a Ha bn Hbn Hind Ez) as [Ea Eo].
      fold (entered s ip a bn). rewrite (proj2 (Z.eqb_eq _ _) Ez). split_and!; try done.
      * by apply entered_extends.
      * pose proof (free_data s a Hok Ha Hfree). lia.
      * intros _. split; [|apply elem_of_mark_lh; right; apply (lh_allocated s a); by right].
        unfold entered. rewrite V_other; [apply V_allocated_same|]. intros ->. congruence.
      * intros k Hk Hne. apply Eo; lia || done.
      * intros x Hx Hux Hxb Hxi. apply entered_view; auto.
  - apply runs_ret. eapply frelse_same; [apply Hok|done|]. apply runs_ret. exists ip.
    rewrite (proj2 (Z.eqb_neq _ _) Ez). split_and!; try done. by apply extends_refl.
Qed.

Lemma bmap_runs i bn s ip :
  icache s !! i = Some ip -> fs_ok s -> inode_ok s ip -> held s = [] -> 0 <= bn < MF ->
  roomy s -> (slot s ip bn = 0 -> ready 1 s ip) ->
  runs (bmap i bn) s (bmap_post i bn s ip).
Proof.
  intros Hi Hok Hio Hh Hbn Hroom Hrd. unfold bmap. eapply get_inode_runs; [done|].
  change NDIRECT with 12. change NINDIRECT with 128.
  assert (Hho : held_ok s) by (split; rewrite Hh; [simpl; lia|intros x Hx; by apply not_elem_of_nil in Hx]).
  assert (Hlt : (i < length (icache s))%nat) by (by eapply lookup_lt_Some).
  destruct (Z.ltb_spec bn 12) as [Hd|Hd].
  - rewrite <- (slot_direct s ip bn) by lia. destruct (Z.eqb_spec (slot s ip bn) 0) as [Ez|Ez].
    + specialize (Hrd Ez). apply runs_bind.
      apply (balloc_runs (indS ip ++ meta s ip)); [done|done|by apply (ready_fits 1)|
        intros b Hb; apply elem_of_app; right; by right|by eapply ready_nfree|].
      intros a Ha Hfree. eapply upd_inode_runs; [done|]. apply runs_ret.
      change (set_icache _ (allocated a s)) with (granted i s ip a bn).
      exists (with_addr bn a ip). rewrite slot_direct in Ez by lia.
      pose proof (granted_slot i s ip Hio a Ha Hfree bn ltac:(lia) Ez) as (E0 & Ea & Eo).
      pose proof (granted_extends i s ip Hok Hio a Ha Hfree bn ltac:(lia) Ez) as Hex.
      destruct (Z.eqb_spec bn 12); [lia|]. rewrite (proj2 (Z.eqb_eq _ _) E0). split_and!; try done.
      * pose proof (free_data s a Hok Ha Hfree). pose proof (dstart_pos _ (fo_layout _ Hok)). lia.
      * intros _. split; [apply V_allocated_same|]. apply (lh_allocated s a). by right.
      * intros k Hk Hne. apply Eo; lia || done.
      * intros x Hx Hu Hb _. by apply (granted_view i s ip).
    + apply runs_ret. exists ip. rewrite (proj2 (Z.eqb_neq _ _) Ez). split_and!; try done.
      by apply extends_refl.
  - destruct (Z.ltb_spec (bn - 12) 128) as [_|]; [|unfold MF in *; lia]. cbv zeta. apply runs_bind.
    destruct (Z.eqb_spec (addr_of ip 12) 0) as [Ei|Ei].
    2: { apply runs_ret. apply bmap_ind_runs; lia || done. }
    assert (Ez : slot s ip bn = 0).
    { unfold slot, MF in *. destruct (Z.eqb_spec bn 140); [lia|]. destruct (Z.ltb_spec bn 12); [lia|].
      unfold ind_of. by rewrite Ei. }
    specialize (Hrd Ez). apply runs_bind.
    apply (balloc_runs (indS ip ++ meta s ip)); [done|done|by apply (ready_fits 1)|
      intros b Hb; apply elem_of_app; right; by right|by eapply ready_nfree|].
    intros r Hr Hfree. eapply upd_inode_runs; [done|]. apply runs_ret.
    change (set_icache _ (allocated r s)) with (granted i s ip r 12).
    set (s1 := granted i s ip r 12). set (ip1 := with_addr 12 r ip).
    pose proof (granted_slot i s ip Hio r Hr Hfree 12 ltac:(lia) Ei) as (E0 & Ea & Eo).
    pose proof (granted_extends i s ip Hok Hio r Hr Hfree 12 ltac:(lia) Ei) as Hex.
    change (12 =? 12) with true in *. cbv iota in *.
    assert (Er : r = ind_of ip1) by (by rewrite <- Ea).
    pose proof (free_data s r Hok Hr Hfree). pose proof (dstart_pos _ (fo_layout _ Hok)).
    assert (Es1 : slot s1 ip1 bn = 0) by (rewrite Eo; [done|lia|unfold MF in *; lia]).
    pose proof (ready_extends _ _ _ _ _ _ _ Hex Hrd) as Hrd1. change (1 - 0) with 1 in Hrd1.
    rewrite Er. eapply runs_conseq; [apply (bmap_ind_runs i bn s1 ip1)|].
    + unfold s1, granted. simpl. by rewrite list_lookup_insert_eq.
    + apply Hex.
    + apply Hex.
    + done.
    + lia.
    + lia.
    + apply (spare_roomy 1); [|lia]. apply (fits_spare (indS ip1 ++ meta s1 ip1) 0).
      pose proof (ready_fits 1 s1 ip1 Hrd1 eq_refl) as [F1 F2]. split; [done|lia].
    + done.
    + intros a s2 (ip2 & X1 & X2 & X2' & X3 & X4 & X5 & X6). exists ip2.
      rewrite Es1 in *. rewrite Ez. change (0 =? 0) with true in *. cbv iota in *.
      pose proof (extends_trans _ _ _ _ _ _ _ _ _ Hex X1) as Hex2. change (0 + 1) with 1 in Hex2.
      split_and!; try done.
      * intros k Hk Hne. rewrite X5 by done. apply Eo; unfold MF in *; lia.
      * intros x Hx Hu Hb _. rewrite X6; [by apply (granted_view i s ip)|done| |done|].
        -- apply (ex_used _ _ _ _ _ _ Hex); done.
        -- rewrite <- Er. congruence.
Qed.
