(* ===== verification/FsFile.v ===== *)
(** * Files as byte sequences (fs.c: readi, writei)

    [readi] and [writei] against the list of bytes that a file is, with the
    number of log blocks a write takes. *)
From stdpp Require Import base numbers list list_numbers strings.
From Stdlib Require Import ZArith Lia.
From S2P Require Import Prelude Block Bcache Log Fs FsBlock FsInode FsMap.
#[local] Open Scope Z_scope.

(** The block of a file slot, and its bytes. *)
Definition fbyte (s : fs) (ip : inode) (o : Z) : Z := V s (slot s ip (o / 512)) !!! Z.to_nat (o `mod` 512).
Definition contents (s : fs) (ip : inode) : list Z := fbyte s ip <$> seqZ 0 (i_size ip).

(** ** Reading *)
Lemma seg_fbyte s ip o m : block_ok (V s (slot s ip (o / 512))) -> 0 <= o -> 0 <= m -> o `mod` 512 + m <= 512 ->
  seg (o `mod` 512) m (V s (slot s ip (o / 512))) = fbyte s ip <$> seqZ o m.
Proof.
  intros [Hl _] Ho Hm Hle. unfold BSIZE in Hl. apply list_eq_same_length with (n := Z.to_nat m).
  - rewrite length_fmap, length_seqZ. done.
  - apply Nat2Z.inj. rewrite length_seg by dlia. lia.
  - intros j x y Hj Hx Hy. rewrite lookup_seg in Hx by lia.
    apply list_lookup_fmap_Some in Hy as (z & -> & [-> _]%lookup_seqZ).
    unfold fbyte. replace ((o + Z.of_nat j) / 512) with (o / 512) by dlia.
    symmetry. apply list_lookup_total_correct. rewrite <- Hx. f_equal. dlia.
Qed.

Lemma contents_seg s ip off m : 0 <= off -> 0 <= m -> off + m <= i_size ip ->
  seg off m (contents s ip) = fbyte s ip <$> seqZ off m.
Proof.
  intros Ho Hm Hle. unfold seg, contents. rewrite <- fmap_drop, <- fmap_take. f_equal.
  apply list_eq. intros j. destruct (decide (j < Z.to_nat m)%nat) as [Hj|Hj].
  - rewrite lookup_take_lt, lookup_drop by done. rewrite !lookup_seqZ_lt by lia. f_equal. lia.
  - rewrite lookup_take_ge by lia. symmetry. apply lookup_seqZ_ge. lia.
Qed.

Lemma length_file s ip : 0 <= i_size ip -> Z.of_nat (length (contents s ip)) = i_size ip.
Proof. intros. unfold contents. rewrite length_fmap, length_seqZ. lia. Qed.

(** The blocks left when byte [o] of [e] is next. *)
Definition blocks_left (o e : Z) : nat := if o <? e then Z.to_nat ((e - 1) / 512 - o / 512 + 1) else 0.

Lemma blocks_left_step o e m : 0 <= o < e -> m = Z.min (e - o) (512 - o `mod` 512) ->
  (blocks_left (o + m) e < blocks_left o e)%nat.
Proof.
  intros Ho ->. unfold blocks_left.
  destruct (Z.ltb_spec o e); [|lia]. destruct (Z.ltb_spec (o + Z.min (e - o) (512 - o `mod` 512)) e); dlia.
Qed.

Lemma blocks_left_fuel o n : 0 <= o -> 0 <= n -> (blocks_left o (o + n) < Z.to_nat (n / 512) + 3)%nat.
Proof. intros. unfold blocks_left. destruct (Z.ltb_spec o (o + n)); dlia. Qed.

Section file.
Context `{!Devices} (i : nat).

(** The inode is loaded, no buffer is locked, and it is not a device. *)
Record file_ok (s : fs) (ip : inode) : Prop := {
  fi_cache : icache s !! i = Some ip;
  fi_fs : fs_ok s;
  fi_inode : inode_ok s ip;
  fi_held : held s = [];
  fi_room : roomy s;
  fi_dev : i_type ip <> T_DEV }.

Lemma slot_ready s ip o : file_ok s ip -> 0 <= o < i_size ip ->
  0 <= o / 512 < MF /\ slot s ip (o / 512) <> 0 /\ 0 <= slot s ip (o / 512) < disksize (blk (lg s)).
Proof.
  intros [H1 H2 H3 H4 H5 H6] Ho. pose proof (io_size _ _ H3). unfold MF in *.
  assert (Hn : slot s ip (o / 512) <> 0) by (apply (io_alloc _ _ H3); dlia).
  assert (Hb : 0 <= o / 512 < 140) by dlia. split_and!; try lia.
  - destruct (io_slot _ _ H3 (o / 512)) as [? _]; [unfold MF; lia|done|].
    pose proof (dstart_pos _ (fo_layout _ H2)). lia.
  - destruct (io_slot _ _ H3 (o / 512)) as [? _]; [unfold MF; lia|done|].
    pose proof (lo_size _ _ (fo_layout _ H2)). lia.
Qed.

Lemma readi_loop_runs s ip off n : file_ok s ip -> 0 <= off -> 0 <= n -> off + n <= i_size ip ->
  runs (loop (Z.to_nat (n / BSIZE) + 3) (readi_loop i n) (0, off, [])) s
    (fun r s' => r = fbyte s ip <$> seqZ off n /\ s' = s).
Proof.
  intros Hf Hoff Hn Hle. pose proof Hf as [H1 H2 H3 H4 H5 H6].
  pose proof (io_size _ _ H3) as Hsz. unfold MF in Hsz.
  apply (runs_loop (fun '(tot, o, acc) t => t = s /\ 0 <= tot <= n /\ o = off + tot /\ acc = fbyte s ip <$> seqZ off tot)
           (fun '(tot, o, acc) => blocks_left (off + tot) (off + n))).
  2: { split_and!; lia || done. }
  2: { rewrite Z.add_0_r. by apply blocks_left_fuel. }
  intros [[tot o] acc] t (-> & Ht & -> & ->). unfold readi_loop.
  destruct (Z.ltb_spec tot n) as [Hlt|Hge].
  2: { apply runs_ret. by replace tot with n by lia. }
  change BSIZE with 512. set (m := Z.min (n - tot) (512 - (off + tot) `mod` 512)).
  destruct (slot_ready s ip (off + tot) Hf ltac:(lia)) as (Hb & Hs0 & Hsr).
  apply runs_bind. eapply runs_conseq; [apply (bmap_runs i _ s ip); done|].
  intros a s' (ip' & _ & Ea & _ & Hsame & _). destruct (Hsame Hs0) as [-> ->]. subst a.
  assert (Hnh : slot s ip ((off + tot) / 512) ∉ held s) by (rewrite H4; apply not_elem_of_nil).
  apply fread_runs; [apply H2|done|rewrite H4; simpl; lia|done|done|].
  apply fdata_runs; [by left|]. eapply frelse_same; [apply H2|done|]. apply runs_ret.
  change (V (hold _ s)) with (V s). split.
  - split_and!; try done; try (unfold m; dlia).
    + rewrite u32_small by (unfold m; dlia). lia.
    + rewrite seg_fbyte by (apply H2 || lia || (unfold m; dlia)).
      rewrite <- fmap_app. f_equal. symmetry. apply seqZ_app; unfold m; dlia.
  - rewrite Z.add_assoc. apply blocks_left_step; [lia|unfold m; f_equal; lia].
Qed.

Lemma readi_runs s ip off n : file_ok s ip -> 0 <= off <= i_size ip -> 0 <= n -> off + n < 4294967296 ->
  let m := Z.min n (i_size ip - off) in
  runs (readi i off n) s (fun r s' => r = (m, seg off m (contents s ip)) /\ s' = s).
Proof.
  intros Hf Ho Hn Hw m. unfold readi. eapply get_inode_runs; [apply Hf|].
  destruct (Z.eqb_spec (i_type ip) T_DEV) as [E|_]; [by destruct Hf|].
  destruct (Z.ltb_spec (i_size ip) off); [lia|]. rewrite u32_small by lia.
  destruct (Z.ltb_spec (off + n) off); [lia|]. cbn [orb].
  assert (Em : (if i_size ip <? off + n then i_size ip - off else n) = m).
  { unfold m. destruct (Z.ltb_spec (i_size ip) (off + n)); lia. }
  rewrite Em. apply runs_bind. eapply runs_conseq; [apply (readi_loop_runs s ip); done || lia|].
  intros r s' [-> ->]. apply runs_ret. split; [|done]. by rewrite contents_seg by lia.
Qed.

(** ** Writing *)
Lemma extends_mono m m' s ip s' ip' : extends i m s ip s' ip' -> m <= m' -> extends i m' s ip s' ip'.
Proof. intros [] Hm. split; try done; lia. Qed.

(** Changing a data block of the file. *)
Section put_block.
Context (s : fs) (ip : inode) (k : Z) (d : block).
Context (Hi : icache s !! i = Some ip) (Hok : fs_ok s) (Hio : inode_ok s ip).
Context (Hk : 0 <= k < MF) (Hn : slot s ip k <> 0) (Hd : block_ok d).

Lemma put_slot j : slot (logset (slot s ip k) d s) ip j = slot s ip j.
Proof.
  assert (Hne : ind_of ip <> 0 -> ind_of ip <> slot s ip k).
  { intros H0 E. assert (MF = k) by (apply (io_inj _ _ Hio); [unfold MF; lia|lia|done|exact E]). lia. }
  unfold slot at 1 3. destruct (j =? MF); [done|]. destruct (j <? 12); [done|].
  destruct (Z.eqb_spec (ind_of ip) 0) as [|H0]; [done|]. by rewrite V_other by (by apply Hne).
Qed.

Lemma put_extends : extends i (if decide (slot s ip k ∈ lh (lg s)) then 0 else 1) s ip
  (logset (slot s ip k) d s) ip.
Proof.
  destruct (slot_range s ip Hio k ltac:(lia) Hn) as (Hr & Hu & Hb).
  assert (Hus : forall x, 0 <= x < size (sb s) -> used (logset (slot s ip k) d s) x = used s x).
  { intros x Hx. apply used_logset; [done|lia|done]. }
  pose proof (dstart_pos _ (fo_layout _ Hok)) as Hp.
  split; try done.
  - symmetry. by apply list_insert_id.
  - exists (i_addrs ip). by destruct ip.
  - apply fs_ok_logset; [done|done|lia].
  - destruct Hio as [I1 I2 I3 I4 I5 I6]. split; try done.
    + intros j Hj Hnj. rewrite put_slot in *. destruct (I4 j Hj Hnj) as [Hrj Huj].
      split; [done|]. rewrite Hus by lia. done.
    + intros j j' Hj Hj'. rewrite !put_slot. by apply I5.
    + intros j Hj Hs. rewrite put_slot. by apply I6.
  - intros j _ _. apply put_slot.
  - intros j _ H0. by rewrite put_slot.
  - intros x Hx Hux. by rewrite Hus.
  - unfold logcost. change (meta (logset (slot s ip k) d s) ip) with (meta s ip).
    case_decide as Hl; [rewrite need_old by done; lia|].
    pose proof (need_any (indS ip ++ meta s ip) (slot s ip k) d s). lia.
  - rewrite (nfree_ext s (logset (slot s ip k) d s)) by (done || apply Hus). case_decide; lia.
Qed.

Lemma put_fbyte o : 0 <= o / 512 < MF ->
  fbyte (logset (slot s ip k) d s) ip o =
    if o / 512 =? k then d !!! Z.to_nat (o `mod` 512) else fbyte s ip o.
Proof.
  intros Ho. unfold fbyte. rewrite put_slot. destruct (Z.eqb_spec (o / 512) k) as [->|Hne].
  - by rewrite V_same.
  - rewrite V_other; [done|]. intros E. apply Hne. symmetry.
    apply (io_inj _ _ Hio); [lia|lia|done|done].
Qed.
End put_block.

Lemma lookup_total_splice off bs (d : block) j :
  0 <= off -> 0 <= j < Z.of_nat (length d) -> 
  splice off bs d !!! Z.to_nat j =
    if (off <=? j) && (j <? off + Z.of_nat (length bs)) then bs !!! Z.to_nat (j - off) else d !!! Z.to_nat j.
Proof.
  intros Ho Hj. unfold splice. rewrite !list_lookup_total_alt.
  destruct (Z.leb_spec off j), (Z.ltb_spec j (off + Z.of_nat (length bs))); simpl; do 1 f_equal.
  - rewrite list_lookup_inserts by lia. f_equal. lia.
  - rewrite list_lookup_inserts_ge by lia. done.
  - rewrite list_lookup_inserts_lt by lia. done.
  - rewrite list_lookup_inserts_lt by lia. done.
Qed.

(** The state after the bytes of [src] up to file offset [o] were written from
    [off] on, with the log and free blocks for [m] data blocks spent. *)
Record written (s : fs) (ip : inode) (off : Z) (src : list Z) (o m : Z) (t : fs) (ip' : inode) : Prop := {
  wt_ext : extends i m s ip t ip';
  wt_alloc : forall q, 0 <= q -> q * 512 < Z.max (i_size ip) o -> slot t ip' q <> 0;
  wt_bytes : forall q, 0 <= q < Z.max (i_size ip) o -> fbyte t ip' q =
    if (off <=? q) && (q <? o) then src !!! Z.to_nat (q - off) else fbyte s ip q;
  wt_frame : forall x, 0 <= x < size (sb s) -> used s x = true -> x ∉ bitmap_blocks (sb s) ->
    (forall k, 0 <= k <= MF -> slot s ip k <> 0 -> x <> slot s ip k) -> V t x = V s x;
  wt_same : o <= i_size ip -> ip' = ip }.

(** A block used before that is not the file's is none of its blocks later. *)
Lemma extends_foreign m s ip t ip' x k : extends i m s ip t ip' -> used s x = true ->
  (forall k, 0 <= k <= MF -> slot s ip k <> 0 -> x <> slot s ip k) ->
  0 <= k <= MF -> slot t ip' k <> 0 -> x <> slot t ip' k.
Proof.
  intros E Hu Hf Hk Hn ->. destruct (decide (slot s ip k = 0)) as [E0|E0].
  - by rewrite (ex_fresh _ _ _ _ _ _ E k) in Hu.
  - apply (Hf k Hk E0). by apply (ex_slot _ _ _ _ _ _ E).
Qed.

Section write_step.
Context (s : fs) (ip : inode) (off : Z) (src : list Z) (o m e : Z) (t : fs) (ip' : inode).
Context (W : written s ip off src o m t ip').
Context (Hoff : 0 <= off <= o) (Hoe : o < e) (He : e <= MF * 512).
Context (Hsize : 0 <= i_size ip <= MF * 512) (Hsrc : Z.of_nat (length src) = e - off).
Let mm := Z.min (e - o) (512 - o `mod` 512).
Let bn := o / 512.

(** After [bmap] of block [bn]. *)
Context (a : Z) (t1 : fs) (ip1 : inode).
Context (X1 : extends i (if slot t ip' bn =? 0 then 1 else 0) t ip' t1 ip1).
Context (X2 : slot t1 ip1 bn = a) (X2' : a <> 0).
Context (X3 : slot t ip' bn <> 0 -> t1 = t /\ ip1 = ip').
Context (X5 : forall k, 0 <= k < MF -> k <> bn -> slot t1 ip1 k = slot t ip' k).
Context (X6 : forall x, 0 <= x < size (sb t) -> used t x = true -> x ∉ bitmap_blocks (sb t) ->
  (ind_of ip' <> 0 -> x <> ind_of ip') -> V t1 x = V t x).

Let d := splice (o `mod` 512) (seg (o - off) mm src) (V t1 a).
Let t2 := logset a d t1.

Lemma bn_range : 0 <= bn < MF.
Proof. unfold bn, MF in *. dlia. Qed.

Lemma step_data_ok : Forall is_byte src -> block_ok d.
Proof. intros. unfold d. apply splice_ok; [by apply seg_bytes|apply (ex_ok _ _ _ _ _ _ X1)]. Qed.

Lemma step_slot j : slot t2 ip1 j = slot t1 ip1 j.
Proof. unfold t2. rewrite <- X2. apply put_slot; [apply X1|apply bn_range]. Qed.

Lemma old_block q : 0 <= q < Z.max (i_size ip) (o + mm) -> q / 512 <> bn -> q < Z.max (i_size ip) o.
Proof. unfold bn, mm. intros. dlia. Qed.

Lemma old_slot q : 0 <= q < Z.max (i_size ip) o -> 0 <= q / 512 < MF /\ slot t ip' (q / 512) <> 0.
Proof. intros Hq. split; [unfold MF in *; dlia|]. apply (wt_alloc _ _ _ _ _ _ _ _ W); dlia. Qed.

Lemma step_alloc q : 0 <= q -> q * 512 < Z.max (i_size ip) (o + mm) -> slot t2 ip1 q <> 0.
Proof.
  intros Hq Hlt. rewrite step_slot. destruct (decide (q = bn)) as [->|Hne]; [by rewrite X2|].
  rewrite X5; [|unfold mm, MF in *; dlia|done].
  apply (wt_alloc _ _ _ _ _ _ _ _ W); [done|]. unfold mm, bn in *. dlia.
Qed.

(** A byte of another block of the file. *)
Lemma other_byte q : 0 <= q < Z.max (i_size ip) o -> q / 512 <> bn -> fbyte t1 ip1 q = fbyte t ip' q.
Proof.
  intros Hq Hne. destruct (old_slot q Hq) as [Hr Hn]. unfold fbyte. rewrite X5 by done.
  pose proof (ex_iok _ _ _ _ _ _ (wt_ext _ _ _ _ _ _ _ _ W)) as Hio.
  destruct (slot_range t ip' Hio (q / 512) ltac:(lia) Hn) as (Hrr & Hu & Hb).
  pose proof (dstart_pos _ (fo_layout _ (ex_ok _ _ _ _ _ _ (wt_ext _ _ _ _ _ _ _ _ W)))).
  rewrite X6; [done|lia|done|done|]. intros Hi0 E.
  assert (q / 512 = MF) by (apply (io_inj _ _ Hio); [lia|unfold MF; lia|done|exact E]). lia.
Qed.

Lemma step_bytes q : 0 <= q < Z.max (i_size ip) (o + mm) -> fbyte t2 ip1 q =
  if (off <=? q) && (q <? o + mm) then src !!! Z.to_nat (q - off) else fbyte s ip q.
Proof.
  intros Hq. assert (Hmf : 0 <= q / 512 < MF) by (unfold mm, MF in *; dlia).
  assert (Hmm : 0 < mm /\ o `mod` 512 + mm <= 512 /\ mm <= e - o) by (unfold mm; dlia).
  unfold t2. rewrite <- X2. rewrite put_fbyte; [|apply X1|apply bn_range|by rewrite X2|done].
  destruct (Z.eqb_spec (q / 512) bn) as [Eq|Eq].
  2: { pose proof (old_block q Hq Eq) as Hq'. rewrite other_byte by (done || lia).
       rewrite (wt_bytes _ _ _ _ _ _ _ _ W) by lia. unfold bn in Eq.
       destruct (Z.leb_spec off q), (Z.ltb_spec q o), (Z.ltb_spec q (o + mm)); simpl; try done; exfalso; dlia. }
  pose proof (oo_view _ (fo_op _ (ex_ok _ _ _ _ _ _ X1)) a) as [Hl _]. unfold BSIZE in Hl.
  unfold d. rewrite lookup_total_splice by dlia.
  assert (Hls : Z.of_nat (length (seg (o - off) mm src)) = mm) by (apply length_seg; lia).
  rewrite Hls. unfold bn in Eq.
  destruct (decide (o <= q < o + mm)) as [Hin|Hout].
  - destruct (Z.leb_spec (o `mod` 512) (q `mod` 512)); [|dlia].
    destruct (Z.ltb_spec (q `mod` 512) (o `mod` 512 + mm)); [|dlia].
    destruct (Z.leb_spec off q), (Z.ltb_spec q (o + mm)); try lia. simpl.
    rewrite !list_lookup_total_alt. f_equal. rewrite lookup_seg by dlia. f_equal. dlia.
  - assert (Hq' : q < Z.max (i_size ip) o) by lia.
    destruct (old_slot q ltac:(lia)) as [_ Hn]. rewrite Eq in Hn. destruct (X3 Hn) as [-> ->].
    rewrite (proj2 (andb_false_iff _ _)).
    2: { destruct (Z.leb_spec (o `mod` 512) (q `mod` 512)); [right; apply Z.ltb_ge|left; done].
         dlia. }
    pose proof (wt_bytes _ _ _ _ _ _ _ _ W q ltac:(lia)) as Hb. unfold fbyte in Hb at 1.
    rewrite Eq in Hb. unfold bn in X2. rewrite X2 in Hb. rewrite Hb.
    destruct (Z.leb_spec off q), (Z.ltb_spec q o), (Z.ltb_spec q (o + mm)); simpl; done || lia.
Qed.

Lemma step_frame x : 0 <= x < size (sb s) -> used s x = true -> x ∉ bitmap_blocks (sb s) ->
  (forall k, 0 <= k <= MF -> slot s ip k <> 0 -> x <> slot s ip k) -> V t2 x = V s x.
Proof.
  intros Hx Hu Hb Hf. pose proof (wt_ext _ _ _ _ _ _ _ _ W) as E. pose proof bn_range.
  unfold t2. rewrite V_other.
  - rewrite X6; [by apply (wt_frame _ _ _ _ _ _ _ _ W)| | | |].
    + by rewrite (ex_sb _ _ _ _ _ _ E).
    + by apply (ex_used _ _ _ _ _ _ E).
    + by rewrite (ex_sb _ _ _ _ _ _ E).
    + intros Hi0. apply (extends_foreign _ _ _ _ _ _ MF E); [done|done|unfold MF; lia|done].
  - rewrite <- X2. eapply (extends_foreign _ _ _ _ _ _ bn (extends_trans _ _ _ _ _ _ _ _ _ E X1));
      [done|done|lia|by rewrite X2].
Qed.
End write_step.

Lemma ready_mono m m' s ip : ready m s ip -> m' <= m -> ready m' s ip.
Proof. intros [] Hm. split; lia || done. Qed.
Lemma ready_spare m s ip : ready m s ip -> 0 <= m -> spare 1 s.
Proof.
  intros [R1 R2 _] Hm. split; [done|]. unfold logcost, need, credit in R2.
  destruct (ind_of ip =? 0); lia.
Qed.

Lemma writei_step s ip off src o m e t ip' :
  written s ip off src o m t ip' -> 0 <= off <= o -> o < e -> e <= MF * 512 ->
  0 <= i_size ip <= MF * 512 -> Z.of_nat (length src) = e - off -> Forall is_byte src ->
  icache s !! i = Some ip -> held s = [] -> ready 1 t ip' ->
  let mm := Z.min (e - o) (512 - o `mod` 512) in
  runs (writei_loop i src (e - off) (o - off, o)) t (fun r t' =>
    r = inl (o + mm - off, o + mm) /\ exists ip'' m', m' <= m + 1 /\ written s ip off src (o + mm) m' t' ip'').
Proof.
  intros W Hoff Hoe He Hsz Hsrc Hby Hi Hh Hrd mm. pose proof (wt_ext _ _ _ _ _ _ _ _ W) as E.
  assert (Hlt : (i < length (icache s))%nat) by (by eapply lookup_lt_Some).
  assert (Hit : icache t !! i = Some ip') by (rewrite (ex_cache _ _ _ _ _ _ E); by apply list_lookup_insert_eq).
  assert (Hht : held t = []) by (by rewrite (ex_held _ _ _ _ _ _ E)).
  pose proof (spare_roomy 1 t (ready_spare _ _ _ Hrd ltac:(lia)) ltac:(lia)) as Hroom.
  unfold writei_loop. destruct (Z.ltb_spec (o - off) (e - off)); [|lia].
  change BSIZE with 512.
  assert (Hbn : 0 <= o / 512 < MF) by (unfold MF in *; dlia).
  apply runs_bind. eapply runs_conseq;
    [apply (bmap_runs i (o / 512) t ip'); try done; apply E|].
  intros a t1 (ip1 & X1 & X2 & X2' & X3 & X4 & X5 & X6).
  assert (Hmm : Z.min (e - off - (o - off)) (512 - o `mod` 512) = mm) by (unfold mm; f_equal; lia).
  rewrite Hmm. clear Hmm.
  set (d := splice (o `mod` 512) (seg (o - off) mm src) (V t1 a)).
  assert (Hd : block_ok d).
  { apply splice_ok; [by apply seg_bytes|apply (ex_ok _ _ _ _ _ _ X1)]. }
  assert (Hok1 : op_ok t1) by apply X1. assert (Hio1 : inode_ok t1 ip1) by apply X1.
  assert (Hh1 : held t1 = []) by (by rewrite (ex_held _ _ _ _ _ _ X1)).
  assert (Hna : a ∉ held t1) by (rewrite Hh1; apply not_elem_of_nil).
  assert (Hrd1 : ready 0 t1 ip1).
  { eapply ready_mono; [by eapply ready_extends|]. destruct (slot t ip' (o / 512) =? 0); lia. }
  pose proof (ready_spare _ _ _ Hrd1 ltac:(lia)) as Hsp.
  destruct (slot_range t1 ip1 Hio1 (o / 512) ltac:(lia) ltac:(by rewrite X2)) as (Hra & _).
  rewrite X2 in Hra. pose proof (lo_size _ _ (fo_layout _ (ex_ok _ _ _ _ _ _ X1))).
  pose proof (dstart_pos _ (fo_layout _ (ex_ok _ _ _ _ _ _ X1))).
  apply fread_runs; [done|done|rewrite Hh1; simpl; lia|by apply (spare_roomy 1)|lia|].
  apply fdata_runs; [by left|]. change (V (hold _ t1)) with (V t1). fold d.
  apply (fupdate_runs _ a d (fun _ => ret _)); [done|done|by apply (spare_mono 1); [|lia]|].
  apply runs_ret. split.
  { do 2 f_equal; [lia|]. apply u32_small. unfold mm, MF in *. dlia. }
  exists ip1. eexists _. split; [|split].
  2: { eapply extends_trans; [exact E|]. eapply extends_trans; [exact X1|]. rewrite <- X2.
       apply (put_extends t1 ip1 (o / 512)); try done; [|apply X1|by rewrite X2].
       rewrite (ex_cache _ _ _ _ _ _ X1). apply list_lookup_insert_eq. by eapply lookup_lt_Some. }
  - destruct (Z.eqb_spec (slot t ip' (o / 512)) 0) as [E0|E0]; [|case_decide; lia].
    destruct (X4 E0) as [_ Hl]. rewrite X2. rewrite decide_True by done. lia.
  - intros q. by eapply step_alloc.
  - intros q. by eapply step_bytes.
  - intros x. by eapply step_frame.
  - intros Hle. assert (Hn : slot t ip' (o / 512) <> 0).
    { apply (wt_alloc _ _ _ _ _ _ _ _ W); [lia|]. unfold mm in Hle. dlia. }
    destruct (X3 Hn) as [_ ->]. apply (wt_same _ _ _ _ _ _ _ _ W). unfold mm in Hle. dlia.
Qed.

Lemma writei_loop_runs s ip off src :
  let n := Z.of_nat (length src) in let e := off + n in
  file_ok s ip -> 0 <= off <= i_size ip -> e <= MF * 512 -> Forall is_byte src ->
  ready (Z.of_nat (blocks_left off e)) s ip ->
  runs (loop (Z.to_nat (n / BSIZE) + 3) (writei_loop i src n) (0, off)) s (fun r t =>
    r = e /\ exists ip' m, m <= Z.of_nat (blocks_left off e) /\ written s ip off src e m t ip').
Proof.
  intros n e Hf Hoff He Hby Hrd. pose proof Hf as [H1 H2 H3 H4 H5 H6].
  pose proof (io_size _ _ H3) as Hsz.
  apply (runs_loop (fun '(tot, o) t => tot = o - off /\ off <= o <= e /\
           exists ip' m, m + Z.of_nat (blocks_left o e) <= Z.of_nat (blocks_left off e) /\
             written s ip off src o m t ip')
           (fun '(tot, o) => blocks_left o e)).
  2: { split_and!; [lia|lia|lia|]. exists ip, 0. split; [lia|]. split.
       - by apply extends_refl.
       - intros q Hq Hlt. apply (io_alloc _ _ H3); lia.
       - intros q Hq. destruct (Z.leb_spec off q), (Z.ltb_spec q off); simpl; done || lia.
       - done.
       - done. }
  2: { apply blocks_left_fuel; lia. }
  intros [tot o] t (-> & Ho & ip' & m & Hm & W). destruct (decide (o < e)) as [Hlt|Hge].
  - assert (Hbl : (0 < blocks_left o e)%nat).
    { unfold blocks_left. destruct (Z.ltb_spec o e); dlia. }
    assert (Hrt : ready 1 t ip').
    { eapply ready_mono; [eapply ready_extends; [apply W|exact Hrd]|]. lia. }
    pose proof (writei_step s ip off src o m e t ip' W ltac:(lia) Hlt He Hsz ltac:(lia) Hby H1 H4 Hrt) as R.
    cbv zeta in R. replace (e - off) with n in R by lia.
    eapply runs_conseq; [exact R|]. intros r t' (-> & ip'' & m' & Hm' & W').
    pose proof (blocks_left_step o e _ ltac:(lia) eq_refl) as Hs.
    split; [|done]. split_and!; [lia|dlia|dlia|]. exists ip'', m'. split; [lia|done].
  - replace o with e in * by lia. unfold writei_loop.
    destruct (Z.ltb_spec (e - off) n); [lia|]. apply runs_ret. split; [done|].
    exists ip', m. split; [lia|done].
Qed.

(** ** The size, and the inode on disk *)
Lemma fields_of_inode s ip : fs_ok s -> inode_ok s ip -> short (i_type ip) -> short (i_major ip) ->
  short (i_minor ip) -> short (i_nlink ip) -> fields_ok ip.
Proof.
  intros Hok Hio T1 T2 T3 T4. pose proof (io_size _ _ Hio). pose proof (io_len _ _ Hio) as Hl.
  pose proof (lo_size _ _ (fo_layout _ Hok)). pose proof (lo_width _ _ (fo_layout _ Hok)).
  pose proof (dstart_pos _ (fo_layout _ Hok)).
  split; try done; [unfold MF in *; lia|]. split; [done|]. apply Forall_lookup. intros k a Hk.
  assert (Hlt : (k < 13)%nat) by (rewrite <- Hl; by eapply lookup_lt_Some).
  assert (Ea : addr_of ip (Z.of_nat k) = a) by (unfold addr_of; apply list_lookup_total_correct; by rewrite Nat2Z.id).
  destruct (decide (a = 0)); [lia|].
  set (j := if (Z.of_nat k =? 12) then MF else Z.of_nat k).
  assert (Ej : slot s ip j = a).
  { unfold j, slot, ind_of. destruct (Z.eqb_spec (Z.of_nat k) 12) as [E|E].
    - simpl. by rewrite <- E.
    - destruct (Z.eqb_spec (Z.of_nat k) MF); [unfold MF in *; lia|]. destruct (Z.ltb_spec (Z.of_nat k) 12); [done|lia]. }
  destruct (io_slot _ _ Hio j) as [Hr _]; [|by rewrite Ej|rewrite Ej in Hr; lia].
  unfold j, MF. destruct (Z.eqb_spec (Z.of_nat k) 12); lia.
Qed.

Section saved.
Context (s : fs) (ip : inode) (Hok : fs_ok s) (Hio : inode_ok s ip).

Lemma iblock_low : IBLOCK (i_inum ip) (sb s) < bmapstart (sb s) /\ bmapstart (sb s) < dstart (sb s).
Proof.
  destruct (iblock_ready s _ Hok (io_inum _ _ Hio)) as [H1 _]. split; [lia|].
  pose proof (lo_size _ _ (fo_layout _ Hok)). unfold dstart. change BPB with 4096. dlia.
Qed.

Lemma slot_saved k : slot (saved ip s) ip k = slot s ip k.
Proof.
  unfold slot. destruct (k =? MF); [done|]. destruct (k <? 12); [done|].
  destruct (Z.eqb_spec (ind_of ip) 0) as [|Hi0]; [done|]. unfold saved. rewrite V_other; [done|].
  pose proof iblock_low. destruct (ind_range s ip Hio Hi0) as (Hr & _). lia.
Qed.

Lemma saved_ok : fs_ok (saved ip s).
Proof. apply fs_ok_logset_low; [done|apply put_dinode_ok, Hok|apply iblock_low]. Qed.

Lemma saved_inode_ok : inode_ok (saved ip s) ip.
Proof.
  pose proof iblock_low. pose proof (dstart_pos _ (fo_layout _ Hok)).
  destruct Hio as [I1 I2 I3 I4 I5 I6]. split; try done.
  - intros k Hk. rewrite slot_saved. intros Hn. destruct (I4 k Hk Hn) as [Hr Hu]. split; [done|].
    unfold saved. rewrite used_logset_low; [done|done|lia|lia].
  - intros k k' Hk Hk'. rewrite !slot_saved. by apply I5.
  - intros k Hk Hlt. rewrite slot_saved. by apply I6.
Qed.

Lemma saved_fbyte o : 0 <= o / 512 < MF -> slot s ip (o / 512) <> 0 -> fbyte (saved ip s) ip o = fbyte s ip o.
Proof.
  intros Ho Hn. unfold fbyte. rewrite slot_saved. unfold saved. rewrite V_other; [done|].
  pose proof iblock_low. destruct (slot_range s ip Hio (o / 512) ltac:(lia) Hn) as (Hr & _). lia.
Qed.

Lemma saved_logcost : need (indS ip ++ meta s ip) (saved ip s) <= need (indS ip ++ meta s ip) s.
Proof. apply need_in, elem_of_app. right. by left. Qed.
End saved.

(** The disk copy of the inode agrees with the cached one. *)
Definition synced (s : fs) (ip : inode) : Prop :=
  get_dinode (V s (IBLOCK (i_inum ip) (sb s))) ip = ip.
Definition shorts_ok (ip : inode) : Prop :=
  short (i_type ip) /\ short (i_major ip) /\ short (i_minor ip) /\ short (i_nlink ip).

(** What a successful [writei] of [src] at [off] leaves. *)
Record wrote (s : fs) (ip : inode) (off : Z) (src : list Z) (s' : fs) (ip' : inode) : Prop := {
  wo_cache : icache s' = <[i := ip']> (icache s);
  wo_ip : exists l, ip' = with_size (Z.max (i_size ip) (off + Z.of_nat (length src))) (with_addrs l ip);
  wo_file : file_ok s' ip';
  wo_contents : contents s' ip' =
    take (Z.to_nat off) (contents s ip) ++ src ++ drop (Z.to_nat off + length src) (contents s ip);
  wo_synced : shorts_ok ip -> synced s ip -> synced s' ip';
  wo_frame : forall x, 0 <= x < size (sb s) -> used s x = true -> x ∉ bitmap_blocks (sb s) ->
    x <> IBLOCK (i_inum ip) (sb s) ->
    (forall k, 0 <= k <= MF -> slot s ip k <> 0 -> x <> slot s ip k) -> V s' x = V s x;
  wo_inodes : forall jp, 0 <= i_inum jp < ninodes (sb s) -> i_inum jp <> i_inum ip ->
    get_dinode (V s' (IBLOCK (i_inum jp) (sb s))) jp = get_dinode (V s (IBLOCK (i_inum jp) (sb s))) jp;
  wo_log : loglen s' <= logcost s ip + Z.of_nat (blocks_left off (off + Z.of_nat (length src))) }.

(** Two files of the same size with the same bytes. *)
Lemma contents_written s ip s' ip' off src :
  0 <= off <= i_size ip -> i_size ip' = Z.max (i_size ip) (off + Z.of_nat (length src)) ->
  (forall q, 0 <= q < i_size ip' -> fbyte s' ip' q =
     if (off <=? q) && (q <? off + Z.of_nat (length src)) then src !!! Z.to_nat (q - off) else fbyte s ip q) ->
  contents s' ip' = take (Z.to_nat off) (contents s ip) ++ src ++ drop (Z.to_nat off + length src) (contents s ip).
Proof.
  intros Hoff Es Hb. set (n := Z.of_nat (length src)) in *.
  assert (Hc : Z.of_nat (length (contents s ip)) = i_size ip) by (apply length_file; lia).
  unfold contents at 1. rewrite Es. set (e := off + n) in *.
  replace (Z.max (i_size ip) e) with (off + (n + (Z.max (i_size ip) e - e))) by lia.
  rewrite !seqZ_app, !fmap_app by lia. f_equal; [|f_equal].
  - change (take (Z.to_nat off) (contents s ip)) with (seg 0 off (contents s ip)).
    rewrite contents_seg by lia. apply list_fmap_ext. intros k x [-> Hk]%lookup_seqZ.
    rewrite Hb by lia. by destruct (Z.leb_spec off (0 + Z.of_nat k)); [lia|].
  - apply list_eq_same_length with (n := length src); [done|rewrite length_fmap, length_seqZ; lia|].
    intros k x y Hk (q & -> & [-> _]%lookup_seqZ)%list_lookup_fmap_Some Hy.
    rewrite Hb by lia. destruct (Z.leb_spec off (0 + off + Z.of_nat k)), (Z.ltb_spec (0 + off + Z.of_nat k) e); try lia.
    simpl. replace (0 + off + Z.of_nat k - off) with (Z.of_nat k) by lia. rewrite Nat2Z.id.
    by apply list_lookup_total_correct.
  - destruct (decide (e <= i_size ip)) as [Hle|Hgt].
    + replace (drop (Z.to_nat off + length src) (contents s ip)) with (seg e (i_size ip - e) (contents s ip)).
      2: { unfold seg. rewrite take_ge by (rewrite length_drop; lia). f_equal. lia. }
      rewrite contents_seg by lia. replace (Z.max (i_size ip) e) with (i_size ip) by lia.
      replace (0 + off + n) with e by lia. apply list_fmap_ext. intros k x [-> Hk]%lookup_seqZ.
      rewrite Hb by lia. destruct (Z.leb_spec off (e + Z.of_nat k)), (Z.ltb_spec (e + Z.of_nat k) e); done || lia.
    + replace (Z.max (i_size ip) e - e) with 0 by lia. rewrite drop_ge by lia. done.
Qed.

(** The inode's own block is used, outside the bitmap and no block of the file. *)
Lemma iblock_foreign s ip jp : fs_ok s -> inode_ok s ip -> 0 <= i_inum jp < ninodes (sb s) ->
  let b := IBLOCK (i_inum jp) (sb s) in
  0 <= b < size (sb s) /\ used s b = true /\ b ∉ bitmap_blocks (sb s) /\
  forall k, 0 <= k <= MF -> slot s ip k <> 0 -> b <> slot s ip k.
Proof.
  intros Hok Hio Hj b. destruct (iblock_ready s _ Hok Hj) as [H1 H2]. fold b in H1, H2.
  pose proof (lo_data _ _ (fo_layout _ Hok)) as Hd. pose proof (lo_size _ _ (fo_layout _ Hok)).
  assert (Hds : bmapstart (sb s) < dstart (sb s)).
  { unfold dstart. change BPB with 4096. dlia. }
  split_and!; [lia|lia|apply (fo_bitmap _ Hok); lia| |].
  - unfold bitmap_blocks. rewrite elem_of_seqZ. lia.
  - intros k Hk Hn. destruct (io_slot _ _ Hio k Hk Hn) as [Hr _]. lia.
Qed.

Lemma need_loglen S t : loglen t <= need S t.
Proof. unfold need. lia. Qed.

(** Nothing was added to the inode. *)
Lemma wrote_same s ip off src t m :
  let e := off + Z.of_nat (length src) in
  file_ok s ip -> 0 <= off <= i_size ip -> e <= i_size ip ->
  m <= Z.of_nat (blocks_left off e) -> ready (Z.of_nat (blocks_left off e)) s ip ->
  written s ip off src e m t ip -> wrote s ip off src t ip.
Proof.
  intros e Hf Hoff He Hm Hrd W. pose proof (wt_ext _ _ _ _ _ _ _ _ W) as E.
  pose proof Hf as [H1 H2 H3 H4 H5 H6].
  assert (Hlt : (i < length (icache s))%nat) by (by eapply lookup_lt_Some).
  assert (Hfr : forall jp, 0 <= i_inum jp < ninodes (sb s) ->
    V t (IBLOCK (i_inum jp) (sb s)) = V s (IBLOCK (i_inum jp) (sb s))).
  { intros jp Hj. destruct (iblock_foreign s ip jp H2 H3 Hj) as (? & ? & ? & ?).
    by apply (wt_frame _ _ _ _ _ _ _ _ W). }
  split.
  - apply E.
  - exists (i_addrs ip). fold e. replace (Z.max (i_size ip) e) with (i_size ip) by lia. by destruct ip.
  - split; try apply E; try done.
    + rewrite (ex_cache _ _ _ _ _ _ E). by apply list_lookup_insert_eq.
    + by rewrite (ex_held _ _ _ _ _ _ E).
    + apply (spare_roomy 1); [|lia]. eapply ready_spare; [by eapply ready_extends|]. lia.
  - apply contents_written; [done|fold e; lia|]. intros q Hq. fold e.
    apply (wt_bytes _ _ _ _ _ _ _ _ W). lia.
  - intros _. unfold synced. rewrite (ex_sb _ _ _ _ _ _ E). by rewrite Hfr by apply H3.
  - intros x Hx Hu Hb _ Hs. by apply (wt_frame _ _ _ _ _ _ _ _ W).
  - intros jp Hj _. by rewrite Hfr.
  - pose proof (ex_log _ _ _ _ _ _ E) as Hl. unfold logcost at 1 in Hl.
    pose proof (need_loglen (indS ip ++ meta t ip) t). unfold credit in Hl at 1. fold e.
    destruct (ind_of ip =? 0); lia.
Qed.

(** The file grew: the new size is set and the inode written. *)
Lemma wrote_grown s ip off src t ip' m :
  let e := off + Z.of_nat (length src) in
  let ip2 := with_size e ip' in
  let t1 := set_icache (<[i := ip2]> (icache t)) t in
  file_ok s ip -> 0 <= off <= i_size ip -> i_size ip < e <= MF * 512 ->
  m <= Z.of_nat (blocks_left off e) -> ready (Z.of_nat (blocks_left off e)) s ip ->
  written s ip off src e m t ip' ->
  fs_ok t1 /\ inode_ok t1 ip2 /\ wrote s ip off src (saved ip2 t1) ip2.
Proof.
  intros e ip2 t1 Hf Hoff He Hm Hrd W. pose proof (wt_ext _ _ _ _ _ _ _ _ W) as E.
  pose proof Hf as [H1 H2 H3 H4 H5 H6]. pose proof (ex_ok _ _ _ _ _ _ E) as Hokt.
  assert (Hlt : (i < length (icache s))%nat) by (by eapply lookup_lt_Some).
  assert (Hok1 : fs_ok t1) by (by destruct Hokt as [[] ? ?]).
  destruct (ex_ip _ _ _ _ _ _ E) as [l El].
  assert (Ei : i_inum ip2 = i_inum ip) by (unfold ip2; by rewrite El).
  assert (Hio1 : inode_ok t1 ip2).
  { destruct (ex_iok _ _ _ _ _ _ E) as [I1 I2 I3 I4 I5 I6]. split; try done; [simpl; lia|].
    intros k Hk Hlk. apply (wt_alloc _ _ _ _ _ _ _ _ W); [done|]. simpl in Hlk. lia. }
  split_and!; [done|done|].
  pose proof (saved_ok t1 ip2 Hok1 Hio1) as Hok2. pose proof (saved_inode_ok t1 ip2 Hok1 Hio1) as Hio2.
  assert (Esb : sb t = sb s) by apply E.
  assert (Hfr : forall x, 0 <= x < size (sb s) -> used s x = true -> x ∉ bitmap_blocks (sb s) ->
    x <> IBLOCK (i_inum ip) (sb s) ->
    (forall k, 0 <= k <= MF -> slot s ip k <> 0 -> x <> slot s ip k) -> V (saved ip2 t1) x = V s x).
  { intros x Hx Hu Hb Hne Hs. unfold saved. simpl sb. rewrite V_other by (rewrite Ei, Esb; done).
    by apply (wt_frame _ _ _ _ _ _ _ _ W). }
  pose proof (ex_log _ _ _ _ _ _ E) as Hl. pose proof (saved_logcost t1 ip2) as Hs.
  change (need (indS ip2 ++ meta t1 ip2) t1) with (need (indS ip' ++ meta t ip') t) in Hs.
  pose proof (need_loglen (indS ip2 ++ meta t1 ip2) (saved ip2 t1)) as Hll.
  unfold logcost at 1, credit at 1 in Hl.
  assert (Hlog : loglen (saved ip2 t1) <= logcost s ip + m) by (destruct (ind_of ip' =? 0); lia).
  split.
  - simpl. rewrite (ex_cache _ _ _ _ _ _ E). apply list_insert_insert_eq.
  - exists l. unfold ip2. rewrite El. fold e. by replace (Z.max (i_size ip) e) with e by lia.
  - split; try done.
    + simpl. apply list_lookup_insert_eq. by rewrite (ex_cache _ _ _ _ _ _ E), length_insert.
    + simpl. by rewrite <- H4, <- (ex_held _ _ _ _ _ _ E).
    + destruct Hrd as [_ R _]. unfold roomy, NBUF, LOGSIZE, MAXOPBLOCKS in *. lia.
    + unfold ip2. by rewrite El.
  - assert (Hszz : i_size ip2 = e) by done.
    apply contents_written; [done|rewrite Hszz; fold e; lia|]. intros q Hq. rewrite Hszz in Hq.
    assert (Hq5 : 0 <= q / 512 < MF) by (unfold MF in *; dlia).
    rewrite saved_fbyte; [|done|done|done|apply (io_alloc _ _ Hio1); simpl; dlia].
    fold e. apply (wt_bytes _ _ _ _ _ _ _ _ W). lia.
  - intros (S1 & S2 & S3 & S4) _. unfold synced. rewrite Ei. simpl sb. rewrite Esb.
    unfold saved. rewrite Ei. simpl sb. rewrite Esb, V_same.
    rewrite get_put_dinode; [by destruct ip2|apply (fo_op _ Hok1)| |done].
    apply (fields_of_inode t1); try done; unfold ip2; by rewrite El.
  - done.
  - intros jp Hj Hne. destruct (iblock_foreign s ip jp H2 H3 Hj) as (B1 & B2 & B3 & B4).
    destruct (Z.eq_dec (IBLOCK (i_inum jp) (sb s)) (IBLOCK (i_inum ip) (sb s))) as [Eb|Eb].
    2: by rewrite Hfr.
    unfold saved. simpl sb. rewrite Ei, Esb, Eb, V_same.
    change (V t1) with (V t). rewrite <- Eb. rewrite (wt_frame _ _ _ _ _ _ _ _ W) by done.
    apply get_put_dinode_other; [apply Hio1|]. rewrite Ei.
    unfold IBLOCK in Eb. change IPB with 8 in *. dlia.
  - fold e. lia.
Qed.

Lemma writei_runs s ip off src :
  let e := off + Z.of_nat (length src) in
  file_ok s ip -> 0 <= off <= i_size ip -> e <= MAXFILE * BSIZE -> Forall is_byte src ->
  ready (Z.of_nat (blocks_left off e)) s ip ->
  runs (writei i src off) s (fun r s' => r = Z.of_nat (length src) /\ exists ip', wrote s ip off src s' ip').
Proof.
  intros e Hf Hoff He Hby Hrd. change (MAXFILE * BSIZE) with (MF * 512) in He.
  pose proof Hf as [H1 H2 H3 H4 H5 H6]. set (n := Z.of_nat (length src)) in *.
  assert (Hw : e < 4294967296) by (unfold MF in *; lia).
  unfold writei. eapply get_inode_runs; [done|].
  destruct (Z.eqb_spec (i_type ip) T_DEV); [done|]. fold n. fold e. rewrite !u32_small by lia.
  destruct (Z.ltb_spec (i_size ip) off); [lia|]. destruct (Z.ltb_spec e off); [lia|]. cbn [orb].
  change (MAXFILE * BSIZE) with (MF * 512). destruct (Z.ltb_spec (MF * 512) e); [lia|].
  apply runs_bind. eapply runs_conseq; [by apply (writei_loop_runs s ip)|].
  intros r t (-> & ip' & m & Hm & W). fold n in Hm, W |- *. fold e in Hm, W |- *.
  pose proof (wt_ext _ _ _ _ _ _ _ _ W) as E.
  assert (Hlt : (i < length (icache s))%nat) by (by eapply lookup_lt_Some).
  assert (Hit : icache t !! i = Some ip') by (rewrite (ex_cache _ _ _ _ _ _ E); by apply list_lookup_insert_eq).
  eapply get_inode_runs; [done|].
  assert (Es : i_size ip' = i_size ip) by (destruct (ex_ip _ _ _ _ _ _ E) as [l ->]; done). rewrite Es.
  destruct (decide (e <= i_size ip)) as [Hle|Hgt].
  - destruct (Z.ltb_spec (i_size ip) e); [lia|]. rewrite andb_false_r. apply runs_bind, runs_ret.
    apply runs_ret. split; [done|]. exists ip. pose proof (wt_same _ _ _ _ _ _ _ _ W Hle). subst ip'.
    by apply (wrote_same s ip off src t m).
  - destruct (Z.ltb_spec (i_size ip) e); [|lia]. destruct (Z.ltb_spec 0 n); [|lia]. cbn [andb].
    destruct (wrote_grown s ip off src t ip' m) as (G1 & G2 & G3); try done; try lia.
    fold n in G1, G2, G3. fold e in G1, G2, G3.
    apply runs_bind. eapply upd_inode_runs; [done|].
    apply (iupdate_runs i (with_size e ip')); [|done|simpl; by rewrite <- H4, <- (ex_held _ _ _ _ _ _ E)| |apply G2|].
    + simpl. apply list_lookup_insert_eq. by eapply lookup_lt_Some.
    + assert (Hr : ready 0 t ip') by (eapply ready_mono; [by eapply ready_extends|lia]).
      exact (ready_spare _ _ _ Hr ltac:(lia)).
    + apply runs_ret. split; [done|]. by exists (with_size e ip').
Qed.

(** ** Theorems *)

(** C25. Reading a file.  On a file whose blocks are all there, [readi] returns
    the bytes of the file from [off] on, as many as were asked for or are
    left, and changes nothing; with an offset past the end, or one that
    overflows when the count is added, it returns -1 and changes nothing. *)
Theorem readi_correct s ip off n :
  file_ok s ip -> 0 <= off < 4294967296 -> 0 <= n < 4294967296 ->
  readi i off n s =
    if (off <=? i_size ip) && (off + n <? 4294967296)
    then let m := Z.min n (i_size ip - off) in Ret (m, seg off m (contents s ip)) s
    else Ret (-1, []) s.
Proof.
  intros Hf Ho Hn. destruct (Z.leb_spec off (i_size ip)) as [Hle|Hgt], (Z.ltb_spec (off + n) 4294967296) as [Hw|Hw];
    cbn [andb].
  - destruct (readi_runs s ip off n Hf ltac:(lia) ltac:(lia) Hw) as (r & s' & E & -> & ->). done.
  - unfold readi, bind, get_inode. rewrite (fi_cache _ _ Hf).
    destruct (Z.eqb_spec (i_type ip) T_DEV) as [Ed|_]; [by destruct Hf|].
    destruct (Z.ltb_spec (i_size ip) off); [lia|]. destruct (Z.ltb_spec (u32 (off + n)) off) as [|Hu]; [done|].
    exfalso. unfold u32 in Hu. dlia.
  - unfold readi, bind, get_inode. rewrite (fi_cache _ _ Hf).
    destruct (Z.eqb_spec (i_type ip) T_DEV) as [Ed|_]; [by destruct Hf|].
    by destruct (Z.ltb_spec (i_size ip) off); [|lia].
  - unfold readi, bind, get_inode. rewrite (fi_cache _ _ Hf).
    destruct (Z.eqb_spec (i_type ip) T_DEV) as [Ed|_]; [by destruct Hf|].
    by destruct (Z.ltb_spec (i_size ip) off); [|lia].
Qed.

End file.
