(* ===== verification/FsDir.v ===== *)
(** * Directories (fs.c: dirlookup, dirlink)

    A directory is a file whose bytes are 16-byte entries.  [dirlookup] finds
    the first entry in use with the name, and [dirlink] puts a new entry into
    the first unused one or at the end; after it the name is found, and every
    other name is found where it was. *)
From stdpp Require Import base numbers list list_numbers strings.
From Stdlib Require Import ZArith Lia.
From S2P Require Import Prelude Block Bcache Log Fs FsBlock FsInode FsMap FsFile.
#[local] Open Scope Z_scope.

(** ** Entries *)
Definition dents (c : list Z) : list (list Z) := (fun k => seg (16 * k) 16 c) <$> seqZ 0 (Z.of_nat (length c) / 16).

Definition names (nm : list Z) (e : list Z) : Prop := de_inum e <> 0 /\ namecmp nm (de_name e) = 0.
Definition unused (e : list Z) : Prop := de_inum e = 0.
#[global] Instance names_dec nm e : Decision (names nm e).
Proof. apply and_dec; [apply not_dec|]; apply Z.eq_dec. Defined.
#[global] Instance unused_dec e : Decision (unused e).
Proof. apply Z.eq_dec. Defined.

Definition entry (nm : list Z) (inum : Z) : list Z := le_split 2 inum ++ strncpy_bytes (Z.to_nat DIRSIZ) nm.

Lemma length_strncpy n : forall t, length (strncpy_bytes n t) = n.
Proof.
  induction n as [|n IH]; intros t; simpl; [done|]. destruct (_ =? 0); simpl; [by rewrite length_replicate|by rewrite IH].
Qed.

Lemma strncpy_byte n : forall t, Forall is_byte t -> Forall is_byte (strncpy_bytes n t).
Proof.
  induction n as [|n IH]; intros t Ht; cbn [strncpy_bytes]; [done|].
  destruct t as [|c t]; simpl.
  - constructor; [unfold is_byte; lia|]. apply Forall_replicate. unfold is_byte. lia.
  - apply Forall_cons in Ht as [Hc Ht]. destruct (c =? 0).
    + constructor; [unfold is_byte; lia|]. apply Forall_replicate. unfold is_byte. lia.
    + constructor; [done|]. by apply IH.
Qed.

Lemma strncmp_strncpy n : forall t, strncmp_bytes n t (strncpy_bytes n t) = 0.
Proof.
  induction n as [|n IH]; intros t; [done|]. cbn [strncmp_bytes strncpy_bytes].
  destruct (Z.eqb_spec (default 0 (head t)) 0) as [E|E].
  - simpl. lia.
  - simpl. rewrite Z.eqb_refl. simpl. apply IH.
Qed.

Lemma length_entry nm inum : length (entry nm inum) = 16%nat.
Proof. unfold entry. by rewrite length_app, length_le_split, length_strncpy. Qed.

Lemma entry_name nm inum : de_name (entry nm inum) = strncpy_bytes (Z.to_nat DIRSIZ) nm.
Proof.
  unfold de_name, entry, seg. change (Z.to_nat 2) with 2%nat.
  rewrite drop_app_length' by (by rewrite length_le_split).
  apply take_ge. by rewrite length_strncpy.
Qed.

Lemma entry_inum nm inum : 0 <= inum < 65536 -> de_inum (entry nm inum) = inum.
Proof.
  intros H. unfold de_inum, get16, entry, seg. change (Z.to_nat 2) with 2%nat. change (Z.to_nat 0) with 0%nat.
  rewrite drop_0, take_app_length' by (by rewrite length_le_split).
  rewrite le_combine_split. apply Z.mod_small. done.
Qed.

Lemma entry_names nm inum : 0 < inum < 65536 -> names nm (entry nm inum).
Proof.
  intros H. split; [rewrite entry_inum by lia; lia|]. rewrite entry_name. apply strncmp_strncpy.
Qed.

(** ** The entries of a directory after a write of one entry *)
Lemma length_dents c : Z.of_nat (length (dents c)) = Z.of_nat (length c) / 16.
Proof. unfold dents. rewrite length_fmap, length_seqZ. dlia. Qed.

Lemma lookup_dents c k : (k < length (dents c))%nat -> dents c !! k = Some (seg (16 * Z.of_nat k) 16 c).
Proof.
  intros Hk. pose proof (length_dents c). unfold dents.
  rewrite list_lookup_fmap, lookup_seqZ_lt by lia. done.
Qed.

Lemma dents_eq c l : Z.of_nat (length l) = Z.of_nat (length c) / 16 ->
  (forall k e, l !! k = Some e -> seg (16 * Z.of_nat k) 16 c = e) -> dents c = l.
Proof.
  intros Hl H. pose proof (length_dents c). apply list_eq_same_length with (n := length l); [done|lia|].
  intros k x y Hk Hx Hy. rewrite lookup_dents in Hx by lia. simplify_eq. by apply H.
Qed.

Lemma seg_app_l (c c' : list Z) off n : (Z.to_nat off + Z.to_nat n <= length c)%nat ->
  seg off n (c ++ c') = seg off n c.
Proof.
  intros H. unfold seg. rewrite drop_app_le by lia. rewrite take_app_le; [done|]. rewrite length_drop. lia.
Qed.
Lemma seg_app_r (c c' : list Z) off n : (length c <= Z.to_nat off)%nat ->
  seg off n (c ++ c') = seg (off - Z.of_nat (length c)) n c'.
Proof.
  intros H. unfold seg. rewrite drop_app_ge by lia. do 2 f_equal. lia.
Qed.

(** Entry [k] of a directory of [length (dents c)] entries replaced, or added. *)
Lemma dents_write c e k : Z.of_nat (length c) `mod` 16 = 0 -> length e = 16%nat ->
  (k <= length (dents c))%nat ->
  dents (take (16 * k) c ++ e ++ drop (16 * k + 16) c) =
    if decide (k < length (dents c))%nat then <[k := e]> (dents c) else dents c ++ [e].
Proof.
  intros Hm He Hk. pose proof (length_dents c) as Hl. 
  assert (Hlt : (16 * length (dents c) = length c)%nat) by dlia.
  assert (Hlen : forall j x, dents c !! j = Some x -> j <> k -> (j < length (dents c))%nat ->
    seg (16 * Z.of_nat j) 16 (take (16 * k) c ++ e ++ drop (16 * k + 16) c) = x).
  { intros j x Hx Hne Hj. rewrite lookup_dents in Hx by done. simplify_eq.
    destruct (decide (j < k)%nat).
    - rewrite seg_app_l by (rewrite length_take; lia). unfold seg. rewrite take_drop_commute, take_take.
      rewrite take_drop_commute. do 2 f_equal. lia.
    - rewrite seg_app_r by (rewrite length_take; lia). rewrite seg_app_r by (rewrite length_take; lia).
      unfold seg. rewrite drop_drop. do 2 f_equal. rewrite length_take. lia. }
  assert (Hnew : seg (16 * Z.of_nat k) 16 (take (16 * k) c ++ e ++ drop (16 * k + 16) c) = e).
  { rewrite seg_app_r by (rewrite length_take; lia). rewrite seg_app_l by (rewrite length_take; lia).
    rewrite length_take. unfold seg. replace (Z.to_nat (16 * Z.of_nat k - _)) with 0%nat by lia.
    rewrite drop_0. apply take_ge. lia. }
  apply dents_eq.
  - rewrite !length_app, length_take, length_drop, He. case_decide; rewrite ?length_insert, ?length_app; simpl; dlia.
  - intros j x Hx. case_decide as Hc.
    + apply list_lookup_insert_Some in Hx as [(<- & <- & _)|(Hne & Hx)]; [done|].
      apply Hlen; [done|done|by eapply lookup_lt_Some].
    + apply lookup_app_Some in Hx as [Hx|[Hge Hx]].
      * pose proof (lookup_lt_Some _ _ _ Hx). apply Hlen; [done|lia|done].
      * apply list_lookup_singleton_Some in Hx as [Hj <-]. by replace j with k by lia.
Qed.

Section dir.
Context `{!Devices} (dp : nat).

Record dir_ok (s : fs) (ip : inode) : Prop := {
  do_file : file_ok dp s ip;
  do_type : i_type ip = T_DIR;
  do_size : i_size ip `mod` 16 = 0 }.

Lemma dir_length s ip : dir_ok s ip ->
  Z.of_nat (length (contents s ip)) = i_size ip /\ 16 * Z.of_nat (length (dents (contents s ip))) = i_size ip.
Proof.
  intros [H1 H2 H3]. pose proof (io_size _ _ (fi_inode _ _ _ H1)).
  pose proof (length_file s ip ltac:(lia)) as Hc. pose proof (length_dents (contents s ip)). split; [done|]. dlia.
Qed.

(** Reading entry [k]. *)
Lemma read_entry s ip k e : dir_ok s ip -> dents (contents s ip) !! k = Some e ->
  readi dp (16 * Z.of_nat k) SIZEOF_DIRENT s = Ret (16, e) s /\ 16 * Z.of_nat k < i_size ip.
Proof.
  intros Hd Hk. pose proof (do_file _ _ Hd) as Hf. destruct (dir_length s ip Hd) as [Hc Hl].
  pose proof (lookup_lt_Some _ _ _ Hk) as Hlt. pose proof (io_size _ _ (fi_inode _ _ _ Hf)). unfold MF in *.
  destruct (readi_runs dp s ip (16 * Z.of_nat k) 16 Hf) as (r & s' & E & -> & ->); try lia.
  split; [|lia]. unfold SIZEOF_DIRENT. rewrite E. replace (Z.min _ _) with 16 by lia.
  rewrite lookup_dents in Hk by done. by simplify_eq.
Qed.

(** What [dirlookup] does when entry [k] is the one. *)
Definition found (ip : inode) (r : option (nat * list Z)) : M fs (option (nat * Z)) :=
  match r with
  | Some (k, e) => j <- iget (i_dev ip) (de_inum e) ;; ret (Some (j, 16 * Z.of_nat k))
  | None => ret None
  end.

Lemma dirlookup_loop s ip nm : dir_ok s ip -> forall l k fuel,
  drop k (dents (contents s ip)) = l -> (length l < fuel)%nat -> (k <= length (dents (contents s ip)))%nat ->
  loop fuel (dirlookup_iter dp nm) (16 * Z.of_nat k) s =
    found ip (prod_map (Nat.add k) id <$> list_find (names nm) l) s.
Proof.
  intros Hd. destruct (dir_length s ip Hd) as [Hc Hlen]. pose proof (fi_cache _ _ _ (do_file _ _ Hd)) as Hi.
  induction l as [|e l IH]; intros k fuel Hl Hf Hk; (destruct fuel as [|fuel]; [lia|]).
  - apply (f_equal length) in Hl. rewrite length_drop in Hl. simpl in Hl. cbn [loop list_find fmap option_fmap option_map].
    unfold bind at 1, dirlookup_iter, bind at 1, get_inode. rewrite Hi.
    destruct (Z.ltb_spec (16 * Z.of_nat k) (i_size ip)); [lia|]. done.
  - assert (Hke : dents (contents s ip) !! k = Some e).
    { rewrite <- (Nat.add_0_r k), <- lookup_drop, Hl. done. }
    destruct (read_entry s ip k e Hd Hke) as [Er Hlt].
    cbn [loop list_find]. unfold bind at 1, dirlookup_iter at 1, bind at 1, get_inode at 1. rewrite Hi.
    destruct (Z.ltb_spec (16 * Z.of_nat k) (i_size ip)); [|lia]. unfold bind at 1. rewrite Er.
    change (negb ((16, e).1 =? SIZEOF_DIRENT)) with false. cbv iota. change ((16, e).2) with e.
    assert (Hnext : loop fuel (dirlookup_iter dp nm) (16 * Z.of_nat k + SIZEOF_DIRENT) s =
      found ip (prod_map (Nat.add (S k)) id <$> list_find (names nm) l) s).
    { replace (16 * Z.of_nat k + SIZEOF_DIRENT) with (16 * Z.of_nat (S k)) by (unfold SIZEOF_DIRENT; lia).
      apply IH; [|simpl in Hf; lia|pose proof (lookup_lt_Some _ _ _ Hke); lia].
      rewrite <- Nat.add_1_r, <- drop_drop, Hl. done. }
    assert (Hfm : prod_map (Nat.add k) id <$> (prod_map S id <$> list_find (names nm) l) =
      prod_map (Nat.add (S k)) id <$> list_find (names nm) l).
    { destruct (list_find (names nm) l) as [[j x]|]; simpl; [|done]. do 2 f_equal. lia. }
    destruct (Z.eqb_spec (de_inum e) 0) as [E0|E0].
    + rewrite decide_False by (intros [? _]; done). rewrite Hfm. apply Hnext.
    + destruct (Z.eqb_spec (namecmp nm (de_name e)) 0) as [En|En].
      * rewrite decide_True by done. simpl. rewrite Nat.add_0_r. unfold bind.
        by destruct (iget (i_dev ip) (de_inum e) s).
      * rewrite decide_False by (intros [_ ?]; done). rewrite Hfm. apply Hnext.
Qed.

Lemma dirlookup_eq s ip nm : dir_ok s ip ->
  dirlookup dp nm s = found ip (list_find (names nm) (dents (contents s ip))) s.
Proof.
  intros Hd. unfold dirlookup, bind, get_inode. rewrite (fi_cache _ _ _ (do_file _ _ Hd)).
  rewrite (do_type _ _ Hd). change (negb (T_DIR =? T_DIR)) with false. cbv iota.
  destruct (dir_length s ip Hd) as [Hc Hl].
  rewrite (dirlookup_loop s ip nm Hd (dents (contents s ip)) 0); [| done | |lia].
  - by destruct (list_find (names nm) (dents (contents s ip))) as [[k e]|].
  - unfold SIZEOF_DIRENT. dlia.
Qed.

(** The slot for a new entry: the first unused one, or the end. *)
Definition free_dent (l : list (list Z)) : nat :=
  match list_find unused l with Some (k, _) => k | None => length l end.

Lemma dirlink_loop s ip : dir_ok s ip -> forall l k fuel,
  drop k (dents (contents s ip)) = l -> (length l < fuel)%nat -> (k <= length (dents (contents s ip)))%nat ->
  loop fuel (dirlink_iter dp) (16 * Z.of_nat k) s = Ret (16 * Z.of_nat (k + free_dent l)) s.
Proof.
  intros Hd. destruct (dir_length s ip Hd) as [Hc Hlen]. pose proof (fi_cache _ _ _ (do_file _ _ Hd)) as Hi.
  induction l as [|e l IH]; intros k fuel Hl Hf Hk; (destruct fuel as [|fuel]; [lia|]).
  - apply (f_equal length) in Hl. rewrite length_drop in Hl. simpl in Hl. cbn [loop].
    unfold bind at 1, dirlink_iter, bind at 1, get_inode. rewrite Hi.
    destruct (Z.ltb_spec (16 * Z.of_nat k) (i_size ip)); [lia|]. unfold free_dent. simpl. by rewrite Nat.add_0_r.
  - assert (Hke : dents (contents s ip) !! k = Some e).
    { rewrite <- (Nat.add_0_r k), <- lookup_drop, Hl. done. }
    destruct (read_entry s ip k e Hd Hke) as [Er Hlt].
    cbn [loop]. unfold bind at 1, dirlink_iter at 1, bind at 1, get_inode at 1. rewrite Hi.
    destruct (Z.ltb_spec (16 * Z.of_nat k) (i_size ip)); [|lia]. unfold bind at 1. rewrite Er.
    change (negb ((16, e).1 =? SIZEOF_DIRENT)) with false. cbv iota. change ((16, e).2) with e.
    unfold free_dent. cbn [list_find].
    destruct (Z.eqb_spec (de_inum e) 0) as [E0|E0].
    + rewrite decide_True by done. by rewrite Nat.add_0_r.
    + rewrite decide_False by done.
      replace (16 * Z.of_nat k + SIZEOF_DIRENT) with (16 * Z.of_nat (S k)) by (unfold SIZEOF_DIRENT; lia).
      etransitivity; [apply (IH (S k)); [by rewrite <- Nat.add_1_r, <- drop_drop, Hl|simpl in Hf; lia|
        pose proof (lookup_lt_Some _ _ _ Hke); lia]|].
      unfold free_dent. destruct (list_find unused l) as [[j x]|]; simpl; do 3 f_equal; lia.
Qed.

Lemma free_dent_le l : (free_dent l <= length l)%nat.
Proof.
  unfold free_dent. destruct (list_find unused l) as [[k e]|] eqn:E; [|done].
  apply list_find_Some in E as (E & _). apply lookup_lt_Some in E. lia.
Qed.

Lemma dirlink_runs s ip nm inum :
  let c := contents s ip in let off := 16 * Z.of_nat (free_dent (dents c)) in
  dir_ok s ip -> list_find (names nm) (dents c) = None -> Forall is_byte nm -> 0 < inum < 65536 ->
  off + 16 <= MAXFILE * BSIZE -> ready (Z.of_nat (blocks_left off (off + 16))) s ip ->
  runs (dirlink dp nm inum) s (fun r s' => r = 0 /\ exists ip', wrote dp s ip off (entry nm inum) s' ip').
Proof.
  intros c off Hd Hnone Hby Hin Hmax Hrd. unfold dirlink. apply runs_bind.
  exists None, s. split; [rewrite (dirlookup_eq s ip) by done; fold c; by rewrite Hnone|].
  eapply get_inode_runs; [apply (fi_cache _ _ _ (do_file _ _ Hd))|].
  destruct (dir_length s ip Hd) as [Hc Hl]. fold c in Hc, Hl. pose proof (free_dent_le (dents c)) as Hfd.
  apply runs_bind. exists off, s. split.
  { rewrite <- (Z.mul_0_r 16). change 0 with (Z.of_nat 0).
    rewrite (dirlink_loop s ip Hd (dents c) 0); [done|done|unfold SIZEOF_DIRENT; dlia|lia]. }
  apply runs_bind. fold (entry nm inum).
  assert (Hle : Z.of_nat (length (entry nm inum)) = 16) by (by rewrite length_entry).
  eapply runs_conseq; [apply (writei_runs dp s ip)|].
  - apply Hd.
  - lia.
  - by rewrite Hle.
  - unfold entry. apply Forall_app. split; [apply le_split_bytes|by apply strncpy_byte].
  - by rewrite Hle.
  - intros r s' (-> & ip' & W). rewrite Hle. change (negb (16 =? SIZEOF_DIRENT)) with false. cbv iota.
    apply runs_ret. split; [done|]. by exists ip'.
Qed.

(** ** Lookups after an entry was put into a free slot *)
Lemma find_replace (P : list Z -> Prop) `{!forall x, Decision (P x)} l : forall k e,
  ~ P e -> (forall x, l !! k = Some x -> ~ P x) -> list_find P (<[k := e]> l) = list_find P l.
Proof.
  induction l as [|y l IH]; intros k e He Hx; [done|]. destruct k as [|k]; simpl.
  - by rewrite !decide_False by (done || by apply Hx).
  - rewrite IH by (done || by apply Hx). done.
Qed.

Lemma find_snoc (P : list Z -> Prop) `{!forall x, Decision (P x)} l e :
  ~ P e -> list_find P (l ++ [e]) = list_find P l.
Proof.
  intros He. induction l as [|y l IH]; simpl; [by rewrite decide_False|]. by rewrite IH.
Qed.

Definition put_dent (e : list Z) (l : list (list Z)) : list (list Z) :=
  if decide (free_dent l < length l)%nat then <[free_dent l := e]> l else l ++ [e].

Lemma free_dent_unused l x : l !! free_dent l = Some x -> unused x.
Proof.
  unfold free_dent. destruct (list_find unused l) as [[k e]|] eqn:E.
  - apply list_find_Some in E as (E & Hu & _). congruence.
  - intros Hx. apply lookup_lt_Some in Hx. lia.
Qed.

Lemma put_dent_other nm e l : ~ names nm e -> list_find (names nm) (put_dent e l) = list_find (names nm) l.
Proof.
  intros He. unfold put_dent. case_decide; [|by apply find_snoc].
  apply find_replace; [done|]. intros x Hx%free_dent_unused [Hn _]. done.
Qed.

Lemma put_dent_found nm e l : names nm e -> list_find (names nm) l = None ->
  list_find (names nm) (put_dent e l) = Some (free_dent l, e).
Proof.
  intros He Hnone. apply list_find_None in Hnone. rewrite Forall_lookup in Hnone.
  pose proof (free_dent_le l). unfold put_dent. case_decide as Hlt.
  - apply list_find_Some. split_and!; [by apply list_lookup_insert_eq|done|].
    intros j y Hj Hlj. rewrite list_lookup_insert_ne in Hj by lia. by eapply Hnone.
  - replace (free_dent l) with (length l) by lia. apply list_find_Some.
    split_and!; [by apply list_lookup_middle|done|].
    intros j y Hj Hlj. rewrite lookup_app_l in Hj by done. by eapply Hnone.
Qed.

(** ** Theorem *)

(** C12. A name that was linked is found.  In a directory that does not have the
    name yet, with log space and free blocks for one entry, [dirlink] returns
    0; then [dirlookup] of that name gives the inode it was linked to, and of
    every other name what it gave before, entry offsets included.  A name
    longer than DIRSIZ counts by its first DIRSIZ bytes. *)
Theorem dirlink_dirlookup s ip nm inum :
  let c := contents s ip in let off := 16 * Z.of_nat (free_dent (dents c)) in
  dir_ok s ip -> list_find (names nm) (dents c) = None -> Forall is_byte nm -> 0 < inum < 65536 ->
  off + 16 <= MAXFILE * BSIZE -> ready (Z.of_nat (blocks_left off (off + 16))) s ip ->
  runs (dirlink dp nm inum) s (fun r s' => r = 0 /\ (exists ip', dir_ok s' ip') /\
    dirlookup dp nm s' = (j <- iget (i_dev ip) inum ;; ret (Some (j, off))) s' /\
    forall nm', namecmp nm' (strncpy_bytes (Z.to_nat DIRSIZ) nm) <> 0 ->
      dirlookup dp nm' s = found ip (list_find (names nm') (dents c)) s /\
      dirlookup dp nm' s' = found ip (list_find (names nm') (dents c)) s').
Proof.
  intros c off Hd Hnone Hby Hin Hmax Hrd. rcall (dirlink_runs s ip nm inum); [done..|].
  intros r s' (-> & ip' & W). destruct (dir_length s ip Hd) as [Hc Hl]. fold c in Hc, Hl.
  destruct (wo_ip _ _ _ _ _ _ _ W) as [l El].
  pose proof (free_dent_le (dents c)) as Hfd. rewrite length_entry in El.
  assert (Hd' : dir_ok s' ip').
  { pose proof (do_size _ _ Hd) as Hs. pose proof (do_type _ _ Hd) as Ht. split; [apply W|by rewrite El|].
    rewrite El. simpl. unfold off. dlia. }
  assert (Edev : i_dev ip' = i_dev ip) by (by rewrite El).
  assert (Ed : dents (contents s' ip') = put_dent (entry nm inum) (dents c)).
  { rewrite (wo_contents _ _ _ _ _ _ _ W). fold c. rewrite length_entry.
    replace (Z.to_nat (16 * Z.of_nat (free_dent (dents c)))) with (16 * free_dent (dents c))%nat by lia.
    apply dents_write; [rewrite Hc; exact (do_size _ _ Hd)|apply length_entry|done]. }
  assert (Hf : forall r, found ip' r s' = found ip r s') by (intros [[]|]; simpl; by rewrite ?Edev).
  split_and!; [done|by exists ip'| |].
  - rewrite (dirlookup_eq s' ip') by done. rewrite Ed, put_dent_found by (done || by apply entry_names).
    simpl. by rewrite Edev, entry_inum by lia.
  - intros nm' Hne. split; [by apply dirlookup_eq|].
    rewrite (dirlookup_eq s' ip'), Ed, put_dent_other by (done || (intros [_ Hn]; by rewrite entry_name in Hn)).
    apply Hf.
Qed.
End dir.
