(* ===== verification/FsSafe.v ===== *)
(** * Every call of the file system terminates and keeps its data well typed

    For every function of fs.c and every operation of the log, from every
    state in which blocks are 512 bytes and cached inodes have fields of
    their C types: the loops end within the fuel the model gives them, and
    whatever the outcome, an error included, the state is again of that
    kind. *)
From stdpp Require Import base numbers list list_numbers strings.
From Stdlib Require Import ZArith Lia.
From S2P Require Import Prelude Block Bcache Log Fs Safe FsBlock FsInode FsMap FsFile FsDir.
#[local] Open Scope Z_scope.

(** ** Buffers and the log *)
Definition BT (b : blocks) : Prop := (forall x, block_ok (view b x)) /\ (forall x, block_ok (disk b x)).
Definition LT (l : logged) : Prop := BT (blk l).

Lemma set_block_typed (f : Z -> block) x d : (forall y, block_ok (f y)) -> block_ok d -> forall y, block_ok (set_block x d f y).
Proof. intros Hf Hd y. unfold set_block. by destruct (y =? x). Qed.

Lemma bread_safe b : always BT (fun _ => True) (bread b).
Proof. intros s Hs. unfold bread. repeat case_decide; [done..|]. by destruct (_ || _). Qed.
Lemma bdata_safe b : always BT block_ok (bdata b).
Proof. intros s Hs. unfold bdata. case_decide; [|done]. split; [done|apply Hs]. Qed.
Lemma bset_safe b d : block_ok d -> always BT (fun _ => True) (bset b d).
Proof.
  intros Hd s Hs. unfold bset. case_decide; [|done]. split; [|done].
  split; simpl; [apply set_block_typed; [apply Hs|done]|apply Hs].
Qed.
Lemma bwrite_safe b : always BT (fun _ => True) (bwrite b).
Proof.
  intros s Hs. unfold bwrite. case_decide; [|done]. split; [|done].
  split; simpl; [apply Hs|apply set_block_typed; apply Hs].
Qed.
Lemma bdirty_safe b : always BT (fun _ => True) (bdirty b).
Proof. intros s Hs. unfold bdirty. by case_decide. Qed.
Lemma brelse_safe b : always BT (fun _ => True) (brelse b).
Proof. intros s Hs. unfold brelse. by repeat case_decide. Qed.
#[export] Hint Resolve bread_safe bdata_safe bset_safe bwrite_safe bdirty_safe brelse_safe : safe.

Lemma on_blk_safe {A} (Q : A -> Prop) c : always BT Q c -> always LT Q (on_blk c).
Proof. intros H. eapply always_zoom; [exact H|done|done]. Qed.
#[export] Hint Resolve on_blk_safe : safe.

#[export] Hint Resolve encode_ok : safe.

Lemma install_trans_safe : always LT (fun _ => True) install_trans.
Proof.
  unfold install_trans. asteps. apply always_for_all. intros [t b] _. apply on_blk_safe. asteps; done.
Qed.
Lemma write_log_safe : always LT (fun _ => True) write_log.
Proof.
  unfold write_log. asteps. apply always_for_all. intros [t b] _. apply on_blk_safe. asteps; done.
Qed.
Lemma write_head_safe : always LT (fun _ => True) write_head.
Proof. unfold write_head. asteps. apply on_blk_safe. asteps; done. Qed.
#[export] Hint Resolve install_trans_safe write_log_safe write_head_safe : safe.

Lemma commit_safe : always LT (fun _ => True) commit.
Proof.
  unfold commit. asteps; done.
Qed.
#[export] Hint Resolve commit_safe : safe.

Lemma begin_op_safe : always LT (fun _ => True) begin_op.
Proof. intros s Hs. unfold begin_op. destruct (committing s); [done|]. by destruct (_ <? _). Qed.
Lemma end_op_safe : always LT (fun _ => True) end_op.
Proof. unfold end_op. asteps; done. Qed.
Lemma log_write_safe b : always LT (fun _ => True) (log_write b).
Proof. unfold log_write. asteps; done. Qed.
#[export] Hint Resolve begin_op_safe end_op_safe log_write_safe : safe.

(** ** The file system state *)

(** [b] is the superblock, [p] a condition on the sizes of the cached inodes. *)
Definition T (b : superblock) (p : list Z -> Prop) (s : fs) : Prop :=
  sb s = b /\ LT (lg s) /\ Forall fields_ok (icache s) /\ p (i_size <$> icache s).

Section safe.
Context (b : superblock) (Hb : 0 <= size b < 4294967296).
Implicit Types p : list Z -> Prop.

Lemma on_log_safe {A} (Q : A -> Prop) p c : always LT Q c -> always (T b p) Q (on_log c).
Proof. intros H. eapply always_zoom; [exact H|by intros s (? & ? & ?)|]. intros s t (H1 & H2 & H3) Ht. done. Qed.

Lemma f_bread_safe p x : always (T b p) (fun _ => True) (f_bread x).
Proof. apply on_log_safe, on_blk_safe, bread_safe. Qed.
Lemma f_brelse_safe p x : always (T b p) (fun _ => True) (f_brelse x).
Proof. apply on_log_safe, on_blk_safe, brelse_safe. Qed.
Lemma f_data_safe p x : always (T b p) block_ok (f_data x).
Proof. apply on_log_safe, on_blk_safe, bdata_safe. Qed.
Lemma f_set_safe p x d : block_ok d -> always (T b p) (fun _ => True) (f_set x d).
Proof. intros. by apply on_log_safe, on_blk_safe, bset_safe. Qed.
Lemma f_log_write_safe p x : always (T b p) (fun _ => True) (f_log_write x).
Proof. apply on_log_safe, log_write_safe. Qed.
Hint Resolve f_bread_safe f_brelse_safe f_data_safe f_set_safe f_log_write_safe : safe.
Hint Resolve put8_ok put16_ok put32_ok zero_block_ok put_dinode_ok : safe.

Lemma bzero_safe p x : always (T b p) (fun _ => True) (bzero x).
Proof. unfold bzero. asteps; done. Qed.
Hint Resolve bzero_safe : safe.

(** An address that fits into the 32-bit fields. *)
Definition addr_ok (a : Z) : Prop := 0 <= a < 4294967296.

Lemma balloc_safe p : always (T b p) addr_ok balloc.
Proof.
  unfold balloc. eapply always_bind; [apply always_get|]. intros s (Es & _). rewrite Es.
  apply (always_loop _ (fun x => 0 <= x) (fun x => Z.to_nat (size b / BPB + 1 - x / BPB))).
  2: lia.
  2: { change BPB with 4096. dlia. }
  intros x Hx. unfold balloc_iter. eapply always_bind; [apply always_get|]. intros s' (Es' & _).
  cbv beta. rewrite Es'. clear Es Es' s s'. destruct (Z.ltb_spec x (size b)) as [Hlt|]; [|apply always_panic].
  cbv zeta. eapply always_bind; [apply f_bread_safe|]. intros _ _.
  eapply always_bind; [apply f_data_safe|]. intros d Hd.
  pose proof (find_clear_spec d (Z.min BPB (size b - x)) (Z.to_nat BPB) 0 ltac:(lia)) as Hfc.
  destruct (find_clear d 0 (Z.min BPB (size b - x)) (Z.to_nat BPB)) as [bi|].
  - asteps; try done. unfold addr_ok. lia.
  - asteps; try done. change BPB with 4096. split; [lia|]. dlia.
Qed.
Hint Resolve balloc_safe : safe.

Lemma bfree_safe p x : always (T b p) (fun _ => True) (bfree x).
Proof. unfold bfree. asteps; done. Qed.
Hint Resolve bfree_safe : safe.

(** ** Cached inodes *)
Definition any (l : list Z) : Prop := True.

Lemma get_inode_safe p i : always (T b p) fields_ok (get_inode i).
Proof.
  intros s Hs. unfold get_inode. destruct (icache s !! i) as [ip|] eqn:E; [|done].
  split; [done|]. destruct Hs as (_ & _ & Hf & _). rewrite Forall_lookup in Hf. eauto.
Qed.

(** Remember the size of the inode that was read. *)
Definition pin (i : nat) (z : Z) (p : list Z -> Prop) (l : list Z) : Prop := p l /\ l !! i = Some z.

Lemma get_inode_pin {A} (Q : A -> Prop) p i k :
  (forall ip, fields_ok ip -> always (T b (pin i (i_size ip) p)) Q (k ip)) ->
  always (T b p) Q (bind (get_inode i) k).
Proof.
  intros Hk s Hs. unfold bind, get_inode. destruct (icache s !! i) as [ip|] eqn:E; [|done].
  destruct Hs as (H1 & H2 & H3 & H4).
  assert (Hip : fields_ok ip) by (rewrite Forall_lookup in H3; eauto).
  specialize (Hk ip Hip s). unfold T, pin in *. 
  assert (Hl : (i_size <$> icache s) !! i = Some (i_size ip)) by (by rewrite list_lookup_fmap, E).
  specialize (Hk (conj H1 (conj H2 (conj H3 (conj H4 Hl))))).
  destruct (k ip s) as [a t|? t|? t|? t|]; [|by destruct Hk as (? & ? & ? & ? & ?)..|done].
  by destruct Hk as [(? & ? & ? & ? & ?) ?].
Qed.

Lemma set_inode_safe p i ip z : fields_ok ip -> i_size ip = z -> always (T b (pin i z p)) (fun _ => True) (set_inode i ip).
Proof.
  intros Hf Hz. unfold set_inode. apply always_modify. intros s (H1 & H2 & H3 & H4 & H5).
  split_and!; [done|done|by apply Forall_insert|]. simpl.
  assert (El : i_size <$> <[i := ip]> (icache s) = i_size <$> icache s).
  { rewrite list_fmap_insert. apply list_insert_id. by rewrite H5, Hz. }
  unfold pin. by rewrite El.
Qed.

Lemma set_inode_any i ip : fields_ok ip -> always (T b any) (fun _ => True) (set_inode i ip).
Proof.
  intros Hf. unfold set_inode. apply always_modify. intros s (H1 & H2 & H3 & H4).
  split_and!; [done|done|by apply Forall_insert|done].
Qed.

Lemma upd_inode_safe p i f : (forall ip, fields_ok ip -> fields_ok (f ip) /\ i_size (f ip) = i_size ip) ->
  always (T b p) (fun _ => True) (upd_inode i f).
Proof.
  intros Hf. unfold upd_inode. apply get_inode_pin. intros ip Hip. by apply set_inode_safe; apply Hf.
Qed.

Lemma upd_inode_any i f : (forall ip, fields_ok ip -> fields_ok (f ip)) ->
  always (T b any) (fun _ => True) (upd_inode i f).
Proof.
  intros Hf. unfold upd_inode. eapply always_bind; [apply get_inode_safe|]. intros ip Hip.
  by apply set_inode_any, Hf.
Qed.
Hint Resolve get_inode_safe : safe.

Lemma with_ref_fields r ip : fields_ok ip -> fields_ok (with_ref r ip) /\ i_size (with_ref r ip) = i_size ip.
Proof. by intros []. Qed.
Lemma with_lock_fields r ip : fields_ok ip -> fields_ok (with_lock r ip) /\ i_size (with_lock r ip) = i_size ip.
Proof. by intros []. Qed.
Lemma with_valid_fields r ip : fields_ok ip -> fields_ok (with_valid r ip) /\ i_size (with_valid r ip) = i_size ip.
Proof. by intros []. Qed.
Lemma with_type_fields r ip : short r -> fields_ok ip -> fields_ok (with_type r ip) /\ i_size (with_type r ip) = i_size ip.
Proof. by intros ? []. Qed.
Lemma with_addr_fields k a ip : addr_ok a -> fields_ok ip ->
  fields_ok (with_addr k a ip) /\ i_size (with_addr k a ip) = i_size ip.
Proof.
  intros Ha [F1 F2 F3 F4 F5 [F6 F7]]. split; [|done]. split; try done. simpl.
  rewrite length_insert. split; [done|]. by apply Forall_insert.
Qed.
Lemma with_size_fields z ip : 0 <= z < 4294967296 -> fields_ok ip -> fields_ok (with_size z ip).
Proof. intros Hz [F1 F2 F3 F4 F5 F6]. by split. Qed.

Lemma s16_short x : short (s16 x).
Proof. unfold short, s16, u16. repeat case_match; dlia. Qed.

Lemma get_dinode_fields d ip : block_ok d -> fields_ok (get_dinode d ip).
Proof.
  intros Hd. pose proof (dinode_range (i_inum ip)) as Hr.
  split; try apply s16_short; [apply get32_range; [done|lia|unfold BSIZE; lia]|].
  split; [done|]. unfold get_dinode, i_addrs. apply Forall_fmap, Forall_forall. intros k Hk%elem_of_seqZ. simpl.
  apply get32_range; [done|lia|unfold BSIZE; lia].
Qed.

Lemma addr_of_ok ip k : fields_ok ip -> addr_ok (addr_of ip k).
Proof.
  intros [_ _ _ _ _ [_ Hf]]. unfold addr_of. rewrite list_lookup_total_alt.
  destruct (i_addrs ip !! Z.to_nat k) as [a|] eqn:E; [|unfold addr_ok; simpl; lia].
  simpl. rewrite Forall_lookup in Hf. by eapply Hf.
Qed.

Lemma iget_safe p dev inum : always (T b p) (fun _ => True) (iget dev inum).
Proof.
  unfold iget. asteps; try done; apply upd_inode_safe; intros ip Hip; [by apply with_ref_fields|].
  split; [|done]. by destruct Hip.
Qed.
Lemma idup_safe p i : always (T b p) (fun _ => True) (idup i).
Proof. unfold idup. asteps; try done. apply upd_inode_safe. intros. by apply with_ref_fields. Qed.
Lemma iupdate_safe p i : always (T b p) (fun _ => True) (iupdate i).
Proof. unfold iupdate. asteps; done. Qed.
Lemma lock_inode_safe p i : always (T b p) (fun _ => True) (lock_inode i).
Proof.
  unfold lock_inode. apply get_inode_pin. intros ip Hip. destruct (i_lock ip); [by intros s Hs|].
  by apply set_inode_safe; apply with_lock_fields.
Qed.
Lemma iunlock_safe p i : always (T b p) (fun _ => True) (iunlock i).
Proof.
  unfold iunlock. apply get_inode_pin. intros ip Hip. destruct (_ || _); [apply always_panic|].
  by apply set_inode_safe; apply with_lock_fields.
Qed.
Hint Resolve iget_safe idup_safe iupdate_safe lock_inode_safe iunlock_safe : safe.

Lemma ilock_safe i : always (T b any) (fun _ => True) (ilock i).
Proof.
  unfold ilock. asteps; try done.
  - apply set_inode_any. by apply get_dinode_fields.
  - apply upd_inode_any. intros. by apply with_valid_fields.
Qed.
Hint Resolve ilock_safe : safe.

Lemma ialloc_safe p dev type : always (T b p) (fun _ => True) (ialloc dev type).
Proof.
  unfold ialloc. eapply always_bind; [apply always_get|]. intros s (Es & _). rewrite Es.
  apply (always_loop _ (fun x => 1 <= x) (fun x => Z.to_nat (ninodes b - x))); [|lia|lia].
  intros x Hx. unfold ialloc_iter. eapply always_bind; [apply always_get|]. intros s' (Es' & _).
  cbv beta. rewrite Es'. destruct (Z.ltb_spec x (ninodes b)) as [Hlt|]; [|apply always_panic].
  asteps; try done; [|lia]. apply f_set_safe, put16_ok, splice_ok; [|done].
  apply Forall_replicate. unfold is_byte. lia.
Qed.
Hint Resolve ialloc_safe : safe.

(** ** Contents *)
Lemma bmap_safe p i bn : always (T b p) addr_ok (bmap i bn).
Proof.
  assert (Hg : forall k, always (T b p) addr_ok (a <- balloc ;; upd_inode i (with_addr k a) ;;; ret a)).
  { intros k. eapply always_bind; [apply balloc_safe|]. intros a Ha.
    eapply always_bind; [apply upd_inode_safe; intros; by apply with_addr_fields|]. intros. by apply always_ret. }
  unfold bmap. eapply always_bind; [apply get_inode_safe|]. intros ip Hip.
  destruct (Z.ltb_spec bn NDIRECT).
  { destruct (_ =? 0); [apply Hg|apply always_ret; by apply addr_of_ok]. }
  destruct (Z.ltb_spec (bn - NDIRECT) NINDIRECT); [|apply always_panic]. cbv zeta.
  eapply (always_bind _ addr_ok); [destruct (_ =? 0); [apply Hg|apply always_ret; by apply addr_of_ok]|].
  intros ind _. eapply always_bind; [apply f_bread_safe|]. intros _ _.
  eapply always_bind; [apply f_data_safe|]. intros d Hd.
  eapply (always_bind _ addr_ok).
  - destruct (_ =? 0).
    + eapply always_bind; [apply balloc_safe|]. intros a Ha. asteps; done.
    + apply always_ret. apply get32_range; [done|lia|]. change NINDIRECT with 128 in *. unfold BSIZE. lia.
  - intros a Ha. asteps; done.
Qed.

Lemma itrunc_safe i : always (T b any) (fun _ => True) (itrunc i).
Proof.
  unfold itrunc. eapply always_bind.
  { apply always_for_all. intros k _. asteps; try done.
    apply upd_inode_safe. intros. apply with_addr_fields; [unfold addr_ok; lia|done]. }
  intros _ _. asteps; try done.
  - apply always_for_all. intros k _. asteps; done.
  - apply upd_inode_safe. intros. apply with_addr_fields; [unfold addr_ok; lia|done].
  - apply upd_inode_any. intros. apply with_size_fields; [lia|done].
Qed.
Hint Resolve bmap_safe itrunc_safe : safe.

Lemma iput_safe i : always (T b any) (fun _ => True) (iput i).
Proof.
  unfold iput. asteps; try done; try (apply upd_inode_safe; intros).
  - apply with_type_fields; [unfold short; lia|done].
  - by apply with_valid_fields.
  - by apply with_lock_fields.
  - by apply with_ref_fields.
Qed.
Hint Resolve iput_safe : safe.

Lemma iunlockput_safe i : always (T b any) (fun _ => True) (iunlockput i).
Proof. unfold iunlockput. asteps; done. Qed.
Lemma stati_safe p i : always (T b p) (fun _ => True) (stati i).
Proof. unfold stati. asteps; done. Qed.
Hint Resolve iunlockput_safe stati_safe : safe.

(** Device drivers are outside the file system; they have to keep to the same. *)
Context `{!Devices}.
Definition devices_safe : Prop := forall p,
  (forall m f i n, dev_read m = Some f -> always (T b p) (fun _ => True) (f i n)) /\
  (forall m f i src, dev_write m = Some f -> always (T b p) (fun _ => True) (f i src)).
Context (Hdev : devices_safe).

Lemma readi_safe p i off n : 0 <= off < 4294967296 -> 0 <= n < 4294967296 ->
  always (T b p) (fun _ => True) (readi i off n).
Proof.
  intros Ho Hn. unfold readi. eapply always_bind; [apply get_inode_safe|]. intros ip Hip.
  pose proof (fd_size _ Hip) as Hsz. destruct (_ =? T_DEV).
  { destruct (_ || _); [by apply always_ret|]. destruct (dev_read (i_major ip)) as [f|] eqn:E.
    - by apply (proj1 (Hdev p) _ _ _ _ E).
    - by apply always_ret. }
  destruct (Z.ltb_spec (i_size ip) off) as [|Hle]; [by apply always_ret|].
  destruct (Z.ltb_spec (u32 (off + n)) off) as [|Hov]; [by apply always_ret|]. cbn [orb].
  set (m := if i_size ip <? u32 (off + n) then i_size ip - off else n).
  assert (Hm : 0 <= m /\ off + m < 4294967296).
  { unfold m, u32 in *. destruct (Z.ltb_spec (i_size ip) ((off + n) `mod` 4294967296)); dlia. }
  cbv zeta. apply (always_bind _ (fun _ => True)); [|intros; by apply always_ret].
  apply (always_loop _ (fun '(tot, o, _) => 0 <= tot <= m /\ o = off + tot)
           (fun '(tot, o, _) => blocks_left (off + tot) (off + m))).
  - intros [[tot o] acc] [Ht ->]. unfold readi_loop. destruct (Z.ltb_spec tot m); [|by apply always_ret].
    change BSIZE with 512. asteps; try done.
    rewrite u32_small by dlia. split; [dlia|]. rewrite Z.add_assoc.
    apply blocks_left_step; [lia|]. f_equal; lia.
  - split; lia.
  - rewrite Z.add_0_r. apply blocks_left_fuel; lia.
Qed.

Lemma writei_safe i src off : 0 <= off -> Z.of_nat (length src) < 4294967296 ->
  Forall is_byte src -> always (T b any) (fun _ => True) (writei i src off).
Proof.
  intros Ho Hn Hby. unfold writei. eapply always_bind; [apply get_inode_safe|]. intros ip Hip.
  set (n := Z.of_nat (length src)) in *. destruct (_ =? T_DEV).
  { destruct (_ || _); [by apply always_ret|]. destruct (dev_write (i_major ip)) as [f|] eqn:E.
    - by apply (proj2 (Hdev any) _ _ _ _ E).
    - by apply always_ret. }
  destruct (Z.ltb_spec (i_size ip) off) as [|Hle]; [by apply always_ret|].
  destruct (Z.ltb_spec (u32 (off + n)) off) as [|Hov]; [by apply always_ret|]. cbn [orb].
  destruct (MAXFILE * BSIZE <? u32 (off + n)); [by apply always_ret|].
  pose proof (fd_size _ Hip) as Hsz.
  assert (Hm : off + n < 4294967296) by (unfold u32 in *; dlia).
  eapply (always_bind _ addr_ok).
  - apply (always_loop _ (fun '(tot, o) => 0 <= tot <= n /\ o = off + tot)
             (fun '(tot, o) => blocks_left (off + tot) (off + n))).
    + intros [tot o] [Ht ->]. unfold writei_loop.
      destruct (Z.ltb_spec tot n); [|apply always_ret; unfold addr_ok; lia].
      change BSIZE with 512. asteps; try done.
      * apply f_set_safe, splice_ok; [by apply seg_bytes|done].
      * rewrite u32_small by dlia. split; [dlia|]. rewrite Z.add_assoc.
        apply blocks_left_step; [lia|]. f_equal; lia.
    + split; lia.
    + rewrite Z.add_0_r. apply blocks_left_fuel; lia.
  - intros o Hoo. asteps; try done. apply upd_inode_any. intros. by apply with_size_fields.
Qed.

(** ** Directories and paths *)
Lemma get_inode_pinned {A} (Q : A -> Prop) p dp z k :
  (forall ip, fields_ok ip -> i_size ip = z -> always (T b (pin dp z p)) Q (k ip)) ->
  always (T b (pin dp z p)) Q (bind (get_inode dp) k).
Proof.
  intros Hk s Hs. unfold bind, get_inode. destruct (icache s !! dp) as [ip|] eqn:E; [|done].
  pose proof Hs as (H1 & H2 & H3 & H4 & H5). rewrite list_lookup_fmap, E in H5. simplify_eq/=.
  apply Hk; [|done|done]. rewrite Forall_lookup in H3. eauto.
Qed.

(** The loops over the entries of a directory. *)
Lemma dirloop_safe {A} (Q : A -> Prop) p dp z body :
  (forall off, 0 <= off -> always (T b (pin dp z p)) (fun r => match r with
     | inl x => off < z /\ x = off + SIZEOF_DIRENT | inr v => Q v end) (body off)) ->
  0 <= z -> forall start, 0 <= start ->
  always (T b (pin dp z p)) Q (loop (Z.to_nat (z / SIZEOF_DIRENT) + 2) body start).
Proof.
  unfold SIZEOF_DIRENT. intros Hbody Hz start Hs.
  apply (always_loop _ (fun x => 0 <= x) (fun x => Z.to_nat (z / 16 + 1 - x / 16))); [|done|dlia].
  intros x Hx. eapply always_mono; [by apply Hbody|]. intros [x'|v]; [|done]. intros [Hlt ->]. dlia.
Qed.

Lemma dirlookup_safe p dp nm : always (T b p) (fun _ => True) (dirlookup dp nm).
Proof.
  unfold dirlookup. apply get_inode_pin. intros ip Hip. destruct (negb _); [apply always_panic|].
  pose proof (fd_size _ Hip) as Hz. apply dirloop_safe; [|lia|lia]. intros off Hoff. unfold dirlookup_iter.
  apply get_inode_pinned. intros ip' Hip' Ez. rewrite Ez.
  destruct (Z.ltb_spec off (i_size ip)); [|by apply always_ret].
  eapply always_bind; [apply readi_safe; unfold SIZEOF_DIRENT; lia|]. intros r _.
  asteps; done || lia.
Qed.
Hint Resolve dirlookup_safe : safe.

Lemma dirlink_loop_safe p dp z : 0 <= z < 4294967296 ->
  always (T b (pin dp z p)) (fun o => 0 <= o)
    (loop (Z.to_nat (z / SIZEOF_DIRENT) + 2) (dirlink_iter dp) 0).
Proof.
  intros Hz. apply dirloop_safe; [|lia|lia]. intros off Hoff. unfold dirlink_iter.
  apply get_inode_pinned. intros ip' Hip' Ez. rewrite Ez.
  destruct (Z.ltb_spec off z); [|by apply always_ret].
  eapply always_bind; [apply readi_safe; unfold SIZEOF_DIRENT; lia|]. intros r _. asteps; done.
Qed.

(** A step that keeps the size it starts from, then one that need not. *)
Lemma get_inode_then {A B} (P : A -> Prop) (Q : B -> Prop) i c f :
  (forall ip, fields_ok ip -> always (T b (pin i (i_size ip) any)) P (c ip)) ->
  (forall ip a, P a -> always (T b any) Q (f ip a)) ->
  always (T b any) Q (bind (get_inode i) (fun ip => bind (c ip) (f ip))).
Proof.
  intros Hc Hf s Hs. unfold bind at 1, get_inode. destruct (icache s !! i) as [ip|] eqn:E; [|done].
  destruct Hs as (H1 & H2 & H3 & _).
  assert (Hip : fields_ok ip) by (rewrite Forall_lookup in H3; eauto).
  assert (Hpin : T b (pin i (i_size ip) any) s).
  { repeat split; try done; [apply H2..|]. by rewrite list_lookup_fmap, E. }
  specialize (Hc ip Hip s Hpin). unfold bind. destruct (c ip s) as [a t|? t|? t|? t|].
  1: apply (Hf ip a (proj2 Hc)); destruct Hc as [Hc _].
  all: try done; by destruct Hc as (? & ? & ? & ? & ?).
Qed.

Lemma dirlink_safe dp nm inum : Forall is_byte nm -> always (T b any) (fun _ => True) (dirlink dp nm inum).
Proof.
  intros Hnm. unfold dirlink. eapply always_bind; [apply dirlookup_safe|]. intros [[j o]|] _; [asteps; done|].
  apply (get_inode_then (fun o => 0 <= o)).
  - intros ip Hip. apply dirlink_loop_safe. exact (fd_size _ Hip).
  - intros ip o Ho. eapply always_bind; [|intros; asteps; done].
    apply writei_safe; [done| |].
    + rewrite length_app, length_strncpy, length_le_split. done.
    + apply Forall_app; split; [apply le_split_bytes|by apply strncpy_byte].
Qed.
Hint Resolve dirlink_safe : safe.

Lemma skip_slashes_length q : (length (skip_slashes q) <= length q)%nat.
Proof. induction q as [|c q IH]; cbn; [lia|]. case_match; cbn; lia. Qed.
Lemma span_elem_length q : (length (span_elem q).2 <= length q)%nat.
Proof. induction q as [|c q IH]; cbn; [lia|]. case_match; cbn; [lia|]. destruct (span_elem q). cbn in *. lia. Qed.
Lemma skip_slashes_head q c r : skip_slashes q = c :: r -> c <> slash.
Proof. induction q as [|d q IH]; cbn; [done|]. case_match eqn:E; [done|]. intros [= -> ->]. by apply Z.eqb_neq. Qed.

(** Every element taken off a path shortens it. *)
Lemma skipelem_shrinks path nm path' nm' :
  skipelem path nm = Some (path', nm') -> (length path' < length path)%nat.
Proof.
  unfold skipelem. pose proof (skip_slashes_length path) as Hl.
  destruct (skip_slashes path) as [|c q] eqn:E; [done|]. apply skip_slashes_head in E.
  cbn [span_elem]. rewrite (proj2 (Z.eqb_neq _ _) E).
  pose proof (span_elem_length q) as Hq. destruct (span_elem q) as [e rest]. intros [= <- _].
  pose proof (skip_slashes_length rest). cbn in *. lia.
Qed.

Lemma namex_safe cwd path b0 nm : always (T b any) (fun _ => True) (namex cwd path b0 nm).
Proof.
  unfold namex. apply (always_bind _ (fun _ => True)); [destruct path; asteps; done|]. intros i _.
  apply (always_loop _ (fun _ => True) (fun '(_, p, _) => length p)); [|done|lia].
  intros [[j p] m] _. unfold namex_iter. destruct (skipelem p m) as [[p' m']|] eqn:E; [|asteps; done].
  apply skipelem_shrinks in E. asteps; done.
Qed.
Lemma namei_safe cwd path : always (T b any) (fun _ => True) (namei cwd path).
Proof. unfold namei. eapply always_bind; [apply namex_safe|]. intros; by apply always_ret. Qed.
Lemma nameiparent_safe cwd path nm : always (T b any) (fun _ => True) (nameiparent cwd path nm).
Proof. apply namex_safe. Qed.
End safe.

(** ** The interface of the file system *)

(** The calls that other parts of the kernel make, with their arguments;
    an inode is the slot of its entry in the cache. *)
Inductive fs_call :=
  | CBegin | CEnd
  | CIget (dev inum : Z) | CIalloc (dev type : Z) | CIdup (i : nat) | CIlock (i : nat) | CIunlock (i : nat)
  | CIput (i : nat) | CIunlockput (i : nat) | CIupdate (i : nat) | CStati (i : nat)
  | CReadi (i : nat) (off n : Z) | CWritei (i : nat) (src : list Z) (off : Z)
  | CDirlookup (dp : nat) (nm : list Z) | CDirlink (dp : nat) (nm : list Z) (inum : Z)
  | CNamei (cwd : nat) (path : list Z) | CNameiparent (cwd : nat) (path nm : list Z).

Section calls.
Context `{!Devices}.

Definition run_call (c : fs_call) : M fs unit :=
  match c with
  | CBegin => on_log begin_op
  | CEnd => on_log end_op
  | CIget dev inum => iget dev inum ;;; ret tt
  | CIalloc dev type => ialloc dev type ;;; ret tt
  | CIdup i => idup i ;;; ret tt
  | CIlock i => ilock i
  | CIunlock i => iunlock i
  | CIput i => iput i
  | CIunlockput i => iunlockput i
  | CIupdate i => iupdate i
  | CStati i => stati i ;;; ret tt
  | CReadi i off n => readi i off n ;;; ret tt
  | CWritei i src off => writei i src off ;;; ret tt
  | CDirlookup dp nm => dirlookup dp nm ;;; ret tt
  | CDirlink dp nm inum => dirlink dp nm inum ;;; ret tt
  | CNamei cwd path => namei cwd path ;;; ret tt
  | CNameiparent cwd path nm => nameiparent cwd path nm ;;; ret tt
  end.
Definition run_calls (cs : list fs_call) : M fs unit := for_all cs run_call.

(** Arguments of their C types: unsigned offsets and lengths, bytes. *)
Definition call_ok (c : fs_call) : Prop :=
  match c with
  | CReadi _ off n => 0 <= off < 4294967296 /\ 0 <= n < 4294967296
  | CWritei _ src off => 0 <= off < 4294967296 /\ Z.of_nat (length src) < 4294967296 /\ Forall is_byte src
  | CDirlink _ nm _ => Forall is_byte nm
  | _ => True
  end.

(** Blocks are 512 bytes, and the fields of cached inodes have their C types. *)
Definition typed (s : fs) : Prop :=
  0 <= size (sb s) < 4294967296 /\ LT (lg s) /\ Forall fields_ok (icache s).

Lemma run_call_safe b c : 0 <= size b < 4294967296 -> devices_safe b -> call_ok c ->
  always (T b any) (fun _ => True) (run_call c).
Proof.
  intros Hb Hd. destruct c; cbn [run_call call_ok]; intros Hc; try (apply (always_bind _ (fun _ => True));
    [|intros; by apply always_ret]); first [apply on_log_safe; solve [eauto with safe]
    |apply readi_safe; tauto|apply writei_safe; tauto|apply dirlookup_safe; tauto|apply dirlink_safe; tauto
    |apply namei_safe; tauto|apply nameiparent_safe; tauto|first [apply iget_safe|apply ialloc_safe|apply idup_safe|apply ilock_safe|apply iunlock_safe|apply iput_safe
    |apply iunlockput_safe|apply iupdate_safe|apply stati_safe]; tauto].
Qed.

Lemma run_calls_safe cs s : typed s -> devices_safe (sb s) -> Forall call_ok cs ->
  match run_calls cs s with
  | Ret _ t | Panic _ t | Fault _ t | Sleep _ t => typed t
  | Spin => False
  end.
Proof.
  intros (Hb & Hl & Hi) Hd Hcs.
  assert (Ha : always (T (sb s) any) (fun _ => True) (run_calls cs)).
  { apply always_for_all. intros c Hc. rewrite Forall_forall in Hcs. by apply run_call_safe; [| |apply Hcs]. }
  pose proof (always_elim _ _ _ s Ha) as He.
  assert (Ht : forall t, T (sb s) any t -> typed t) by (intros t (E & ? & ? & _); unfold typed; by rewrite E).
  assert (Hs : T (sb s) any s) by (repeat split; try done; apply Hl).
  specialize (He Hs). destruct (run_calls cs s); auto.
Qed.


(** C6. Termination: no sequence of calls of the file system runs forever,
    whatever the disk and the cached inodes hold: every loop over bitmap
    blocks, inode blocks, file blocks, directory entries and path elements
    ends. *)
Theorem fs_calls_terminate cs s : typed s -> devices_safe (sb s) -> Forall call_ok cs ->
  run_calls cs s <> Spin.
Proof. intros H1 H2 H3. pose proof (run_calls_safe cs s H1 H2 H3). by destruct (run_calls cs s). Qed.
End calls.
