(* ===== verification/FsExample.v ===== *)
(** * A small file system on which the theorems about fs.c apply

    One hundred blocks with a log of thirty, a bitmap in block 41, a file of
    five bytes (inode 5, data block 42) and an empty directory (inode 6). *)
From stdpp Require Import base numbers list list_numbers strings.
From Stdlib Require Import ZArith Lia.
From S2P Require Import Prelude Block Bcache Log Fs FsBlock FsInode FsMap FsFile FsDir Safe FsSafe.
#[local] Open Scope Z_scope.

Definition ex_sb : superblock := mksuperblock 100 58 64 30 2 32 41.
Definition ex_bitmap : block := replicate 5 255 ++ [7] ++ replicate 506 0.
Definition ex_data : block := [104; 101; 108; 108; 111] ++ replicate 507 0.
Definition ex_view (b : Z) : block :=
  if b =? 41 then ex_bitmap else if b =? 42 then ex_data else zero_block.
Definition ex_file : inode := mkinode 1 5 1 true true T_FILE 0 0 1 5 (42 :: replicate 12 0).
Definition ex_dir : inode := mkinode 1 6 1 true true T_DIR 0 0 1 0 (replicate 13 0).
Definition ex_fs : fs :=
  mkfs (mklogged (mkblocks 100 ex_view ex_view [] [] []) 2 30 1 false []) [ex_file; ex_dir; empty_inode] ex_sb.

#[local] Instance no_devices : Devices := {| dev_read _ := None; dev_write _ := None |}.

Lemma forallb_seqZ (f : Z -> bool) a n x : forallb f (seqZ a n) = true -> a <= x < a + n -> f x = true.
Proof.
  intros H Hx. rewrite forallb_forall in H. apply H, list_elem_of_In, elem_of_seqZ. lia.
Qed.

Lemma bytes_ok_list (l : list Z) : forallb (fun b => (0 <=? b) && (b <? 256)) l = true -> Forall is_byte l.
Proof.
  intros H. rewrite forallb_forall in H. apply Forall_forall. intros b Hb.
  apply list_elem_of_In, H in Hb. zbool. unfold is_byte. lia.
Qed.

Lemma ex_view_ok b : block_ok (ex_view b).
Proof.
  unfold ex_view. destruct (b =? 41); [|destruct (b =? 42)]; [..|apply zero_block_ok];
    (split; [done|by apply bytes_ok_list]).
Qed.

Lemma ex_fs_ok : fs_ok ex_fs.
Proof.
  split.
  - split; [constructor|constructor|done|done|apply ex_view_ok].
  - split; vm_compute; done.
  - intros b Hb. change (dstart (sb ex_fs)) with 42 in Hb.
    apply (forallb_seqZ (used ex_fs) 0 42); [vm_compute; done|lia].
Qed.

Lemma ex_slot k : 0 <= k <= MF -> slot ex_fs ex_file k = (if k =? 0 then 42 else 0) /\ slot ex_fs ex_dir k = 0.
Proof.
  intros Hk. pose proof (forallb_seqZ (fun k => (slot ex_fs ex_file k =? (if k =? 0 then 42 else 0)) &&
    (slot ex_fs ex_dir k =? 0)) 0 141 k) as H.
  destruct (andb_prop _ _ (H ltac:(vm_compute; reflexivity) ltac:(unfold MF in *; lia))) as [H1 H2].
  apply Z.eqb_eq in H1, H2. done.
Qed.

Lemma ex_file_inode : inode_ok ex_fs ex_file.
Proof.
  split; [done|by vm_compute|by vm_compute| | |].
  - intros k Hk. destruct (ex_slot k Hk) as [-> _]. destruct (k =? 0); [|done]. intros _. by vm_compute.
  - intros k k' Hk Hk'. destruct (ex_slot k Hk) as [-> _], (ex_slot k' Hk') as [-> _].
    destruct (Z.eqb_spec k 0), (Z.eqb_spec k' 0); congruence.
  - intros k Hk Hlt. change (i_size ex_file) with 5 in Hlt. replace k with 0 by lia. by vm_compute.
Qed.

Lemma ex_dir_inode : inode_ok ex_fs ex_dir.
Proof.
  split; [done|by vm_compute|by vm_compute| | |].
  - intros k Hk. destruct (ex_slot k Hk) as [_ ->]. done.
  - intros k k' Hk _. destruct (ex_slot k Hk) as [_ ->]. done.
  - intros k Hk Hlt. change (i_size ex_dir) with 0 in Hlt. lia.
Qed.

Lemma ex_file_ok : file_ok 0 ex_fs ex_file.
Proof. split; [done|apply ex_fs_ok|apply ex_file_inode|done|by vm_compute|done]. Qed.

Lemma ex_dir_ok : dir_ok 1 ex_fs ex_dir.
Proof. split; [split; [done|apply ex_fs_ok|apply ex_dir_inode|done|by vm_compute|done]|done|done]. Qed.

Lemma ex_fits : fits (bitmap_blocks (sb ex_fs)) 1 ex_fs.
Proof. by vm_compute. Qed.

Lemma ex_held : held_ok ex_fs.
Proof. split; [simpl; lia|]. intros x Hx. by apply not_elem_of_nil in Hx. Qed.

Lemma ex_ready m ip : ind_of ip = 0 -> m <= 10 -> ready m ex_fs ip.
Proof.
  intros Hi Hm. assert (Ef : nfree ex_fs = 57) by (by vm_compute).
  assert (Hl : logcost ex_fs ip = 3).
  { unfold logcost, indS, credit. rewrite Hi. by vm_compute. }
  split; [by vm_compute| |].
  - rewrite Hl. change (Z.min LOGSIZE (lsize (lg ex_fs) - 1)) with 29. lia.
  - rewrite Ef. unfold credit. rewrite Hi. simpl. lia.
Qed.

(** ** Witnesses *)
Lemma balloc_correct_witness : match balloc ex_fs with Ret b _ => b = 43 | _ => False end.
Proof.
  pose proof (balloc_correct ex_fs ex_fs_ok ex_held ex_fits) as H.
  destruct (balloc ex_fs) as [b s'|m s'|w s'|c s'|]; try exact H.
  - destruct H as [(H1 & H2 & H3) _]. change (dstart (sb ex_fs)) with 42 in H1.
    destruct (Z.eq_dec b 43) as [|Hne]; [assumption|exfalso].
    destruct (Z.eq_dec b 42) as [->|Hn2]; [vm_compute in H2; discriminate|].
    specialize (H3 43 ltac:(lia)). vm_compute in H3. discriminate.
  - destruct H as (_ & _ & H). specialize (H 43 ltac:(vm_compute; split; congruence)).
    vm_compute in H. discriminate.
Defined.

Lemma bfree_balloc_witness : match balloc ex_fs with
  | Ret b s' => runs (bfree b) s' (fun _ s'' => used s'' 43 = false)
  | _ => True end.
Proof.
  destruct (balloc ex_fs) as [b s'|m s'|w s'|c s'|] eqn:E; try exact I.
  destruct (bfree_balloc ex_fs b s' ex_fs_ok eq_refl ex_fits E) as (u & s'' & E' & H & _).
  exists u, s''. split; [exact E'|]. rewrite (H 43 ltac:(vm_compute; split; congruence)). vm_compute. reflexivity.
Defined.

Lemma ex_spare : spare 2 ex_fs.
Proof. by vm_compute. Qed.

Lemma ex_file_fields : fields_ok ex_file.
Proof.
  unfold ex_file, T_FILE. split; simpl; [unfold short; lia..| |]; [lia|]. split; [done|].
  repeat (constructor; [lia|]). constructor.
Qed.

Definition ex_stale : inode := mkinode 1 5 1 false false 9 9 9 9 9 (replicate 13 9).

Lemma iupdate_ilock_witness : runs (iupdate 0) ex_fs (fun _ s1 =>
  runs (ilock 0) (set_icache [ex_stale] s1) (fun _ s2 => icache s2 = [ex_file])).
Proof.
  destruct (iupdate_ilock ex_fs 0 ex_file ex_fs_ok eq_refl ex_spare eq_refl ex_file_fields
    ltac:(vm_compute; split; congruence) ltac:(discriminate)) as (u & s1 & E & _ & H & _).
  exists u, s1. split; [exact E|].
  destruct (H [ex_stale] 0%nat ex_stale eq_refl eq_refl ltac:(simpl; lia) eq_refl eq_refl)
    as (v & s2 & E2 & Hc & _).
  exists v, s2. split; [exact E2|]. rewrite Hc. reflexivity.
Defined.

Lemma ex_cache_ok : cache_ok (icache ex_fs).
Proof.
  split.
  - intros i ip Hi. destruct i as [|[|[|i]]]; simplify_eq/=; lia.
  - intros i j ip dev inum jp Hi Hj Hh Hh'. unfold hit in *. zbool.
    destruct i as [|[|[|i]]], j as [|[|[|j]]]; try reflexivity; try discriminate;
      injection Hi as <-; injection Hj as <-; unfold ex_file, ex_dir, empty_inode in *;
      cbn [i_ref i_dev i_inum] in *; lia.
Qed.

Lemma iget_correct_witness : match iget 1 5 ex_fs with
  | Ret i s' => icache s' = [with_ref 2 ex_file; ex_dir; empty_inode] \/ i <> 0%nat
  | _ => False end.
Proof.
  pose proof (iget_correct 1 5 ex_fs ex_cache_ok) as H.
  destruct (iget 1 5 ex_fs) as [i s'|m s'|w s'|c s'|]; try exact H.
  - destruct i as [|i]; [left|right; discriminate].
    destruct H as (_ & ip & Hi & H). injection Hi as <-. change (hit 1 5 ex_file) with true in H. cbv iota in H.
    rewrite H. reflexivity.
  - destruct H as (_ & _ & H). destruct (H 0%nat ex_file eq_refl) as [H0 _]. discriminate.
Defined.

Lemma readi_correct_witness : readi 0 1 100 ex_fs = Ret (4, [101; 108; 108; 111]) ex_fs.
Proof.
  rewrite (readi_correct 0 ex_fs ex_file 1 100 ex_file_ok ltac:(lia) ltac:(lia)).
  vm_compute. reflexivity.
Defined.

(** Six hundred bytes from offset 3 on: past the end, into a second block. *)
Definition ex_src : list Z := replicate 600 7.


Lemma dirlink_dirlookup_witness : runs (dirlink 1 [97] 5) ex_fs (fun r s' =>
  r = 0 /\ dirlookup 1 [97] s' = (j <- iget 1 5 ;; ret (Some (j, 0))) s').
Proof.
  destruct (dirlink_dirlookup 1 ex_fs ex_dir [97] 5 ex_dir_ok eq_refl) as (r & s' & E & Hr & _ & H & _).
  - apply bytes_ok_list. reflexivity.
  - lia.
  - vm_compute. discriminate.
  - apply ex_ready; [reflexivity|vm_compute; discriminate].
  - exists r, s'. split; [exact E|]. split; [exact Hr|exact H].
Defined.

(** ** Sequences of calls *)
Definition ex_calls : list fs_call :=
  [CBegin; CReadi 0 0 5; CWritei 0 ex_src 3; CIunlock 0; CNamei 1 [47; 97; 47; 98]; CEnd].

Lemma ex_typed : typed ex_fs.
Proof.
  split; [split; [discriminate|reflexivity]|]. split; [split; exact ex_view_ok|].
  repeat constructor; cbn; try discriminate; try reflexivity.
Qed.
Lemma ex_calls_ok : Forall call_ok ex_calls.
Proof. repeat constructor; discriminate. Qed.
Lemma no_devices_safe b : devices_safe b.
Proof. intros p. split; discriminate. Qed.


Lemma fs_calls_terminate_witness : run_calls ex_calls ex_fs <> Spin.
Proof. exact (fs_calls_terminate ex_calls ex_fs ex_typed (no_devices_safe _) ex_calls_ok). Defined.
