(* ===== verification/File.v ===== *)
(** * Open files (file.c) and the pipes they name (pipe.c: pipealloc, pipeclose)

    The state of the kernel with its file system: processes and memory, the
    disk and its caches, the table of open files and the pipes, which live in
    pages of their own.  A [struct file*] or [struct inode*] kept in a process
    is its index plus one, 0 for null. *)
From stdpp Require Import base numbers list strings.
From Stdlib Require Import ZArith Lia.
From S2P Require Import Prelude Mmu Kernel Kalloc Syscall Proc Block Log Fs Monitor Pipe.
#[local] Open Scope Z_scope.

Definition NFILE : Z := 100.

Inductive filetype := FD_NONE | FD_PIPE | FD_INODE.

#[global] Instance filetype_eq_dec : EqDecision filetype.
Proof. solve_decision. Defined.

Record file := mkfile {
  f_type : filetype; f_ref : Z; f_readable : bool; f_writable : bool;
  f_pipe : Z; f_ip : nat; f_off : Z }.

Definition no_file : file := mkfile FD_NONE 0 false false 0 0 0.

Record sys := mksys {
  kern : kernel;
  fsys : fs;
  ftable : list file;
  pipes : Z -> pshared;         (* by the address of their page *)
}.

Definition set_kern (k : kernel) (s : sys) : sys := mksys k (fsys s) (ftable s) (pipes s).
Definition set_fsys (f : fs) (s : sys) : sys := mksys (kern s) f (ftable s) (pipes s).
Definition set_ftable (t : list file) (s : sys) : sys := mksys (kern s) (fsys s) t (pipes s).
Definition set_pipe (a : Z) (p : pshared) (s : sys) : sys :=
  mksys (kern s) (fsys s) (ftable s) (fun x => if x =? a then p else pipes s x).
Definition on_kern {A} (c : M kernel A) : M sys A := zoom kern set_kern c.
Definition on_fs {A} (c : M fs A) : M sys A := zoom fsys set_fsys c.

Definition get_file (f : nat) : M sys file := fun s =>
  match ftable s !! f with Some x => Ret x s | None => Fault "file pointer" s end.
Definition set_file (f : nat) (x : file) : M sys unit :=
  modify (fun s => set_ftable (<[f := x]> (ftable s)) s).

Definition with_fref (r : Z) (x : file) : file :=
  mkfile (f_type x) r (f_readable x) (f_writable x) (f_pipe x) (f_ip x) (f_off x).
Definition with_off (o : Z) (x : file) : file :=
  mkfile (f_type x) (f_ref x) (f_readable x) (f_writable x) (f_pipe x) (f_ip x) o.

Definition fs_begin_op : M sys unit := on_fs (on_log begin_op).
Definition fs_end_op : M sys unit := on_fs (on_log end_op).

(** The first file whose reference count is 0. *)
Fixpoint free_file (t : list file) (i : nat) : option nat :=
  match t with
  | [] => None
  | x :: t' => if f_ref x =? 0 then Some i else free_file t' (S i)
  end.

Definition filealloc : M sys (option nat) :=
  s <- get ;;
  match free_file (ftable s) 0 with
  | Some i => x <- get_file i ;; set_file i (with_fref 1 x) ;;; ret (Some i)
  | None => ret None
  end.

Definition filedup (f : nat) : M sys nat :=
  x <- get_file f ;;
  if f_ref x <? 1 then panic "filedup"
  else set_file f (with_fref (f_ref x + 1) x) ;;; ret f.

(** User memory through the current page table; the kernel runs with CR0_WP,
    so a store to a page that is not writable faults too. *)
Definition writable_page (m : mem) (cr3 va : Z) : bool :=
  let pde := rd32 m (P2V cr3 + 4 * PDX va) in
  has pde PTE_W && has (rd32 m (P2V (PTE_ADDR pde) + 4 * PTX va)) PTE_W.
Definition ustore8 (va v : Z) : M kernel unit := fun k =>
  match translate (memory k) (cr3 k) va with
  | Some a => if writable_page (memory k) (cr3 k) va
              then Ret tt (set_memory (wr8 (memory k) a v) k)
              else Fault "page fault" k
  | None => Fault "page fault" k
  end.
Fixpoint ustore (va : Z) (bs : list Z) : M kernel unit :=
  match bs with
  | [] => ret tt
  | b :: bs' => ustore8 va b ;;; ustore (u32 (va + 1)) bs'
  end.
Fixpoint uload (va : Z) (n : nat) : M kernel (list Z) :=
  match n with
  | O => ret []
  | S n' => b <- uload8 va ;; bs <- uload (u32 (va + 1)) n' ;; ret (b :: bs)
  end.

Definition my_killed : M sys bool := on_kern (p <- myproc ;; ret (negb (killed p =? 0))).

(** myproc()->cwd. *)
Definition my_cwd : M sys nat :=
  p <- on_kern myproc ;;
  if cwd p =? 0 then fault "cwd" else ret (Z.to_nat (cwd p - 1)).

(** The channels of the pipe in page [a]: [&p->nread] and [&p->nwrite]. *)
Definition pipe_chan (a ch : Z) : Z := a + (if ch =? chan_nread then 564 else 568).

(** One critical section of a pipe call under [p->lock]: its wakeups, then
    its result or its sleep, during which [p->lock] is free. *)
Definition pipe_section (a : Z) (c : bool -> pshared -> section pshared Pipe.op Pipe.res) :
    M sys Pipe.res :=
  k <- my_killed ;;
  p <- gets (fun s => pipes s a) ;;
  let r := c k p in
  modify (set_pipe a (shared_after r)) ;;;
  for_all (wakes r) (fun ch => on_kern (wakeup (pipe_chan a ch))) ;;;
  match ends r with
  | Return v => ret v
  | SleepOn ch _ => on_kern (acquire ptable_lock ;;; sleep (pipe_chan a ch) ptable_lock)
  end.

Section kernel.
Context `{KernelLayout} `{!Devices}.

Definition sys_pipeclose (a : Z) (writable : bool) : M sys unit :=
  r <- pipe_section a (fun _ => pipeclose writable) ;;
  match r with
  | Closed true => on_kern (kfree a)
  | _ => ret tt
  end.

Definition fileclose (f : nat) : M sys unit :=
  x <- get_file f ;;
  if f_ref x <? 1 then panic "fileclose"
  else
    set_file f (with_fref (f_ref x - 1) x) ;;;
    if 0 <? f_ref x - 1 then ret tt
    else
      set_file f (mkfile FD_NONE 0 (f_readable x) (f_writable x) (f_pipe x) (f_ip x) (f_off x)) ;;;
      match f_type x with
      | FD_PIPE => sys_pipeclose (f_pipe x) (f_writable x)
      | FD_INODE => fs_begin_op ;;; on_fs (iput (f_ip x)) ;;; fs_end_op
      | FD_NONE => ret tt
      end.

(** The fields of [struct stat] at their offsets; the padding is not written. *)
Definition store_stat (a : Z) (st : stat) : M kernel unit :=
  ustore a (le_split 2 (st_type st)) ;;;
  ustore (u32 (a + 4)) (le_split 4 (st_dev st)) ;;;
  ustore (u32 (a + 8)) (le_split 4 (st_ino st)) ;;;
  ustore (u32 (a + 12)) (le_split 2 (st_nlink st)) ;;;
  ustore (u32 (a + 16)) (le_split 4 (st_size st)).

Definition filestat (f : nat) (a : Z) : M sys Z :=
  x <- get_file f ;;
  if decide (f_type x = FD_INODE) then
    on_fs (ilock (f_ip x)) ;;;
    st <- on_fs (stati (f_ip x)) ;;
    on_kern (store_stat a st) ;;;
    on_fs (iunlock (f_ip x)) ;;;
    ret 0
  else ret (-1).

Definition fileread (f : nat) (addr n : Z) : M sys Z :=
  x <- get_file f ;;
  if negb (f_readable x) then ret (-1)
  else match f_type x with
  | FD_PIPE =>
      r <- pipe_section (f_pipe x) (fun k => piperead k (Z.to_nat n)) ;;
      match r with
      | Got bs => on_kern (ustore addr bs) ;;; ret (Z.of_nat (length bs))
      | _ => ret (-1)
      end
  | FD_INODE =>
      on_fs (ilock (f_ip x)) ;;;
      r <- on_fs (readi (f_ip x) (f_off x) (u32 n)) ;;
      on_kern (ustore addr r.2) ;;;
      (if 0 <? r.1 then y <- get_file f ;; set_file f (with_off (u32 (f_off y + r.1)) y) else ret tt) ;;;
      on_fs (iunlock (f_ip x)) ;;;
      ret r.1
  | FD_NONE => panic "fileread"
  end.

(** The chunk size of filewrite. *)
Definition filewrite_max : Z := ((MAXOPBLOCKS - 1 - 1 - 2) / 2) * 512.

(** One turn of the loop at byte [i]: the next [i], or the end. *)
Definition filewrite_iter (f : nat) (addr n i : Z) : M sys (Z + Z) :=
  if i <? n then
    let n1 := Z.min (n - i) filewrite_max in
    fs_begin_op ;;;
    x <- get_file f ;;
    on_fs (ilock (f_ip x)) ;;;
    bs <- on_kern (uload (u32 (addr + i)) (Z.to_nat n1)) ;;
    r <- on_fs (writei (f_ip x) bs (f_off x)) ;;
    (if 0 <? r then set_file f (with_off (u32 (f_off x + r)) x) else ret tt) ;;;
    on_fs (iunlock (f_ip x)) ;;;
    fs_end_op ;;;
    if r <? 0 then ret (inr (if i =? n then n else -1))
    else if negb (r =? n1) then panic "short filewrite"
    else ret (inl (i + r))
  else ret (inr (if i =? n then n else -1)).

Definition filewrite (f : nat) (addr n : Z) : M sys Z :=
  x <- get_file f ;;
  if negb (f_writable x) then ret (-1)
  else match f_type x with
  | FD_PIPE =>
      bs <- on_kern (uload addr (Z.to_nat n)) ;;
      r <- pipe_section (f_pipe x) (fun k => pipewrite k bs n) ;;
      match r with Wrote m => ret m | _ => ret (-1) end
  | FD_INODE => loop (Z.to_nat (n / filewrite_max) + 2) (filewrite_iter f addr n) 0
  | FD_NONE => panic "filewrite"
  end.

(** A fresh pipe page; its bytes are what kalloc left there. *)
Definition page_bytes (m : mem) (a : Z) : list Z := (fun i => m (a + Z.of_nat i)) <$> seq 0 512.

Definition pipealloc : M sys (option (nat * nat)) :=
  f0 <- filealloc ;;
  match f0 with
  | None => ret None
  | Some f0 =>
      f1 <- filealloc ;;
      match f1 with
      | None => fileclose f0 ;;; ret None
      | Some f1 =>
          p <- on_kern kalloc ;;
          if p =? 0 then fileclose f0 ;;; fileclose f1 ;;; ret None
          else
            m <- gets (fun s => memory (kern s)) ;;
            modify (set_pipe p (mkpshared (pipe_init (page_bytes m p)) [] [])) ;;;
            x0 <- get_file f0 ;;
            set_file f0 (mkfile FD_PIPE (f_ref x0) true false p (f_ip x0) (f_off x0)) ;;;
            x1 <- get_file f1 ;;
            set_file f1 (mkfile FD_PIPE (f_ref x1) false true p (f_ip x1) (f_off x1)) ;;;
            ret (Some (f0, f1))
      end
  end.
End kernel.
