(* ===== verification/Exec.v ===== *)
(** * Replacing a process image (exec.c, vm.c: loaduvm)

    [exec] reads an ELF file through the file system into a new address
    space, builds the user stack and switches to it.  Paths and arguments are
    the bytes of the user strings, without their nul. *)
From stdpp Require Import base numbers list strings.
From Stdlib Require Import ZArith Lia.
From S2P Require Import Prelude Mmu Kernel Kalloc Syscall Vm Proc Block Log Fs File.
#[local] Open Scope Z_scope.

Definition MAXARG : Z := 32.
Definition ELF_MAGIC : Z := 0x464C457F.
Definition ELF_PROG_LOAD : Z := 1.

(** The fields of [struct elfhdr] and [struct proghdr] that exec uses. *)
Definition sizeof_elfhdr : Z := 52.
Definition elf_magic (e : list Z) : Z := get32 e 0.
Definition elf_entry (e : list Z) : Z := get32 e 24.
Definition elf_phoff (e : list Z) : Z := get32 e 28.
Definition elf_phnum (e : list Z) : Z := get16 e 44.
Definition sizeof_proghdr : Z := 32.
Definition ph_type (h : list Z) : Z := get32 h 0.
Definition ph_off (h : list Z) : Z := get32 h 4.
Definition ph_vaddr (h : list Z) : Z := get32 h 8.
Definition ph_filesz (h : list Z) : Z := get32 h 16.
Definition ph_memsz (h : list Z) : Z := get32 h 20.

Section exec.
Context `{KernelLayout} `{!KernelSymbols} `{!Devices}.

Definition loaduvm_iter (pgdir addr : Z) (ip : nat) (offset sz i : Z) : M sys (Z + Z) :=
  if i <? sz then
    pte <- on_kern (walkpgdir pgdir (u32 (addr + i)) false) ;;
    if pte =? 0 then panic "loaduvm: address should exist"
    else
      v <- on_kern (load32 pte) ;;
      let n := if sz - i <? PGSIZE then sz - i else PGSIZE in
      r <- on_fs (readi ip (u32 (offset + i)) n) ;;
      on_kern (modify (fun k => set_memory (wr_bytes (memory k) (P2V (PTE_ADDR v)) r.2) k)) ;;;
      if negb (r.1 =? n) then ret (inr (-1)) else ret (inl (u32 (i + PGSIZE)))
  else ret (inr 0).

Definition loaduvm (pgdir addr : Z) (ip : nat) (offset sz : Z) : M sys Z :=
  if negb (addr `mod` PGSIZE =? 0) then panic "loaduvm: addr must be page aligned"
  else loop (Z.to_nat (sz / PGSIZE) + 2) (loaduvm_iter pgdir addr ip offset sz) 0.

(** One program header: [None] goes to [bad], otherwise the new size. *)
Definition load_segment (pgdir : Z) (ip : nat) (off sz : Z) : M sys (option Z) :=
  r <- on_fs (readi ip off sizeof_proghdr) ;;
  let ph := r.2 in
  if negb (r.1 =? sizeof_proghdr) then ret None
  else if negb (ph_type ph =? ELF_PROG_LOAD) then ret (Some sz)
  else if ph_memsz ph <? ph_filesz ph then ret None
  else if u32 (ph_vaddr ph + ph_memsz ph) <? ph_vaddr ph then ret None
  else
    sz' <- on_kern (allocuvm pgdir sz (u32 (ph_vaddr ph + ph_memsz ph))) ;;
    if sz' =? 0 then ret None
    else if negb (ph_vaddr ph `mod` PGSIZE =? 0) then ret None
    else
      l <- loaduvm pgdir (ph_vaddr ph) ip (ph_off ph) (ph_filesz ph) ;;
      if l <? 0 then ret None else ret (Some sz').

Fixpoint load_segments (pgdir : Z) (ip : nat) (n : nat) (off sz : Z) : M sys (option Z) :=
  match n with
  | O => ret (Some sz)
  | S n' =>
      r <- load_segment pgdir ip off sz ;;
      match r with
      | None => ret None
      | Some sz' => load_segments pgdir ip n' (u32 (off + sizeof_proghdr)) sz'
      end
  end.

(** Pushes the argument strings; the stack pointer and their addresses. *)
Fixpoint push_args (pgdir argc : Z) (argv : list (list Z)) (sp : Z) (ptrs : list Z) :
    M kernel (option (Z * list Z)) :=
  match argv with
  | [] => ret (Some (sp, ptrs))
  | s :: argv' =>
      if MAXARG <=? argc then ret None
      else
        let sp := Z.land (u32 (sp - (Z.of_nat (length s) + 1))) (u32 (Z.lnot 3)) in
        r <- copyout pgdir sp (s ++ [0]) ;;
        if r <? 0 then ret None else push_args pgdir (argc + 1) argv' sp (ptrs ++ [sp])
  end.

(** [ustack]: the fake return PC, argc, the argv pointer and argv itself. *)
Definition ustack (argc sp : Z) (ptrs : list Z) : list Z :=
  [0xffffffff; argc; u32 (sp - (argc + 1) * 4)] ++ ptrs ++ [0].
Definition words (l : list Z) : list Z := mjoin (le_split 4 <$> l).

(** The stack and its two pages: the size and the stack pointer. *)
Definition build_stack (pgdir sz : Z) (argv : list (list Z)) : M kernel (option (Z * Z)) :=
  sz <- allocuvm pgdir (PGROUNDUP sz) (u32 (PGROUNDUP sz + 2 * PGSIZE)) ;;
  if sz =? 0 then ret None
  else
    clearpteu pgdir (u32 (sz - 2 * PGSIZE)) ;;;
    r <- push_args pgdir 0 argv sz [] ;;
    match r with
    | None => ret None
    | Some (sp, ptrs) =>
        let argc := Z.of_nat (length argv) in
        let sp' := u32 (sp - (3 + argc + 1) * 4) in
        c <- copyout pgdir sp' (words (ustack argc sp ptrs)) ;;
        if c <? 0 then ret None else ret (Some (sz, sp'))
    end.

(** The part of the path after its last slash. *)
Fixpoint last_elem (path last : list Z) : list Z :=
  match path with
  | [] => last
  | c :: path' => last_elem path' (if c =? slash then path' else last)
  end.

Definition commit_image (path : list Z) (pgdir' sz' sp entry : Z) : M kernel unit :=
  me <- curproc_ptr ;;
  upd me (fun p => p_name (copy_name (name p) (last_elem path path ++ [0])) p) ;;;
  cur <- proc_at me ;;
  let oldpgdir := pgdir cur in
  upd me (p_pgdir pgdir') ;;;
  upd me (p_sz sz') ;;;
  store32 (tf cur + tf_eip) entry ;;;
  store32 (tf cur + tf_esp) sp ;;;
  cur <- proc_at me ;;
  switchuvm (Some cur) ;;;
  freevm oldpgdir.

(** [bad] with [ip] still locked, and after it was released. *)
Definition exec_bad (pgdir : Z) (ip : option nat) : M sys Z :=
  (if pgdir =? 0 then ret tt else on_kern (freevm pgdir)) ;;;
  (match ip with
   | Some i => on_fs (iunlockput i) ;;; fs_end_op
   | None => ret tt
   end) ;;;
  ret (-1).

Definition exec (path : list Z) (argv : list (list Z)) : M sys Z :=
  fs_begin_op ;;;
  cwd <- my_cwd ;;
  r <- on_fs (namei cwd path) ;;
  match r with
  | None => fs_end_op ;;; ret (-1)
  | Some ip =>
      on_fs (ilock ip) ;;;
      e <- on_fs (readi ip 0 sizeof_elfhdr) ;;
      if negb (e.1 =? sizeof_elfhdr) then exec_bad 0 (Some ip)
      else if negb (elf_magic e.2 =? ELF_MAGIC) then exec_bad 0 (Some ip)
      else
        pgdir <- on_kern setupkvm ;;
        if pgdir =? 0 then exec_bad 0 (Some ip)
        else
          r <- load_segments pgdir ip (Z.to_nat (elf_phnum e.2)) (elf_phoff e.2) 0 ;;
          match r with
          | None => exec_bad pgdir (Some ip)
          | Some sz =>
              on_fs (iunlockput ip) ;;;
              fs_end_op ;;;
              r <- on_kern (build_stack pgdir sz argv) ;;
              match r with
              | None => exec_bad pgdir None
              | Some (sz, sp) =>
                  on_kern (commit_image path pgdir sz sp (elf_entry e.2)) ;;; ret 0
              end
          end
  end.
End exec.
