(* ===== verification/Sysfile.v ===== *)
(** * The system calls on files (sysfile.c)

    Argument checking and the calls into file.c, fs.c and exec.c, every
    handler whole.  A descriptor slot holds a file index plus one, 0 for
    none; [name] buffers on the kernel stack start with unknown bytes that
    are never read past a nul. *)
From stdpp Require Import base numbers list strings.
From Stdlib Require Import ZArith Lia.
From S2P Require Import Prelude Mmu Kernel Kalloc Syscall Proc Block Log Fs File Exec.
#[local] Open Scope Z_scope.

Definition O_RDONLY : Z := 0.
Definition O_WRONLY : Z := 1.
Definition O_RDWR : Z := 2.
Definition O_CREATE : Z := 0x200.

Definition file_ptr (f : nat) : Z := Z.of_nat f + 1.
Definition name_buf : list Z := replicate 14 0.

Section sysfile.
Context `{KernelLayout} `{!KernelSymbols} `{!Devices}.

(** The descriptor and its file. *)
Definition argfd (n : Z) : M sys (option (Z * nat)) :=
  a <- on_kern (argint n) ;;
  match a with
  | None => ret None
  | Some v =>
      let fd := s32 v in
      if (fd <? 0) || (NOFILE <=? fd) then ret None
      else
        p <- on_kern myproc ;;
        match ofile p !! Z.to_nat fd with
        | None => fault "ofile index"
        | Some f => if f =? 0 then ret None else ret (Some (fd, Z.to_nat (f - 1)))
        end
  end.

(** The first free slot of [l], from [i] on. *)
Fixpoint free_slot (l : list Z) (i : nat) : option nat :=
  match l with
  | [] => None
  | f :: l' => if f =? 0 then Some i else free_slot l' (S i)
  end.

Definition set_ofile (fd : nat) (f : Z) : M kernel unit :=
  me <- curproc_ptr ;; upd me (fun p => p_ofile (<[fd := f]> (ofile p)) p).

Definition fdalloc (f : nat) : M sys Z :=
  p <- on_kern myproc ;;
  match free_slot (ofile p) 0 with
  | Some fd => on_kern (set_ofile fd (file_ptr f)) ;;; ret (Z.of_nat fd)
  | None => ret (-1)
  end.

Definition sys_dup : M sys Z :=
  a <- argfd 0 ;;
  match a with
  | None => ret (-1)
  | Some (_, f) =>
      fd <- fdalloc f ;;
      if fd <? 0 then ret (-1) else _ <- filedup f ;; ret fd
  end.

(** [argfd(0) < 0 || argint(2) < 0 || argptr(1, n) < 0] *)
Definition rw_args : M sys (option (nat * Z * Z)) :=
  a <- argfd 0 ;;
  match a with
  | None => ret None
  | Some (_, f) =>
      n <- on_kern (argint 2) ;;
      match n with
      | None => ret None
      | Some n =>
          p <- on_kern (argptr 1 (s32 n)) ;;
          match p with None => ret None | Some p => ret (Some (f, p, s32 n)) end
      end
  end.

Definition sys_read : M sys Z :=
  a <- rw_args ;;
  match a with None => ret (-1) | Some (f, p, n) => fileread f p n end.

Definition sys_write : M sys Z :=
  a <- rw_args ;;
  match a with None => ret (-1) | Some (f, p, n) => filewrite f p n end.

Definition sys_close : M sys Z :=
  a <- argfd 0 ;;
  match a with
  | None => ret (-1)
  | Some (fd, f) => on_kern (set_ofile (Z.to_nat fd) 0) ;;; fileclose f ;;; ret 0
  end.

Definition sizeof_stat : Z := 20.
Definition sys_fstat : M sys Z :=
  a <- argfd 0 ;;
  match a with
  | None => ret (-1)
  | Some (_, f) =>
      st <- on_kern (argptr 1 sizeof_stat) ;;
      match st with None => ret (-1) | Some st => filestat f st end
  end.

(** The bytes of a string argument. *)
Definition argpath (n : Z) : M sys (option (list Z)) :=
  a <- on_kern (argstr n) ;;
  match a with
  | None => ret None
  | Some (s, len) => bs <- on_kern (uload s (Z.to_nat len)) ;; ret (Some bs)
  end.

Definition upd_ip (i : nat) (f : inode -> inode) : M sys unit := on_fs (upd_inode i f).

(** [bad] of sys_link. *)
Definition link_bad (ip : nat) : M sys Z :=
  on_fs (ilock ip) ;;;
  upd_ip ip (fun x => with_nlink (s16 (i_nlink x - 1)) x) ;;;
  on_fs (iupdate ip) ;;;
  on_fs (iunlockput ip) ;;;
  fs_end_op ;;;
  ret (-1).

Definition sys_link : M sys Z :=
  old <- argpath 0 ;;
  match old with
  | None => ret (-1)
  | Some old =>
  new <- argpath 1 ;;
  match new with
  | None => ret (-1)
  | Some new =>
  fs_begin_op ;;;
  cwd <- my_cwd ;;
  r <- on_fs (namei cwd old) ;;
  match r with
  | None => fs_end_op ;;; ret (-1)
  | Some ip =>
  on_fs (ilock ip) ;;;
  x <- on_fs (get_inode ip) ;;
  if i_type x =? T_DIR then on_fs (iunlockput ip) ;;; fs_end_op ;;; ret (-1)
  else
    upd_ip ip (fun x => with_nlink (s16 (i_nlink x + 1)) x) ;;;
    on_fs (iupdate ip) ;;;
    on_fs (iunlock ip) ;;;
    cwd <- my_cwd ;;
    r <- on_fs (nameiparent cwd new name_buf) ;;
    match r with
    | (None, _) => link_bad ip
    | (Some dp, nm) =>
        on_fs (ilock dp) ;;;
        d <- on_fs (get_inode dp) ;;
        x <- on_fs (get_inode ip) ;;
        ok <- (if negb (i_dev d =? i_dev x) then ret false
               else l <- on_fs (dirlink dp nm (i_inum x)) ;; ret (0 <=? l)) ;;
        on_fs (iunlockput dp) ;;;
        if (ok : bool) then on_fs (iput ip) ;;; fs_end_op ;;; ret 0 else link_bad ip
    end
  end end end.

Definition isdirempty_iter (dp : nat) (off : Z) : M fs (Z + bool) :=
  d <- get_inode dp ;;
  if off <? i_size d then
    r <- readi dp off SIZEOF_DIRENT ;;
    if negb (r.1 =? SIZEOF_DIRENT) then panic "isdirempty: readi"
    else if negb (de_inum r.2 =? 0) then ret (inr false)
    else ret (inl (off + SIZEOF_DIRENT))
  else ret (inr true).
Definition isdirempty (dp : nat) : M fs bool :=
  d <- get_inode dp ;;
  loop (Z.to_nat (i_size d / SIZEOF_DIRENT) + 2) (isdirempty_iter dp) (2 * SIZEOF_DIRENT).

Definition dot : list Z := [46].
Definition dotdot : list Z := [46; 46].

Definition unlink_bad (dp : nat) : M sys Z :=
  on_fs (iunlockput dp) ;;; fs_end_op ;;; ret (-1).

(** sys_unlink from the entry at [off] of [dp], which names [ip]. *)
Definition unlink_entry (dp ip : nat) (off : Z) : M sys Z :=
  on_fs (ilock ip) ;;;
  x <- on_fs (get_inode ip) ;;
  if i_nlink x <? 1 then panic "unlink: nlink < 1"
  else
    e <- (if i_type x =? T_DIR then on_fs (isdirempty ip) else ret true) ;;
    if negb e then on_fs (iunlockput ip) ;;; unlink_bad dp
    else
      w <- on_fs (writei dp (replicate 16 0) off) ;;
      if negb (w =? SIZEOF_DIRENT) then panic "unlink: writei"
      else
        (if i_type x =? T_DIR then
           upd_ip dp (fun d => with_nlink (s16 (i_nlink d - 1)) d) ;;; on_fs (iupdate dp)
         else ret tt) ;;;
        on_fs (iunlockput dp) ;;;
        upd_ip ip (fun x => with_nlink (s16 (i_nlink x - 1)) x) ;;;
        on_fs (iupdate ip) ;;;
        on_fs (iunlockput ip) ;;;
        fs_end_op ;;;
        ret 0.

Definition sys_unlink : M sys Z :=
  path <- argpath 0 ;;
  match path with
  | None => ret (-1)
  | Some path =>
  fs_begin_op ;;;
  cwd <- my_cwd ;;
  r <- on_fs (nameiparent cwd path name_buf) ;;
  match r with
  | (None, _) => fs_end_op ;;; ret (-1)
  | (Some dp, nm) =>
      on_fs (ilock dp) ;;;
      if (namecmp nm dot =? 0) || (namecmp nm dotdot =? 0) then unlink_bad dp
      else
        l <- on_fs (dirlookup dp nm) ;;
        match l with
        | None => unlink_bad dp
        | Some (ip, off) => unlink_entry dp ip off
        end
  end end.

(** The new inode, linked into [dp], which is locked. *)
Definition create_new (dp : nat) (nm : list Z) (type major minor : Z) : M fs nat :=
  d <- get_inode dp ;;
  ip <- ialloc (i_dev d) type ;;
  ilock ip ;;;
  upd_inode ip (fun x => with_nlink 1 (with_devno major minor x)) ;;;
  iupdate ip ;;;
  x <- get_inode ip ;;
  (if type =? T_DIR then
     upd_inode dp (fun d => with_nlink (s16 (i_nlink d + 1)) d) ;;;
     iupdate dp ;;;
     a <- dirlink ip dot (i_inum x) ;;
     if a <? 0 then panic "create dots"
     else b <- dirlink ip dotdot (i_inum d) ;;
          if b <? 0 then panic "create dots" else ret tt
   else ret tt) ;;;
  l <- dirlink dp nm (i_inum x) ;;
  if l <? 0 then panic "create: dirlink"
  else iunlockput dp ;;; ret ip.

Definition create (cwd : nat) (path : list Z) (type major minor : Z) : M fs (option nat) :=
  r <- nameiparent cwd path name_buf ;;
  match r with
  | (None, _) => ret None
  | (Some dp, nm) =>
      ilock dp ;;;
      l <- dirlookup dp nm ;;
      match l with
      | Some (ip, _) =>
          iunlockput dp ;;;
          ilock ip ;;;
          x <- get_inode ip ;;
          if (type =? T_FILE) && (i_type x =? T_FILE) then ret (Some ip)
          else iunlockput ip ;;; ret None
      | None => ip <- create_new dp nm type major minor ;; ret (Some ip)
      end
  end.

(** The inode that open works on, locked, or a failure. *)
Definition open_inode (path : list Z) (omode : Z) : M sys (option nat) :=
  cwd <- my_cwd ;;
  if negb (Z.land omode O_CREATE =? 0) then on_fs (create cwd path T_FILE 0 0)
  else
    r <- on_fs (namei cwd path) ;;
    match r with
    | None => ret None
    | Some ip =>
        on_fs (ilock ip) ;;;
        x <- on_fs (get_inode ip) ;;
        if (i_type x =? T_DIR) && negb (omode =? O_RDONLY)
        then on_fs (iunlockput ip) ;;; ret None
        else ret (Some ip)
    end.

Definition sys_open : M sys Z :=
  path <- argpath 0 ;;
  match path with
  | None => ret (-1)
  | Some path =>
  om <- on_kern (argint 1) ;;
  match om with
  | None => ret (-1)
  | Some omode =>
  fs_begin_op ;;;
  r <- open_inode path omode ;;
  match r with
  | None => fs_end_op ;;; ret (-1)
  | Some ip =>
      f <- filealloc ;;
      match f with
      | None => on_fs (iunlockput ip) ;;; fs_end_op ;;; ret (-1)
      | Some f =>
          fd <- fdalloc f ;;
          if fd <? 0 then fileclose f ;;; on_fs (iunlockput ip) ;;; fs_end_op ;;; ret (-1)
          else
            on_fs (iunlock ip) ;;;
            fs_end_op ;;;
            x <- get_file f ;;
            let w := negb (Z.land omode O_WRONLY =? 0) in
            set_file f (mkfile FD_INODE (f_ref x) (negb w)
                               (w || negb (Z.land omode O_RDWR =? 0)) (f_pipe x) ip 0) ;;;
            ret fd
      end
  end end end.

(** Ends mkdir and mknod: the new inode is unlocked and let go. *)
Definition made (r : option nat) : M sys Z :=
  match r with
  | None => fs_end_op ;;; ret (-1)
  | Some ip => on_fs (iunlockput ip) ;;; fs_end_op ;;; ret 0
  end.

Definition sys_mkdir : M sys Z :=
  fs_begin_op ;;;
  path <- argpath 0 ;;
  match path with
  | None => fs_end_op ;;; ret (-1)
  | Some path => cwd <- my_cwd ;; r <- on_fs (create cwd path T_DIR 0 0) ;; made r
  end.

Definition sys_mknod : M sys Z :=
  fs_begin_op ;;;
  path <- argpath 0 ;;
  match path with
  | None => fs_end_op ;;; ret (-1)
  | Some path =>
  major <- on_kern (argint 1) ;;
  match major with
  | None => fs_end_op ;;; ret (-1)
  | Some major =>
  minor <- on_kern (argint 2) ;;
  match minor with
  | None => fs_end_op ;;; ret (-1)
  | Some minor =>
      cwd <- my_cwd ;; r <- on_fs (create cwd path T_DEV (s16 major) (s16 minor)) ;; made r
  end end end.

Definition sys_chdir : M sys Z :=
  fs_begin_op ;;;
  path <- argpath 0 ;;
  match path with
  | None => fs_end_op ;;; ret (-1)
  | Some path =>
  cwd <- my_cwd ;;
  r <- on_fs (namei cwd path) ;;
  match r with
  | None => fs_end_op ;;; ret (-1)
  | Some ip =>
      on_fs (ilock ip) ;;;
      x <- on_fs (get_inode ip) ;;
      if negb (i_type x =? T_DIR) then on_fs (iunlockput ip) ;;; fs_end_op ;;; ret (-1)
      else
        on_fs (iunlock ip) ;;;
        on_fs (iput cwd) ;;;
        fs_end_op ;;;
        on_kern (me <- curproc_ptr ;; upd me (p_cwd (Z.of_nat ip + 1))) ;;;
        ret 0
  end end.

(** The argument vector of exec: the strings up to the null pointer. *)
Fixpoint fetch_argv (n : nat) (uargv : Z) : M kernel (option (list (list Z))) :=
  match n with
  | O => ret None
  | S n' =>
      a <- fetchint uargv ;;
      match a with
      | None => ret None
      | Some uarg =>
          if uarg =? 0 then ret (Some [])
          else
            s <- fetchstr uarg ;;
            match s with
            | None => ret None
            | Some (p, len) =>
                bs <- uload p (Z.to_nat len) ;;
                r <- fetch_argv n' (u32 (uargv + 4)) ;;
                match r with None => ret None | Some l => ret (Some (bs :: l)) end
            end
      end
  end.

Definition sys_exec : M sys Z :=
  path <- argpath 0 ;;
  match path with
  | None => ret (-1)
  | Some path =>
  u <- on_kern (argint 1) ;;
  match u with
  | None => ret (-1)
  | Some uargv =>
      argv <- on_kern (fetch_argv (Z.to_nat MAXARG) uargv) ;;
      match argv with None => ret (-1) | Some argv => exec path argv end
  end end.

Definition pipe_undo (rf wf : nat) : M sys Z :=
  fileclose rf ;;; fileclose wf ;;; ret (-1).

Definition sys_pipe : M sys Z :=
  a <- on_kern (argptr 0 8) ;;
  match a with
  | None => ret (-1)
  | Some fd =>
      r <- pipealloc ;;
      match r with
      | None => ret (-1)
      | Some (rf, wf) =>
          fd0 <- fdalloc rf ;;
          if fd0 <? 0 then pipe_undo rf wf
          else
            fd1 <- fdalloc wf ;;
            if fd1 <? 0 then on_kern (set_ofile (Z.to_nat fd0) 0) ;;; pipe_undo rf wf
            else
              on_kern (ustore fd (le_split 4 fd0)) ;;;
              on_kern (ustore (u32 (fd + 4)) (le_split 4 fd1)) ;;;
              ret 0
      end
  end.
End sysfile.
