(* ===== verification/Umalloc.v ===== *)
(** * umalloc.c: the allocator of user programs

    The circular list of free blocks of Kernighan and Ritchie, threaded
    through the heap.  Memory is a map from the addresses of 4-byte words to
    their contents; a header is the word of [s.ptr] and, 4 bytes on, the word of
    [s.size]; a block of [n] units is its 8-byte header and [n - 1] more units.
    An access outside the static header [base] and the heap is a fault.
    [sbrk] is the system call as sysproc.c and proc.c implement it; whether
    the kernel has the memory is the parameter [grants]. *)
From stdpp Require Import base numbers list list_numbers sets relations strings.
From Stdlib Require Import ZArith Lia.
From S2P Require Import Prelude.
#[local] Open Scope Z_scope.

(** Membership and inclusion of lists; the second attempt uses the context. *)
Ltac lset := solve [clear; set_solver | set_solver].

Record heap := mkheap { words : Z -> Z; freep : Z; brk : Z }.
Definition set_word (a v : Z) (h : heap) : heap :=
  mkheap (fun w => if w =? a then v else words h w) (freep h) (brk h).
Definition set_freep (p : Z) (h : heap) : heap := mkheap (words h) p (brk h).
Definition set_brk (b : Z) (h : heap) : heap := mkheap (words h) (freep h) b.

Definition KERNBASE : Z := 0x80000000.
Definition SIZEOF_HEADER : Z := 8.

Section umalloc.
(** The address of the static header, and where the heap starts. *)
Context (base start : Z) (grants : Z -> Z -> bool).

Definition valid (h : heap) (a : Z) : bool :=
  (a =? base) || (a =? base + 4) || ((start <=? a) && (a + 4 <=? brk h)).
Definition ld (a : Z) : M heap Z := fun h => if valid h a then Ret (words h a) h else Fault "load" h.
Definition st (a v : Z) : M heap unit := fun h => if valid h a then Ret tt (set_word a v h) else Fault "store" h.
Definition ptr (p : Z) : M heap Z := ld p.
Definition size (p : Z) : M heap Z := ld (p + 4).

(** Pointer arithmetic on headers: [p + n]. *)
Definition adv (p n : Z) : Z := u32 (p + SIZEOF_HEADER * n).

(** sys_sbrk and growproc; -1 is failure. *)
Definition sbrk (n : Z) : M heap Z := fun h =>
  let n := s32 n in
  let sz := brk h in
  if 0 <? n then
    if KERNBASE <=? u32 (sz + n) then Ret (-1) h
    else if u32 (sz + n) <? sz then Ret sz h
    else if grants sz n then Ret sz (set_brk (u32 (sz + n)) h) else Ret (-1) h
  else if n <? 0 then
    if sz <=? u32 (sz + n) then Ret sz h
    else if u32 (sz + n) =? 0 then Ret (-1) h else Ret sz (set_brk (u32 (sz + n)) h)
  else Ret sz h.

(** The search of [free] for the place of [bp]. *)
Definition free_iter (bp p : Z) : M heap (Z + Z) :=
  nx <- ptr p ;;
  if (p <? bp) && (bp <? nx) then ret (inr p)
  else if (nx <=? p) && ((p <? bp) || (bp <? nx)) then ret (inr p)
  else ret (inl nx).

(** Joining [bp] to its upper and to its lower neighbour. *)
Definition join_up (bp p : Z) : M heap unit :=
  nx <- ptr p ;;
  n <- size bp ;;
  if adv bp n =? nx then
    n2 <- size nx ;;
    st (bp + 4) (u32 (n + n2)) ;;;
    q <- ptr nx ;;
    st bp q
  else st bp nx.

Definition join_down (bp p : Z) : M heap unit :=
  np <- size p ;;
  if adv p np =? bp then
    n <- size bp ;;
    st (p + 4) (u32 (np + n)) ;;;
    q <- ptr bp ;;
    st p q
  else st p bp.

Definition free (ap : Z) : M heap unit :=
  let bp := u32 (ap - SIZEOF_HEADER) in
  p <- gets freep ;;
  fuel <- gets (fun h => Z.to_nat (brk h)) ;;
  p <- loop fuel (free_iter bp) p ;;
  join_up bp p ;;;
  join_down bp p ;;;
  modify (set_freep p).

Definition morecore (nu : Z) : M heap Z :=
  let nu := if nu <? 4096 then 4096 else nu in
  p <- sbrk (u32 (nu * SIZEOF_HEADER)) ;;
  if p =? -1 then ret 0
  else
    st (p + 4) nu ;;;
    free (adv p 1) ;;;
    gets freep.

(** [p] is large enough: unlink it, or cut off its tail. *)
Definition take_block (nunits prevp p n : Z) : M heap Z :=
  if n =? nunits then
    q <- ptr p ;;
    st prevp q ;;;
    modify (set_freep prevp) ;;;
    ret (adv p 1)
  else
    st (p + 4) (u32 (n - nunits)) ;;;
    let p := adv p (u32 (n - nunits)) in
    st (p + 4) nunits ;;;
    modify (set_freep prevp) ;;;
    ret (adv p 1).

Definition malloc_iter (nunits : Z) (x : Z * Z) : M heap (Z * Z + Z) :=
  let '(prevp, p) := x in
  n <- size p ;;
  if nunits <=? n then r <- take_block nunits prevp p n ;; ret (inr r)
  else
    f <- gets freep ;;
    if p =? f then
      p <- morecore nunits ;;
      if p =? 0 then ret (inr 0) else q <- ptr p ;; ret (inl (p, q))
    else q <- ptr p ;; ret (inl (p, q)).

Definition units (nbytes : Z) : Z := u32 (u32 (nbytes + SIZEOF_HEADER - 1) / SIZEOF_HEADER + 1).

Definition malloc (nbytes : Z) : M heap Z :=
  let nunits := units nbytes in
  f <- gets freep ;;
  (if f =? 0 then modify (set_freep base) ;;; st base base ;;; st (base + 4) 0 else ret tt) ;;;
  prevp <- gets freep ;;
  p <- ptr prevp ;;
  fuel <- gets (fun h => Z.to_nat (2 * brk h)) ;;
  loop fuel (malloc_iter nunits) (prevp, p).

(** ** Blocks

    A block is its address and its size in units. *)
Notation block := (Z * Z)%type.
Definition blk_end (x : block) : Z := x.1 + 8 * x.2.
Definition apart (x y : block) : Prop := blk_end x <= y.1 \/ blk_end y <= x.1.

(** Pairwise disjoint. *)
Fixpoint aparts (l : list block) : Prop :=
  match l with
  | [] => True
  | x :: l => Forall (apart x) l /\ aparts l
  end.

(** In increasing order, with a gap between neighbours. *)
Fixpoint gaps (l : list block) : Prop :=
  match l with
  | [] => True
  | x :: l => Forall (fun y => blk_end x < y.1) l /\ gaps l
  end.

Definition total_units (l : list block) : Z := foldr (fun x n => x.2 + n) 0 l.
Definition in_heap (b : Z) (x : block) : Prop := 1 <= x.2 /\ start <= x.1 /\ blk_end x <= b /\ x.1 `mod` 4 = 0.

(** The blocks [l] fill the heap exactly. *)
Record tiles (b : Z) (l : list block) : Prop := {
  t_in : Forall (in_heap b) l;
  t_apart : aparts l;
  t_sum : 8 * total_units l = b - start }.

Lemma apart_sym x y : apart x y -> apart y x.
Proof. unfold apart. tauto. Qed.

#[local] Instance aparts_perm : Proper ((≡ₚ) ==> iff) aparts.
Proof.
  intros l l' H. induction H as [|x l l' Hp IH|x y l|l1 l2 l3 _ IH1 _ IH2]; cbn; [done|by rewrite IH, Hp| |by rewrite IH1].
  rewrite !Forall_cons. split; intros [[H1 H2] [H3 H4]]; auto using apart_sym.
Qed.
#[local] Instance total_units_perm : Proper ((≡ₚ) ==> (=)) total_units.
Proof. unfold total_units. intros l l' H. induction H; cbn; lia. Qed.
#[local] Instance tiles_perm b : Proper ((≡ₚ) ==> iff) (tiles b).
Proof.
  assert (G : forall l l', l ≡ₚ l' -> tiles b l -> tiles b l').
  { intros l l' H [H1 H2 H3]. split; [by rewrite <- H|by rewrite <- H|by rewrite <- H]. }
  intros l l' H. split; apply G; [done|by symmetry].
Qed.

Lemma gaps_app l1 l2 : gaps (l1 ++ l2) <-> gaps l1 /\ gaps l2 /\ Forall (fun x => Forall (fun y => blk_end x < y.1) l2) l1.
Proof.
  induction l1 as [|x l1 IH]; cbn; [split; [intros; auto|tauto]|]. rewrite Forall_app, Forall_cons, IH. tauto.
Qed.

(** Cutting a block in two, and joining two neighbours. *)
Lemma tiles_split b x k l : 0 < k < x.2 -> tiles b (x :: l) <-> tiles b ((x.1, x.2 - k) :: (x.1 + 8 * (x.2 - k), k) :: l).
Proof.
  intros Hk. destruct x as [a n]. cbn in Hk |- *. split; intros [HI HA HS]; unfold in_heap, blk_end in HI; cbn [total_units foldr fst snd] in HS.
  - apply Forall_cons in HI as [Hx HI]. destruct HA as [HA HB]. cbn [fst snd] in *. split.
    + repeat apply Forall_cons_2; [| |done]; unfold in_heap, blk_end; cbn [fst snd]; repeat split; try lia; dlia.
    + cbn [aparts]. rewrite Forall_cons. repeat split; [left; unfold blk_end; cbn; lia| | |done];
        (eapply Forall_impl; [exact HA|]); unfold apart, blk_end; cbn; intros; lia.
    + cbn [total_units foldr fst snd] in *. lia.
  - rewrite !Forall_cons in HI. destruct HI as (Hx & Hy & HI). cbn [aparts] in HA. rewrite Forall_cons in HA.
    destruct HA as ((_ & HA) & HB & HC). cbn [fst snd] in *. split.
    + apply Forall_cons_2; [|done]. unfold in_heap, blk_end; cbn [fst snd]. repeat split; lia.
    + cbn [aparts]. split; [|done]. rewrite Forall_forall in *. intros y Hin. specialize (HA y Hin). specialize (HB y Hin).
      specialize (HI y Hin). unfold apart, blk_end in *. cbn [fst snd] in *. lia.
    + cbn [total_units foldr fst snd] in *. lia.
Qed.

(** ** The list of free blocks *)

(** The address of the first block of [l], or [e] when there is none. *)
Definition first (l : list block) (e : Z) : Z := match l with y :: _ => y.1 | [] => e end.

(** Each block of [l] points to the next, the last one to [e]. *)
Fixpoint chain (m : Z -> Z) (l : list block) (e : Z) : Prop :=
  match l with
  | [] => True
  | x :: l => m x.1 = first l e /\ chain m l e
  end.

Definition sized (m : Z -> Z) (x : block) : Prop := m (x.1 + 4) = x.2.

(** The free blocks [F], in the order of their addresses, and the blocks [A]
    handed out. *)
Record inv (h : heap) (F A : list block) : Prop := {
  i_chain : chain (words h) ((base, 0) :: F) base;
  i_sizes : Forall (sized (words h)) ((base, 0) :: F ++ A);
  i_tiles : tiles (brk h) (F ++ A);
  i_gaps : gaps F;
  i_freep : exists n, (freep h, n) ∈ (base, 0) :: F;
  i_brk : start <= brk h < KERNBASE }.

Context (Hbase : 0 < base) (Hstart : base + 8 <= start < KERNBASE) (Halign : start `mod` 4 = 0).

Lemma first_app l1 l2 e : first (l1 ++ l2) e = first l1 (first l2 e).
Proof. by destruct l1. Qed.
Lemma circle_app m l1 l2 e : chain m (l1 ++ l2) e <-> chain m l1 (first l2 e) /\ chain m l2 e.
Proof. induction l1 as [|x l1 IH]; cbn; [tauto|]. rewrite IH, first_app. tauto. Qed.
Lemma circle_ext m m' l e : Forall (fun x => m' x.1 = m x.1) l -> chain m l e -> chain m' l e.
Proof. induction 1 as [|x l Hx Hl IH]; cbn; [done|]. rewrite Hx. tauto. Qed.

(** The list seen from one of its blocks is a circle. *)
Lemma chain_rotate m r1 f r2 : chain m (r1 ++ f :: r2) base -> first (r1 ++ f :: r2) base = base -> chain m (f :: r2 ++ r1) f.1.
Proof.
  intros Hc Hb. apply circle_app in Hc as [H1 H2]. cbn [first] in H1. rewrite app_comm_cons. apply circle_app. split; [|done].
  destruct r1 as [|y r1]; cbn [app first] in *; by rewrite Hb.
Qed.

Lemma gaps_in h F A y : inv h F A -> y ∈ F ++ A -> start <= y.1 /\ 1 <= y.2 /\ blk_end y <= brk h < KERNBASE.
Proof. intros Hi Hy. destruct (proj1 (Forall_forall _ _) (t_in _ _ (i_tiles _ _ _ Hi)) y Hy) as (? & ? & ? & ?). pose proof (i_brk _ _ _ Hi). lia. Qed.

Lemma valid_in h (y : block) : y.1 = base \/ in_heap (brk h) y -> valid h y.1 = true /\ valid h (y.1 + 4) = true.
Proof.
  unfold valid. intros [->|(H1 & H2 & H3 & _)]; [by rewrite !Z.eqb_refl, orb_true_r|]. unfold blk_end in *.
  destruct (Z.leb_spec start y.1), (Z.leb_spec start (y.1 + 4)), (Z.leb_spec (y.1 + 4) (brk h)), (Z.leb_spec (y.1 + 4 + 4) (brk h));
      cbn [andb]; try lia; by rewrite !orb_true_r.
Qed.

Lemma valid_hdr h F A y : inv h F A -> y ∈ (base, 0) :: F ++ A -> valid h y.1 = true /\ valid h (y.1 + 4) = true.
Proof.
  intros Hi Hy. apply valid_in. apply elem_of_cons in Hy as [->|Hy]; [by left|right].
  apply (proj1 (Forall_forall _ _) (t_in _ _ (i_tiles _ _ _ Hi)) y Hy).
Qed.

(** The steps of a loop that only walks. *)
Fixpoint walks {S X R} (body : X -> M S (X + R)) (s : S) (l : list X) (z : X) : Prop :=
  match l with
  | [] => True
  | x :: l => body x s = Ret (inl (hd z l)) s /\ walks body s l z
  end.
Lemma loop_walks {S X R} (body : X -> M S (X + R)) s l z n : walks body s l z ->
  loop (length l + n) body (hd z l) s = loop n body z s.
Proof.
  induction l as [|x l IH]; cbn [walks length hd Nat.add]; [done|]. intros [E Hw]. cbn [loop]. unfold bind. rewrite E. by apply IH.
Qed.

Lemma chain_next m l1 y l2 e : chain m (l1 ++ y :: l2) e -> m y.1 = first l2 e.
Proof. intros Hc. apply circle_app in Hc as [_ Hc]. apply Hc. Qed.

(** The whole circle, [base] first. *)
Lemma gaps_base h F A : inv h F A -> gaps ((base, 0) :: F) /\ Forall (fun y => base <= y.1 /\ 0 <= y.2) ((base, 0) :: F).
Proof.
  intros Hi. assert (Hin : Forall (fun y => start <= y.1 /\ 1 <= y.2) F).
  { apply Forall_forall. intros y Hy. destruct (gaps_in _ _ _ y Hi ltac:(apply elem_of_app; by left)); tauto. }
  split; [split; [|apply (i_gaps _ _ _ Hi)]|apply Forall_cons_2; [cbn; lia|]]; (eapply Forall_impl; [exact Hin|]);
    unfold blk_end; cbn; lia.
Qed.

Lemma circle_lt l1 y l2 z : gaps (l1 ++ y :: l2) -> Forall (fun y => base <= y.1 /\ 0 <= y.2) (l1 ++ y :: l2) -> z ∈ l2 -> y.1 < z.1.
Proof.
  intros Hg Hp Hz. apply gaps_app in Hg as (_ & [Hg _] & _). apply Forall_app in Hp as [_ Hp]. apply Forall_cons in Hp as [[_ Hp] _].
  pose proof (proj1 (Forall_forall _ _) Hg z Hz). unfold blk_end in *. cbn in *. lia.
Qed.

Lemma first_in l e : first l e ∈ l.*1 ++ [e].
Proof. destruct l; left. Qed.

(** What [free] finds at each block, when the blocks up to [p] are below [bp]
    and those of [F2] above. *)
Lemma free_iter_at h F A x y u p F2 : inv h F (x :: A) -> (base, 0) :: F = u ++ p :: F2 ->
  Forall (fun y => y.1 < x.1) (u ++ [p]) -> Forall (fun y => x.1 < y.1) F2 -> y ∈ u ++ p :: F2 ->
  free_iter x.1 y.1 h = Ret (if decide (y = p) then inr p.1 else inl (words h y.1)) h.
Proof.
  intros Hi HR H1 H2 Hy. unfold free_iter, ptr, ld, bind.
  assert (Hv : y ∈ (base, 0) :: F ++ x :: A) by (rewrite app_comm_cons, HR; apply elem_of_app; by left).
  rewrite (proj1 (valid_hdr _ _ _ y Hi Hv)). pose proof (i_chain _ _ _ Hi) as Hc. destruct (gaps_base _ _ _ Hi) as [Hg Hpos].
  destruct (gaps_in _ _ _ x Hi ltac:(apply elem_of_app; right; left)) as (Hx1 & _ & _).
  rewrite HR in Hc, Hg, Hpos. pose proof (proj1 (Forall_forall _ _) Hpos y Hy) as [Hle _].
  assert (Hcase : y = p /\ y.1 < x.1 /\ (words h y.1 = base \/ x.1 < words h y.1) \/
    y <> p /\ (y.1 < words h y.1 < x.1 \/ x.1 < y.1 /\ (words h y.1 = base \/ y.1 < words h y.1))).
  { apply elem_of_app in Hy as [Hy|Hy]; [|apply elem_of_cons in Hy as [->|Hy]].
    - apply list_elem_of_split in Hy as (u1 & u2 & ->). right. rewrite <- app_assoc in Hc, Hg, Hpos. cbn [app] in Hc, Hg, Hpos.
      rewrite (chain_next _ _ _ _ _ Hc), first_app. cbn [first].
      assert (Hlt : forall z, z ∈ u2 ++ [p] -> y.1 < z.1 < x.1).
      { intros z Hz. split.
        - apply (circle_lt _ _ _ z Hg Hpos). rewrite elem_of_app, elem_of_cons in *. lset.
        - apply (proj1 (Forall_forall _ _) H1). lset. }
      split; [intros ->; specialize (Hlt p ltac:(lset)); lia|left]. destruct u2 as [|z u2]; cbn [first]; apply Hlt; lset.
    - left. rewrite (chain_next _ _ _ _ _ Hc). split; [done|]. split; [apply (proj1 (Forall_forall _ _) H1); lset|].
      destruct F2 as [|z F2]; [by left|right]. by inversion H2.
    - right. assert (Hyp : x.1 < y.1) by (by apply (proj1 (Forall_forall _ _) H2)).
      assert (p.1 < x.1) by (apply (proj1 (Forall_forall _ _) H1); lset).
      split; [intros ->; lia|right]. split; [done|]. apply list_elem_of_split in Hy as (v1 & v2 & ->).
      rewrite app_comm_cons, app_assoc in Hc, Hg, Hpos. rewrite (chain_next _ _ _ _ _ Hc).
      destruct v2 as [|z v2]; [by left|right]. apply (circle_lt _ _ _ z Hg Hpos). left. }
  destruct (Z.ltb_spec y.1 x.1), (Z.ltb_spec x.1 (words h y.1)), (Z.leb_spec (words h y.1) y.1); cbn [andb orb];
    (destruct (decide (y = p)) as [->|]; [first [reflexivity|exfalso; intuition lia]|first [reflexivity|exfalso; intuition lia]]).
Qed.

Lemma units_length h F A : inv h F A -> 8 * Z.of_nat (length F) <= brk h - start.
Proof.
  intros Hi. rewrite <- (t_sum _ _ (i_tiles _ _ _ Hi)).
  assert (G : forall l, Forall (in_heap (brk h)) l -> Z.of_nat (length l) <= total_units l).
  { induction 1 as [|y l (Hy & _) _ IH]; cbn in *; [lia|]. unfold total_units in IH. lia. }
  specialize (G (F ++ A) (t_in _ _ (i_tiles _ _ _ Hi))). rewrite length_app in G. lia.
Qed.

(** Walking the circle from the block [f] until the first block [p] that the
    body stops at. *)
Lemma circle_walks {R} (body : Z -> M heap (Z + R)) h F A f : inv h F A -> f ∈ (base, 0) :: F ->
  forall p, p ∈ (base, 0) :: F -> (forall y, y ∈ (base, 0) :: F -> y <> p -> body y.1 h = Ret (inl (words h y.1)) h) ->
  exists l, walks body h l p.1 /\ hd p.1 l = f.1 /\ (length l <= length F)%nat.
Proof.
  intros Hi Hf p Hp Hb. apply list_elem_of_split in Hf as (r1 & r2 & HR). pose proof (i_chain _ _ _ Hi) as Hc.
  rewrite HR in Hc. apply chain_rotate in Hc; [|by rewrite <- HR].
  assert (Hperm : (base, 0) :: F ≡ₚ f :: r2 ++ r1) by (rewrite HR; symmetry; apply (Permutation_app_comm (f :: r2) r1)).
  assert (Hin : forall y, y ∈ f :: r2 ++ r1 -> y ∈ (base, 0) :: F) by (intros y; by rewrite Hperm).
  pose proof (Permutation_length Hperm) as Hlen. rewrite Hperm in Hp.
  apply list_elem_of_split_l in Hp as (l1 & l2 & E & Hnp). rewrite E in Hc, Hin, Hlen. exists l1.*1. split; [|split].
  - clear E Hlen HR Hperm. induction l1 as [|y l1 IH]; cbn [walks fmap list_fmap] in *; [done|]. destruct Hc as [Hn Hc].
    split; [|apply IH; lset]. rewrite Hb by lset. rewrite Hn, first_app. cbn [first]. by destruct l1.
  - destruct l1 as [|y l1]; cbn in E |- *; by injection E as -> _.
  - rewrite length_fmap. rewrite length_app in Hlen. cbn in Hlen. lia.
Qed.

Lemma free_search h F A x u p F2 : inv h F (x :: A) -> (base, 0) :: F = u ++ p :: F2 ->
  Forall (fun y => y.1 < x.1) (u ++ [p]) -> Forall (fun y => x.1 < y.1) F2 ->
  loop (Z.to_nat (brk h)) (free_iter x.1) (freep h) h = Ret p.1 h.
Proof.
  intros Hi HR H1 H2. pose proof (fun y => free_iter_at h F A x y u p F2 Hi HR H1 H2) as Hat. rewrite <- HR in Hat.
  destruct (i_freep _ _ _ Hi) as [n Hf]. assert (Hp : p ∈ (base, 0) :: F) by (rewrite HR; lset).
  destruct (circle_walks (free_iter x.1) h F (x :: A) (freep h, n) Hi Hf p Hp) as (l & Hw & Hh & Hl).
  { intros y Hy Hne. by rewrite Hat, decide_False. }
  pose proof (units_length _ _ _ Hi). pose proof (i_brk _ _ _ Hi).
  replace (Z.to_nat (brk h)) with (length l + S (Z.to_nat (brk h) - S (length l)))%nat by lia.
  change (freep h) with (freep h, n).1. rewrite <- Hh, loop_walks by done. cbn [loop]. unfold bind.
  by rewrite Hat, decide_True.
Qed.

(** ** Writing headers *)
Lemma valid_set a v h w : valid (set_word a v h) w = valid h w.
Proof. reflexivity. Qed.
Lemma words_eq a v h : words (set_word a v h) a = v.
Proof. cbn. by rewrite Z.eqb_refl. Qed.
Lemma words_ne a v h w : w <> a -> words (set_word a v h) w = words h w.
Proof. intros. cbn. by rewrite (proj2 (Z.eqb_neq w a)). Qed.

Lemma chain_set a v h l e : Forall (fun y => y.1 <> a) l -> chain (words h) l e -> chain (words (set_word a v h)) l e.
Proof. intros Hl. apply circle_ext. eapply Forall_impl; [exact Hl|]. intros y Hy. by apply words_ne. Qed.
Lemma sized_set a v h l : Forall (fun y => y.1 + 4 <> a) l -> Forall (sized (words h)) l -> Forall (sized (words (set_word a v h))) l.
Proof.
  intros Hl Hs. rewrite Forall_forall in *. intros y Hy. unfold sized. rewrite words_ne by auto. by apply Hs.
Qed.

(** The header of a block and those of the others do not overlap, and lie
    outside of the other blocks. *)
Definition far (x y : block) : Prop := x.1 + 8 <= y.1 \/ y.1 + 8 <= x.1.
Definition spares (x y : block) : Prop := forall w, y.1 <= w < blk_end y -> w <> x.1 /\ w <> x.1 + 4.
Lemma tiles_far b x l : tiles b (x :: l) -> Forall (far x) ((base, 0) :: l) /\ Forall (spares x) l.
Proof.
  intros [HI [HA _] _]. apply Forall_cons in HI as [(Hx1 & Hx2 & _) HI]. unfold far, spares. rewrite Forall_cons. cbn [fst]. split; [split; [lia|]|];
    rewrite Forall_forall in *; intros y Hy; destruct (HI y Hy) as (Hy1 & _); specialize (HA y Hy); unfold apart, blk_end in *; lia.
Qed.

(** Words of the blocks [A] are unchanged. *)
Definition kept (A : list block) (h h' : heap) : Prop :=
  forall y w, y ∈ A -> y.1 <= w < blk_end y -> words h' w = words h w.
Lemma kept_refl A h : kept A h h.
Proof. intros y w _ _. reflexivity. Qed.
Lemma kept_trans A h h' h'' : kept A h h' -> kept A h' h'' -> kept A h h''.
Proof. intros H1 H2 y w Hy Hw. by rewrite (H2 y w Hy Hw), (H1 y w Hy Hw). Qed.
Lemma kept_hdr x A h v : Forall (spares x) A -> kept A h (set_word x.1 v h) /\ kept A h (set_word (x.1 + 4) v h).
Proof. intros Hf. split; intros y w Hy Hw; pose proof (proj1 (Forall_forall _ _) Hf y Hy w Hw); apply words_ne; tauto. Qed.

(** While [free] runs: [x] has joined the blocks above, [F1] still leads
    elsewhere. *)
Record half (h : heap) (F1 : list block) (x : block) (F2 A : list block) : Prop := {
  h_chain1 : exists e, chain (words h) ((base, 0) :: F1) e;
  h_chain2 : chain (words h) (x :: F2) base;
  h_sizes : Forall (sized (words h)) ((base, 0) :: F1 ++ x :: F2 ++ A);
  h_tiles : tiles (brk h) (F1 ++ x :: F2 ++ A);
  h_below : Forall (fun y => blk_end y <= x.1) F1;
  h_gaps1 : gaps F1;
  h_gaps2 : gaps (x :: F2);
  h_brk : start <= brk h < KERNBASE }.

Lemma adv_small x b : start <= b < KERNBASE -> in_heap b x -> adv x.1 x.2 = blk_end x.
Proof. intros Hb (H1 & H2 & H3 & _). unfold adv, SIZEOF_HEADER, blk_end, KERNBASE in *. apply u32_small. lia. Qed.

Lemma forall_sub {X} (P : X -> Prop) (l l' : list X) : l' ⊆ l -> Forall P l -> Forall P l'.
Proof. rewrite !Forall_forall. intros Hl H y Hy. by apply H, Hl. Qed.

(** A header write does not disturb the list or the sizes of the others. *)
Lemma hdr_frame (x : block) L h v : Forall (far x) L ->
  (forall l e, l ⊆ L -> chain (words h) l e -> chain (words (set_word x.1 v h)) l e /\ chain (words (set_word (x.1 + 4) v h)) l e) /\
  (forall l, l ⊆ L -> Forall (sized (words h)) l -> Forall (sized (words (set_word x.1 v h))) l /\ Forall (sized (words (set_word (x.1 + 4) v h))) l).
Proof.
  intros Hf. split.
  - intros l e Hl Hc. split; apply chain_set; try done; apply Forall_forall; intros y Hy;
      pose proof (proj1 (Forall_forall _ _) Hf y (Hl y Hy)) as H; unfold far in H; lia.
  - intros l Hl Hc. split; apply sized_set; try done; apply Forall_forall; intros y Hy;
      pose proof (proj1 (Forall_forall _ _) Hf y (Hl y Hy)) as H; unfold far in H; lia.
Qed.

Lemma forall_mid {X} (P : X -> Prop) l1 x l2 : P x -> Forall P (l1 ++ l2) -> Forall P (l1 ++ x :: l2).
Proof. rewrite !Forall_app, Forall_cons. tauto. Qed.

Lemma gaps_above x F : gaps F -> Forall (fun y => 0 <= y.2) F -> Forall (fun y => blk_end x <= y.1) F -> blk_end x <> first F (blk_end x - 1) ->
  gaps (x :: F).
Proof.
  intros Hg Hp Hle Hne. split; [|done]. destruct F as [|z F]; [done|]. cbn [first gaps] in *. destruct Hg as [Hg _].
  apply Forall_cons in Hle as [Hz _]. apply Forall_cons in Hp as [Hp _]. apply Forall_cons_2; [lia|].
  eapply Forall_impl; [exact Hg|]. unfold blk_end in *. cbn. lia.
Qed.

Lemma join_tiles b x z l : blk_end x = z.1 -> tiles b (x :: z :: l) -> tiles b ((x.1, x.2 + z.2) :: l).
Proof.
  intros E Ht. assert (Hp : 1 <= x.2 /\ 1 <= z.2).
  { pose proof (t_in _ _ Ht) as HI. rewrite !Forall_cons in HI. unfold in_heap in HI. lia. }
  apply (tiles_split b (x.1, x.2 + z.2) z.2); cbn [fst snd]; [lia|].
  replace (x.2 + z.2 - z.2) with x.2 by lia. unfold blk_end in E. rewrite E. by destruct x, z.
Qed.

Lemma join_up_ok h F1 F2 A x p u : inv h (F1 ++ F2) (x :: A) -> (base, 0) :: F1 = u ++ [p] ->
  Forall (fun y => blk_end y <= x.1) F1 -> Forall (fun y => blk_end x <= y.1) F2 ->
  exists h' x' F2', join_up x.1 p.1 h = Ret tt h' /\ half h' F1 x' F2' A /\ x'.1 = x.1 /\ x.2 <= x'.2 /\
    (length F2' <= length F2)%nat /\ brk h' = brk h /\ kept A h h'.
Proof.
  intros [Hc Hs Ht Hg Hf Hb] Hu H1 H2.
  assert (Ht' : tiles (brk h) (x :: F1 ++ F2 ++ A)) by (revert Ht; apply tiles_perm; solve_Permutation).
  pose proof (t_in _ _ Ht') as HI. apply Forall_cons in HI as [Hx HI].
  assert (Hp : p.1 = base \/ in_heap (brk h) p).
  { assert (Hin : p ∈ (base, 0) :: F1) by (rewrite Hu; lset). apply elem_of_cons in Hin as [->|Hin]; [by left|right].
    apply (proj1 (Forall_forall _ _) HI). lset. }
  destruct (tiles_far _ _ _ Ht') as [Hfar Hsp]. assert (HspA : Forall (spares x) A) by (eapply forall_sub; [|exact Hsp]; lset).
  apply gaps_app in Hg as (Hg1 & Hg2 & Hg3). rewrite app_comm_cons in Hc. pose proof Hc as Hc'. apply circle_app in Hc' as [Hc1 Hc2].
  rewrite Hu, <- app_assoc in Hc. cbn [app] in Hc. apply chain_next in Hc.
  assert (Hsx : words h (x.1 + 4) = x.2) by (apply (proj1 (Forall_forall _ _) Hs); lset).
  assert (Hs' : Forall (sized (words h)) ((base, 0) :: F1 ++ F2 ++ A)).
  { eapply forall_sub; [|exact Hs]. lset. }
  destruct (valid_in h p Hp) as [Vp _]. destruct (valid_in h x (or_intror Hx)) as [Vx Vx4].
  unfold join_up, ptr, size, ld, st, bind. rewrite Vp, Hc, Vx4, Hsx, (adv_small x (brk h) Hb Hx).
  destruct (Z.eqb_spec (blk_end x) (first F2 base)) as [E|E].
  - destruct F2 as [|z F2]; cbn [first] in *; [destruct Hx as (? & ? & _); unfold blk_end in E; lia|]. destruct Hc2 as [Hz Hc2].
    assert (Hz' : in_heap (brk h) z) by (apply (proj1 (Forall_forall _ _) HI); lset).
    assert (Htj : tiles (brk h) (x :: z :: F1 ++ F2 ++ A)) by (revert Ht'; apply tiles_perm; solve_Permutation).
    destruct (valid_in h z (or_intror Hz')) as [Vz Vz4].
    assert (Hsz : words h (z.1 + 4) = z.2) by (apply (proj1 (Forall_forall _ _) Hs); lset).
    rewrite Vz4, Hsz, Vx4. cbv beta iota. rewrite valid_set, Vz. cbv beta iota. rewrite valid_set, Vx. cbv beta iota.
    set (h1 := set_word (x.1 + 4) (u32 (x.2 + z.2)) h).
    assert (Hw : words h1 z.1 = words h z.1) by (apply words_ne; unfold blk_end in E; destruct Hx as (? & _); lia). rewrite Hw, Hz.
    destruct (hdr_frame x _ h (u32 (x.2 + z.2)) Hfar) as (FC & FS). destruct (hdr_frame x _ h1 (first F2 base) Hfar) as (FC' & FS').
    eexists _, (x.1, x.2 + z.2), F2. split; [reflexivity|]. split; [|split; [done|split; [cbn; destruct Hz' as (? & _); lia|split; [cbn; lia|split; [done|]]]]].
    + split; cbn [brk set_word].
      * exists z.1. apply FC'; [lset|]. apply FC; [lset|done].
      * split; [apply words_eq|]. apply FC'; [lset|]. apply FC; [lset|done].
      * rewrite app_comm_cons. apply forall_mid.
        -- unfold sized. cbn [fst snd]. rewrite words_ne by lia. unfold h1. rewrite words_eq. apply u32_small.
           destruct Hx as (? & ? & ? & _), Hz' as (? & ? & ? & _). unfold blk_end, KERNBASE in *. lia.
        -- apply FS'; [lset|]. apply FS; [lset|]. eapply forall_sub; [|exact Hs']. lset.
      * pose proof (join_tiles _ _ _ _ E Htj) as G. revert G. apply tiles_perm. solve_Permutation.
      * done.
      * done.
      * destruct Hg2 as [Hg2 Hg4]. split; [|done]. eapply Forall_impl; [exact Hg2|]. unfold blk_end in *. cbn. lia.
      * done.
    + eapply kept_trans; eapply kept_hdr; done.
  - rewrite Vx. destruct (hdr_frame x _ h (first F2 base) Hfar) as (FC & FS).
    eexists _, x, F2. split; [reflexivity|]. split; [|split; [done|split; [done|split; [done|split; [done|]]]]].
    + split; cbn [brk set_word]; try done.
      * eexists. apply FC; [lset|exact Hc1].
      * split; [apply words_eq|]. apply FC; [lset|done].
      * rewrite app_comm_cons. apply forall_mid; [|apply FS; [lset|done]]. unfold sized. by rewrite words_ne by lia.
      * revert Ht. apply tiles_perm. solve_Permutation.
      * apply gaps_above; [done| |done|destruct F2; cbn in *; lia].
        apply Forall_forall. intros y Hy. assert (in_heap (brk h) y) as (? & _) by (apply (proj1 (Forall_forall _ _) HI); lset). lia.
    + by eapply kept_hdr.
Qed.

Lemma pred_far h F1 x F2 A u p : half h F1 x F2 A -> (base, 0) :: F1 = u ++ [p] ->
  Forall (far p) (u ++ x :: F2 ++ A) /\ Forall (spares p) (x :: F2 ++ A) /\ (u = [] /\ p = (base, 0) /\ F1 = [] \/
    exists u', u = (base, 0) :: u' /\ F1 = u' ++ [p] /\ in_heap (brk h) p).
Proof.
  intros Hh Hu. pose proof (h_tiles _ _ _ _ _ Hh) as Ht. destruct u as [|y u']; cbn [app] in Hu; injection Hu as <- HF.
  - rewrite HF in *. pose proof (t_in _ _ Ht) as HI. cbn [app] in *.
    split; [|split; [|by left]]; (eapply Forall_impl; [exact HI|]); intros y (? & ? & _); unfold far, spares, blk_end; cbn; lia.
  - subst F1. assert (Ht' : tiles (brk h) (p :: u' ++ x :: F2 ++ A)) by (revert Ht; apply tiles_perm; solve_Permutation).
    destruct (tiles_far _ _ _ Ht') as [Hf Hs]. split; [done|]. split; [eapply forall_sub; [|exact Hs]; lset|].
    right. exists u'. split; [done|]. split; [done|]. apply (Forall_inv (t_in _ _ Ht')).
Qed.

Lemma gaps_insert F1 x F2 : gaps F1 -> gaps (x :: F2) -> 0 <= x.2 -> Forall (fun y => blk_end y < x.1) F1 -> gaps (F1 ++ x :: F2).
Proof.
  intros H1 H2 Hx Hlt. apply gaps_app. split; [done|]. split; [done|]. destruct H2 as [H2 _]. eapply Forall_impl; [exact Hlt|].
  intros y Hy. apply Forall_cons_2; [done|]. eapply Forall_impl; [exact H2|]. unfold blk_end in *. cbn in *. lia.
Qed.

Lemma gaps_below u p a : gaps (u ++ [p]) -> 0 <= p.2 -> blk_end p < a -> Forall (fun y => blk_end y < a) (u ++ [p]).
Proof.
  intros Hg Hp Ha. apply gaps_app in Hg as (_ & _ & Hg). apply Forall_app. split; [|by apply Forall_singleton].
  eapply Forall_impl; [exact Hg|]. intros y Hy. apply Forall_inv in Hy. unfold blk_end in *. lia.
Qed.

Lemma join_down_ok h F1 x F2 A u p : half h F1 x F2 A -> (base, 0) :: F1 = u ++ [p] ->
  exists h' F', join_down x.1 p.1 h = Ret tt h' /\ inv (set_freep p.1 h') F' A /\ (exists y, y ∈ F' /\ x.2 <= y.2) /\
    (length F' <= S (length F1 + length F2))%nat /\ brk h' = brk h /\ kept A h h'.
Proof.
  intros Hh Hu. destruct (pred_far _ _ _ _ _ _ _ Hh Hu) as (Hfar & Hsp & Hp).
  assert (HspA : Forall (spares p) A) by (eapply forall_sub; [|exact Hsp]; lset).
  destruct Hh as [[e Hc1] [Hcx Hc2] Hs Ht Hlo Hg1 [Hgx Hg2] Hb].
  assert (Hx : in_heap (brk h) x) by (apply (proj1 (Forall_forall _ _) (t_in _ _ Ht)); lset).
  assert (Hpin : p ∈ (base, 0) :: F1) by (rewrite Hu; lset).
  assert (Hsp2 : words h (p.1 + 4) = p.2) by (apply (proj1 (Forall_forall _ _) Hs); lset).
  assert (Hsx : words h (x.1 + 4) = x.2) by (apply (proj1 (Forall_forall _ _) Hs); lset).
  destruct (valid_in h p) as [Vp Vp4]; [destruct Hp as [(_ & -> & _)|(? & _ & _ & ?)]; [by left|by right]|].
  destruct (valid_in h x (or_intror Hx)) as [Vx Vx4].
  assert (Ea : adv p.1 p.2 = blk_end p).
  { destruct Hp as [(_ & -> & _)|(? & _ & _ & ?)]; [|by eapply adv_small]. unfold adv, blk_end, SIZEOF_HEADER, KERNBASE in *. cbn. apply u32_small. lia. }
  rewrite Hu in Hc1. apply circle_app in Hc1 as [Hcu _]. cbn [first] in Hcu.
  unfold join_down, ptr, size, ld, st, bind. rewrite Vp4, Hsp2, Ea.
  destruct (Z.eqb_spec (blk_end p) x.1) as [E|E].
  - destruct Hp as [(_ & -> & _)|(u' & -> & -> & Hp)]; [destruct Hx as (_ & ? & _); unfold blk_end in E; cbn in E; lia|].
    rewrite Vx4, Hsx, Vp4. cbv beta iota. rewrite valid_set, Vx. cbv beta iota. rewrite valid_set, Vp. cbv beta iota.
    set (h1 := set_word (p.1 + 4) (u32 (p.2 + x.2)) h).
    assert (Hw : words h1 x.1 = words h x.1) by (apply words_ne; destruct Hp as (? & _); unfold blk_end in E; lia). rewrite Hw, Hcx.
    destruct (hdr_frame p _ h (u32 (p.2 + x.2)) Hfar) as (FC & FS). destruct (hdr_frame p _ h1 (first F2 base) Hfar) as (FC' & FS').
    exists (set_word p.1 (first F2 base) h1), (u' ++ (p.1, p.2 + x.2) :: F2).
    split; [done|]. split; [|split; [exists (p.1, p.2 + x.2); split; [lset|cbn; destruct Hp; lia]|]]. 2: { rewrite !length_app. cbn. split; [lia|]. split; [done|eapply kept_trans; by eapply kept_hdr]. }
    split; cbn [words freep brk set_freep].
    + rewrite app_comm_cons. apply circle_app. split; [apply FC'; [lset|]; apply FC; [lset|done]|].
      split; [apply words_eq|]. apply FC'; [lset|]. apply FC; [lset|done].
    + rewrite <- app_assoc, app_comm_cons. apply forall_mid.
      * unfold sized. cbn [fst snd]. rewrite words_ne by lia. unfold h1. rewrite words_eq. apply u32_small.
        destruct Hx as (? & ? & ? & _), Hp as (? & ? & ? & _). unfold blk_end, KERNBASE in *. lia.
      * apply FS'; [lset|]. apply FS; [lset|]. eapply forall_sub; [|exact Hs]. lset.
    + assert (G : tiles (brk h) (p :: x :: u' ++ F2 ++ A)) by (revert Ht; apply tiles_perm; solve_Permutation).
      apply (join_tiles _ _ _ _ E) in G. revert G. change (brk (set_word _ _ _)) with (brk h). apply tiles_perm. solve_Permutation.
    + apply gaps_app in Hg1 as (Hgu & _ & Hgp). apply gaps_insert; [done| |cbn; destruct Hx as (? & _), Hp as (? & _); lia|].
      * split; [|done]. eapply Forall_impl; [exact Hgx|]. unfold blk_end in *. cbn. lia.
      * eapply Forall_impl; [exact Hgp|]. intros y Hy. by apply Forall_inv in Hy.
    + exists (p.2 + x.2). lset.
    + done.
  - assert (EL : (base, 0) :: (F1 ++ x :: F2) ++ A = (u ++ [p]) ++ x :: F2 ++ A) by (rewrite <- Hu, <- app_assoc; reflexivity).
    rewrite Vp. destruct (hdr_frame p _ h x.1 Hfar) as (FC & FS). exists (set_word p.1 x.1 h), (F1 ++ x :: F2).
    split; [done|]. split; [|split; [exists x; lset|rewrite length_app; cbn; split; [lia|split; [done|by eapply kept_hdr]]]]. split; cbn [words freep brk set_freep].
    + rewrite app_comm_cons, Hu, <- app_assoc. apply circle_app. split; [apply FC; [lset|done]|].
      split; [apply words_eq|]. apply FC; [lset|by split].
    + eapply (forall_sub _ (p :: u ++ x :: F2 ++ A)); [rewrite EL; lset|].
      apply Forall_cons_2.
      * unfold sized. by rewrite words_ne by lia.
      * apply FS; [lset|]. eapply forall_sub; [|exact Hs]. rewrite (app_assoc F1 (x :: F2) A : F1 ++ x :: F2 ++ A = _), EL. lset.
    + by rewrite <- app_assoc.
    + destruct Hx as (? & _). apply gaps_insert; [done|by split|lia|]. destruct Hp as [(_ & _ & ->)|(u' & _ & -> & (? & _))]; [done|].
      apply gaps_below; [done|lia|]. apply Forall_app in Hlo as [_ Hlo]. apply Forall_inv in Hlo. lia.
    + exists p.2. rewrite <- surjective_pairing. lset.
    + done.
Qed.

Lemma place F x : gaps F -> Forall (apart x) F -> Forall (fun y => 0 <= y.2) F ->
  exists F1 F2, F = F1 ++ F2 /\ Forall (fun y => blk_end y <= x.1) F1 /\ Forall (fun y => blk_end x <= y.1) F2.
Proof.
  induction F as [|y F IH]; intros Hg Ha Hp; [exists [], []; auto|]. destruct Hg as [Hy Hg].
  apply Forall_cons in Ha as [[Hlt|Hlt] Ha]; apply Forall_cons in Hp as [Hpy Hp].
  - exists [], (y :: F). split; [done|]. split; [done|]. apply Forall_cons_2; [done|]. eapply Forall_impl; [exact Hy|].
    unfold blk_end in *. cbn in *. lia.
  - destruct (IH Hg Ha Hp) as (F1 & F2 & -> & H1 & H2). exists (y :: F1), F2. auto.
Qed.

Lemma free_ok h F A x : inv h F (x :: A) ->
  exists h' F', free (x.1 + 8) h = Ret tt h' /\ inv h' F' A /\ (exists y, y ∈ F' /\ x.2 <= y.2) /\
    (length F' <= S (length F))%nat /\ kept A h h'.
Proof.
  intros Hi. pose proof (i_tiles _ _ _ Hi) as Ht. pose proof (i_brk _ _ _ Hi) as Hb.
  assert (Ht' : tiles (brk h) (x :: F ++ A)) by (revert Ht; apply tiles_perm; solve_Permutation).
  pose proof (t_in _ _ Ht') as HI. apply Forall_cons in HI as [Hx HI]. apply Forall_app in HI as [HF _].
  destruct (t_apart _ _ Ht') as [Ha _]. apply Forall_app in Ha as [Ha _].
  assert (HF' : Forall (fun y => 1 <= y.2) F) by (eapply Forall_impl; [exact HF|]; by intros y (? & _)).
  destruct (place F x (i_gaps _ _ _ Hi) Ha) as (F1 & F2 & -> & H1 & H2); [eapply Forall_impl; [exact HF'|]; cbn; lia|].
  destruct (exists_last (l := (base, 0) :: F1)) as (u & p & Hu); [done|].
  assert (Es : loop (Z.to_nat (brk h)) (free_iter x.1) (freep h) h = Ret p.1 h).
  { apply (free_search h (F1 ++ F2) A x u p F2 Hi).
    - by rewrite app_comm_cons, Hu, <- app_assoc.
    - rewrite <- Hu. apply Forall_cons_2; [destruct Hx as (_ & ? & _); cbn; lia|]. apply Forall_app in HF' as [HF1 _].
      rewrite Forall_forall in *. intros y Hy. specialize (H1 y Hy). specialize (HF1 y Hy). unfold blk_end in H1. cbn in *. lia.
    - eapply Forall_impl; [exact H2|]. destruct Hx as (? & _). unfold blk_end. cbn. lia. }
  destruct (join_up_ok h F1 F2 A x p u Hi Hu H1 H2) as (h1 & x' & F2' & E1 & Hh & Ex & Hle & Hl1 & Hb1 & Hk1).
  destruct (join_down_ok h1 F1 x' F2' A u p Hh Hu) as (h2 & F' & E2 & Hi' & (y & Hy & Hle') & Hl2 & Hb2 & Hk2).
  exists (set_freep p.1 h2), F'. split.
  - unfold free, bind, gets, modify. assert (Eb : u32 (x.1 + 8 - SIZEOF_HEADER) = x.1).
    { destruct Hx as (? & ? & ? & _). unfold SIZEOF_HEADER, blk_end, KERNBASE in *. rewrite u32_small; lia. }
    rewrite Eb, Es. cbv beta iota. rewrite E1. cbv beta iota. rewrite <- Ex. by rewrite E2.
  - split; [done|]. split; [exists y; split; [done|lia]|]. split; [rewrite length_app; lia|]. by eapply kept_trans.
Qed.

(** ** malloc *)
Lemma inv_perm h F A A' : A ≡ₚ A' -> inv h F A -> inv h F A'.
Proof.
  intros HA [Hc Hs Ht Hg Hf Hb]. split; try done; [|by rewrite <- HA].
  eapply forall_sub; [|exact Hs]. intros y. by rewrite !elem_of_cons, !elem_of_app, HA.
Qed.

(** New memory is one more block handed out. *)
Lemma grow_ok h F A nu : inv h F A -> 1 <= nu -> brk h + 8 * nu < KERNBASE ->
  let h' := set_word (brk h + 4) nu (set_brk (brk h + 8 * nu) h) in inv h' F ((brk h, nu) :: A) /\ kept A h h'.
Proof.
  intros Hi Hnu Hb h'. pose proof (i_brk _ _ _ Hi) as Hb0. pose proof (t_sum _ _ (i_tiles _ _ _ Hi)) as Hsum.
  assert (Hin : Forall (fun y => start <= y.1 /\ 1 <= y.2 /\ blk_end y <= brk h) (F ++ A)).
  { apply Forall_forall. intros y Hy. destruct (gaps_in _ _ _ y Hi Hy). intuition lia. }
  assert (Ht : tiles (brk h + 8 * nu) ((brk h, nu) :: F ++ A)).
  { destruct (i_tiles _ _ _ Hi) as [HI HA HS]. split.
    - apply Forall_cons_2; [unfold in_heap, blk_end; cbn; repeat split; try lia; dlia|]. eapply Forall_impl; [exact HI|].
      intros y (? & ? & ? & ?). unfold in_heap. repeat split; lia.
    - split; [|done]. eapply Forall_impl; [exact Hin|]. unfold apart. cbn. lia.
    - change (total_units ((brk h, nu) :: F ++ A)) with (nu + total_units (F ++ A)). lia. }
  destruct (tiles_far _ _ _ Ht) as [Hfar Hsp]. destruct (hdr_frame (brk h, nu) _ (set_brk (brk h + 8 * nu) h) nu Hfar) as (FC & FS).
  split; [split; cbn [brk freep set_word set_brk]|].
  - apply FC; [lset|apply (i_chain _ _ _ Hi)].
  - rewrite app_comm_cons. apply forall_mid; [apply words_eq|]. apply FS; [done|apply (i_sizes _ _ _ Hi)].
  - revert Ht. apply tiles_perm. solve_Permutation.
  - apply (i_gaps _ _ _ Hi).
  - apply (i_freep _ _ _ Hi).
  - change (brk h') with (brk h + 8 * nu). lia.
  - apply (kept_trans _ _ (set_brk (brk h + 8 * nu) h)); [intros y w _ _; done|]. eapply (kept_hdr (brk h, nu)).
    eapply forall_sub; [|exact Hsp]. lset.
Qed.

Lemma freep_pos h F A : inv h F A -> base <= freep h.
Proof.
  intros Hi. destruct (i_freep _ _ _ Hi) as [n Hf]. destruct (gaps_base _ _ _ Hi) as [_ Hp].
  apply (proj1 (Forall_forall _ _) Hp _ Hf).
Qed.

(** The kernel has no memory for a request of [k] units. *)
Definition refused (h : heap) (k : Z) : Prop :=
  let nu := Z.max k 4096 in KERNBASE <= brk h + 8 * nu \/ grants (brk h) (8 * nu) = false.

Lemma morecore_ok h F A k : inv h F A -> 1 <= k < 0x10000000 ->
  exists r h' F', morecore k h = Ret r h' /\ inv h' F' A /\ kept A h h' /\
    (r = 0 /\ h' = h /\ refused h k \/ r = freep h' /\ r <> 0 /\ (length F' <= S (length F))%nat /\ (exists y, y ∈ F' /\ k <= y.2)).
Proof.
  intros Hi Hk. unfold morecore. set (nu := if k <? 4096 then 4096 else k).
  assert (Hnu : k <= nu < 0x10000000) by (unfold nu; destruct (Z.ltb_spec k 4096); lia).
  assert (Emax : Z.max k 4096 = nu) by (unfold nu; destruct (Z.ltb_spec k 4096); lia). unfold refused. rewrite Emax.
  unfold bind at 1, sbrk, SIZEOF_HEADER. rewrite (u32_small (nu * 8)), s32_small by lia. destruct (Z.ltb_spec 0 (nu * 8)); [|lia].
  pose proof (i_brk _ _ _ Hi) as Hb. replace (nu * 8) with (8 * nu) in * by lia. unfold KERNBASE in *.
  rewrite (u32_small (brk h + 8 * nu)) by lia. destruct (Z.leb_spec 2147483648 (brk h + 8 * nu)) as [Hbig|Hfit].
  { exists 0, h, F. split; [done|]. split; [done|]. split; [apply kept_refl|left; auto]. }
  destruct (Z.ltb_spec (brk h + 8 * nu) (brk h)); [lia|]. destruct (grants (brk h) (8 * nu)) eqn:Eg.
  2: { exists 0, h, F. split; [done|]. split; [done|]. split; [apply kept_refl|left; auto]. }
  destruct (Z.eqb_spec (brk h) (-1)); [lia|].
  destruct (grow_ok h F A nu Hi ltac:(lia) ltac:(unfold KERNBASE; lia)) as [Hi1 Hk1].
  destruct (free_ok _ _ _ _ Hi1) as (h2 & F' & E2 & Hi2 & (y & Hy & Hle) & Hl & Hk2). cbn [fst snd] in *.
  exists (freep h2), h2, F'. split; [|split; [done|split; [by eapply kept_trans|right]]].
  - assert (V : valid (set_brk (brk h + 8 * nu) h) (brk h + 4) = true)
      by exact (proj2 (valid_hdr _ _ _ (brk h, nu) Hi1 ltac:(lset))).
    unfold bind, st. rewrite V. cbv beta iota.
    replace (adv (brk h) 1) with (brk h + 8) by (unfold adv, SIZEOF_HEADER; rewrite u32_small; lia). by rewrite E2.
  - pose proof (freep_pos _ _ _ Hi2). split; [done|]. split; [lia|]. split; [done|]. exists y. split; [done|lia].
Qed.

Lemma inv_half h F1 e F2 A : inv h (F1 ++ e :: F2) A -> half h F1 e F2 A.
Proof.
  intros [Hc Hs Ht Hg Hf Hb]. rewrite app_comm_cons in Hc. apply circle_app in Hc as [Hc1 Hc2]. apply gaps_app in Hg as (Hg1 & Hg2 & Hg3).
  rewrite <- app_assoc in Hs, Ht. split; try done; [by eexists|]. eapply Forall_impl; [exact Hg3|]. intros y Hy. apply Forall_inv in Hy. lia.
Qed.

(** A block and the one that points to it are neighbours in the list. *)
Lemma predecessor h F A e q : inv h F A -> e ∈ F -> q ∈ (base, 0) :: F -> words h q.1 = e.1 ->
  exists u F1 F2, F = F1 ++ e :: F2 /\ (base, 0) :: F1 = u ++ [q].
Proof.
  intros Hi He Hq Hw. apply list_elem_of_split in Hq as (u & w & HR). pose proof (i_chain _ _ _ Hi) as Hc. rewrite HR in Hc.
  rewrite (chain_next _ _ _ _ _ Hc) in Hw. pose proof (gaps_in _ _ _ e Hi ltac:(lset)) as [Hst _].
  destruct w as [|e' F2]; cbn [first] in Hw; [lia|].
  assert (He' : e' ∈ (base, 0) :: F) by (rewrite HR; lset).
  assert (e' = e) as ->.
  { pose proof (i_sizes _ _ _ Hi) as Hs. rewrite Forall_forall in Hs. pose proof (Hs e ltac:(lset)) as H1.
    pose proof (Hs e' ltac:(lset)) as H2. unfold sized in *. rewrite Hw in H2. destruct e, e'; cbn in *; congruence. }
  destruct u as [|b u]; cbn [app] in HR; injection HR as <- ->.
  - by exists [], [], F2.
  - exists ((base, 0) :: u), (u ++ [q]), F2. by rewrite <- app_assoc.
Qed.

Lemma take_whole h F1 e F2 A u q : inv h (F1 ++ e :: F2) A -> (base, 0) :: F1 = u ++ [q] ->
  exists h', take_block e.2 q.1 e.1 e.2 h = Ret (e.1 + 8) h' /\ inv h' (F1 ++ F2) (e :: A) /\ kept A h h'.
Proof.
  intros Hi Hu. pose proof (inv_half _ _ _ _ _ Hi) as Hh. destruct (pred_far _ _ _ _ _ _ _ Hh Hu) as (Hfar & Hsp & Hq).
  destruct (gaps_in _ _ _ e Hi ltac:(lset)) as (He1 & He2 & He3 & He4).
  assert (Vq : valid h q.1 = true) by (apply (valid_hdr _ _ _ q Hi); rewrite app_comm_cons, app_comm_cons, Hu; lset).
  assert (Ve : valid h e.1 = true) by (apply (valid_hdr _ _ _ e Hi); lset).
  destruct Hi as [Hc Hs Ht Hg Hf Hb]. rewrite app_comm_cons, Hu, <- app_assoc in Hc. apply circle_app in Hc as [Hcu (Hq1 & He & Hc2)].
  destruct (hdr_frame q _ h (first F2 base) Hfar) as (FC & FS).
  exists (set_freep q.1 (set_word q.1 (first F2 base) h)). split; [|split].
  - unfold take_block, ptr, ld, st, modify, bind. rewrite Z.eqb_refl, Ve, He, Vq. unfold ret, adv, SIZEOF_HEADER, blk_end, KERNBASE in *.
    by rewrite u32_small by lia.
  - split; cbn [words freep brk set_freep].
    + rewrite app_comm_cons, Hu, <- app_assoc. apply circle_app. split; [apply FC; [lset|done]|].
      split; [apply words_eq|]. apply FC; [lset|done].
    + apply (forall_sub _ (q :: u ++ e :: F2 ++ A)).
      { rewrite <- app_assoc, app_comm_cons, Hu. lset. }
      assert (Hs' : Forall (sized (words h)) (q :: u ++ e :: F2 ++ A)).
      { eapply forall_sub; [|exact Hs]. rewrite <- app_assoc, (app_comm_cons F1), Hu. lset. }
      apply Forall_cons in Hs' as [Hsq Hs']. apply Forall_cons_2; [unfold sized; by rewrite words_ne by lia|]. by apply FS.
    + revert Ht. change (brk (set_word _ _ _)) with (brk h). apply tiles_perm. solve_Permutation.
    + apply gaps_app in Hg as (Hg1 & [_ Hg2] & Hg3). apply gaps_app. split; [done|]. split; [done|].
      eapply Forall_impl; [exact Hg3|]. intros y Hy. by apply Forall_cons in Hy as [_ Hy].
    + exists q.2. rewrite <- surjective_pairing, app_comm_cons, Hu. lset.
    + done.
  - apply (kept_hdr q A h). eapply forall_sub; [|exact Hsp]. lset.
Qed.

Lemma chain_resize m l1 a n n' l2 e : chain m (l1 ++ (a, n) :: l2) e -> chain m (l1 ++ (a, n') :: l2) e.
Proof. rewrite !circle_app. done. Qed.

Lemma take_part h F1 e F2 A q k : inv h (F1 ++ e :: F2) A -> q ∈ (base, 0) :: F1 -> 1 <= k < e.2 ->
  let b := e.1 + 8 * (e.2 - k) in
  exists h', take_block k q.1 e.1 e.2 h = Ret (b + 8) h' /\ inv h' (F1 ++ (e.1, e.2 - k) :: F2) ((b, k) :: A) /\ kept A h h'.
Proof.
  intros Hi Hq Hk b. destruct (gaps_in _ _ _ e Hi ltac:(lset)) as (He1 & He2 & He3 & He4).
  pose proof (proj2 (valid_hdr _ _ _ e Hi ltac:(lset))) as Ve.
  destruct Hi as [Hc Hs Ht Hg Hf Hb].
  assert (Ht1 : tiles (brk h) (e :: F1 ++ F2 ++ A)) by (revert Ht; apply tiles_perm; solve_Permutation).
  assert (Ht2 : tiles (brk h) ((b, k) :: (e.1, e.2 - k) :: F1 ++ F2 ++ A)).
  { apply (tiles_split _ _ k) in Ht1; [|lia]. revert Ht1. apply tiles_perm. apply perm_swap. }
  destruct (tiles_far _ _ _ Ht1) as [Hfe Hse]. destruct (tiles_far _ _ _ Ht2) as [Hfb Hsb].
  destruct (valid_in h (b, k)) as [_ Vb]; [right; apply (Forall_inv (t_in _ _ Ht2))|]. cbn [fst] in Vb.
  set (h1 := set_word (e.1 + 4) (e.2 - k) h). set (h2 := set_word (b + 4) k h1).
  assert (Hk2 : kept A h h2).
  { apply (kept_trans _ _ h1).
    - apply (kept_hdr e A h). eapply forall_sub; [|exact Hse]. lset.
    - apply (kept_hdr (b, k) A h1). eapply forall_sub; [|exact Hsb]. lset. }
  assert (Hne : Forall (fun y => y.1 <> e.1 + 4 /\ y.1 <> b + 4) ((base, 0) :: F1 ++ e :: F2)).
  { apply Forall_forall. intros y Hy. assert (Hy' : y = e \/ y ∈ (base, 0) :: F1 ++ F2 ++ A) by lset. destruct Hy' as [->|Hy']; [unfold b; lia|].
    pose proof (proj1 (Forall_forall _ _) Hfe y Hy') as H1. pose proof (proj1 (Forall_forall _ _) Hfb y ltac:(lset)) as H2.
    unfold far in *. cbn [fst] in H2. lia. }
  exists (set_freep q.1 h2). split; [|split; [|exact Hk2]].
  - unfold take_block, st, modify, bind. destruct (Z.eqb_spec e.2 k); [lia|]. rewrite Ve. cbv beta iota.
    unfold adv, SIZEOF_HEADER, blk_end, KERNBASE in *. rewrite !(u32_small (e.2 - k)), (u32_small (e.1 + 8 * (e.2 - k))) by lia. fold b.
    rewrite valid_set, Vb. unfold ret. fold h1 h2. rewrite u32_small by (unfold b; lia). f_equal; unfold b; lia.
  - split; cbn [words freep brk set_freep].
    + rewrite app_comm_cons. apply (chain_resize _ _ _ e.2). rewrite <- surjective_pairing. unfold h2, h1.
      apply chain_set; [|apply chain_set; [|done]]; (eapply Forall_impl; [exact Hne|]); tauto.
    + apply (forall_sub _ ((b, k) :: (e.1, e.2 - k) :: (base, 0) :: F1 ++ F2 ++ A)); [lset|].
      apply Forall_cons_2; [apply words_eq|]. apply Forall_cons_2.
      * unfold sized. cbn [fst snd]. unfold h2. rewrite words_ne by (unfold b; lia). apply words_eq.
      * apply (hdr_frame (b, k) _ h1 k Hfb); [lset|]. apply (hdr_frame e _ h (e.2 - k) Hfe); [done|].
        eapply forall_sub; [|exact Hs]. lset.
    + revert Ht2. change (brk h2) with (brk h). apply tiles_perm. solve_Permutation.
    + apply gaps_app in Hg as (Hg1 & [Hge Hg2] & Hg3). apply gaps_insert; [done| |cbn; lia|].
      * split; [|done]. eapply Forall_impl; [exact Hge|]. unfold blk_end. cbn. lia.
      * eapply Forall_impl; [exact Hg3|]. intros y Hy. by apply Forall_inv in Hy.
    + exists q.2. rewrite <- surjective_pairing. lset.
    + done.
Qed.

Lemma take_block_ok h F A e q k : inv h F A -> e ∈ F -> q ∈ (base, 0) :: F -> words h q.1 = e.1 -> 1 <= k <= e.2 ->
  exists h' F' b, take_block k q.1 e.1 e.2 h = Ret (b + 8) h' /\ inv h' F' ((b, k) :: A) /\ kept A h h'.
Proof.
  intros Hi He Hq Hw Hk. destruct (predecessor _ _ _ _ _ Hi He Hq Hw) as (u & F1 & F2 & -> & Hu).
  destruct (decide (k = e.2)) as [->|Hne].
  - destruct (take_whole _ _ _ _ _ _ _ Hi Hu) as (h' & E & Hi' & Hk'). exists h', (F1 ++ F2), e.1. by rewrite <- surjective_pairing.
  - destruct (take_part h F1 e F2 A q k Hi) as (h' & E & Hi' & Hk'); [rewrite Hu; lset|lia|]. by eexists h', _, _.
Qed.

(** The loop of [malloc] stops looking at the block before one that is large
    enough, or when it is back at [freep]. *)
Definition looks (h : heap) (y : block) : Z * Z := (y.1, words h y.1).
Definition stop (h : heap) (k : Z) (y : block) : Prop := k <= words h (words h y.1 + 4) \/ words h y.1 = freep h.
#[local] Instance stop_dec h k y : Decision (stop h k y).
Proof. unfold stop. apply _. Defined.

Lemma scan_walks h F A k l1 y l2 e : inv h F A -> chain (words h) (l1 ++ y :: l2) e -> l1 ++ y :: l2 ⊆ (base, 0) :: F ->
  Forall (fun z => ~ stop h k z) l1 -> walks (malloc_iter k) h (looks h <$> l1) (looks h y).
Proof.
  intros Hi. induction l1 as [|x l1 IH]; cbn [app walks fmap list_fmap]; [done|]. intros [Hx Hc] Hsub Hst. apply Forall_cons in Hst as [Hsx Hst].
  split; [|apply IH; lset].
  assert (Hn : exists z, z ∈ (base, 0) :: F /\ words h x.1 = z.1 /\ hd (looks h y) (looks h <$> l1) = looks h z).
  { rewrite Hx. destruct l1 as [|z l1]; cbn; [exists y|exists z]; lset. }
  destruct Hn as (z & Hz & Ez & ->). unfold stop in Hsx. rewrite Ez in Hsx.
  destruct (valid_hdr _ _ _ z Hi ltac:(lset)) as [V V4].
  unfold malloc_iter, looks at 1, size, ptr, ld, gets, bind. rewrite Ez, V4. cbv beta iota.
  destruct (Z.leb_spec k (words h (z.1 + 4))); [tauto|]. destruct (Z.eqb_spec z.1 (freep h)); [tauto|]. by rewrite V.
Qed.

Lemma circle_distinct h F A r1 f r2 z : inv h F A -> (base, 0) :: F = r1 ++ f :: r2 -> z ∈ r2 ++ r1 -> z.1 <> f.1.
Proof.
  intros Hi HR Hz. destruct (gaps_base _ _ _ Hi) as [Hg Hp]. rewrite HR in Hg, Hp. apply elem_of_app in Hz as [Hz|Hz].
  - pose proof (circle_lt _ _ _ _ Hg Hp Hz). lia.
  - apply list_elem_of_split in Hz as (u & v & ->). rewrite <- app_assoc in Hg, Hp. cbn [app] in Hg, Hp.
    pose proof (circle_lt _ _ _ f Hg Hp ltac:(lset)). lia.
Qed.

(** Every block is the successor of one in the circle. *)
Lemma circle_pred m f l z : chain m (f :: l) f.1 -> z ∈ f :: l -> exists w, w ∈ f :: l /\ m w.1 = z.1.
Proof.
  intros Hc Hz. apply elem_of_cons in Hz as [->|Hz].
  - destruct (exists_last (l := f :: l)) as (u & w & E); [done|]. rewrite E in Hc |- *. exists w. split; [lset|].
    by rewrite (chain_next _ _ _ _ _ Hc).
  - apply list_elem_of_split in Hz as (u & v & ->). destruct (exists_last (l := f :: u)) as (u' & w & E); [done|].
    rewrite app_comm_cons, E, <- app_assoc in Hc |- *. exists w. split; [lset|]. by rewrite (chain_next _ _ _ _ _ Hc).
Qed.

Lemma first_split {X} (P : X -> Prop) `{!forall x, Decision (P x)} l x : x ∈ l -> P x ->
  exists l1 y l2, l = l1 ++ y :: l2 /\ P y /\ Forall (fun z => ~ P z) l1.
Proof.
  induction l as [|z l IH]; [lset|]. intros Hx Hp. destruct (decide (P z)); [by exists [], z, l|].
  apply elem_of_cons in Hx as [->|Hx]; [done|]. destruct (IH Hx Hp) as (l1 & y & l2 & -> & ? & ?). exists (z :: l1), y, l2. auto.
Qed.

(** One round of the search: it ends at a block whose successor is large enough,
    or comes back to [freep], and then no free block is. *)
Lemma scan h F A k : inv h F A -> 1 <= k ->
  exists y l, walks (malloc_iter k) h l (looks h y) /\ hd (looks h y) l = (freep h, words h (freep h)) /\ (length l <= length F)%nat /\
    y ∈ (base, 0) :: F /\
    ((exists e, e ∈ F /\ words h y.1 = e.1 /\ k <= e.2) \/ words h y.1 = freep h /\ words h (freep h + 4) < k /\ Forall (fun e => e.2 < k) F).
Proof.
  intros Hi Hk. destruct (i_freep _ _ _ Hi) as [n Hf]. apply list_elem_of_split in Hf as (r1 & r2 & HR). set (f := (freep h, n)) in *.
  pose proof (i_chain _ _ _ Hi) as Hc. rewrite HR in Hc. apply chain_rotate in Hc; [|by rewrite <- HR].
  assert (Hperm : (base, 0) :: F ≡ₚ f :: r2 ++ r1) by (rewrite HR; symmetry; apply (Permutation_app_comm (f :: r2) r1)).
  pose proof (Permutation_length Hperm) as Hlen.
  assert (Hin : f :: r2 ++ r1 ⊆ (base, 0) :: F) by (intros y; by rewrite Hperm).
  assert (Hsz : forall z, z ∈ (base, 0) :: F -> words h (z.1 + 4) = z.2).
  { intros z Hz. apply (proj1 (Forall_forall _ _) (i_sizes _ _ _ Hi)). lset. }
  destruct (circle_pred _ _ _ f Hc ltac:(lset)) as (w & Hw & Ew).
  destruct (first_split (stop h k) _ w Hw) as (l1 & y & l2 & El & Hst & Hns); [by right|].
  pose proof Hc as Hc'. rewrite El in Hc', Hin, Hlen. rewrite length_app in Hlen. cbn in Hlen.
  exists y, (looks h <$> l1). split; [by eapply scan_walks|]. split; [|split; [rewrite length_fmap; lia|split; [lset|]]].
  { destruct l1 as [|x l1]; cbn in El |- *; by injection El as <- _. }
  assert (Hnext : exists z, z ∈ (base, 0) :: F /\ words h y.1 = z.1).
  { rewrite (chain_next _ _ _ _ _ Hc'). destruct l2 as [|z l2]; cbn [first]; [exists f; rewrite Hperm|exists z]; lset. }
  destruct Hnext as (z & Hz & Ez). destruct (decide (k <= z.2)) as [Hbig|Hsmall].
  - left. exists z. apply elem_of_cons in Hz as [->|Hz]; [cbn in Hbig; lia|done].
  - right. unfold stop in Hst. rewrite Ez, (Hsz z Hz) in Hst. destruct Hst as [|Hst]; [done|]. rewrite Ez, <- Hst, (Hsz z Hz).
    split; [done|]. split; [lia|].
    assert (l2 = []) as ->.
    { destruct l2 as [|x l2]; [done|exfalso]. rewrite (chain_next _ _ _ _ _ Hc') in Ez. cbn [first] in Ez.
      apply (circle_distinct h F A r1 f r2 x Hi HR); [|cbn; congruence]. destruct l1 as [|x0 l1]; cbn in El; injection El as _ ->; lset. }
    apply Forall_forall. intros e He. destruct (circle_pred _ _ _ e Hc) as (v & Hv & Ev).
    { rewrite <- Hperm. lset. }
    rewrite El in Hv. apply elem_of_app in Hv as [Hv|Hv].
    + pose proof (proj1 (Forall_forall _ _) Hns v Hv) as Hnv. unfold stop in Hnv. rewrite Ev, (Hsz e) in Hnv by lset. lia.
    + assert (v = y) as -> by lset. rewrite <- (Hsz e) by lset. rewrite <- Ev, Ez, (Hsz z Hz). lia.
Qed.

Lemma valid_freep h F A : inv h F A -> valid h (freep h) = true /\ valid h (freep h + 4) = true.
Proof. intros Hi. destruct (i_freep _ _ _ Hi) as [n Hf]. apply (valid_hdr h F A (freep h, n) Hi). rewrite elem_of_cons in *. rewrite elem_of_app. tauto. Qed.

Lemma iter_takes h F A k y e : inv h F A -> 1 <= k -> y ∈ (base, 0) :: F -> e ∈ F -> words h y.1 = e.1 -> k <= e.2 ->
  exists h' F' b, malloc_iter k (looks h y) h = Ret (inr (b + 8)) h' /\ inv h' F' ((b, k) :: A) /\ kept A h h'.
Proof.
  intros Hi Hk Hy He Ew Hle. destruct (take_block_ok h F A e y k Hi He Hy Ew ltac:(lia)) as (h' & F' & b & E & Hi' & Hk').
  exists h', F', b. split; [|done]. unfold malloc_iter, looks, size, ld, bind. rewrite Ew, (proj2 (valid_hdr _ _ _ e Hi ltac:(lset))).
  assert (Hs : words h (e.1 + 4) = e.2) by (apply (proj1 (Forall_forall _ _) (i_sizes _ _ _ Hi)); lset).
  rewrite Hs. destruct (Z.leb_spec k e.2); [|lia]. by rewrite E.
Qed.

(** The loop of [malloc], with fuel for two rounds of the circle. *)
Lemma malloc_loop_ok h F A k fuel : inv h F A -> 1 <= k < 0x10000000 -> (2 * length F + 3 <= fuel)%nat ->
  exists r h' F', loop fuel (malloc_iter k) (freep h, words h (freep h)) h = Ret r h' /\ kept A h h' /\
    (r = 0 /\ h' = h /\ F' = F /\ refused h k /\ Forall (fun e => e.2 < k) F \/ exists b, r = b + 8 /\ inv h' F' ((b, k) :: A)).
Proof.
  intros Hi Hk Hfuel. destruct (scan h F A k Hi ltac:(lia)) as (y & l & Hw & Hh & Hl & Hy & Hend).
  replace fuel with (length l + S (fuel - length l - 1))%nat by lia. rewrite <- Hh, loop_walks by done. cbn [loop]. unfold bind at 1.
  destruct Hend as [(e & He & Ew & Hle)|(Ew & Hsf & Hsmall)].
  { destruct (iter_takes h F A k y e Hi ltac:(lia) Hy He Ew Hle) as (h' & F' & b & E & Hi' & Hk').
    rewrite E. exists (b + 8), h', F'. split; [done|]. split; [done|]. right. by exists b. }
  destruct (morecore_ok h F A k Hi Hk) as (r & h1 & F1 & Em & Hi1 & Hk1 & Hr).
  assert (E : malloc_iter k (looks h y) h = (if r =? 0 then ret (inr 0) else q <- ptr r ;; ret (inl (r, q))) h1).
  { unfold malloc_iter, looks, size, ld, gets. unfold bind at 1.
    rewrite Ew, (proj2 (valid_freep _ _ _ Hi)).
    destruct (Z.leb_spec k (words h (freep h + 4))); [lia|]. unfold bind at 1. rewrite Z.eqb_refl. unfold bind at 1. by rewrite Em. }
  rewrite E. clear E. destruct Hr as [(-> & -> & Href)|(-> & Hne & Hlen & (z & Hz & Hle))].
  { cbn. exists 0, h, F. split; [done|]. split; [done|]. by left. }
  rewrite (proj2 (Z.eqb_neq _ _) Hne). unfold bind, ptr, ld. rewrite (proj1 (valid_freep _ _ _ Hi1)). cbn [ret].
  destruct (scan h1 F1 A k Hi1 ltac:(lia)) as (y1 & l1 & Hw1 & Hh1 & Hl1 & Hy1 & Hend1).
  destruct Hend1 as [(e & He & Ew1 & Hle1)|(_ & _ & Hall)]; [|pose proof (proj1 (Forall_forall _ _) Hall z Hz); cbn in *; lia].
  unfold ret. replace (fuel - length l - 1)%nat with (length l1 + S (fuel - length l - 1 - length l1 - 1))%nat by lia.
  rewrite <- Hh1, loop_walks by done. cbn [loop]. unfold bind at 1.
  destruct (iter_takes h1 F1 A k y1 e Hi1 ltac:(lia) Hy1 He Ew1 Hle1) as (h' & F' & b & E & Hi' & Hk').
  rewrite E. exists (b + 8), h', F'. split; [done|]. split; [by eapply kept_trans|]. right. by exists b.
Qed.

(** The state before the first call. *)
Definition fresh (h : heap) : Prop := freep h = 0 /\ brk h = start.
Definition owned (h : heap) (F A : list block) : Prop := fresh h /\ F = [] /\ A = [] \/ inv h F A.

Lemma owned_tiles h F A : owned h F A -> tiles (brk h) (F ++ A) /\ gaps F.
Proof. intros [([_ ->] & -> & ->)|Hi]; [split; [split; cbn; auto; lia|done]|split; [apply (i_tiles _ _ _ Hi)|apply (i_gaps _ _ _ Hi)]]. Qed.

Lemma units_ok n : 0 <= n <= 0x7ffffff0 -> 1 <= units n < 0x10000000 /\ 8 * units n >= n + 8.
Proof. intros Hn. unfold units, SIZEOF_HEADER. rewrite (u32_small (n + 8 - 1)), u32_small by dlia. dlia. Qed.

Lemma init_ok h : fresh h -> inv (set_word (base + 4) 0 (set_word base base (set_freep base h))) [] [].
Proof.
  intros [_ Hb]. split.
  - split; [|done]. rewrite words_ne by (cbn; lia). apply words_eq.
  - apply Forall_singleton. apply words_eq.
  - cbn [brk set_word set_freep]. rewrite Hb. split; cbn; auto; lia.
  - done.
  - exists 0. left.
  - cbn. lia.
Qed.

(** The list is set up by the first call, and is there from then on. *)
Lemma malloc_start h F A n : owned h F A -> exists h1, inv h1 F A /\ kept A h h1 /\ brk h1 = brk h /\
  malloc n h = loop (Z.to_nat (2 * brk h1)) (malloc_iter (units n)) (freep h1, words h1 (freep h1)) h1.
Proof.
  intros [(Hf & -> & ->)|Hi].
  - exists (set_word (base + 4) 0 (set_word base base (set_freep base h))). pose proof (init_ok h Hf) as Hi.
    split; [done|]. split; [intros y w Hy; by apply elem_of_nil in Hy|]. split; [done|]. destruct Hf as [Hf _].
    unfold malloc, gets, modify, st, ptr, ld, bind. rewrite Hf. cbn [Z.eqb].
    destruct (valid_freep _ _ _ Hi) as [V V4]. cbn [freep set_word set_freep] in V, V4. rewrite !valid_set in V, V4.
    rewrite V. cbv beta iota. rewrite valid_set, V4. cbn [freep set_word set_freep]. by rewrite !valid_set, V.
  - exists h. split; [done|]. split; [apply kept_refl|]. split; [done|]. pose proof (freep_pos _ _ _ Hi).
    unfold malloc, gets, ptr, ld, bind. rewrite (proj2 (Z.eqb_neq (freep h) 0)) by lia. unfold ret. by rewrite (proj1 (valid_freep _ _ _ Hi)).
Qed.

Lemma malloc_ok h F A n : owned h F A -> 0 <= n <= 0x7ffffff0 ->
  exists ap h' F', malloc n h = Ret ap h' /\ kept A h h' /\
    (ap = 0 /\ inv h' F' A /\ refused h (units n) /\ Forall (fun e => e.2 < units n) F \/
     ap <> 0 /\ inv h' F' ((ap - 8, units n) :: A)).
Proof.
  intros Ho Hn. destruct (units_ok n Hn) as [Hu _]. destruct (malloc_start h F A n Ho) as (h1 & Hi & Hk & Hbrk & ->).
  pose proof (units_length _ _ _ Hi). pose proof (i_brk _ _ _ Hi).
  destruct (malloc_loop_ok h1 F A (units n) (Z.to_nat (2 * brk h1)) Hi Hu ltac:(lia)) as (r & h' & F' & E & Hk' & Hr).
  exists r, h', F'. split; [done|]. split; [by eapply kept_trans|].
  destruct Hr as [(-> & -> & -> & Href & Hs)|(b & -> & Hi')]; [left|right].
  - unfold refused in *. by rewrite Hbrk in Href.
  - destruct (gaps_in _ _ _ (b, units n) Hi' ltac:(apply elem_of_app; right; left)) as [Hb _]. cbn in Hb.
    split; [lia|]. by replace (b + 8 - 8) with b by lia.
Qed.

(** A program's own stores, in the memory it was given. *)
Lemma store_ok h F A x w v : inv h F A -> x ∈ A -> x.1 + 8 <= w < blk_end x -> inv (set_word w v h) F A.
Proof.
  intros Hi Hx Hw. assert (Hne : Forall (fun y => y.1 <> w /\ y.1 + 4 <> w) ((base, 0) :: F ++ A)).
  { apply Forall_cons_2; [destruct (gaps_in _ _ _ x Hi ltac:(lset)); cbn; lia|]. apply Forall_forall. intros y Hy.
    apply list_elem_of_split in Hy as (l1 & l2 & El). pose proof (i_tiles _ _ _ Hi) as Ht. rewrite El, <- Permutation_middle in Ht.
    assert (Hx' : x ∈ y :: l1 ++ l2) by (rewrite Permutation_middle, <- El; lset).
    apply elem_of_cons in Hx' as [->|Hx']; [lia|]. destruct (tiles_far _ _ _ Ht) as [_ Hs].
    pose proof (proj1 (Forall_forall _ _) Hs x Hx' w ltac:(lia)). lia. }
  destruct Hi as [Hc Hs Ht Hg Hf Hb]. split; try done.
  - apply chain_set; [|done]. rewrite app_comm_cons in Hne. apply Forall_app in Hne as [Hne _]. eapply Forall_impl; [exact Hne|]. tauto.
  - apply sized_set; [|done]. eapply Forall_impl; [exact Hne|]. tauto.
Qed.

(** ** Programs using the allocator

    A state is the heap and the blocks handed out and not yet freed. *)
Inductive mstep : heap * list block -> heap * list block -> Prop :=
  | step_malloc h A n ap h' : 0 <= n <= 0x7ffffff0 -> malloc n h = Ret ap h' ->
      mstep (h, A) (h', if ap =? 0 then A else (ap - 8, units n) :: A)
  | step_free h A1 x A2 h' : free (x.1 + 8) h = Ret tt h' -> mstep (h, A1 ++ x :: A2) (h', A1 ++ A2)
  | step_store h A x w v : x ∈ A -> x.1 + 8 <= w < blk_end x -> mstep (h, A) (set_word w v h, A).

Lemma owned_step h A h' A' F : owned h F A -> mstep (h, A) (h', A') -> exists F', owned h' F' A'.
Proof.
  intros Ho Hs. inversion Hs as [? ? n ap ? Hn E|? A1 x A2 ? E|? ? x w v Hx Hw]; subst.
  - destruct (malloc_ok h F A n Ho Hn) as (ap' & h'' & F' & E' & _ & Hr). rewrite E' in E. injection E as -> ->. exists F'. right.
    destruct Hr as [(-> & Hi & _)|(Hne & Hi)]; [done|]. by rewrite (proj2 (Z.eqb_neq ap 0) Hne).
  - destruct Ho as [(_ & _ & Hnil)|Hi]; [by destruct A1|]. apply (inv_perm _ _ _ (x :: A1 ++ A2)) in Hi; [|by rewrite Permutation_middle].
    destruct (free_ok _ _ _ _ Hi) as (h'' & F' & E' & Hi' & _). rewrite E' in E. injection E as ->. exists F'. by right.
  - destruct Ho as [(_ & _ & ->)|Hi]; [by apply elem_of_nil in Hx|]. exists F. right. by eapply store_ok.
Qed.

Lemma owned_reach h0 h A : fresh h0 -> rtc mstep (h0, []) (h, A) -> exists F, owned h F A.
Proof.
  intros H0 Hr. cut (forall s s', rtc mstep s s' -> (exists F, owned s.1 F s.2) -> exists F, owned s'.1 F s'.2).
  { intros G. apply (G _ _ Hr). exists []. by left. }
  induction 1 as [|[h1 A1] [h2 A2] s' Hs _ IH]; [done|]. intros [F Ho]. apply IH. by eapply owned_step.
Qed.

(** C16. malloc and free are a correct allocator.  After any sequence of calls and of
    stores by the program into its own blocks, the free blocks and the blocks
    handed out fill the heap exactly and do not overlap, and no two free blocks
    are adjacent; [malloc] then returns, either a block with room for the bytes
    asked for that overlaps no other, or null, which happens only when no free
    block is large enough and the kernel refuses more memory; [free] of a block
    returns; and neither changes the contents of the other blocks. *)
Theorem malloc_free_correct h0 h A : fresh h0 -> rtc mstep (h0, []) (h, A) ->
  exists F, tiles (brk h) (F ++ A) /\ gaps F /\
    (forall n, 0 <= n <= 0x7ffffff0 -> exists ap h', malloc n h = Ret ap h' /\ kept A h h' /\
      (ap = 0 -> Forall (fun e => e.2 < units n) F /\ refused h (units n)) /\
      (ap <> 0 -> ap + n <= blk_end (ap - 8, units n) /\ in_heap (brk h') (ap - 8, units n) /\ Forall (apart (ap - 8, units n)) A)) /\
    (forall A1 x A2, A = A1 ++ x :: A2 -> exists h', free (x.1 + 8) h = Ret tt h' /\ kept (A1 ++ A2) h h').
Proof.
  intros H0 Hr. destruct (owned_reach _ _ _ H0 Hr) as [F Ho]. exists F. destruct (owned_tiles _ _ _ Ho) as [Ht Hg].
  split; [done|]. split; [done|]. split.
  - intros n Hn. destruct (malloc_ok h F A n Ho Hn) as (ap & h' & F' & E & Hk & Hap). exists ap, h'. split; [done|]. split; [done|].
    destruct (units_ok n Hn) as [_ Hu]. destruct Hap as [(-> & _ & Href & Hs)|(Hne & Hi)]; [done|]. split; [done|intros _].
    split; [unfold blk_end; cbn; lia|]. pose proof (i_tiles _ _ _ Hi) as Ht'. rewrite <- Permutation_middle in Ht'.
    split; [apply (Forall_inv (t_in _ _ Ht'))|]. destruct (t_apart _ _ Ht') as [Ha _]. by apply Forall_app in Ha as [_ Ha].
  - intros A1 x A2 ->. destruct Ho as [(_ & _ & Hnil)|Hi]; [by destruct A1|].
    apply (inv_perm _ _ _ (x :: A1 ++ A2)) in Hi; [|by rewrite Permutation_middle].
    destruct (free_ok _ _ _ _ Hi) as (h' & F' & E & _ & _ & _ & Hk). by exists h'.
Qed.
End umalloc.

(** A heap at 0x2000 of a program with [base] at 0x1000, and a kernel with memory. *)
Definition heap0 : heap := mkheap (fun _ => 0) 0 0x2000.
Definition always_grants (sz n : Z) : bool := true.
Definition heap_after {S A} (d : S) (o : outcome S A) : S := match o with Ret _ s => s | _ => d end.
Definition heap1 : heap := heap_after heap0 (malloc 0x1000 0x2000 always_grants 20 heap0).

Lemma malloc_free_correct_witness :
  fresh 0x2000 heap0 /\ rtc (mstep 0x1000 0x2000 always_grants) (heap0, []) (heap1, [(40928, 4)]) /\
  exists F, tiles 0x2000 (brk heap1) (F ++ [(40928, 4)]) /\ gaps F.
Proof.
  assert (Hf : fresh 0x2000 heap0) by (split; reflexivity).
  assert (Hr : rtc (mstep 0x1000 0x2000 always_grants) (heap0, []) (heap1, [(40928, 4)])).
  { apply rtc_once. apply (step_malloc _ _ _ heap0 [] 20 40936 heap1); [lia|]. vm_compute. reflexivity. }
  split; [exact Hf|]. split; [exact Hr|].
  destruct (malloc_free_correct 0x1000 0x2000 always_grants ltac:(lia) ltac:(unfold KERNBASE; lia) eq_refl heap0 heap1 [(40928, 4)] Hf Hr)
    as (F & Ht & Hg & _).
  exists F. split; [exact Ht|exact Hg].
Defined.

(** The size computation wraps: a request of 2^32 - 1 bytes gets one unit and
    returns the address at which the heap ends. *)
Lemma malloc_wraps :
  match malloc 0x1000 0x2000 always_grants 0xffffffff heap0 with
  | Ret ap h => ap = brk h
  | _ => False
  end.
Proof. vm_compute. reflexivity. Qed.
