(* ===== verification/ULib.v ===== *)
(** * ulib.c and printf.c: the library of user programs

    Strings are addresses in a byte memory, as in [StringC]; a loop over a
    string has a bound on its length as fuel and is [None] without a nul
    before it.  What is written to a file descriptor is the list of its
    bytes. *)
From stdpp Require Import base numbers list.
From Stdlib Require Import ZArith Lia.
From S2P Require Import Prelude StringC.
#[local] Open Scope Z_scope.

(** ** printf.c *)

(** The characters of "0123456789ABCDEF", or with other letters from [ten] on. *)
Definition digit (ten d : Z) : Z := if d <? 10 then 48 + d else ten + d - 10.
Definition upper : Z := 65.
Definition lower : Z := 97.

(** The do-while loop that fills [buf], last digit first. *)
Fixpoint digits_loop (ten : Z) (fuel : nat) (base x : Z) (buf : list Z) : option (list Z) :=
  match fuel with
  | O => None
  | S n =>
      let buf := buf ++ [digit ten (x `mod` base)] in
      let x := x / base in
      if x =? 0 then Some buf else digits_loop ten n base x buf
  end.

(** [None] when the 16 bytes of [buf] do not suffice.  The [printint] of
    console.c is the same with lower-case letters. *)
Definition printint_in (ten xx base sgn : Z) : option (list Z) :=
  let neg := negb (sgn =? 0) && (s32 xx <? 0) in
  let x := if neg then u32 (- s32 xx) else u32 xx in
  match digits_loop ten 16 base x [] with
  | None => None
  | Some buf =>
      let buf := if neg then buf ++ [45] else buf in
      if decide (length buf <= 16)%nat then Some (reverse buf) else None
  end.

Definition printint : Z -> Z -> Z -> option (list Z) := printint_in upper.

(** The bytes of the string at [a]. *)
Fixpoint cstring (m : mem) (a : Z) (bound : nat) : option (list Z) :=
  match bound with
  | O => None
  | S n => if m a =? 0 then Some [] else option_map (cons (m a)) (cstring m (a + 1) n)
  end.

Definition str_null : list Z := [40; 110; 117; 108; 108; 41].

(** One character [c] of the format in state [state] with arguments [ap]:
    what is written, and the new state and arguments. *)
Definition printf_char (m : mem) (bound : nat) (c : Z) (st : bool * list Z) : option (list Z * (bool * list Z)) :=
  let '(state, ap) := st in
  if negb state then
    if c =? 37 then Some ([], (true, ap)) else Some ([c], (false, ap))
  else if c =? 100 then (* d *)
    match ap with a :: ap => option_map (fun o => (o, (false, ap))) (printint a 10 1) | [] => None end
  else if (c =? 120) || (c =? 112) then (* x, p *)
    match ap with a :: ap => option_map (fun o => (o, (false, ap))) (printint a 16 0) | [] => None end
  else if c =? 115 then (* s *)
    match ap with
    | a :: ap => option_map (fun o => (o, (false, ap))) (if a =? 0 then Some str_null else cstring m a bound)
    | [] => None
    end
  else if c =? 99 then (* c *)
    match ap with a :: ap => Some ([u8 a], (false, ap)) | [] => None end
  else if c =? 37 then Some ([c], (false, ap))
  else Some ([37; c], (false, ap)).

Fixpoint printf_loop (m : mem) (bound : nat) (fmt : list Z) (st : bool * list Z) : option (list Z) :=
  match fmt with
  | [] => Some []
  | c :: fmt =>
      match printf_char m bound c st with
      | None => None
      | Some (o, st) => option_map (app o) (printf_loop m bound fmt st)
      end
  end.
Definition printf (m : mem) (bound : nat) (fmt ap : list Z) : option (list Z) := printf_loop m bound fmt (false, ap).

(** ** ulib.c *)
Fixpoint strcpy (m : mem) (s t : Z) (bound : nat) : option mem :=
  match bound with
  | O => None
  | S n =>
      let c := m t in
      let m := wr8 m s c in
      if c =? 0 then Some m else strcpy m (s + 1) (t + 1) n
  end.

(** The comparison is on [char], which is signed. *)
Fixpoint strcmp_loop (m : mem) (p q : Z) (bound : nat) : option Z :=
  match bound with
  | O => None
  | S n =>
      if negb (m p =? 0) && negb (m q =? 0) then
        if s8 (m p) <? s8 (m q) then Some (-1)
        else if s8 (m q) <? s8 (m p) then Some 1
        else strcmp_loop m (p + 1) (q + 1) n
      else if (m p =? 0) && (m q =? 0) then Some 0
      else if m p =? 0 then Some (-1) else Some 1
  end.
(** "strcmp %s %s\n", printed on STD_OUT at every call. *)
Definition strcmp_fmt : list Z := [115; 116; 114; 99; 109; 112; 32; 37; 115; 32; 37; 115; 10].
Definition strcmp (m : mem) (p q : Z) (bound : nat) : option (list Z * Z) :=
  match printf m bound strcmp_fmt [p; q], strcmp_loop m p q bound with
  | Some o, Some r => Some (o, r)
  | _, _ => None
  end.

Fixpoint strlen (m : mem) (s : Z) (bound : nat) : option Z :=
  match bound with
  | O => None
  | S b => if m s =? 0 then Some 0 else option_map (Z.add 1) (strlen m (s + 1) b)
  end.

Definition memset (m : mem) (dst c : Z) (n : Z) : mem := stosb m dst c (Z.to_nat n).

(** [Some 0] when the character is not there. *)
Fixpoint strchr (m : mem) (s c : Z) (bound : nat) : option Z :=
  match bound with
  | O => None
  | S n => if m s =? 0 then Some 0 else if s8 (m s) =? s8 c then Some s else strchr m (s + 1) c n
  end.

(** [input] is what successive one-byte reads return; a failed read ends it. *)
Fixpoint gets_loop (m : mem) (buf i max : Z) (input : list Z) : mem * Z * list Z :=
  if i + 1 <? max then
    match input with
    | [] => (m, i, [])
    | c :: input =>
        let m := wr8 m (buf + i) c in
        if (c =? 10) || (c =? 13) then (m, i + 1, input) else gets_loop m buf (i + 1) max input
    end
  else (m, i, input).
Definition gets (m : mem) (buf max : Z) (input : list Z) : mem * list Z :=
  let '(m, i, input) := gets_loop m buf 0 max input in (wr8 m (buf + i) 0, input).

Fixpoint atoi_loop (m : mem) (s n : Z) (bound : nat) : option Z :=
  match bound with
  | O => None
  | S b => if (48 <=? m s) && (m s <=? 57) then atoi_loop m (s + 1) (s32 (n * 10 + m s - 48)) b else Some n
  end.
Definition atoi (m : mem) (s : Z) (bound : nat) : option Z := atoi_loop m s 0 bound.

Definition memmove (m : mem) (vdst vsrc n : Z) : mem := copy_up m vdst vsrc (Z.to_nat n).

(** ** Numbers *)

(** The value of a digit character, and of a numeral. *)
Definition dval (c : Z) : Z := if c <? 58 then c - 48 else if c <? 97 then c - 55 else c - 87.
Definition value (base : Z) (ds : list Z) : Z := foldl (fun n c => n * base + dval c) 0 ds.

Definition numeral (ten base : Z) (ds : list Z) : Prop :=
  Forall (fun c => exists d, 0 <= d < base /\ c = digit ten d) ds /\ ds <> [] /\ (head ds = Some 48 -> ds = [48]).

Definition letters (ten : Z) : Prop := ten = upper \/ ten = lower.

Lemma dval_digit ten d : letters ten -> 0 <= d < 16 -> dval (digit ten d) = d.
Proof.
  unfold dval, digit, letters, upper, lower. intros Ht Hd. destruct (Z.ltb_spec d 10).
  - destruct (Z.ltb_spec (48 + d) 58); lia.
  - destruct (Z.ltb_spec (ten + d - 10) 58); [lia|]. destruct (Z.ltb_spec (ten + d - 10) 97); lia.
Qed.
Lemma digit_zero ten d : letters ten -> 0 <= d < 16 -> digit ten d = 48 -> d = 0.
Proof. unfold digit, letters, upper, lower. destruct (Z.ltb_spec d 10); lia. Qed.
Lemma value_snoc base ds c : value base (ds ++ [c]) = value base ds * base + dval c.
Proof. unfold value. by rewrite foldl_app. Qed.

Lemma digits_loop_spec ten base k : letters ten -> 2 <= base <= 16 -> forall fuel x buf, (k <= fuel)%nat -> 0 <= x < base ^ Z.of_nat k -> (1 <= k)%nat ->
  exists ds, digits_loop ten fuel base x buf = Some (buf ++ reverse ds) /\ numeral ten base ds /\
    value base ds = x /\ (length ds <= k)%nat.
Proof.
  intros Hten Hb. induction k as [|k IH]; intros fuel x buf Hf Hx Hk; [lia|]. destruct fuel as [|n]; [lia|].
  cbn [digits_loop]. pose proof (Z.mod_pos_bound x base ltac:(lia)) as Hm.
  assert (Ex : x = x / base * base + x `mod` base) by (pose proof (Z.div_mod x base ltac:(lia)); lia).
  assert (Hdig : forall c, c = digit ten (x `mod` base) -> exists d, 0 <= d < base /\ c = digit ten d) by eauto.
  destruct (Z.eqb_spec (x / base) 0) as [E0|E0].
  - exists [digit ten (x `mod` base)]. split; [done|]. split; [|split; [|cbn; lia]].
    + split; [by repeat constructor; apply Hdig|]. split; [done|]. intros [= ->]. done.
    + unfold value. cbn. rewrite dval_digit by (done || lia). lia.
  - assert (Hq : 0 <= x / base < base ^ Z.of_nat k).
    { split; [apply Z.div_pos; lia|]. apply Z.div_lt_upper_bound; [lia|].
      rewrite Nat2Z.inj_succ, Z.pow_succ_r in Hx by lia. lia. }
    destruct k as [|k]; [cbn in Hq; lia|].
    destruct (IH n (x / base) (buf ++ [digit ten (x `mod` base)]) ltac:(lia) Hq ltac:(lia)) as (ds & E & (Hd & Hne & Hz) & Hv & Hl).
    exists (ds ++ [digit ten (x `mod` base)]). rewrite E, reverse_snoc, <- app_assoc. split; [done|]. split; [|split].
    + split; [apply Forall_app; split; [done|by repeat constructor; apply Hdig]|]. split; [by destruct ds|].
      destruct ds as [|c ds]; [done|]. cbn. intros [= ->]. exfalso. specialize (Hz eq_refl).
      injection Hz as ->. cbn in Hv. done.
    + rewrite value_snoc, Hv, dval_digit by (done || lia). lia.
    + rewrite length_app. cbn. lia.
Qed.

(** [atoi] on a numeral in memory. *)
Definition holds (m : mem) (s : Z) (ds : list Z) : Prop := forall i c, ds !! i = Some c -> m (s + Z.of_nat i) = c.

Lemma value_mono base ds : 1 <= base -> Forall (fun c => 0 <= dval c) ds -> forall n, 0 <= n ->
  n <= foldl (fun n c => n * base + dval c) n ds.
Proof. intros Hb. induction 1 as [|c ds Hc Hds IH]; intros n Hn; cbn; [lia|]. specialize (IH (n * base + dval c) ltac:(nia)). nia. Qed.

Lemma atoi_loop_spec ten m ds : letters ten -> forall s n bound,
  Forall (fun c => exists d, 0 <= d < 10 /\ c = digit ten d) ds -> holds m s ds ->
  (m (s + Z.of_nat (length ds)) < 48 \/ 57 < m (s + Z.of_nat (length ds))) -> (length ds < bound)%nat ->
  0 <= n -> foldl (fun n c => n * 10 + dval c) n ds < 2147483648 ->
  atoi_loop m s n bound = Some (foldl (fun n c => n * 10 + dval c) n ds).
Proof.
  intros Hten. induction ds as [|c ds IH]; intros s n bound Hd Hm He Hb Hn Hlt; (destruct bound as [|b]; [lia|]); cbn [atoi_loop foldl].
  - rewrite Z.add_0_r in He. destruct (Z.leb_spec 48 (m s)), (Z.leb_spec (m s) 57); cbn [andb]; try done. lia.
  - pose proof (Hm 0%nat c eq_refl) as Hc. rewrite Z.add_0_r in Hc. apply Forall_cons in Hd as [(d & Hd & Ec) Hds].
    assert (Edv : c = 48 + d) by (rewrite Ec; unfold digit; destruct (Z.ltb_spec d 10); lia).
    rewrite Hc. destruct (Z.leb_spec 48 c); [|lia]. destruct (Z.leb_spec c 57); [|lia]. cbn [andb].
    assert (Ev : n * 10 + c - 48 = n * 10 + dval c) by (rewrite Ec at 2; rewrite dval_digit by (done || lia); lia).
    assert (Hpos : Forall (fun c => 0 <= dval c) ds).
    { eapply Forall_impl; [exact Hds|]. intros x (e & He' & ->). rewrite dval_digit; done || lia. }
    assert (Hdc : dval c = d) by (rewrite Ec, dval_digit by (done || lia); done).
    cbn [foldl] in Hlt. pose proof (value_mono 10 ds ltac:(lia) Hpos (n * 10 + dval c) ltac:(lia)) as Hmono.
    rewrite Ev, s32_small by lia. apply IH; try done; try lia.
    + intros i x Hi. specialize (Hm (S i) x Hi). rewrite <- Hm. f_equal. lia.
    + cbn [length] in He. replace (s + 1 + Z.of_nat (length ds)) with (s + Z.of_nat (S (length ds))) by lia. done.
    + cbn in Hb. lia.
Qed.

(** C33. Numbers are printed as numerals.  [printint], of printf.c and of
    console.c, in base 10 or 16 fits its 16-byte buffer for every int, and prints a minus sign when asked for and
    due, then digits without leading zeros whose value is the number; and
    [atoi] of the decimal digits, wherever they are in memory before a
    non-digit, gives the number back when it is an int. *)
Theorem printint_atoi ten xx base sgn : letters ten -> base = 10 \/ base = 16 ->
  let neg := negb (sgn =? 0) && (s32 xx <? 0) in
  exists ds, printint_in ten xx base sgn = Some ((if neg then [45] else []) ++ ds) /\ numeral ten base ds /\
    value base ds = (if neg then - s32 xx else u32 xx) /\
    forall m s, base = 10 -> value 10 ds < 2147483648 -> holds m s ds ->
      (m (s + Z.of_nat (length ds)) < 48 \/ 57 < m (s + Z.of_nat (length ds))) -> atoi m s 16 = Some (value 10 ds).
Proof.
  intros Hten Hbase neg. set (x := if neg then u32 (- s32 xx) else u32 xx).
  assert (Hx : 0 <= x < base ^ Z.of_nat 10).
  { assert (0 <= x < 4294967296) by (unfold x; destruct neg; apply u32_range). destruct Hbase as [->| ->]; cbn; lia. }
  destruct (digits_loop_spec ten base 10 Hten ltac:(lia) 16 x [] ltac:(lia) Hx ltac:(lia)) as (ds & E & Hn & Hv & Hl).
  exists ds. split; [|split; [done|split]].
  - unfold printint_in. fold neg x. rewrite E. cbn [app]. rewrite decide_True.
    + f_equal. destruct neg; [by rewrite reverse_snoc, reverse_involutive|by rewrite reverse_involutive].
    + destruct neg; rewrite ?length_app, length_reverse; cbn; lia.
  - rewrite Hv. unfold x. destruct neg eqn:En; [|done]. unfold neg in En. zbool.
    pose proof (s32_range xx). apply u32_small. lia.
  - intros m s -> Hlt Hm He. apply (atoi_loop_spec ten); try done; [apply Hn|lia].
Qed.

(** -2147483648 in decimal, and 1234 read back. *)
Lemma printint_atoi_witness : printint (-2147483648) 10 1 = Some [45; 50; 49; 52; 55; 52; 56; 51; 54; 52; 56] /\
  atoi (fun a => if a <? 4 then 49 + a else 0) 0 16 = Some 1234.
Proof.
  destruct (printint_atoi upper (-2147483648) 10 1 (or_introl eq_refl) (or_introl eq_refl)) as (ds & E & _).
  destruct (printint_atoi upper 1234 10 1 (or_introl eq_refl) (or_introl eq_refl)) as (ds2 & E2 & _ & Hv & H).
  split; [reflexivity|]. change (Some [49; 50; 51; 52] = Some ([] ++ ds2)) in E2. injection E2 as <-.
  apply H; [reflexivity|reflexivity| |left; reflexivity].
  intros [|[|[|[|i]]]] c Hi; cbn in Hi; simplify_eq; reflexivity.
Defined.
