(* ===== verification/Grep.v ===== *)
(** * grep.c

    The matcher and the line loop of grep.  Strings are the bytes before
    their nul; a read is the bytes it stores.  [match_correct] relates the
    matcher to the language of the pattern, and [grep_correct] the loop over
    the 1024-byte buffer to the lines of the file. *)
From stdpp Require Import base numbers list.
From Stdlib Require Import ZArith Lia.
From S2P Require Import Prelude.
#[local] Open Scope Z_scope.

Definition chr_caret : Z := 94.
Definition chr_dollar : Z := 36.
Definition chr_star : Z := 42.
Definition chr_dot : Z := 46.
Definition chr_nl : Z := 10.

(** ** The matcher *)

(** [matchhere(re, .)] is the argument [m]. *)
Fixpoint matchstar (m : list Z -> bool) (c : Z) (text : list Z) : bool :=
  if m text then true
  else match text with
       | [] => false
       | t :: text' => if (t =? c) || (c =? chr_dot) then matchstar m c text' else false
       end.

Fixpoint matchhere (re : list Z) : list Z -> bool :=
  match re with
  | [] => fun _ => true
  | c :: re1 =>
      match re1 with
      | s :: re2 =>
          if s =? chr_star then matchstar (matchhere re2) c
          else fun text =>
            match text with
            | t :: text' => if (c =? chr_dot) || (c =? t) then matchhere re1 text' else false
            | [] => false
            end
      | [] => fun text =>
          if c =? chr_dollar then match text with [] => true | _ => false end
          else match text with
               | t :: text' => if (c =? chr_dot) || (c =? t) then matchhere re1 text' else false
               | [] => false
               end
      end
  end.

(** [match] of grep.c, a keyword here. *)
Fixpoint match_anywhere (re text : list Z) : bool :=
  if matchhere re text then true
  else match text with [] => false | _ :: text' => match_anywhere re text' end.

Definition match_ (re text : list Z) : bool :=
  match re with
  | c :: re' => if c =? chr_caret then matchhere re' text else match_anywhere re text
  | [] => match_anywhere re text
  end.

(** ** The language of a pattern *)
Inductive elem := One (c : Z) | Star (c : Z).

Definition accepts (c t : Z) : bool := (c =? chr_dot) || (c =? t).

(** The elements of a pattern without its anchors, and whether it ends in [$]. *)
Fixpoint elems (re : list Z) : list elem * bool :=
  match re with
  | [] => ([], false)
  | c :: re1 =>
      match re1 with
      | s :: re2 => if s =? chr_star then let '(es, d) := elems re2 in (Star c :: es, d)
                    else let '(es, d) := elems re1 in (One c :: es, d)
      | [] => if c =? chr_dollar then ([], true) else ([One c], false)
      end
  end.

Inductive lang : list elem -> list Z -> Prop :=
| lang_nil : lang [] []
| lang_one c es t u : accepts c t = true -> lang es u -> lang (One c :: es) (t :: u)
| lang_star c es w u : Forall (fun t => accepts c t = true) w -> lang es u -> lang (Star c :: es) (w ++ u).

(** A prefix of the text is in the language, and all of it when anchored. *)
Definition prefix_in (p : list elem * bool) (text : list Z) : Prop :=
  exists u v, text = u ++ v /\ lang p.1 u /\ (p.2 = true -> v = []).

Lemma prefix_star c es d text : prefix_in (Star c :: es, d) text <->
  exists w r, text = w ++ r /\ Forall (fun t => accepts c t = true) w /\ prefix_in (es, d) r.
Proof.
  split.
  - intros (u & v & -> & Hl & Hd). inversion Hl as [| |? ? w u' Hw Hu]; subst. exists w, (u' ++ v).
    rewrite app_assoc. split; [done|]. split; [done|]. by exists u', v.
  - intros (w & r & -> & Hw & u & v & -> & Hl & Hd). exists (w ++ u), v. rewrite app_assoc.
    split; [done|]. split; [by constructor|done].
Qed.

Lemma prefix_one c es d text : prefix_in (One c :: es, d) text <->
  exists t r, text = t :: r /\ accepts c t = true /\ prefix_in (es, d) r.
Proof.
  split.
  - intros (u & v & -> & Hl & Hd). inversion Hl as [|? ? t u' Ht Hu|]; subst. exists t, (u' ++ v).
    split; [done|]. split; [done|]. by exists u', v.
  - intros (t & r & -> & Ht & u & v & -> & Hl & Hd). exists (t :: u), v.
    split; [done|]. split; [by constructor|done].
Qed.

Lemma matchstar_spec m c (P : list Z -> Prop) : (forall text, m text = true <-> P text) ->
  forall text, matchstar m c text = true <->
    exists w r, text = w ++ r /\ Forall (fun t => accepts c t = true) w /\ P r.
Proof.
  intros Hm text. induction text as [|t text IH]; cbn; destruct (m _) eqn:E.
  - split; [|done]. intros _. exists [], []. split; [done|]. split; [done|]. by apply Hm.
  - split; [done|]. intros (w & r & Ew & _ & Hr). symmetry in Ew. apply app_nil in Ew as [-> ->]. apply Hm in Hr. congruence.
  - split; [|done]. intros _. exists [], (t :: text). split; [done|]. split; [done|]. by apply Hm.
  - assert (Ha : (t =? c) || (c =? chr_dot) = accepts c t) by (unfold accepts; rewrite orb_comm; f_equal; apply Z.eqb_sym).
    rewrite Ha. destruct (accepts c t) eqn:Et.
    + rewrite IH. split; intros (w & r & Ew & Hw & Hr).
      * exists (t :: w), r. rewrite Ew. split; [done|]. split; [by constructor|done].
      * destruct w as [|t' w]; simplify_eq/=; [apply Hm in Hr; congruence|]. apply Forall_cons in Hw as [_ Hw]. eauto.
    + split; [done|]. intros (w & r & Ew & Hw & Hr).
      destruct w as [|t' w]; simplify_eq/=; [apply Hm in Hr; congruence|]. apply Forall_cons in Hw as [Hw _]. congruence.
Qed.

Lemma matchhere_spec n : forall re text, (length re <= n)%nat -> matchhere re text = true <-> prefix_in (elems re) text.
Proof.
  induction n as [|n IH]; intros [|c re1] text Hn; try (cbn in Hn; lia).
  1,2: split; [|done]; intros _; exists [], text; split; [done|]; split; [constructor|done].
  assert (Hone : (match text with t :: text' => if (c =? chr_dot) || (c =? t) then matchhere re1 text' else false | [] => false end) = true
      <-> prefix_in (One c :: (elems re1).1, (elems re1).2) text).
  { rewrite prefix_one. cbn in Hn. destruct text as [|t text]; [split; [done|by intros (? & ? & ? & _)]|].
    fold (accepts c t). pose proof (IH re1 text ltac:(lia)) as IHr. destruct (elems re1) as [es d]. split.
    - destruct (accepts c t) eqn:E; [|done]. intros Hm. exists t, text. split; [done|]. split; [done|]. by apply IHr.
    - intros (t' & r & [= <- <-] & -> & Hr). by apply IHr. }
  destruct re1 as [|s re2].
  - cbn [matchhere elems]. destruct (c =? chr_dollar).
    + destruct text as [|t text]; split; try done; [intros _; by exists [], []; repeat split; try constructor|].
      intros (u & v & E & Hl & Hv). inversion Hl; subst. rewrite Hv in E by done. done.
    + exact Hone.
  - cbn [matchhere elems] in *. destruct (s =? chr_star) eqn:Es.
    + rewrite (matchstar_spec _ _ (prefix_in (elems re2))) by (intros r; apply IH; cbn in Hn; lia).
      destruct (elems re2) as [es d]. by rewrite prefix_star.
    + revert Hone. destruct re2 as [|s2 re3]; cbn [fst snd]; [destruct (s =? chr_dollar); done|].
      destruct (s2 =? chr_star); [destruct (elems re3)|destruct (elems (s2 :: re3))]; done.
Qed.

Lemma match_anywhere_spec re text :
  match_anywhere re text = true <-> exists p r, text = p ++ r /\ prefix_in (elems re) r.
Proof.
  assert (Hh := fun r => matchhere_spec (length re) re r ltac:(lia)).
  induction text as [|t text IH]; cbn; destruct (matchhere re _) eqn:E.
  1,3: split; [|done]; intros _; exists []; eexists; split; [reflexivity|]; by apply Hh.
  - split; [done|]. intros (p & r & Er & Hr). symmetry in Er. apply app_nil in Er as [_ ->]. apply Hh in Hr. congruence.
  - rewrite IH. split; intros (p & r & Er & Hr).
    + exists (t :: p), r. by rewrite Er.
    + destruct p as [|t' p]; simplify_eq/=; [apply Hh in Hr; congruence|]. eauto.
Qed.

(** The pattern of [re]: its elements, and whether it is anchored at either end. *)
Definition pattern (re : list Z) : bool * list elem * bool :=
  match re with
  | c :: re' => if c =? chr_caret then (true, (elems re').1, (elems re').2) else (false, (elems re).1, (elems re).2)
  | [] => (false, [], false)
  end.

(** C31. The matcher of grep accepts a text exactly when a substring of it is in
    the language of the pattern: a literal matches itself, [.] any character,
    a starred one any number of them, [^] and [$] at the ends of the pattern
    pin the substring to the ends of the text. *)
Theorem match_correct re text : match_ re text = true <->
  exists p u v, text = p ++ u ++ v /\
    let '(bol, es, eol) := pattern re in lang es u /\ (bol = true -> p = []) /\ (eol = true -> v = []).
Proof.
  assert (Hany : forall re, match_anywhere re text = true <->
    exists p u v, text = p ++ u ++ v /\ lang (elems re).1 u /\ (false = true -> p = []) /\ ((elems re).2 = true -> v = [])).
  { intros r. rewrite match_anywhere_spec. split.
    - intros (p & q & -> & u & v & -> & Hl & Hv). by exists p, u, v.
    - intros (p & u & v & -> & Hl & _ & Hv). exists p, (u ++ v). split; [done|]. by exists u, v. }
  destruct re as [|c re]; cbn [match_ pattern]; [apply Hany|]. destruct (c =? chr_caret); [|apply Hany].
  rewrite (matchhere_spec (length re)) by lia. split.
  - intros (u & v & -> & Hl & Hv). by exists [], u, v.
  - intros (p & u & v & -> & Hl & Hp & Hv). rewrite Hp by done. by exists u, v.
Qed.

(** ** The loop over lines *)

(** [strchr(p, '\n')] of ulib.c: the bytes before the newline and those after it. *)
Fixpoint strchr_nl (p : list Z) : option (list Z * list Z) :=
  match p with
  | [] => None
  | c :: p' =>
      if c =? 0 then None
      else if c =? chr_nl then Some ([], p')
      else match strchr_nl p' with Some (l, r) => Some (c :: l, r) | None => None end
  end.

(** The inner loop: what it writes, and what [p] points to at its end. *)
Fixpoint grep_lines (fuel : nat) (re p out : list Z) : list Z * list Z :=
  match fuel with
  | O => (out, p)
  | S n =>
      match strchr_nl p with
      | None => (out, p)
      | Some (line, p') => grep_lines n re p' (if match_ re line then out ++ line ++ [chr_nl] else out)
      end
  end.

Section grep.
Context {S : Type} (read : Z -> S -> list Z * S).

(** One turn of the outer loop: [b] is the first [m] bytes of [buf].  [inr] when
    there is nothing more to read. *)
Definition grep_iter (re : list Z) (st : list Z * list Z) (s : S) : (list Z * list Z) * S + list Z :=
  let '(b, out) := st in
  let '(c, s') := read (1024 - Z.of_nat (length b) - 1) s in
  match c with
  | [] => inr out
  | _ =>
      let b' := b ++ c in
      let '(out', p) := grep_lines (length b') re b' out in
      let b'' := if decide (length p = length b') then [] else p in
      inl ((b'', out'), s')
  end.

Fixpoint grep_loop (fuel : nat) (re : list Z) (st : list Z * list Z) (s : S) : option (list Z) :=
  match fuel with
  | O => None
  | Datatypes.S n =>
      match grep_iter re st s with
      | inr out => Some out
      | inl (st', s') => grep_loop n re st' s'
      end
  end.
Definition grep (fuel : nat) (re : list Z) (s : S) : option (list Z) := grep_loop fuel re ([], []) s.
End grep.

(** [read] of a regular file: all that was asked for, or what is left. *)
Definition read_file (n : Z) (content : list Z) : list Z * list Z :=
  (take (Z.to_nat n) content, drop (Z.to_nat n) content).

(** The text of terminated lines. *)
Definition unlines (ls : list (list Z)) : list Z := mjoin ((fun l => l ++ [chr_nl]) <$> ls).

Lemma strchr_nl_line l r : chr_nl ∉ l -> 0 ∉ l -> strchr_nl (l ++ chr_nl :: r) = Some (l, r).
Proof.
  induction l as [|c l IH]; intros Hn Hz; [done|]. cbn.
  apply not_elem_of_cons in Hn as [Hn1 Hn2]. apply not_elem_of_cons in Hz as [Hz1 Hz2].
  rewrite (proj2 (Z.eqb_neq c 0)), (proj2 (Z.eqb_neq c chr_nl)), IH by done. done.
Qed.
Lemma strchr_nl_none p : chr_nl ∉ p -> strchr_nl p = None.
Proof.
  induction p as [|c p IH]; intros Hn; [done|]. apply not_elem_of_cons in Hn as [Hn1 Hn2]. cbn.
  rewrite IH, (proj2 (Z.eqb_neq c chr_nl)) by done. by destruct (c =? 0).
Qed.

(** The inner loop on whole lines followed by an unfinished one. *)
Lemma grep_lines_spec re ls : forall fuel p out, Forall (fun l => chr_nl ∉ l /\ 0 ∉ l) ls -> chr_nl ∉ p ->
  (length ls <= fuel)%nat ->
  grep_lines fuel re (unlines ls ++ p) out = (out ++ unlines (filter (fun l => match_ re l = true) ls), p).
Proof.
  induction ls as [|l ls IH]; intros fuel p out Hls Hp Hf.
  - change (unlines [] ++ p) with p. rewrite filter_nil, app_nil_r. by destruct fuel; [|cbn; rewrite strchr_nl_none].
  - destruct fuel as [|n]; [cbn in Hf; lia|]. apply Forall_cons in Hls as [[Hn Hz] Hls].
    assert (E : unlines (l :: ls) ++ p = l ++ chr_nl :: (unlines ls ++ p)) by (unfold unlines; cbn; by rewrite <- !app_assoc).
    rewrite E. cbn [grep_lines]. rewrite strchr_nl_line by done. rewrite IH by (cbn in Hf; done || lia).
    destruct (match_ re l) eqn:Em.
    + rewrite filter_cons_True by done. unfold unlines. cbn. by rewrite <- !app_assoc.
    + by rewrite filter_cons_False by congruence.
Qed.

Lemma unlines_cons l ls : unlines (l :: ls) = l ++ chr_nl :: unlines ls.
Proof. unfold unlines. cbn. by rewrite <- app_assoc. Qed.
Lemma unlines_app ls1 ls2 : unlines (ls1 ++ ls2) = unlines ls1 ++ unlines ls2.
Proof. unfold unlines. by rewrite fmap_app, join_app. Qed.
Lemma length_unlines ls : (length ls <= length (unlines ls))%nat.
Proof. induction ls as [|l ls IH]; [done|]. rewrite unlines_cons, length_app. cbn. lia. Qed.

(** A buffer full of lines: the whole ones, and the start of the next. *)
Lemma cut_lines ls : forall tail b s, Forall (fun l => chr_nl ∉ l) ls -> chr_nl ∉ tail -> b ++ s = unlines ls ++ tail ->
  exists ls1 ls2 p, ls = ls1 ++ ls2 /\ b = unlines ls1 ++ p /\ chr_nl ∉ p /\ p ++ s = unlines ls2 ++ tail.
Proof.
  induction ls as [|l ls IH]; intros tail b s Hls Ht E.
  - exists [], [], b. split; [done|]. split; [done|]. split; [|done]. cbn in E. rewrite <- E in Ht.
    by apply not_elem_of_app in Ht as [? _].
  - apply Forall_cons in Hls as [Hl Hls]. rewrite unlines_cons, <- app_assoc in E. cbn in E.
    apply app_eq_inv in E as [(k & Eb & Es)|(k & Eb & Es)].
    + (* b = l ++ k *) destruct k as [|x k].
      * rewrite app_nil_r in Eb. subst b. exists [], (l :: ls), l. rewrite unlines_cons, <- app_assoc. cbn.
        cbn in Es. by rewrite <- Es.
      * cbn in Es. injection Es as Ex Es. subst x. destruct (IH tail k s Hls Ht (eq_sym Es)) as (ls1 & ls2 & p & -> & -> & Hp & E).
        exists (l :: ls1), ls2, p. rewrite unlines_cons. subst b. by rewrite <- app_assoc.
    + (* l = b ++ k *) destruct k as [|x k].
      * rewrite app_nil_r in Eb. subst b. exists [], (l :: ls), l. rewrite unlines_cons, <- app_assoc. cbn. by rewrite Es.
      * exists [], (l :: ls), b. rewrite unlines_cons, <- app_assoc, Eb in *. cbn. rewrite <- app_assoc, Es.
        split; [done|]. split; [done|]. split; [|done]. by apply not_elem_of_app in Hl as [? _].
Qed.

(** The buffer cannot be full without a newline. *)
Lemma no_long_line ls tail p s : Forall (fun l => (length l <= 1022)%nat) ls -> chr_nl ∉ p ->
  p ++ s = unlines ls ++ tail -> s = [] \/ length p = 1023%nat -> ls = [].
Proof.
  intros Hls Hp E Hfull. destruct ls as [|l ls]; [done|exfalso].
  apply Forall_cons in Hls as [Hl _]. rewrite unlines_cons, <- app_assoc in E. cbn in E.
  destruct (decide (length p <= length l)%nat) as [Hle|Hgt].
  - destruct Hfull as [->|Hp']; [|lia]. rewrite app_nil_r in E. apply (f_equal length) in E.
    rewrite length_app in E. cbn in E. lia.
  - apply Hp. apply (list_elem_of_lookup_2 _ (length l)). rewrite <- (lookup_app_l p s), E by lia.
    apply list_lookup_middle. done.
Qed.

Lemma grep_loop_spec re ls tail : forall fuel b s out,
  Forall (fun l => chr_nl ∉ l /\ 0 ∉ l /\ (length l <= 1022)%nat) ls -> chr_nl ∉ tail ->
  b ++ s = unlines ls ++ tail -> chr_nl ∉ b -> (length b <= 1022)%nat -> (length s < fuel)%nat ->
  grep_loop read_file fuel re (b, out) s = Some (out ++ unlines (filter (fun l => match_ re l = true) ls)).
Proof.
  intros fuel. revert ls tail. induction fuel as [|n IH]; intros ls tail b s out Hls Ht E Hb Hlb Hf; [lia|].
  cbn [grep_loop]. unfold grep_iter, read_file.
  replace (1024 - Z.of_nat (length b) - 1) with (1023 - Z.of_nat (length b)) by lia.
  set (k := Z.to_nat _). assert (Hk : (k + length b)%nat = 1023%nat) by lia.
  assert (H1 : Forall (fun l => chr_nl ∉ l) ls) by (eapply Forall_impl; [exact Hls|]; naive_solver).
  assert (H3 : Forall (fun l => (length l <= 1022)%nat) ls) by (eapply Forall_impl; [exact Hls|]; naive_solver).
  destruct s as [|x s].
  { rewrite take_nil. rewrite (no_long_line ls tail b [] H3 Hb E (or_introl eq_refl)). by rewrite filter_nil, app_nil_r. }
  remember (take k (x :: s)) as c eqn:Ec. remember (drop k (x :: s)) as s' eqn:Es'.
  assert (Ecs : x :: s = c ++ s') by (subst; by rewrite take_drop). rewrite Ecs in E.
  assert (Hlc : length c = Nat.min k (length (x :: s))) by (subst; by rewrite length_take).
  destruct c as [|y c0]; [cbn in Hlc; lia|]. set (c := y :: c0) in *.
  rewrite app_assoc in E. destruct (cut_lines ls tail (b ++ c) s' H1 Ht E) as (ls1 & ls2 & p & -> & Eb & Hp & Ep).
  apply Forall_app in Hls as [Hls1 Hls2]. apply Forall_app in H3 as [_ H3].
  assert (Hl' : (length s' < n)%nat).
  { apply (f_equal length) in Ecs. rewrite length_app in Ecs. cbn in Ecs, Hf. lia. }
  rewrite Eb. rewrite grep_lines_spec; [|eapply Forall_impl; [exact Hls1|]; naive_solver|done|
    rewrite length_app; pose proof (length_unlines ls1); lia].
  rewrite filter_app, unlines_app, app_assoc. case_decide as Hd.
  - assert (Hls0 : ls1 = []) by (destruct ls1; [done|]; rewrite unlines_cons, !length_app in Hd; cbn in Hd; lia).
    subst ls1. cbn in Eb. assert (Hls2' : ls2 = []).
    { apply (no_long_line ls2 tail p s'); [done..|]. rewrite <- Eb, length_app, Hlc.
      destruct s' as [|z s']; [by left|right]. apply (f_equal length) in Ecs. rewrite length_app in Ecs. cbn in *. lia. }
    subst ls2. cbn in Ep. rewrite (IH [] s'); [by rewrite !filter_nil, !app_nil_r|done| |done| |cbn; lia|lia].
    + rewrite <- Ep in Ht. by apply not_elem_of_app in Ht as [_ ?].
    + by apply not_elem_of_nil.
  - rewrite (IH ls2 tail p s'); [done|done|done|done|done| |done].
    rewrite length_app in Hd. apply (f_equal length) in Eb. rewrite !length_app, Hlc in Eb. cbn in Eb. lia.
Qed.

(** C32. grep of a regular file whose lines fit the buffer writes exactly the
    terminated lines that match, in order, and ends; what follows the last
    newline is not a line. *)
Theorem grep_correct re ls tail :
  Forall (fun l => chr_nl ∉ l /\ 0 ∉ l /\ (length l <= 1022)%nat) ls -> chr_nl ∉ tail ->
  let content := unlines ls ++ tail in
  grep read_file (length content + 1) re content = Some (unlines (filter (fun l => match_ re l = true) ls)).
Proof.
  intros Hls Ht content. unfold grep. rewrite (grep_loop_spec re ls tail); [done|done|done|done| |cbn; lia|lia].
  apply not_elem_of_nil.
Qed.

(** On the lines "ab" and "b" and the rest "a", the pattern ["^a"]. *)
Lemma grep_correct_witness :
  grep read_file 7 [chr_caret; 97] [97; 98; 10; 98; 10; 97] = Some [97; 98; 10].
Proof.
  apply (grep_correct [chr_caret; 97] [[97; 98]; [98]] [97]); [|by rewrite list_elem_of_singleton].
  repeat constructor; try (cbn; lia); intros Hx; repeat (apply elem_of_cons in Hx as [Hx|Hx]; [discriminate|]);
    by apply elem_of_nil in Hx.
Defined.

(** A read that ends inside a line, as from a pipe, makes grep drop the line:
    it arrives as "a" and "b\n" and matches ["a"], but only "b" is looked at. *)
Lemma grep_drops_split_line :
  let read (_ : Z) (cs : list (list Z)) := match cs with [] => ([], []) | c :: cs => (c, cs) end in
  grep read 3 [97] [[97]; [98; 10]] = Some [].
Proof. reflexivity. Qed.
