(* ===== verification/Sh.v ===== *)
(** * sh.c: the parser of the shell

    The command line is the bytes before its nul.  A pointer into it is the
    list of the bytes from it on, the state that the parsing functions thread
    through; a token is the pair of offsets that the code keeps in [argv] and
    [eargv].  [panic] is the outcome [Panic].  [malloc] is taken to succeed. *)
From stdpp Require Import base numbers list strings.
From Stdlib Require Import ZArith Lia.
From S2P Require Import Prelude.
#[local] Open Scope Z_scope.

Definition MAXARGS : nat := 10.
Definition O_RDONLY : Z := 0.
Definition O_WRONLY_CREATE : Z := Z.lor 1 512.

Definition bar : Z := 124.
Definition lparen : Z := 40.
Definition rparen : Z := 41.
Definition semi : Z := 59.
Definition amp : Z := 38.
Definition less : Z := 60.
Definition greater : Z := 62.
Definition plus : Z := 43.
Definition letter_a : Z := 97.

(** " \t\r\n\v" and "<|>&;()". *)
Definition whitespace : list Z := [32; 9; 13; 10; 11].
Definition symbols : list Z := [less; bar; greater; amp; semi; lparen; rparen].
Definition strchr (l : list Z) (c : Z) : bool := existsb (Z.eqb c) l.

(** Offsets into the line: the start of a word and its end. *)
Record token := mktoken { tq : nat; teq : nat }.

(** Commands whose words are of type [W]. *)
Inductive cmd_of (W : Type) :=
  | EXEC (argv : list W)
  | REDIR (c : cmd_of W) (file : W) (mode fd : Z)
  | PIPE (left right : cmd_of W)
  | LIST (left right : cmd_of W)
  | BACK (c : cmd_of W).
Arguments EXEC {W} argv.
Arguments REDIR {W} c file mode fd.
Arguments PIPE {W} left right.
Arguments LIST {W} left right.
Arguments BACK {W} c.
Notation cmd := (cmd_of token).

(** A redirection that [parseredirs] puts around a command. *)
Notation redir := (token * Z * Z)%type.
Definition redircmd {W} (c : cmd_of W) (r : W * Z * Z) : cmd_of W := REDIR c r.1.1 r.1.2 r.2.

Section parser.
(** [n]: the length of the line, so that [n - length s] is the offset of [s]. *)
Context (n : nat).
Definition P (A : Type) := M (list Z) A.

Fixpoint skip (s : list Z) : list Z :=
  match s with
  | c :: s' => if strchr whitespace c then skip s' else s
  | [] => []
  end.
Fixpoint skip_word (s : list Z) : list Z :=
  match s with
  | c :: s' => if strchr whitespace c || strchr symbols c then s else skip_word s'
  | [] => []
  end.

(** The token at the first byte that is not white space, and what follows it. *)
Definition lex (s : list Z) : Z * list Z :=
  match s with
  | [] => (0, [])
  | c :: r =>
      if (c =? bar) || (c =? lparen) || (c =? rparen) || (c =? semi) || (c =? amp) || (c =? less) then (c, r)
      else if c =? greater then
        match r with
        | d :: r' => if d =? greater then (plus, r') else (greater, r)
        | [] => (greater, r)
        end
      else (letter_a, skip_word s)
  end.

Definition gettoken : P (Z * token) := fun s =>
  let q := skip s in
  let '(ret, eq) := lex q in
  Ret (ret, mktoken (n - length q) (n - length eq)) (skip eq).

Definition peek (toks : list Z) : P bool := fun s =>
  let s := skip s in
  Ret (match s with c :: _ => strchr toks c | [] => false end) s.


(** The redirections at the head of the input, the first one innermost. *)
Definition parseredirs_iter (rs : list redir) : P (list redir + list redir) :=
  b <- peek [less; greater] ;;
  if negb b then ret (inr rs)
  else
    tok <- gettoken ;;
    f <- gettoken ;;
    if negb (f.1 =? letter_a) then panic "missing file for redirection"
    else
      ret (inl (rs ++ [(f.2, if tok.1 =? less then O_RDONLY else O_WRONLY_CREATE,
                        if tok.1 =? less then 0 else 1)])).
Definition parseredirs : P (list redir) :=
  s <- get ;; loop (S (length s)) parseredirs_iter [].

(** The loop of [parseexec].  [ret] is the exec command, whose [argv] the loop
    still fills, inside the redirections read so far; so it is kept as those
    and [argv]. *)
Definition parseexec_iter (st : list token * list redir) : P (list token * list redir + cmd) :=
  let '(argv, rs) := st in
  b <- peek [bar; rparen; amp; semi] ;;
  if b then ret (inr (foldl redircmd (EXEC argv) rs))
  else
    t <- gettoken ;;
    if t.1 =? 0 then ret (inr (foldl redircmd (EXEC argv) rs))
    else if negb (t.1 =? letter_a) then panic "syntax"
    else
      let argv := argv ++ [t.2] in
      if decide (MAXARGS <= length argv)%nat then panic "too many args"
      else rs' <- parseredirs ;; ret (inl (argv, rs ++ rs')).

(** The loop of [parseline] over [&]. *)
Definition parseback_iter (c : cmd) : P (cmd + cmd) :=
  b <- peek [amp] ;;
  if b then gettoken ;;; ret (inl (BACK c)) else ret (inr c).

(** The four functions call each other; the fuel bounds the depth. *)
Fixpoint parseline (fuel : nat) : P cmd :=
  match fuel with
  | O => fun _ => Spin
  | S k =>
      c <- parsepipe k ;;
      s <- get ;;
      c <- loop (S (length s)) parseback_iter c ;;
      b <- peek [semi] ;;
      if b then gettoken ;;; r <- parseline k ;; ret (LIST c r) else ret c
  end
with parsepipe (fuel : nat) : P cmd :=
  match fuel with
  | O => fun _ => Spin
  | S k =>
      c <- parseexec k ;;
      b <- peek [bar] ;;
      if b then gettoken ;;; r <- parsepipe k ;; ret (PIPE c r) else ret c
  end
with parseexec (fuel : nat) : P cmd :=
  match fuel with
  | O => fun _ => Spin
  | S k =>
      b <- peek [lparen] ;;
      if b then parseblock k
      else
        rs <- parseredirs ;;
        s <- get ;;
        loop (S (length s)) parseexec_iter ([], rs)
  end
with parseblock (fuel : nat) : P cmd :=
  match fuel with
  | O => fun _ => Spin
  | S k =>
      b <- peek [lparen] ;;
      if negb b then panic "parseblock"
      else
        gettoken ;;;
        c <- parseline k ;;
        b <- peek [rparen] ;;
        if negb b then panic "syntax - missing )"
        else
          gettoken ;;;
          rs <- parseredirs ;;
          ret (foldl redircmd c rs)
  end.
End parser.

(** The writes of [nulterminate] into the line and its nul. *)
Fixpoint nulterminate (c : cmd) (buf : list Z) : list Z :=
  match c with
  | EXEC argv => foldl (fun b t => <[teq t := 0]> b) buf argv
  | REDIR c f _ _ => <[teq f := 0]> (nulterminate c buf)
  | PIPE l r | LIST l r => nulterminate r (nulterminate l buf)
  | BACK c => nulterminate c buf
  end.

(** The command and the buffer it points into. *)
Definition parsecmd (line : list Z) : outcome (list Z) (cmd * list Z) :=
  (c <- parseline (length line) (4 * length line + 4) ;;
   peek [] ;;;
   s <- get ;;
   match s with
   | [] => ret (c, nulterminate c (line ++ [0]))
   | _ => panic "syntax"
   end) line.

(** ** Termination *)

(** [c] ends, in [Q] when it does not panic. *)
Definition total {A} (c : P A) (s : list Z) (Q : A -> list Z -> Prop) : Prop :=
  match c s with
  | Ret a t => Q a t
  | Panic _ _ => True
  | _ => False
  end.

Lemma total_bind {A B} (c : P A) (f : A -> P B) s Q : total c s (fun a t => total (f a) t Q) -> total (bind c f) s Q.
Proof. unfold total, bind. by destruct (c s). Qed.
Lemma total_mono {A} (c : P A) s Q Q' : total c s Q -> (forall a t, Q a t -> Q' a t) -> total c s Q'.
Proof. unfold total. destruct (c s); auto. Qed.
Lemma total_loop {X R} (body : X -> P (X + R)) (Q : R -> list Z -> Prop) (l : nat) :
  (forall x s, (length s <= l)%nat -> total (body x) s (fun r t => match r with
     | inl _ => (length t < length s)%nat | inr v => Q v t end)) ->
  forall fuel x s, (length s <= l)%nat -> (length s < fuel)%nat -> total (loop fuel body x) s Q.
Proof.
  intros Hb. induction fuel as [|k IH]; intros x s Hl Hf; [lia|]. cbn [loop]. apply total_bind.
  eapply total_mono; [by apply Hb|]. intros [y|v] t Ht; [apply IH; lia|done].
Qed.

Lemma skip_length s : (length (skip s) <= length s)%nat.
Proof. induction s as [|c s IH]; cbn; [lia|]. case_match; cbn; lia. Qed.
Lemma skip_word_length s : (length (skip_word s) <= length s)%nat.
Proof. induction s as [|c s IH]; cbn; [lia|]. case_match; cbn; lia. Qed.
Lemma skip_head s c r : skip s = c :: r -> strchr whitespace c = false.
Proof. induction s as [|d s IH]; cbn; [done|]. case_match eqn:E; [done|]. by intros [= -> ->]. Qed.
Lemma skip_idem s : skip (skip s) = skip s.
Proof. induction s as [|c s IH]; cbn; [done|]. case_match eqn:E; [done|]. cbn. by rewrite E. Qed.

(** The characters that [lex] tells apart are the symbols. *)
Lemma symbol_cases c : (c =? bar) || (c =? lparen) || (c =? rparen) || (c =? semi) || (c =? amp) || (c =? less) = false ->
  (c =? greater) = false -> strchr symbols c = false.
Proof.
  unfold strchr, symbols. cbn [existsb]. intros H1 H2.
  repeat match goal with H : _ || _ = false |- _ => apply orb_false_iff in H as [? ?] end.
  by repeat match goal with H : ?x = false |- context [?x] => rewrite H end.
Qed.

Lemma lex_shorter s : skip s <> [] -> (length (lex (skip s)).2 < length (skip s))%nat.
Proof.
  destruct (skip s) as [|c r] eqn:E; [done|]. intros _. apply skip_head in E. cbn [lex].
  destruct (_ || _) eqn:E1; [cbn; lia|]. destruct (c =? greater) eqn:E2.
  - destruct r as [|d r]; [cbn; lia|]. case_match; cbn; lia.
  - cbn [snd skip_word]. rewrite E, (symbol_cases _ E1 E2). cbn [orb]. pose proof (skip_word_length r). cbn. lia.
Qed.

Ltac blia := cbv beta in *; lia.

Section termination.
Context (n : nat).

Lemma gettoken_total s (Q : Z * token -> list Z -> Prop) :
  (forall r t, (length t <= length s)%nat -> (r.1 <> 0 \/ skip s <> [] -> (length t < length s)%nat) -> Q r t) ->
  total (gettoken n) s Q.
Proof.
  intros HQ. unfold total, gettoken. pose proof (skip_length s) as H1. pose proof (lex_shorter s) as H2.
  destruct (lex (skip s)) as [r e] eqn:E. pose proof (skip_length e) as H3. cbn [snd] in H2.
  destruct (skip s) as [|c q] eqn:Eq.
  - cbn in E. injection E as <- <-. apply HQ; cbn; [lia|]. by intros [|].
  - specialize (H2 ltac:(done)). apply HQ; cbn [length] in *; lia.
Qed.
Lemma peek_total toks s (Q : bool -> list Z -> Prop) :
  (forall b, (b = true -> skip s <> []) -> Q b (skip s)) -> total (peek toks) s Q.
Proof. intros HQ. unfold total, peek. apply HQ. by destruct (skip s). Qed.

Definition shorter (s : list Z) {A} (_ : A) (t : list Z) : Prop := (length t <= length s)%nat.

Lemma parseredirs_total s : total (parseredirs n) s (fun _ t => (length t <= length s)%nat).
Proof.
  unfold parseredirs. apply total_bind. change (total (loop (S (length s)) (parseredirs_iter n) []) s (fun _ t => (length t <= length s)%nat)).
  apply (total_loop _ _ (length s)); [|lia|lia]. intros rs u Hu. unfold parseredirs_iter.
  apply total_bind, peek_total. intros b Hb. pose proof (skip_length u) as Hs. destruct b; cbn [negb]; [|unfold total, ret; lia].
  apply total_bind, gettoken_total. intros tok t Ht Hlt. rewrite skip_idem in Hlt. specialize (Hlt (or_intror (Hb eq_refl))).
  apply total_bind, gettoken_total. intros f t' Ht' _. case_match; [done|]. unfold total, ret. lia.
Qed.

Lemma parse_total k : forall s,
  ((4 * length s + 4 <= k)%nat -> total (parseline n k) s (fun _ t => (length t <= length s)%nat)) /\
  ((4 * length s + 3 <= k)%nat -> total (parsepipe n k) s (fun _ t => (length t <= length s)%nat)) /\
  ((4 * length s + 2 <= k)%nat -> total (parseexec n k) s (fun _ t => (length t <= length s)%nat)) /\
  ((4 * length s + 1 <= k)%nat -> total (parseblock n k) s (fun _ t => (length t <= length s)%nat)).
Proof.
  induction k as [|k IH]; intros s; [repeat split; blia|]. set (l := length s).
  assert (Hskip := skip_length s). repeat split; intros Hk; cbn [parseline parsepipe parseexec parseblock].
  - apply total_bind. eapply total_mono; [apply IH; blia|]. intros c t Ht. cbv beta. apply total_bind. unfold total at 1, get.
    apply total_bind. apply (total_mono _ _ (fun _ u => (length u <= l)%nat)).
    { apply (total_loop _ _ l); [|blia|blia]. intros c' u Hu. unfold parseback_iter. pose proof (skip_length u).
      apply total_bind, peek_total. intros [] Hb; [|unfold total, ret; blia].
      apply total_bind, gettoken_total. intros r v Hv Hlt. rewrite skip_idem in Hlt. specialize (Hlt (or_intror (Hb eq_refl))).
      unfold total, ret. blia. }
    intros c' u Hu. pose proof (skip_length u). apply total_bind, peek_total. intros [] Hb; [|unfold total, ret; blia].
    apply total_bind, gettoken_total. intros r v Hv Hlt. rewrite skip_idem in Hlt. specialize (Hlt (or_intror (Hb eq_refl))).
    apply total_bind. eapply total_mono; [apply IH; blia|]. intros c2 w Hw. unfold total, ret. blia.
  - apply total_bind. eapply total_mono; [apply IH; blia|]. intros c u Hu. pose proof (skip_length u).
    apply total_bind, peek_total. intros [] Hb; [|unfold total, ret; blia].
    apply total_bind, gettoken_total. intros r v Hv Hlt. rewrite skip_idem in Hlt. specialize (Hlt (or_intror (Hb eq_refl))).
    apply total_bind. eapply total_mono; [apply IH; blia|]. intros c2 w Hw. unfold total, ret. blia.
  - apply total_bind, peek_total. intros [] Hb.
    { eapply total_mono; [apply IH; blia|]. intros c t Ht. cbv beta in Ht. blia. }
    apply total_bind. eapply total_mono; [apply parseredirs_total|]. intros rs u Hu. cbv beta in Hu.
    apply total_bind. unfold total at 1, get. apply (total_loop _ _ l); [|blia|blia].
    intros [argv rs'] v Hv. unfold parseexec_iter. pose proof (skip_length v).
    apply total_bind, peek_total. intros [] _; [unfold total, ret; blia|].
    apply total_bind, gettoken_total. intros t w Hw Hlt. destruct (Z.eqb_spec t.1 0); [unfold total, ret; blia|].
    specialize (Hlt (or_introl ltac:(done))). case_match; [done|]. case_match; [done|].
    apply total_bind. eapply total_mono; [apply parseredirs_total|]. intros rs2 x Hx. cbv beta in Hx. unfold total, ret. blia.
  - apply total_bind, peek_total. intros [] Hb; cbn [negb]; [|done].
    apply total_bind, gettoken_total. intros r v Hv Hlt. rewrite skip_idem in Hlt. specialize (Hlt (or_intror (Hb eq_refl))).
    apply total_bind. eapply total_mono; [apply IH; blia|]. intros c w Hw. cbv beta in Hw. pose proof (skip_length w).
    apply total_bind, peek_total. intros [] _; cbn [negb]; [|done]. apply total_bind, gettoken_total. intros r2 x Hx _.
    apply total_bind. eapply total_mono; [apply parseredirs_total|]. intros rs y Hy. cbv beta in Hy. unfold total, ret. blia.
Qed.
End termination.

Lemma parsecmd_total line : match parsecmd line with Ret _ _ | Panic _ _ => True | _ => False end.
Proof.
  change (total (fun s : list Z => parsecmd line) line (fun _ _ => True)). unfold parsecmd.
  match goal with |- total (fun _ => ?c line) _ _ => change (total c line (fun _ _ => True)) end.
  apply total_bind. eapply total_mono; [apply (parse_total _ _ line); lia|]. intros c t _. cbv beta.
  apply total_bind, peek_total. intros b _. apply total_bind. unfold total at 1, get. by destruct (skip t).
Qed.

(** ** Printing

    A command as a list of words and symbols, each followed by a space, with
    parentheses where the grammar needs them: as an operand of a pipe or of a
    redirection ([pe]), on the right of a pipe ([pp]), before an ampersand or
    a semicolon ([pa]), and as a line ([pl]). *)
Record printed := mkprinted { pe : list (list Z); pp : list (list Z); pa : list (list Z); pl : list (list Z) }.
Definition paren (x : list (list Z)) : list (list Z) := [lparen] :: x ++ [[rparen]].
Definition redir_toks (r : list Z * Z * Z) : list (list Z) := [[if r.1.2 =? O_RDONLY then less else greater]; r.1.1].

Fixpoint pr (w : cmd_of (list Z)) : printed :=
  match w with
  | EXEC ws => mkprinted ws ws ws ws
  | REDIR c f mode fd => let x := pe (pr c) ++ redir_toks (f, mode, fd) in mkprinted x x x x
  | PIPE l r => let x := pe (pr l) ++ [bar] :: pp (pr r) in mkprinted (paren x) x x x
  | BACK c => let x := pa (pr c) ++ [[amp]] in mkprinted (paren x) (paren x) x x
  | LIST l r => let x := pa (pr l) ++ [semi] :: pl (pr r) in mkprinted (paren x) (paren x) (paren x) x
  end.
Definition flat (ts : list (list Z)) : list Z := mjoin ((fun t => t ++ [32]) <$> ts).
Definition print (w : cmd_of (list Z)) : list Z := flat (pl (pr w)).

(** Words have no white space, symbols or nul; the shell makes two kinds of
    redirections, and takes fewer than [MAXARGS] arguments. *)
Definition word_char (c : Z) : bool := negb (strchr whitespace c) && negb (strchr symbols c) && negb (c =? 0).
Definition word (w : list Z) : Prop := w <> [] /\ Forall (fun c => word_char c = true) w.
Definition redir_ok (r : list Z * Z * Z) : Prop :=
  word r.1.1 /\ ((r.1.2, r.2) = (O_RDONLY, 0) \/ (r.1.2, r.2) = (O_WRONLY_CREATE, 1)).
Fixpoint cmd_ok (w : cmd_of (list Z)) : Prop :=
  match w with
  | EXEC ws => Forall word ws /\ (length ws < MAXARGS)%nat
  | REDIR c f mode fd => cmd_ok c /\ redir_ok (f, mode, fd)
  | PIPE l r | LIST l r => cmd_ok l /\ cmd_ok r
  | BACK c => cmd_ok c
  end.

(** ** Lexing printed text *)
Definition tok (t : list Z) : Prop := word t \/ exists c, t = [c] /\ strchr symbols c = true.

Lemma flat_cons t ts : flat (t :: ts) = t ++ 32 :: flat ts.
Proof. unfold flat. cbn. by rewrite <- app_assoc. Qed.
Lemma flat_app a b : flat (a ++ b) = flat a ++ flat b.
Proof. unfold flat. by rewrite fmap_app, join_app. Qed.

Lemma flat_length ts : (length ts <= length (flat ts))%nat.
Proof. induction ts as [|t ts IH]; [done|]. rewrite flat_cons, length_app. cbn [length]. lia. Qed.

Lemma word_char_spec c : word_char c = true -> strchr whitespace c = false /\ strchr symbols c = false /\ c <> 0.
Proof. unfold word_char. rewrite !andb_true_iff, !negb_true_iff, Z.eqb_neq. tauto. Qed.
Lemma symbol_not_ws c : strchr symbols c = true -> strchr whitespace c = false.
Proof.
  unfold strchr, symbols. cbn [existsb]. rewrite !orb_true_iff, !Z.eqb_eq.
  intros H. repeat destruct H as [->|H]; try reflexivity; done.
Qed.
Lemma tok_head t : tok t -> exists c r, t = c :: r /\ strchr whitespace c = false.
Proof.
  intros [[Hne Hw]|(c & -> & Hc)]; [|by exists c, []; split; [|apply symbol_not_ws]].
  destruct Hw as [|c r Hc Hr]; [done|]. exists c, r. split; [done|]. by apply word_char_spec in Hc as (? & _).
Qed.
Lemma skip_flat ts : Forall tok ts -> skip (flat ts) = flat ts.
Proof.
  destruct 1 as [|t ts Ht _]; [done|]. destruct (tok_head t Ht) as (c & r & -> & Hc). rewrite flat_cons. cbn [app skip]. by rewrite Hc.
Qed.
Lemma skip_space ts : Forall tok ts -> skip (32 :: flat ts) = flat ts.
Proof. intros. cbn. by apply skip_flat. Qed.
Lemma skip_word_word w s : Forall (fun c => word_char c = true) w -> skip_word (w ++ 32 :: s) = 32 :: s.
Proof. induction 1 as [|c w Hc _ IH]; [done|]. apply word_char_spec in Hc as (H1 & H2 & _). cbn [app skip_word]. by rewrite H1, H2. Qed.

(** The first token is one of the symbols [cs]. *)
Definition starts (cs : list Z) (ts : list (list Z)) : bool :=
  match ts with (c :: _) :: _ => strchr cs c | _ => false end.

Lemma peek_flat cs ts : Forall tok ts -> peek cs (flat ts) = Ret (starts cs ts) (flat ts).
Proof.
  intros Hts. unfold peek. rewrite skip_flat by done. f_equal. destruct Hts as [|t ts Ht _]; [done|].
  destruct (tok_head t Ht) as (c & r & -> & _). by rewrite flat_cons.
Qed.

(** The text of a token in the line, and that it is a whole word there. *)
Definition text (line : list Z) (t : token) : list Z := take (teq t - tq t) (drop (tq t) line).
Definition placed (line : list Z) (t : token) : Prop :=
  word (text line t) /\ (tq t < teq t <= length line)%nat /\
  (forall c, line !! teq t = Some c -> word_char c = false).

Section parsing.
Context (line : list Z).
Notation n := (length line).

Lemma gettoken_sym c ts : strchr symbols c = true -> Forall tok ts ->
  exists t, gettoken n (flat ([c] :: ts)) = Ret (c, t) (flat ts).
Proof.
  intros Hc Hts. unfold gettoken.
  assert (Hs : skip (flat ([c] :: ts)) = c :: 32 :: flat ts).
  { rewrite flat_cons. cbn [app skip]. by rewrite (symbol_not_ws c Hc). }
  rewrite Hs. assert (Hl : lex (c :: 32 :: flat ts) = (c, 32 :: flat ts)).
  { unfold strchr, symbols in Hc. cbn [existsb] in Hc. rewrite !orb_true_iff, !Z.eqb_eq in Hc.
    repeat destruct Hc as [->|Hc]; try reflexivity; done. }
  rewrite Hl, skip_space by done. by eexists.
Qed.

Lemma gettoken_word w ts : word w -> Forall tok ts -> flat (w :: ts) `suffix_of` line ->
  exists t, gettoken n (flat (w :: ts)) = Ret (letter_a, t) (flat ts) /\ text line t = w /\ placed line t.
Proof.
  intros [Hne Hw] Hts [pre E]. unfold gettoken. rewrite skip_flat by (constructor; [by left|done]).
  assert (Hl : lex (flat (w :: ts)) = (letter_a, 32 :: flat ts)).
  { rewrite flat_cons. destruct Hw as [|c r Hc Hr]; [done|]. pose proof (word_char_spec _ Hc) as (H1 & H2 & H3).
    cbn [lex app]. unfold strchr, symbols in H2. cbn [existsb] in H2.
    repeat match goal with H : _ || _ = false |- _ => apply orb_false_iff in H as [? ?] end.
    repeat match goal with H : ?x = false |- context [?x] => rewrite H end. cbn [orb]. f_equal.
    change (c :: r ++ 32 :: flat ts) with ((c :: r) ++ 32 :: flat ts). apply skip_word_word. by constructor. }
  rewrite Hl, skip_space by done. eexists. split; [done|].
  assert (El : length (flat (w :: ts)) = (length w + 1 + length (flat ts))%nat) by (rewrite flat_cons, length_app; cbn; lia).
  assert (Eq : (n - length (flat (w :: ts)))%nat = length pre) by (rewrite E, length_app; lia).
  assert (Ee : (n - length (32%Z :: flat ts))%nat = (length pre + length w)%nat) by (rewrite E, length_app, El; cbn; lia).
  assert (Ht : text line (mktoken (n - length (flat (w :: ts))) (n - length (32 :: flat ts))) = w).
  { unfold text. cbn [tq teq]. rewrite Eq, Ee, E, drop_app_length, flat_cons.
    replace (length pre + length w - length pre)%nat with (length w) by lia. apply take_app_length. }
  split; [done|]. split; [by rewrite Ht|]. cbn [tq teq]. rewrite Eq, Ee.
  assert (0 < length w)%nat by (destruct w; [done|cbn; lia]). split.
  - split; [lia|]. rewrite E, length_app, El. lia.
  - intros c. rewrite E, flat_cons, lookup_app_r, lookup_app_r by lia.
    replace (_ - _ - _)%nat with 0%nat by lia. cbn. by intros [= <-].
Qed.

(** Redirections. *)
Definition redir_text (r : redir) : list Z * Z * Z := (text line r.1.1, r.1.2, r.2).
Definition redirs_placed (rs : list redir) : Prop := Forall (fun r => placed line r.1.1) rs.

Lemma redir_toks_ok r : redir_ok r -> Forall tok (redir_toks r).
Proof.
  intros [Hw _]. constructor; [|by constructor; [left|]]. right. eexists. split; [done|]. by destruct (_ =? O_RDONLY).
Qed.

Lemma parseredirs_loop rs ts : Forall redir_ok rs -> Forall tok ts -> starts [less; greater] ts = false ->
  flat (mjoin (redir_toks <$> rs) ++ ts) `suffix_of` line ->
  forall fuel acc, (length rs < fuel)%nat -> exists rs',
    loop fuel (parseredirs_iter n) acc (flat (mjoin (redir_toks <$> rs) ++ ts)) = Ret (acc ++ rs') (flat ts) /\
    redir_text <$> rs' = rs /\ redirs_placed rs'.
Proof.
  intros Hrs Hts Hst. induction Hrs as [|r rs Hr Hrs IH]; intros Hsuf fuel acc Hf; (destruct fuel as [|fuel]; [lia|]); cbn [loop].
  - exists []. split; [|split; [done|constructor]]. unfold bind at 1, parseredirs_iter, bind at 1. cbn [fmap list_fmap mjoin list_join app].
    rewrite peek_flat, Hst by done. cbn. by rewrite app_nil_r.
  - cbn [fmap list_fmap mjoin list_join] in *. rewrite <- app_assoc in *. set (rest := mjoin (redir_toks <$> rs) ++ ts) in *.
    assert (Hrest : Forall tok rest).
    { apply Forall_app. split; [|done]. apply Forall_join. apply Forall_fmap. eapply Forall_impl; [exact Hrs|]. apply redir_toks_ok. }
    destruct Hr as [Hw Hm]. destruct r as [[f mode] fd]. cbn [fst snd] in *. unfold redir_toks in *. cbn [fst snd app] in *.
    set (c := if mode =? O_RDONLY then less else greater) in *.
    assert (Hc : strchr symbols c = true) by (unfold c; by destruct (_ =? _)).
    destruct (gettoken_sym c (f :: rest) Hc ltac:(by constructor; [left|])) as [t1 E1].
    assert (Hsuf' : flat (f :: rest) `suffix_of` line).
    { etrans; [|exact Hsuf]. rewrite (flat_cons [c]). apply suffix_app_r with (l3 := [c; 32]). done. }
    destruct (gettoken_word f rest Hw Hrest Hsuf') as (t2 & E2 & Ht & Hp).
    destruct (IH ltac:(etrans; [|exact Hsuf']; rewrite (flat_cons f); by exists (f ++ [32]); rewrite <- app_assoc) fuel
      (acc ++ [(t2, mode, fd)]) ltac:(cbn in Hf; lia)) as (rs' & E & Hrt & Hpl).
    exists ((t2, mode, fd) :: rs'). split; [|split; [|by constructor]].
    + unfold bind at 1, parseredirs_iter, bind at 1. rewrite peek_flat by (constructor; [right; by eexists|by constructor; [left|]]).
      assert (Est : starts [less; greater] ([c] :: f :: rest) = true) by (unfold c; by destruct (_ =? _)).
      rewrite Est. cbn [negb]. unfold bind. rewrite E1, E2. cbn [fst snd negb]. change (letter_a =? letter_a) with true.
      cbn [negb ret]. rewrite <- app_assoc in E. cbn [app] in E. rewrite <- E. unfold ret. do 3 f_equal.
      unfold c. destruct Hm as [[= -> ->]|[= -> ->]]; reflexivity.
    + cbn. unfold redir_text at 1. cbn. by rewrite Ht, Hrt.
Qed.

Lemma redir_toks_all rs : Forall redir_ok rs -> Forall tok (mjoin (redir_toks <$> rs)).
Proof. intros Hrs. apply Forall_join, Forall_fmap. eapply Forall_impl; [exact Hrs|]. apply redir_toks_ok. Qed.

Lemma redir_toks_length rs : (length rs <= length (flat (mjoin (redir_toks <$> rs))))%nat.
Proof.
  induction rs as [|r rs IH]; [done|].
  change (S (length rs) <= length (flat (redir_toks r ++ mjoin (redir_toks <$> rs))))%nat. rewrite flat_app, length_app.
  assert (1 <= length (flat (redir_toks r)))%nat by (unfold redir_toks; rewrite flat_cons, length_app; cbn [length]; lia).
  lia.
Qed.

Lemma parseredirs_flat rs ts : Forall redir_ok rs -> Forall tok ts -> starts [less; greater] ts = false ->
  flat (mjoin (redir_toks <$> rs) ++ ts) `suffix_of` line -> exists rs',
    parseredirs n (flat (mjoin (redir_toks <$> rs) ++ ts)) = Ret rs' (flat ts) /\
    redir_text <$> rs' = rs /\ redirs_placed rs'.
Proof.
  intros Hrs Hts Hst Hsuf. apply (parseredirs_loop rs ts Hrs Hts Hst Hsuf _ []).
  rewrite flat_app, length_app. pose proof (redir_toks_length rs). lia.
Qed.

(** ** Commands *)
Fixpoint cmd_map {V W} (f : V -> W) (c : cmd_of V) : cmd_of W :=
  match c with
  | EXEC argv => EXEC (f <$> argv)
  | REDIR c t mode fd => REDIR (cmd_map f c) (f t) mode fd
  | PIPE l r => PIPE (cmd_map f l) (cmd_map f r)
  | LIST l r => LIST (cmd_map f l) (cmd_map f r)
  | BACK c => BACK (cmd_map f c)
  end.
Fixpoint words {W} (c : cmd_of W) : list W :=
  match c with
  | EXEC argv => argv
  | REDIR c t _ _ => words c ++ [t]
  | PIPE l r | LIST l r => words l ++ words r
  | BACK c => words c
  end.

(** [f] turns the printed tokens [ts] into [w], and [rest] is left. *)
Definition parses (f : P cmd) (ts rest : list (list Z)) (w : cmd_of (list Z)) : Prop :=
  exists c, f (flat ts) = Ret c (flat rest) /\ cmd_map (text line) c = w /\ Forall (placed line) (words c).

Lemma wrap_text rs : forall c, cmd_map (text line) (foldl redircmd c rs) = foldl redircmd (cmd_map (text line) c) (redir_text <$> rs).
Proof. induction rs as [|r rs IH]; intros c; [done|]. cbn. by rewrite IH. Qed.
Lemma wrap_words rs : redirs_placed rs -> forall c, Forall (placed line) (words c) -> Forall (placed line) (words (foldl redircmd c rs)).
Proof.
  induction 1 as [|r rs Hr _ IH]; intros c Hc; [done|]. cbn. apply IH. cbn. apply Forall_app. split; [done|]. by constructor.
Qed.

(** Where the four functions stop. *)
Definition stops (cs : list Z) (rest : list (list Z)) : Prop :=
  Forall tok rest /\ match rest with [] => True | t :: _ => exists c, t = [c] /\ strchr cs c = true end.

Lemma stops_starts cs ds rest : stops cs rest -> forallb (fun c => negb (strchr ds c)) cs = true -> starts ds rest = false.
Proof.
  intros [_ Hs] Hd. destruct rest as [|t rest]; [done|]. destruct Hs as (c & -> & Hc). cbn.
  rewrite forallb_forall in Hd. apply negb_true_iff, Hd. unfold strchr in Hc. apply existsb_exists in Hc as (x & Hx & ->%Z.eqb_eq). done.
Qed.
Lemma stops_in cs ds rest : stops cs rest -> forallb (strchr ds) cs = true -> stops ds rest.
Proof.
  intros [Ht Hs] Hd. split; [done|]. destruct rest as [|t rest]; [done|]. destruct Hs as (c & -> & Hc). exists c. split; [done|].
  rewrite forallb_forall in Hd. apply Hd. unfold strchr in Hc. by apply existsb_exists in Hc as (x & Hx & ->%Z.eqb_eq).
Qed.
Lemma stops_sym cs c rest : strchr cs c = true -> strchr symbols c = true -> Forall tok rest -> stops cs ([c] :: rest).
Proof. intros H1 H2 H3. split; [constructor; [right; by exists c|done]|by exists c]. Qed.

Definition exec_end : list Z := [bar; rparen; amp; semi].

Lemma exec_stop argv rs rest fuel : stops exec_end rest -> (0 < fuel)%nat ->
  loop fuel (parseexec_iter n) (argv, rs) (flat rest) = Ret (foldl redircmd (EXEC argv) rs) (flat rest).
Proof.
  intros Hst Hf. destruct fuel as [|fuel]; [lia|]. cbn [loop]. unfold bind at 1, parseexec_iter, bind at 1.
  rewrite peek_flat by apply Hst. destruct rest as [|t rest]; [done|]. destruct Hst as [_ (c & -> & Hc)].
  cbn [starts]. fold exec_end. by rewrite Hc.
Qed.

Lemma word_starts w ts : word w -> starts exec_end (w :: ts) = false /\ starts [less; greater] (w :: ts) = false /\ starts [lparen] (w :: ts) = false.
Proof.
  intros [Hne Hw]. destruct Hw as [|c w Hc _]; [done|]. apply word_char_spec in Hc as (_ & H2 & _).
  unfold strchr, symbols in H2. cbn [existsb] in H2. cbn [starts]. unfold strchr, exec_end. cbn [existsb].
  repeat match goal with H : _ || _ = false |- _ => apply orb_false_iff in H as [? ?] end.
  by repeat match goal with H : ?x = false |- context [?x] => rewrite H end.
Qed.

Lemma suffix_flat a b : flat (a ++ b) `suffix_of` line -> flat b `suffix_of` line.
Proof. intros Hs. etrans; [|exact Hs]. rewrite flat_app. by eexists. Qed.

Lemma exec_word w ts argv rs fuel : word w -> Forall tok ts -> flat (w :: ts) `suffix_of` line -> (S (length argv) < MAXARGS)%nat ->
  exists t, text line t = w /\ placed line t /\
    loop (S fuel) (parseexec_iter n) (argv, rs) (flat (w :: ts)) =
      (rs' <- parseredirs n ;; loop fuel (parseexec_iter n) (argv ++ [t], rs ++ rs')) (flat ts).
Proof.
  intros Hw Hts Hsuf Hn. destruct (gettoken_word w ts Hw Hts Hsuf) as (t & E & Ht & Hp).
  exists t. split; [done|]. split; [done|]. cbn [loop]. unfold bind at 1, parseexec_iter, bind at 1.
  rewrite peek_flat by (constructor; [by left|done]). fold exec_end. destruct (word_starts w ts Hw) as (-> & _ & _).
  unfold bind. rewrite E. cbn [fst snd]. change (letter_a =? 0) with false. change (letter_a =? letter_a) with true. cbn [negb].
  rewrite decide_False by (rewrite length_app; cbn; lia). by destruct (parseredirs n (flat ts)).
Qed.

Lemma exec_words ws : forall w argv rs0 rs rest fuel, Forall word (w :: ws) ->
  (length argv + S (length ws) < MAXARGS)%nat -> Forall redir_ok rs -> stops exec_end rest ->
  flat ((w :: ws) ++ mjoin (redir_toks <$> rs) ++ rest) `suffix_of` line -> (S (length ws) < fuel)%nat ->
  exists ts rs', loop fuel (parseexec_iter n) (argv, rs0) (flat ((w :: ws) ++ mjoin (redir_toks <$> rs) ++ rest))
      = Ret (foldl redircmd (EXEC (argv ++ ts)) (rs0 ++ rs')) (flat rest) /\
    text line <$> ts = w :: ws /\ Forall (placed line) ts /\ redir_text <$> rs' = rs /\ redirs_placed rs'.
Proof.
  induction ws as [|w' ws IH]; intros w argv rs0 rs rest fuel Hws Hn Hrs Hst Hsuf Hf;
    (destruct fuel as [|fuel]; [lia|]); apply Forall_cons in Hws as [Hw Hws];
    assert (Htr : Forall tok (mjoin (redir_toks <$> rs) ++ rest)) by (apply Forall_app; split; [by apply redir_toks_all|apply Hst]).
  - destruct (exec_word w _ argv rs0 fuel Hw Htr Hsuf ltac:(cbn in Hn; lia)) as (t & Ht & Hp & E).
    change ([w] ++ ?x) with (w :: x) in *. rewrite E.
    assert (Hsuf' := suffix_flat [w] _ Hsuf).
    destruct (parseredirs_flat rs rest Hrs (proj1 Hst) (stops_starts _ [less; greater] _ Hst eq_refl) Hsuf') as (rs' & Er & Hrt & Hrp).
    exists [t], rs'. unfold bind. rewrite Er, exec_stop by (done || lia). split; [done|]. cbn. rewrite Ht.
    split; [done|]. split; [by constructor|done].
  - assert (Hts : Forall tok ((w' :: ws) ++ mjoin (redir_toks <$> rs) ++ rest)).
    { apply Forall_app. split; [|done]. eapply Forall_impl; [exact Hws|]. by left. }
    change ((w :: w' :: ws) ++ ?x) with (w :: (w' :: ws) ++ x) in *.
    destruct (exec_word w _ argv rs0 fuel Hw Hts Hsuf ltac:(cbn in Hn; lia)) as (t & Ht & Hp & E). rewrite E.
    assert (Hsuf' := suffix_flat [w] _ Hsuf). pose proof Hws as Hws'. apply Forall_cons in Hws' as [Hw' _].
    destruct (parseredirs_flat [] ((w' :: ws) ++ mjoin (redir_toks <$> rs) ++ rest) ltac:(constructor) Hts
      (proj1 (proj2 (word_starts _ _ Hw'))) Hsuf') as (rs1 & Er & Hrt & Hrp).
    apply fmap_nil_inv in Hrt as ->. change (mjoin (redir_toks <$> []) ++ ?x) with x in Er. unfold bind. rewrite Er, app_nil_r.
    destruct (IH w' (argv ++ [t]) rs0 rs rest fuel Hws ltac:(rewrite length_app; cbn in *; lia) Hrs Hst Hsuf' ltac:(cbn in Hf; lia))
      as (ts & rs' & E2 & Ht2 & Hp2 & Hr2).
    exists (t :: ts), rs'. rewrite <- app_assoc in E2. split; [exact E2|]. cbn. rewrite Ht, Ht2. split; [done|].
    split; [by constructor|done].
Qed.

(** *** The four levels *)
Definition E_ok (w : cmd_of (list Z)) : Prop := forall k rs rest, Forall redir_ok rs -> stops exec_end rest ->
  let ts := pe (pr w) ++ mjoin (redir_toks <$> rs) ++ rest in
  flat ts `suffix_of` line -> (4 * length (flat ts) + 2 <= k)%nat ->
  parses (parseexec n k) ts rest (foldl redircmd w rs).
Definition P_ok (w : cmd_of (list Z)) : Prop := forall k rest, stops [rparen; amp; semi] rest ->
  let ts := pp (pr w) ++ rest in flat ts `suffix_of` line -> (4 * length (flat ts) + 3 <= k)%nat ->
  parses (parsepipe n k) ts rest w.
Definition backs (m : nat) (w : cmd_of (list Z)) : cmd_of (list Z) := Nat.iter m BACK w.
Definition A_ok (w : cmd_of (list Z)) : Prop := forall k m rest, stops [rparen; semi] rest ->
  let ts := pa (pr w) ++ replicate m [amp] ++ rest in flat ts `suffix_of` line -> (4 * length (flat ts) + 3 <= k)%nat ->
  parses (c <- parsepipe n k ;; s <- get ;; loop (S (length s)) (parseback_iter n) c) ts rest (backs m w).
Definition L_ok (w : cmd_of (list Z)) : Prop := forall k rest, stops [rparen] rest ->
  let ts := pl (pr w) ++ rest in flat ts `suffix_of` line -> (4 * length (flat ts) + 4 <= k)%nat ->
  parses (parseline n k) ts rest w.

Lemma exec_E ws : Forall word ws -> (length ws < MAXARGS)%nat -> E_ok (EXEC ws).
Proof.
  intros Hws Hn k rs rest Hrs Hst ts Hsuf Hk. destruct k as [|k]; [lia|]. cbn [pr pe] in ts. unfold parses. cbn [parseexec].
  assert (Htr : Forall tok (mjoin (redir_toks <$> rs) ++ rest)) by (apply Forall_app; split; [by apply redir_toks_all|apply Hst]).
  assert (Hts : Forall tok ts) by (apply Forall_app; split; [eapply Forall_impl; [exact Hws|]; by left|done]).
  assert (Hl : starts [lparen] ts = false).
  { unfold ts. destruct Hws as [|w ws Hw _]; [|apply (word_starts w), Hw]. destruct rs as [|r rs]; [by apply (stops_starts _ [lparen] _ Hst)|].
    cbn. by destruct (_ =? O_RDONLY). }
  unfold bind at 1. rewrite peek_flat, Hl by done. destruct ws as [|w ws].
  - destruct (parseredirs_flat rs rest Hrs (proj1 Hst) (stops_starts _ [less; greater] _ Hst eq_refl) Hsuf) as (rs' & Er & Hrt & Hrp).
    exists (foldl redircmd (EXEC []) rs'). unfold bind, get. unfold ts. cbn [app]. rewrite Er, exec_stop by (done || lia).
    split; [done|]. rewrite wrap_text, Hrt. split; [done|]. by apply wrap_words; [|constructor].
  - destruct (parseredirs_flat [] ts ltac:(constructor) Hts) as (rs1 & Er & Hrt & Hrp);
      [apply (word_starts w); by apply Forall_cons in Hws as [? _]|done|].
    apply fmap_nil_inv in Hrt as ->. change (mjoin (redir_toks <$> []) ++ ?x) with x in Er.
    unfold bind, get. rewrite Er.
    destruct (exec_words ws w [] [] rs rest (S (length (flat ts))) Hws ltac:(done) Hrs Hst Hsuf) as (tks & rs' & E & Ht & Hp & Hrt & Hrp').
    { unfold ts. rewrite flat_app, length_app. pose proof (flat_length (w :: ws)). cbn in *. lia. }
    exists (foldl redircmd (EXEC tks) rs'). split; [exact E|]. rewrite wrap_text, Hrt. cbn. rewrite Ht. split; [done|].
    by apply wrap_words.
Qed.

Lemma flat_sym c ts : length (flat ([c] :: ts)) = (2 + length (flat ts))%nat.
Proof. by rewrite flat_cons. Qed.

Lemma back_loop m rest : stops [rparen; semi] rest -> forall c fuel, (m < fuel)%nat ->
  loop fuel (parseback_iter n) c (flat (replicate m [amp] ++ rest)) = Ret (Nat.iter m BACK c) (flat rest).
Proof.
  intros Hst. assert (Ht : forall m, Forall tok (replicate m [amp] ++ rest)).
  { intros m'. apply Forall_app. split; [|apply Hst]. apply Forall_replicate. right. by exists amp. }
  induction m as [|m IH]; intros c fuel Hf; (destruct fuel as [|fuel]; [lia|]); cbn [loop]; unfold bind at 1, parseback_iter, bind at 1;
    rewrite peek_flat by apply (Ht _).
  - cbn [replicate app]. by rewrite (stops_starts _ [amp] _ Hst eq_refl).
  - cbn [replicate app starts]. change (strchr [amp] amp) with true. cbv iota.
    destruct (gettoken_sym amp (replicate m [amp] ++ rest) eq_refl (Ht m)) as [t E]. unfold bind. rewrite E. cbn [ret].
    unfold ret. rewrite IH by lia. by rewrite Nat.iter_succ_r.
Qed.
Lemma backs_text m c : cmd_map (text line) (Nat.iter m BACK c) = backs m (cmd_map (text line) c).
Proof. unfold backs. induction m as [|m IH]; [done|]. rewrite !Nat.iter_succ. cbn [cmd_map]. by rewrite IH. Qed.
Lemma backs_words m (c : cmd) : words (Nat.iter m BACK c) = words c.
Proof. by induction m. Qed.

Lemma P_from_E w : pp (pr w) = pe (pr w) -> E_ok w -> P_ok w.
Proof.
  intros Eq HE k rest Hst ts Hsuf Hk. destruct k as [|k]; [lia|]. unfold ts in *. rewrite Eq in *.
  destruct (HE k [] rest ltac:(constructor) (stops_in _ exec_end _ Hst eq_refl) Hsuf ltac:(change (mjoin (redir_toks <$> [])) with (@nil (list Z)); cbn [app]; lia))
    as (c & E & Hc & Hp).
  exists c. split; [|done]. cbn [parsepipe]. unfold bind at 1. change (mjoin (redir_toks <$> []) ++ rest) with rest in E. rewrite E.
  unfold bind. rewrite peek_flat by apply Hst. by rewrite (stops_starts _ [bar] _ Hst eq_refl).
Qed.

Lemma A_from_P w : pa (pr w) = pp (pr w) -> P_ok w -> A_ok w.
Proof.
  intros Eq HP k m rest Hst ts Hsuf Hk. unfold ts in *. rewrite Eq in *.
  assert (Hst' : stops [rparen; amp; semi] (replicate m [amp] ++ rest)).
  { destruct m as [|m]; [by apply (stops_in _ _ _ Hst)|]. apply stops_sym; [done|done|].
    apply Forall_app. split; [|apply Hst]. apply Forall_replicate. right. by exists amp. }
  destruct (HP k _ Hst' Hsuf Hk) as (c & E & Hc & Hp). exists (Nat.iter m BACK c).
  unfold bind, get. rewrite E. rewrite back_loop; [|done|rewrite flat_app, length_app].
  - split; [done|]. rewrite backs_text, backs_words, Hc. done.
  - pose proof (flat_length (replicate m [amp])). rewrite length_replicate in *. lia.
Qed.

Lemma L_from_A w : pl (pr w) = pa (pr w) -> A_ok w -> L_ok w.
Proof.
  intros Eq HA k rest Hst ts Hsuf Hk. destruct k as [|k]; [lia|]. unfold ts in *. rewrite Eq in *.
  destruct (HA k 0%nat rest (stops_in _ [rparen; semi] _ Hst eq_refl) Hsuf ltac:(cbn [replicate app]; lia)) as (c & E & Hc & Hp).
  exists c. split; [|done]. cbn [parseline]. cbn [replicate app] in E. revert E. unfold bind, get.
  destruct (parsepipe n k _) as [c1 s1| | | |]; try done. intros E. rewrite E.
  rewrite peek_flat by apply Hst. by rewrite (stops_starts _ [semi] _ Hst eq_refl).
Qed.

Lemma E_from_L w : Forall tok (pl (pr w)) -> pe (pr w) = paren (pl (pr w)) -> L_ok w -> E_ok w.
Proof.
  intros Htw Eq HL k rs rest Hrs Hst ts Hsuf Hk. unfold ts in *. rewrite Eq in *. unfold paren in *. cbn [app] in *.
  rewrite <- app_assoc in *. cbn [app] in *. set (tail := mjoin (redir_toks <$> rs) ++ rest) in *.
  assert (Htl : Forall tok tail) by (apply Forall_app; split; [by apply redir_toks_all|apply Hst]).
  assert (Hti : Forall tok (pl (pr w) ++ [rparen] :: tail)).
  { apply Forall_app. split; [done|]. constructor; [right; by exists rparen|done]. }
  rewrite flat_sym in Hk. destruct k as [|[|k]]; [lia|lia|].
  assert (Hs1 := suffix_flat [[lparen]] _ Hsuf). assert (Hs2 := suffix_flat (pl (pr w)) _ Hs1). assert (Hs3 := suffix_flat [[rparen]] _ Hs2).
  destruct (HL k ([rparen] :: tail) (stops_sym [rparen] rparen tail eq_refl eq_refl Htl) Hs1 ltac:(lia)) as (c & E & Hc & Hp).
  destruct (parseredirs_flat rs rest Hrs (proj1 Hst) (stops_starts _ [less; greater] _ Hst eq_refl) Hs3) as (rs' & Er & Hrt & Hrp).
  destruct (gettoken_sym lparen _ eq_refl Hti) as [t1 E1]. destruct (gettoken_sym rparen _ eq_refl Htl) as [t2 E2].
  exists (foldl redircmd c rs'). split; [|split; [by rewrite wrap_text, Hrt, Hc|by apply wrap_words]].
  cbn [parseexec parseblock]. unfold bind, ret.
  rewrite !peek_flat by (constructor; [right; by exists lparen|done]). cbn [starts]. change (strchr [lparen] lparen) with true. cbv iota.
  cbn [negb]. rewrite peek_flat by (constructor; [right; by exists lparen|done]). cbn [starts]. change (strchr [lparen] lparen) with true.
  cbn [negb]. rewrite E1, E, peek_flat by (constructor; [right; by exists rparen|done]). cbn [starts].
  change (strchr [rparen] rparen) with true. cbn [negb]. rewrite E2. fold tail in Er. by rewrite Er.
Qed.

Lemma toks_ok w : cmd_ok w ->
  Forall tok (pe (pr w)) /\ Forall tok (pp (pr w)) /\ Forall tok (pa (pr w)) /\ Forall tok (pl (pr w)).
Proof.
  assert (Hsym : forall c, strchr symbols c = true -> tok [c]) by (intros c Hc; right; by exists c).
  assert (Hpar : forall x, Forall tok x -> Forall tok (paren x)).
  { intros x Hx. constructor; [by apply Hsym|]. apply Forall_app. split; [done|]. constructor; [by apply Hsym|constructor]. }
  assert (Happ : forall x y c, Forall tok x -> Forall tok y -> strchr symbols c = true -> Forall tok (x ++ [c] :: y)).
  { intros x y c Hx Hy Hc. apply Forall_app. split; [done|]. constructor; [by apply Hsym|done]. }
  induction w as [ws|c IH f mode fd|l IHl r IHr|l IHl r IHr|c IH]; cbn [cmd_ok pr pe pp pa pl].
  - intros [Hws _]. assert (Forall tok ws) by (eapply Forall_impl; [exact Hws|]; by left). done.
  - intros [Hc Hr]. destruct (IH Hc) as (H1 & _). assert (Forall tok (pe (pr c) ++ redir_toks (f, mode, fd))); [|done].
    apply Forall_app. split; [done|by apply redir_toks_ok].
  - intros [Hl Hr]. destruct (IHl Hl) as (H1 & _), (IHr Hr) as (_ & H2 & _). auto 6.
  - intros [Hl Hr]. destruct (IHl Hl) as (_ & _ & H1 & _), (IHr Hr) as (_ & _ & _ & H2). auto 6.
  - intros Hc. destruct (IH Hc) as (_ & _ & H1 & _). auto 6.
Qed.

Lemma pipe_P l r : cmd_ok r -> E_ok l -> P_ok r -> P_ok (PIPE l r).
Proof.
  intros Hr HE HP k rest Hst ts Hsuf Hk. destruct k as [|k]; [lia|]. unfold ts in *. cbn [pr pp] in *. rewrite <- app_assoc in *. cbn [app] in *.
  destruct (toks_ok r Hr) as (_ & Htr & _). set (tail := pp (pr r) ++ rest) in *.
  assert (Htl : Forall tok tail) by (apply Forall_app; split; [done|apply Hst]).
  rewrite flat_app, length_app, flat_sym in Hk.
  destruct (HE k [] ([bar] :: tail) ltac:(constructor) (stops_sym exec_end bar tail eq_refl eq_refl Htl) Hsuf) as (c & E & Hc & Hp).
  { change (mjoin (redir_toks <$> []) ++ ?x) with x. rewrite flat_app, length_app, flat_sym. lia. }
  change (mjoin (redir_toks <$> []) ++ ?x) with x in E.
  destruct (gettoken_sym bar tail eq_refl Htl) as [t Et].
  assert (Hs' := suffix_flat [[bar]] _ (suffix_flat (pe (pr l)) _ Hsuf)).
  destruct (HP k rest Hst Hs' ltac:(fold tail; lia)) as (c' & E' & Hc' & Hp').
  exists (PIPE c c'). split; [|split; [cbn; cbn in Hc; by rewrite Hc, Hc'|cbn; by apply Forall_app]].
  cbn [parsepipe]. unfold bind, ret. rewrite E, peek_flat by (constructor; [right; by exists bar|done]). cbn [starts].
  change (strchr [bar] bar) with true. cbv beta iota. fold tail in E'. by rewrite Et, E'.
Qed.

Lemma list_L l r : cmd_ok r -> A_ok l -> L_ok r -> L_ok (LIST l r).
Proof.
  intros Hr HA HL k rest Hst ts Hsuf Hk. destruct k as [|k]; [lia|]. unfold ts in *. cbn [pr pl] in *. rewrite <- app_assoc in *. cbn [app] in *.
  destruct (toks_ok r Hr) as (_ & _ & _ & Htr). set (tail := pl (pr r) ++ rest) in *.
  assert (Htl : Forall tok tail) by (apply Forall_app; split; [done|apply Hst]).
  rewrite flat_app, length_app, flat_sym in Hk.
  destruct (HA k 0%nat ([semi] :: tail) (stops_sym [rparen; semi] semi tail eq_refl eq_refl Htl) Hsuf) as (c & E & Hc & Hp).
  { cbn [replicate app]. rewrite flat_app, length_app, flat_sym. lia. }
  cbn [replicate app] in E. destruct (gettoken_sym semi tail eq_refl Htl) as [t Et].
  assert (Hs' := suffix_flat [[semi]] _ (suffix_flat (pa (pr l)) _ Hsuf)).
  destruct (HL k rest Hst Hs' ltac:(fold tail; lia)) as (c' & E' & Hc' & Hp').
  exists (LIST c c'). split; [|split; [cbn; cbn in Hc; by rewrite Hc, Hc'|cbn; by apply Forall_app]].
  cbn [parseline]. revert E. unfold bind, ret, get. destruct (parsepipe n k _) as [c1 s1| | | |]; try done. intros E. rewrite E.
  rewrite peek_flat by (constructor; [right; by exists semi|done]). cbn [starts].
  change (strchr [semi] semi) with true. cbv beta iota. fold tail in E'. by rewrite Et, E'.
Qed.

Lemma back_A c : A_ok c -> A_ok (BACK c).
Proof.
  intros HA k m rest Hst ts Hsuf Hk. unfold ts in *. cbn [pr pa] in *.
  assert (E : (pa (pr c) ++ [[amp]]) ++ replicate m [amp] ++ rest = pa (pr c) ++ replicate (S m) [amp] ++ rest)
    by (by rewrite <- app_assoc).
  rewrite E in *. specialize (HA k (S m) rest Hst Hsuf Hk). unfold backs in *. by rewrite Nat.iter_succ_r in HA.
Qed.

Lemma redir_E c f mode fd : redir_ok (f, mode, fd) -> E_ok c -> E_ok (REDIR c f mode fd).
Proof.
  intros Hr HE k rs rest Hrs Hst ts Hsuf Hk. unfold ts in *. cbn [pr pe] in *. rewrite <- app_assoc in *.
  apply (HE k ((f, mode, fd) :: rs) rest); [by constructor|done|..]; cbn [fmap list_fmap]; cbn [mjoin list_join];
    rewrite <- app_assoc; done.
Qed.

Lemma levels w : cmd_ok w -> E_ok w /\ P_ok w /\ A_ok w /\ L_ok w.
Proof.
  assert (Hup : forall w, pp (pr w) = pe (pr w) -> pa (pr w) = pp (pr w) -> pl (pr w) = pa (pr w) ->
            E_ok w -> E_ok w /\ P_ok w /\ A_ok w /\ L_ok w).
  { intros v E1 E2 E3 HE. assert (HP := P_from_E v E1 HE). assert (HA := A_from_P v E2 HP). by assert (HL := L_from_A v E3 HA). }
  intros Hw. pose proof (toks_ok w Hw) as (_ & _ & _ & Hts). revert Hw Hts.
  induction w as [ws|c IH f mode fd|l IHl r IHr|l IHl r IHr|c IH]; cbn [cmd_ok]; intros Hw Hts.
  - apply Hup; [done..|]. by destruct Hw; apply exec_E.
  - destruct Hw as [Hc Hr]. apply Hup; [done..|]. apply redir_E; [done|]. apply IH; [done|]. apply (toks_ok c Hc).
  - destruct Hw as [Hl Hr]. assert (HP : P_ok (PIPE l r)).
    { apply pipe_P; [done|apply IHl|apply IHr]; try done; by apply toks_ok. }
    assert (HA := A_from_P (PIPE l r) eq_refl HP). assert (HL := L_from_A (PIPE l r) eq_refl HA).
    split; [|done]. by apply E_from_L.
  - destruct Hw as [Hl Hr]. assert (HL : L_ok (LIST l r)).
    { apply list_L; [done|apply IHl|apply IHr]; try done; by apply toks_ok. }
    assert (HE := E_from_L (LIST l r) Hts eq_refl HL). assert (HP := P_from_E (LIST l r) eq_refl HE).
    split; [done|]. split; [done|]. split; [|done]. by apply A_from_P.
  - assert (HA : A_ok (BACK c)) by (apply back_A, IH; [done|by apply toks_ok]).
    assert (HL := L_from_A (BACK c) eq_refl HA). assert (HE := E_from_L (BACK c) Hts eq_refl HL).
    split; [done|]. split; [|done]. by apply P_from_E.
Qed.
End parsing.

(** ** The strings that the parser hands on *)

(** The C string at the head of [l]. *)
Fixpoint str (l : list Z) : list Z :=
  match l with
  | c :: l' => if c =? 0 then [] else c :: str l'
  | [] => []
  end.
Definition c_string (buf : list Z) (t : token) : list Z := str (drop (tq t) buf).

Lemma nulterminate_words c : forall buf, nulterminate c buf = foldl (fun b t => <[teq t := 0]> b) buf (words c).
Proof.
  induction c as [argv|c IH f mode fd|l IHl r IHr|l IHl r IHr|c IH]; intros buf; cbn; rewrite ?foldl_app; [done|..|done].
  - by rewrite IH. - by rewrite IHl, IHr. - by rewrite IHl, IHr.
Qed.

Lemma nuls_lookup ts : forall buf i, (i < length buf)%nat ->
  foldl (fun b t => <[teq t := 0]> b) buf ts !! i = if decide (i ∈ teq <$> ts) then Some 0 else buf !! i.
Proof.
  induction ts as [|t ts IH]; intros buf i Hi; [done|]. cbn [foldl]. rewrite IH by (by rewrite length_insert). rewrite fmap_cons.
  destruct (decide (i ∈ teq <$> ts)) as [Hin|Hn]; [by rewrite decide_True by (by right)|].
  destruct (decide (i = teq t)) as [->|Hne].
  - rewrite decide_True by left. by apply list_lookup_insert_eq.
  - rewrite decide_False by (by apply not_elem_of_cons). by rewrite list_lookup_insert_ne.
Qed.

Lemma str_take k : forall l, (forall i, (i < k)%nat -> exists c, l !! i = Some c /\ c <> 0) -> l !! k = Some 0 -> str l = take k l.
Proof.
  induction k as [|k IH]; intros l Hl Hk; (destruct l as [|c l]; [done|]); cbn [str take].
  - by injection Hk as ->.
  - destruct (Hl 0%nat ltac:(lia)) as (c' & [= <-] & Hc). rewrite (proj2 (Z.eqb_neq _ _) Hc). f_equal. apply IH; [|done].
    intros i Hi. by apply (Hl (S i)); lia.
Qed.

Lemma placed_word line t i : placed line t -> (tq t <= i < teq t)%nat -> exists c, line !! i = Some c /\ word_char c = true.
Proof.
  intros ([_ Hw] & Hr & _) Hi. destruct (lookup_lt_is_Some_2 line i ltac:(lia)) as [c Hc]. exists c. split; [done|].
  rewrite Forall_lookup in Hw. apply (Hw (i - tq t)%nat). unfold text. rewrite lookup_take_lt, lookup_drop by lia.
  by replace (tq t + (i - tq t))%nat with i by lia.
Qed.

(** After [nulterminate] every word is a string of its own. *)
Lemma nulterminated line c t : Forall (placed line) (words c) -> t ∈ words c ->
  c_string (nulterminate c (line ++ [0])) t = text line t.
Proof.
  intros Hall Ht. rewrite nulterminate_words. set (buf := foldl _ _ _).
  pose proof (proj1 (Forall_forall _ _) Hall t Ht) as Hp. destruct Hp as (Hw & Hr & He). pose proof (proj1 (Forall_forall _ _) Hall t Ht) as Hp.
  assert (Hin : forall i, (tq t <= i < teq t)%nat -> buf !! i = line !! i).
  { intros i Hi. unfold buf. rewrite nuls_lookup by (rewrite length_app; cbn; lia). rewrite decide_False.
    - by apply lookup_app_l; lia.
    - intros (t' & -> & Ht')%list_elem_of_fmap. destruct (proj1 (Forall_forall _ _) Hall t' Ht') as (_ & _ & Hno).
      destruct (placed_word _ _ _ Hp Hi) as (c' & Hc & Hwc). rewrite (Hno _ Hc) in Hwc. done. }
  unfold c_string. rewrite (str_take (teq t - tq t)).
  - unfold text. apply list_eq. intros i. destruct (decide (i < teq t - tq t)%nat) as [Hi|Hi].
    + rewrite !lookup_take_lt, !lookup_drop by done. apply Hin. lia.
    + by rewrite !lookup_take_ge by lia.
  - intros i Hi. rewrite lookup_drop, Hin by lia. destruct (placed_word _ _ (tq t + i)%nat Hp ltac:(lia)) as (c' & Hc & Hwc).
    exists c'. split; [done|]. by apply word_char_spec in Hwc as (_ & _ & ?).
  - rewrite lookup_drop. replace (tq t + (teq t - tq t))%nat with (teq t) by lia. unfold buf.
    rewrite nuls_lookup by (rewrite length_app; cbn; lia). rewrite decide_True; [done|]. apply list_elem_of_fmap. by exists t.
Qed.

Lemma cmd_map_ext {V W} (f g : V -> W) c : (forall t, t ∈ words c -> f t = g t) -> cmd_map f c = cmd_map g c.
Proof.
  induction c as [argv|c IH t mode fd|l IHl r IHr|l IHl r IHr|c IH]; cbn; intros Hfg.
  - f_equal. apply list_fmap_ext. intros i x Hx. by apply Hfg, (list_elem_of_lookup_2 _ i).
  - rewrite IH by (intros; apply Hfg, elem_of_app; by left). f_equal. apply Hfg, elem_of_app. right. by left.
  - rewrite IHl, IHr by (intros; apply Hfg, elem_of_app; tauto). done.
  - rewrite IHl, IHr by (intros; apply Hfg, elem_of_app; tauto). done.
  - by rewrite IH.
Qed.

(** C28. The shell parses every command it can represent.  The text of a command
    (any nesting of pipes, lists, background commands, parenthesised blocks
    and redirections, with fewer than MAXARGS arguments each) is parsed back
    to that command, without an error and without running out of input; and
    after [nulterminate] each argument and file name is exactly its word as a
    C string, although all of them share the one line buffer. *)
Theorem parsecmd_print w : cmd_ok w ->
  exists c buf, parsecmd (print w) = Ret (c, buf) [] /\ cmd_map (c_string buf) c = w.
Proof.
  intros Hw. set (line := print w). destruct (levels line w Hw) as (_ & _ & _ & HL).
  destruct (HL (4 * length line + 4)%nat [] ltac:(by split; [constructor|])) as (c & E & Hc & Hp);
    rewrite ?app_nil_r; [done|fold line; unfold line, print; lia|].
  rewrite app_nil_r in E. exists c, (nulterminate c (line ++ [0])). split.
  - unfold parsecmd, bind at 1. change (flat (pl (pr w))) with line in E. by rewrite E.
  - rewrite <- Hc. apply cmd_map_ext. intros t Ht. by apply nulterminated.
Qed.

(** The parser of the shell ends on every line, with a command or an error. *)
Theorem parsecmd_ends line : match parsecmd line with Ret _ _ | Panic _ _ => True | _ => False end.
Proof. exact (parsecmd_total line). Qed.

(** "( a < f ; b ) | c &" *)
Lemma parsecmd_print_witness : exists c buf,
  parsecmd [40; 32; 97; 32; 60; 32; 102; 32; 59; 32; 98; 32; 41; 32; 124; 32; 99; 32; 38; 32] = Ret (c, buf) [] /\
  cmd_map (c_string buf) c = BACK (PIPE (LIST (REDIR (EXEC [[97]]) [102] O_RDONLY 0) (EXEC [[98]])) (EXEC [[99]])).
Proof.
  apply (parsecmd_print (BACK (PIPE (LIST (REDIR (EXEC [[97]]) [102] O_RDONLY 0) (EXEC [[98]])) (EXEC [[99]])))).
  assert (Hw : forall c, word_char c = true -> word [c]) by (intros; split; [discriminate|repeat constructor; assumption]).
  cbn. repeat split; repeat constructor; try (apply Hw; reflexivity); cbn; unfold MAXARGS; try lia.
Defined.
