(* ===== verification/ShRun.v ===== *)
(** * sh.c: running a command

    [runcmd] as the tree of system calls it makes ([prog]), each call with
    the continuation that its result selects; [fork1] has one branch for the
    child and one for the parent.  [exec_runs] interprets such a tree over a
    descriptor table, where a new descriptor is the lowest free one (as
    [fdalloc] of sysfile.c chooses it) and a fork copies the table, and lists
    the programs that are executed with the table each of them gets. *)
From stdpp Require Import base numbers list strings.
From Stdlib Require Import ZArith Lia.
From S2P Require Import Prelude Sh.
#[local] Open Scope Z_scope.

Inductive prog :=
  | Exit
  | Panics (msg : string)
  | Exec (argv : list (list Z)) (failed : prog)
  | Close (fd : Z) (k : prog)
  | Open (file : list Z) (mode : Z) (k : Z -> prog)
  | Dup (fd : Z) (k : prog)
  | MkPipe (k : Z -> Z -> prog) (failed : prog)
  | Fork (child parent : prog)
  | Wait (k : prog).

(** Every path ends in [exit]; the messages are left out. *)
Fixpoint runcmd (c : cmd_of (list Z)) : prog :=
  match c with
  | EXEC argv =>
      match argv with
      | [] => Exit
      | _ => Exec argv Exit
      end
  | REDIR c file mode fd =>
      Close fd (Open file mode (fun r => if r <? 0 then Exit else runcmd c))
  | LIST l r => Fork (runcmd l) (Wait (runcmd r))
  | PIPE l r =>
      MkPipe (fun p0 p1 =>
        Fork (Close 1 (Dup p1 (Close p0 (Close p1 (runcmd l)))))
       (Fork (Close 0 (Dup p0 (Close p0 (Close p1 (runcmd r)))))
       (Close p0 (Close p1 (Wait (Wait Exit))))))
       (Panics "pipe")
  | BACK c => Fork (runcmd c) Exit
  end.

(** ** Descriptor tables *)
Inductive desc := Tty (n : nat) | File (name : list Z) (mode : Z) | PipeR (id : nat) | PipeW (id : nat).
Notation table := (list (option desc)).

Definition fd_free (t : table) : option nat := fst <$> list_find (fun d => d = None) t.
Definition fd_set (t : table) (fd : Z) (d : option desc) : table := <[Z.to_nat fd := d]> t.

(** The programs executed, and the next pipe's number.  [opens] says which
    files can be opened. *)
Section exec.
Context (opens : list Z -> Z -> bool).

Fixpoint exec_runs (p : prog) (t : table) (id : nat) : list (list (list Z) * table) * nat :=
  match p with
  | Exit | Panics _ => ([], id)
  | Exec argv _ => ([(argv, t)], id)
  | Close fd k => exec_runs k (fd_set t fd None) id
  | Open file mode k =>
      match fd_free t with
      | Some fd => if opens file mode then exec_runs (k (Z.of_nat fd)) (<[fd := Some (File file mode)]> t) id
                   else exec_runs (k (-1)) t id
      | None => exec_runs (k (-1)) t id
      end
  | Dup fd k =>
      match fd_free t with
      | Some fd' => exec_runs k (<[fd' := mjoin (t !! Z.to_nat fd)]> t) id
      | None => exec_runs k t id
      end
  | MkPipe k failed =>
      match fd_free t with
      | Some p0 =>
          let t1 := <[p0 := Some (PipeR id)]> t in
          match fd_free t1 with
          | Some p1 => exec_runs (k (Z.of_nat p0) (Z.of_nat p1)) (<[p1 := Some (PipeW id)]> t1) (S id)
          | None => exec_runs failed t id
          end
      | None => exec_runs failed t id
      end
  | Fork child parent =>
      let '(a, id) := exec_runs child t id in
      let '(b, id) := exec_runs parent t id in
      (a ++ b, id)
  | Wait k => exec_runs k t id
  end.

(** ** What a command should run *)

(** Standard input, output and error, and nothing else open. *)
Record stdio := mkstdio { s0 : desc; s1 : desc; s2 : desc }.
Definition table_of (e : stdio) : table := [Some (s0 e); Some (s1 e); Some (s2 e)] ++ replicate 13 None.

Definition redirect (fd : Z) (d : desc) (e : stdio) : stdio :=
  if fd =? 0 then mkstdio d (s1 e) (s2 e) else mkstdio (s0 e) d (s2 e).

Fixpoint wiring (c : cmd_of (list Z)) (e : stdio) (id : nat) : list (list (list Z) * stdio) * nat :=
  match c with
  | EXEC [] => ([], id)
  | EXEC argv => ([(argv, e)], id)
  | REDIR c file mode fd => if opens file mode then wiring c (redirect fd (File file mode) e) id else ([], id)
  | LIST l r => let '(a, id) := wiring l e id in let '(b, id) := wiring r e id in (a ++ b, id)
  | PIPE l r =>
      let '(a, id') := wiring l (redirect 1 (PipeW id) e) (S id) in
      let '(b, id') := wiring r (redirect 0 (PipeR id) e) id' in (a ++ b, id')
  | BACK c => wiring c e id
  end.

Lemma open_free fd d e : fd = 0 \/ fd = 1 ->
  fd_free (fd_set (table_of e) fd None) = Some (Z.to_nat fd) /\
  <[Z.to_nat fd := Some d]> (fd_set (table_of e) fd None) = table_of (redirect fd d e).
Proof. by intros [->| ->]. Qed.

(** The two ends of a new pipe are 3 and 4; each child moves one of them to its
    standard output or input and closes both. *)
Definition piped (e : stdio) (id : nat) : table := <[4%nat := Some (PipeW id)]> (<[3%nat := Some (PipeR id)]> (table_of e)).

Lemma pipe_new e id k failed : exec_runs (MkPipe k failed) (table_of e) id = exec_runs (k 3 4) (piped e id) (S id).
Proof. reflexivity. Qed.
Lemma pipe_left e id k m : exec_runs (Close 1 (Dup 4 (Close 3 (Close 4 k)))) (piped e id) m
  = exec_runs k (table_of (redirect 1 (PipeW id) e)) m.
Proof. reflexivity. Qed.
Lemma pipe_right e id k m : exec_runs (Close 0 (Dup 3 (Close 3 (Close 4 k)))) (piped e id) m
  = exec_runs k (table_of (redirect 0 (PipeR id) e)) m.
Proof. reflexivity. Qed.
Lemma run_fork a b t id : exec_runs (Fork a b) t id =
  let '(x, id) := exec_runs a t id in let '(y, id) := exec_runs b t id in (x ++ y, id).
Proof. reflexivity. Qed.

End exec.

