(* ===== verification/Kbd.v ===== *)
(** * kbd.c, kbd.h: from scan codes to characters

    The tables of the keyboard as total functions of the scan code (an entry
    the source leaves out is 0, as in C), the modifier word [shift] as the
    state, and [kbdgetc] as a step that consumes what the controller's status
    and data ports give. *)
From stdpp Require Import base numbers list list_numbers.
From Stdlib Require Import ZArith Lia.
From S2P Require Import Prelude.
#[local] Open Scope Z_scope.

Definition KBS_DIB : Z := 0x01.
Definition NO : Z := 0.
Definition SHIFT : Z := 1.
Definition CTL : Z := 2.
Definition ALT : Z := 4.
Definition CAPSLOCK : Z := 8.
Definition NUMLOCK : Z := 16.
Definition SCROLLLOCK : Z := 32.
Definition E0ESC : Z := 64.
Definition KEY_HOME : Z := 0xE0.
Definition KEY_END : Z := 0xE1.
Definition KEY_UP : Z := 0xE2.
Definition KEY_DN : Z := 0xE3.
Definition KEY_LF : Z := 0xE4.
Definition KEY_RT : Z := 0xE5.
Definition KEY_PGUP : Z := 0xE6.
Definition KEY_PGDN : Z := 0xE7.
Definition KEY_INS : Z := 0xE8.
Definition KEY_DEL : Z := 0xE9.
(** C(x), stored in a [uchar]. *)
Definition C (x : Z) : Z := u8 (x - 64).

(** A C array of 256 bytes: the leading initialisers, then the designated ones. *)
Definition table (pre : list Z) (rest : list (Z * Z)) (i : Z) : Z :=
  match list_find (fun e => e.1 = i) rest with
  | Some (_, (_, v)) => v
  | None => default 0 (pre !! Z.to_nat i)
  end.

Definition shiftcode : Z -> Z :=
  table [] [(0x1D, CTL); (0x2A, SHIFT); (0x36, SHIFT); (0x38, ALT); (0x9D, CTL); (0xB8, ALT)].
Definition togglecode : Z -> Z :=
  table [] [(0x3A, CAPSLOCK); (0x45, NUMLOCK); (0x46, SCROLLLOCK)].

(** The designated entries of the three character maps; the keypad's Enter
    and Div differ between them. *)
Definition keypad (enter div : Z) : list (Z * Z) :=
  [(0x9C, enter); (0xB5, div);
   (0xC8, KEY_UP); (0xD0, KEY_DN); (0xC9, KEY_PGUP); (0xD1, KEY_PGDN);
   (0xCB, KEY_LF); (0xCD, KEY_RT); (0x97, KEY_HOME); (0xCF, KEY_END);
   (0xD2, KEY_INS); (0xD3, KEY_DEL)].

Definition normalmap : Z -> Z := table
  [NO; 0x1B; 49; 50; 51; 52; 53; 54;
   55; 56; 57; 48; 45; 61; 8; 9;
   113; 119; 101; 114; 116; 121; 117; 105;
   111; 112; 91; 93; 10; NO; 97; 115;
   100; 102; 103; 104; 106; 107; 108; 59;
   39; 96; NO; 92; 122; 120; 99; 118;
   98; 110; 109; 44; 46; 47; NO; 42;
   NO; 32; NO; NO; NO; NO; NO; NO;
   NO; NO; NO; NO; NO; NO; NO; 55;
   56; 57; 45; 52; 53; 54; 43; 49;
   50; 51; 48; 46; NO; NO; NO; NO] (keypad 10 47).

Definition shiftmap : Z -> Z := table
  [NO; 27; 33; 64; 35; 36; 37; 94;
   38; 42; 40; 41; 95; 43; 8; 9;
   81; 87; 69; 82; 84; 89; 85; 73;
   79; 80; 123; 125; 10; NO; 65; 83;
   68; 70; 71; 72; 74; 75; 76; 58;
   34; 126; NO; 124; 90; 88; 67; 86;
   66; 78; 77; 60; 62; 63; NO; 42;
   NO; 32; NO; NO; NO; NO; NO; NO;
   NO; NO; NO; NO; NO; NO; NO; 55;
   56; 57; 45; 52; 53; 54; 43; 49;
   50; 51; 48; 46; NO; NO; NO; NO] (keypad 10 47).

Definition ctlmap : Z -> Z := table
  [NO; NO; NO; NO; NO; NO; NO; NO;
   NO; NO; NO; NO; NO; NO; NO; NO;
   C 81; C 87; C 69; C 82; C 84; C 89; C 85; C 73;
   C 79; C 80; NO; NO; 13; NO; C 65; C 83;
   C 68; C 70; C 71; C 72; C 74; C 75; C 76; NO;
   NO; NO; NO; C 92; C 90; C 88; C 67; C 86;
   C 66; C 78; C 77; NO; NO; C 47; NO; NO] (keypad 13 (C 47)).

(** [charcode[i]], the four-entry array of maps. *)
Definition charcode (i : Z) : Z -> Z :=
  if i =? 0 then normalmap else if i =? 1 then shiftmap else ctlmap.

(** CAPSLOCK swaps the case of letters. *)
Definition swap_case (c : Z) : Z :=
  if (97 <=? c) && (c <=? 122) then c + (65 - 97)
  else if (65 <=? c) && (c <=? 90) then c + (97 - 65) else c.

(** A key goes down: the part of [kbdgetc] after the E0 and release cases. *)
Definition key_down (shift data : Z) : Z * Z :=
  let shift := Z.lxor (Z.lor shift (shiftcode data)) (togglecode data) in
  let c := charcode (Z.land shift (Z.lor CTL SHIFT)) data in
  (if negb (Z.land shift CAPSLOCK =? 0) then swap_case c else c, shift).

(** [kbdgetc] with the bytes [st] and [data] of the two ports: the character
    (-1 when there is none, 0 for no character) and the new [shift]. *)
Definition kbdgetc (st data shift : Z) : Z * Z :=
  if Z.land st KBS_DIB =? 0 then (-1, shift)
  else if data =? 0xE0 then (0, Z.lor shift E0ESC)
  else if negb (Z.land data 0x80 =? 0) then
    let data := if negb (Z.land shift E0ESC =? 0) then data else Z.land data 0x7F in
    (0, Z.land shift (Z.lnot (Z.lor (shiftcode data) E0ESC)))
  else if negb (Z.land shift E0ESC =? 0) then
    key_down (Z.land shift (Z.lnot E0ESC)) (Z.lor data 0x80)
  else key_down shift data.

(** ** The keyboard as the user sees it *)

(** The bytes of pressing and of releasing a key: [code] below 0x80, and
    whether the keyboard sends the E0 prefix for it. *)
Definition press (e0 : bool) (code : Z) : list Z := (if e0 then [0xE0] else []) ++ [code].
Definition release (e0 : bool) (code : Z) : list Z := (if e0 then [0xE0] else []) ++ [Z.lor code 0x80].

(** [kbdgetc] called on each of a sequence of scan codes. *)
Fixpoint type_codes (ds : list Z) (shift : Z) : list Z * Z :=
  match ds with
  | [] => ([], shift)
  | d :: ds =>
      let '(c, shift) := kbdgetc KBS_DIB d shift in
      let '(cs, shift) := type_codes ds shift in
      (c :: cs, shift)
  end.

(** The effect of a whole stroke, stated without the order of the bytes: a
    toggle key flips its bit, a modifier key is up when the stroke ends, and
    every other key leaves the modifiers alone. *)
Definition stroke_shift (e0 : bool) (code shift : Z) : Z :=
  let key := if e0 then Z.lor code 0x80 else code in
  Z.lxor (Z.ldiff shift (shiftcode key)) (togglecode key).

(** The character of a stroke: control wins over shift, and caps lock is a
    second shift for letters. *)
Definition letter (c : Z) : bool := (97 <=? c) && (c <=? 122).
Definition stroke_char (code shift : Z) : Z :=
  if negb (Z.land shift CTL =? 0) then ctlmap code
  else if letter (normalmap code) then
    if xorb (Z.testbit shift 0) (Z.testbit shift 3) then normalmap code - 32 else normalmap code
  else if Z.testbit shift 0 then shiftmap code else normalmap code.

Definition plain_key (code : Z) : bool := (shiftcode code =? 0) && (togglecode code =? 0).

(** 0x60 is no key: its release would read as the E0 prefix. *)
Definition modifiers : list Z := Z.of_nat <$> seq 0 64.
Definition codes : list Z := filter (fun c => c <> 0x60) (Z.of_nat <$> seq 0 128).

Lemma modifiers_spec m : 0 <= m < 64 -> m ∈ modifiers.
Proof. intros Hm. apply list_elem_of_fmap. exists (Z.to_nat m). rewrite elem_of_seq. lia. Qed.

Lemma codes_spec c : 0 <= c < 128 -> c <> 0x60 -> c ∈ codes.
Proof.
  intros Hc Hn. apply list_elem_of_filter. split; [done|]. apply list_elem_of_fmap. exists (Z.to_nat c). rewrite elem_of_seq. lia.
Qed.

(** Whole strokes, over the finite set of keys and of modifier words. *)
Lemma strokes_ok : Forall (fun e0 => Forall (fun code => Forall (fun shift =>
    let '(cs, shift') := type_codes (press e0 code ++ release e0 code) shift in
    shift' = stroke_shift e0 code shift /\
    (e0 = false -> plain_key code = true -> cs = [stroke_char code shift; 0]))
  modifiers) codes) [false; true].
Proof. apply (bool_decide_unpack _). vm_compute. exact I. Qed.

(** Pressing and releasing a key: for every key of the keyboard and
    every state of the modifiers, the stroke yields the character that control,
    shift and caps lock select, followed by nothing for the release, and leaves
    the modifiers as they were, with a toggle key's bit flipped and a modifier
    key up. *)
Theorem kbd_stroke e0 code shift :
  0 <= code < 128 -> code <> 0x60 -> 0 <= shift < 64 ->
  (type_codes (press e0 code ++ release e0 code) shift).2 = stroke_shift e0 code shift /\
  (e0 = false -> plain_key code = true ->
   (type_codes (press e0 code ++ release e0 code) shift).1 = [stroke_char code shift; 0]).
Proof.
  intros Hc Hn Hs. pose proof strokes_ok as H. rewrite Forall_forall in H.
  specialize (H e0 ltac:(destruct e0; repeat constructor)). rewrite Forall_forall in H. specialize (H code (codes_spec code Hc Hn)).
  rewrite Forall_forall in H. specialize (H shift (modifiers_spec shift Hs)).
  destruct (type_codes _ shift). exact H.
Qed.

(** The key A with shift held and caps lock on. *)
Lemma kbd_stroke_witness : (type_codes (press false 0x1E ++ release false 0x1E) 9).1 = [97; 0].
Proof. apply (kbd_stroke false 0x1E 9); [lia|lia|lia|reflexivity|reflexivity]. Defined.
