(* ===== verification/Console.v ===== *)
(** * console.c: line editing, the screen and formatted output

    The ring of typed characters with its three indices, the interrupt
    handler that edits it and the read that takes lines from it; the cursor
    and the text memory of the screen; [cprintf].  What the handler sends to
    [consputc], and its calls of [wakeup], are recorded as events.  The
    console lock is held throughout each definition. *)
From stdpp Require Import base numbers list list_numbers strings.
From Stdlib Require Import ZArith Lia.
From S2P Require Import Prelude StringC ULib.
#[local] Open Scope Z_scope.

Definition INPUT_BUF : Z := 128.
Definition BACKSPACE : Z := 0x100.
(** The control characters D, H, P, U. *)
Definition ctrl_D : Z := 4.
Definition ctrl_H : Z := 8.
Definition ctrl_P : Z := 16.
Definition ctrl_U : Z := 21.
Definition newline : Z := 10.

Inductive event := Putc (c : Z) | Wakeup.

Record console := mkconsole { ibuf : list Z; ir : Z; iw : Z; ie : Z; events : list event }.
Definition set_r (v : Z) (s : console) : console := mkconsole (ibuf s) v (iw s) (ie s) (events s).
Definition set_e (v : Z) (s : console) : console := mkconsole (ibuf s) (ir s) (iw s) v (events s).
Definition set_w (v : Z) (s : console) : console := mkconsole (ibuf s) (ir s) v (ie s) (events s).
Definition set_ch (i v : Z) (s : console) : console :=
  mkconsole (<[Z.to_nat i := u8 v]> (ibuf s)) (ir s) (iw s) (ie s) (events s).
Definition emit (ev : event) (s : console) : console := mkconsole (ibuf s) (ir s) (iw s) (ie s) (events s ++ [ev]).
Definition ch_at (s : console) (i : Z) : Z := ibuf s !!! Z.to_nat (i `mod` INPUT_BUF).

(** [input.e--; consputc(BACKSPACE)] *)
Definition rubout (s : console) : console := emit (Putc BACKSPACE) (set_e (u32 (ie s - 1)) s).

Fixpoint kill_line (fuel : nat) (s : console) : console :=
  match fuel with
  | O => s
  | S n => if negb (ie s =? iw s) && negb (ch_at s (u32 (ie s - 1)) =? newline) then kill_line n (rubout s) else s
  end.

(** One turn of the loop over the characters that [getc] returns. *)
Definition consoleintr_char (c : Z) (s : console) : console :=
  if c =? ctrl_P then s
  else if c =? ctrl_U then kill_line (Z.to_nat INPUT_BUF) s
  else if (c =? ctrl_H) || (c =? 127) then (if negb (ie s =? iw s) then rubout s else s)
  else if negb (c =? 0) && (u32 (ie s - ir s) <? INPUT_BUF) then
    let c := if c =? 13 then newline else c in
    let s := set_e (u32 (ie s + 1)) (set_ch (ie s `mod` INPUT_BUF) c s) in
    let s := emit (Putc c) s in
    if (c =? newline) || (c =? ctrl_D) || (ie s =? u32 (ir s + INPUT_BUF))
    then emit Wakeup (set_w (ie s) s) else s
  else s.

(** The characters, and whether [procdump] is called at the end. *)
Definition consoleintr (cs : list Z) (s : console) : console * bool :=
  (foldl (fun s c => consoleintr_char c s) s cs, existsb (Z.eqb ctrl_P) cs).

(** How [consoleread] goes on: it returns a count, having stored bytes; it
    sleeps with [n] bytes still to read; or it fails because of a kill. *)
Inductive cread := Done (r : Z) (dst : list Z) | Asleep (n : Z) (dst : list Z) | Killed.

Definition consoleread_iter (killed : bool) (target : Z) (st : Z * list Z) : M console ((Z * list Z) + cread) :=
  let '(n, dst) := st in
  if 0 <? n then
    s <- get ;;
    if ir s =? iw s then ret (inr (if killed then Killed else Asleep n dst))
    else
      modify (set_r (u32 (ir s + 1))) ;;;
      let c := ch_at s (ir s) in
      if c =? ctrl_D then
        when (n <? target) (modify (fun s => set_r (u32 (ir s - 1)) s)) ;;;
        ret (inr (Done (target - n) dst))
      else if c =? newline then ret (inr (Done (target - (n - 1)) (dst ++ [c])))
      else ret (inl (n - 1, dst ++ [c]))
  else ret (inr (Done (target - n) dst)).

(** From the start ([n = target], nothing stored), or after a sleep. *)
Definition consoleread (killed : bool) (target n : Z) (dst : list Z) : M console cread :=
  loop (Z.to_nat n + 1) (consoleread_iter killed target) (n, dst).

Definition consolewrite (buf : list Z) (s : console) : console :=
  foldl (fun s c => emit (Putc (Z.land c 0xff)) s) s buf.

(** ** The line discipline

    [q]: the bytes of finished lines, to be read; [l]: the line being edited. *)
Definition key (c : Z) (st : list Z * list Z) : list Z * list Z :=
  let '(q, l) := st in
  if c =? ctrl_P then st
  else if c =? ctrl_U then (q, [])
  else if (c =? ctrl_H) || (c =? 127) then (q, take (length l - 1) l)
  else if negb (c =? 0) && (Z.of_nat (length q + length l) <? INPUT_BUF) then
    let c := if c =? 13 then newline else c in
    let l := l ++ [c] in
    if (c =? newline) || (c =? ctrl_D) || (Z.of_nat (length q + length l) =? INPUT_BUF) then (q ++ l, []) else (q, l)
  else st.

(** Reading takes bytes up to the end of a line; an end of file is a result of
    no bytes, and is left for the next read when there are some. *)
Fixpoint take_line (killed : bool) (target : Z) (q : list Z) (n : Z) (dst : list Z) : cread * list Z :=
  if 0 <? n then
    match q with
    | [] => (if killed then Killed else Asleep n dst, [])
    | c :: q' =>
        if c =? ctrl_D then (Done (target - n) dst, if n <? target then q else q')
        else if c =? newline then (Done (target - (n - 1)) (dst ++ [c]), q')
        else take_line killed target q' (n - 1) (dst ++ [c])
    end
  else (Done (target - n) dst, q).

(** The ring holds [q] and then [l] from index [R] on. *)
Record holds_line (R : Z) (q l : list Z) (s : console) : Prop := {
  hl_pos : 0 <= R;
  hl_len : length (ibuf s) = 128%nat;
  hl_r : ir s = u32 R;
  hl_w : iw s = u32 (R + Z.of_nat (length q));
  hl_e : ie s = u32 (R + Z.of_nat (length q + length l));
  hl_room : (length q + length l <= 128)%nat;
  hl_bytes : forall i c, (q ++ l) !! i = Some c -> ch_at s (R + Z.of_nat i) = c;
  hl_edit : newline ∉ l }.
Definition console_rel (st : list Z * list Z) (s : console) : Prop := exists R, holds_line R st.1 st.2 s.

Lemma u32_mod x : u32 x `mod` INPUT_BUF = x `mod` INPUT_BUF.
Proof. unfold u32, INPUT_BUF. dlia. Qed.
Lemma ch_at_u32 s x : ch_at s (u32 x) = ch_at s x.
Proof. unfold ch_at. by rewrite u32_mod. Qed.
Lemma u32_sub_eq a b : 0 <= b < 4294967296 -> u32 (u32 (a + b) - u32 a) = b.
Proof. intros. unfold u32. dlia. Qed.
Lemma u32_add_eq a b : u32 (u32 a + b) = u32 (a + b).
Proof. unfold u32. dlia. Qed.
Lemma u32_eq_iff a b c : 0 <= b < 4294967296 -> 0 <= c < 4294967296 -> (u32 (a + b) =? u32 (a + c)) = (b =? c).
Proof. intros. unfold u32. destruct (Z.eqb_spec b c) as [->|]; [apply Z.eqb_refl|]. apply Z.eqb_neq. dlia. Qed.

Lemma rubout_rel R q l c s : holds_line R q (l ++ [c]) s -> holds_line R q l (rubout s).
Proof.
  intros [H1 H2 H3 H4 H5 H6 H7 H8]. rewrite length_app in H5, H6. cbn in H5, H6. split; cbn; try done.
  - rewrite H5. unfold u32. dlia.
  - lia.
  - intros i x Hi. apply H7. rewrite app_assoc. by apply lookup_app_l_Some.
  - intros Hn. apply H8, elem_of_app. by left.
Qed.

Lemma edit_empty R q l s : holds_line R q l s -> (ie s =? iw s) = match l with [] => true | _ => false end.
Proof.
  intros [H1 H2 H3 H4 H5 H6 H7 H8]. rewrite H4, H5, u32_eq_iff by lia. destruct l; cbn; [apply Z.eqb_eq; lia|apply Z.eqb_neq; lia].
Qed.

Lemma kill_line_rel fuel : forall R q l s, holds_line R q l s -> (length l <= fuel)%nat -> holds_line R q [] (kill_line fuel s).
Proof.
  induction fuel as [|n IH]; intros R q l s Hs Hl; [by destruct l; [|cbn in Hl; lia]|]. cbn [kill_line].
  rewrite (edit_empty _ _ _ _ Hs). destruct l as [|c0 l0] using rev_ind; [done|]. clear IHl0. rename c0 into c, l0 into l.
  assert (Hne : match l ++ [c] with [] => true | _ => false end = false) by (by destruct l). rewrite Hne. cbn [negb andb].
  assert (Hc : ch_at s (u32 (ie s - 1)) = c).
  { pose proof (hl_e _ _ _ _ Hs) as He. rewrite length_app in He. cbn in He. rewrite ch_at_u32.
    transitivity (ch_at s (R + Z.of_nat (length q + length l))).
    - unfold ch_at. rewrite He. do 2 f_equal. unfold u32, INPUT_BUF. dlia.
    - apply (hl_bytes _ _ _ _ Hs). rewrite app_assoc, <- length_app. by apply list_lookup_middle. }
  rewrite Hc. destruct (Z.eqb_spec c newline) as [->|Hn].
  { exfalso. apply (hl_edit _ _ _ _ Hs), elem_of_app. right. by left. }
  cbn [negb]. rewrite length_app in Hl. cbn in Hl. eapply IH; [by eapply rubout_rel|lia].
Qed.

(** A character put at the end of the ring. *)
Lemma append_rel R q l c s : holds_line R q l s -> (length q + length l < 128)%nat -> 0 <= c < 256 ->
  let s' := set_e (u32 (ie s + 1)) (set_ch (ie s `mod` INPUT_BUF) c s) in
  ie s' = u32 (R + Z.of_nat (length q + length l + 1)) /\ ir s' = u32 R /\ iw s' = iw s /\ length (ibuf s') = 128%nat /\
  forall i x, (q ++ l ++ [c]) !! i = Some x -> ch_at s' (R + Z.of_nat i) = x.
Proof.
  intros [H1 H2 H3 H4 H5 H6 H7 H8] Hroom Hc. cbn. rewrite H5, u32_add_eq, u32_mod. split; [f_equal; lia|]. split; [done|]. split; [done|].
  rewrite length_insert. split; [done|]. intros i x Hi. unfold ch_at in *. cbn [ibuf set_e set_ch].
  rewrite app_assoc in Hi. apply lookup_app_Some in Hi as [Hi|[Hge Hi]].
  - pose proof (lookup_lt_Some _ _ _ Hi) as Hlt. rewrite length_app in Hlt.
    rewrite list_lookup_total_insert_ne; [by apply H7|]. unfold INPUT_BUF. dlia.
  - rewrite length_app in Hge, Hi. apply list_lookup_singleton_Some in Hi as [Hi <-].
    replace (R + Z.of_nat i) with (R + Z.of_nat (length q + length l)) by lia.
    rewrite list_lookup_total_insert_eq; [unfold u8; apply Z.mod_small; lia|]. rewrite H2. unfold INPUT_BUF. dlia.
Qed.

Lemma emit_rel R q l s ev : holds_line R q l s -> holds_line R q l (emit ev s).
Proof. by intros []. Qed.

Lemma key_rel st c s : 0 <= c < 256 -> console_rel st s -> console_rel (key c st) (consoleintr_char c s).
Proof.
  destruct st as [q l]. intros Hc [R Hs]. cbn [fst snd] in Hs. exists R. unfold key, consoleintr_char.
  destruct (c =? ctrl_P); [done|]. destruct (c =? ctrl_U).
  { cbn [fst snd]. eapply kill_line_rel; [done|]. pose proof (hl_room _ _ _ _ Hs). unfold INPUT_BUF. lia. }
  destruct (_ || _).
  { rewrite (edit_empty _ _ _ _ Hs). destruct l as [|x l _] using rev_ind; [done|].
    assert (Hne : match l ++ [x] with [] => true | _ => false end = false) by (by destruct l). rewrite Hne. cbn [negb fst snd].
    rewrite length_app. cbn. rewrite Nat.add_sub, take_app_length. by eapply rubout_rel. }
  pose proof (hl_r _ _ _ _ Hs) as Hr. pose proof (hl_e _ _ _ _ Hs) as He. pose proof (hl_room _ _ _ _ Hs) as Hroom.
  rewrite He, Hr, u32_sub_eq by lia. destruct (_ && _) eqn:Eb; [|done]. zbool. rewrite <- He.
  set (c' := if c =? 13 then newline else c). assert (Hc' : 0 <= c' < 256) by (unfold c', newline; destruct (_ =? _); lia).
  destruct (append_rel R q l c' s Hs) as (E1 & E2 & E5 & E3 & E4); [unfold INPUT_BUF in *; lia|done|]. cbv zeta.
  set (s1 := set_e _ _) in *. clearbody s1. cbn [ie ir emit]. rewrite E1, E2, u32_add_eq, length_app, Nat.add_assoc. cbn [length].
  unfold INPUT_BUF in *. rewrite u32_eq_iff by lia. destruct (_ || _) eqn:Ec.
  - cbn [fst snd]. apply emit_rel. split; cbn; try done; rewrite ?app_nil_r, ?length_app, ?Nat.add_0_r; cbn [length]; try lia.
    all: first [by apply hl_pos in Hs|by rewrite ?E1; f_equal; lia|by apply not_elem_of_nil].
  - apply orb_false_iff in Ec as [Ec Ef]. apply orb_false_iff in Ec as [Enl _]. zbool. cbn [fst snd]. apply emit_rel. split; try done.
    + apply hl_pos in Hs. done.
    + rewrite E5. exact (hl_w _ _ _ _ Hs).
    + rewrite E1, length_app. cbn. do 2 f_equal. lia.
    + rewrite length_app. cbn. lia.
    + intros [Hin|Hin]%elem_of_app; [by apply (hl_edit _ _ _ _ Hs)|]. apply list_elem_of_singleton in Hin. congruence.
Qed.

Lemma take_head R q l c s : holds_line R (c :: q) l s ->
  (ir s =? iw s) = false /\ ch_at s (ir s) = c /\ holds_line (R + 1) q l (set_r (u32 (ir s + 1)) s) /\
  holds_line R (c :: q) l (set_r (u32 (u32 (ir s + 1) - 1)) (set_r (u32 (ir s + 1)) s)).
Proof.
  intros Hs. pose proof Hs as [H1 H2 H3 H4 H5 H6 H7 H8]. cbn in H4, H5, H6. split; [|split; [|split]].
  - rewrite H3, H4, <- (Z.add_0_r R) at 1. rewrite u32_eq_iff by lia. apply Z.eqb_neq. lia.
  - rewrite H3, ch_at_u32. rewrite <- (Z.add_0_r R). by apply (H7 0%nat).
  - split; cbn; try done; try lia.
    + by rewrite H3, u32_add_eq.
    + rewrite H4. f_equal. lia.
    + rewrite H5. f_equal. lia.
    + intros i x Hi. replace (R + 1 + Z.of_nat i) with (R + Z.of_nat (S i)) by lia. by apply H7.
  - split; cbn; try done. rewrite H3. unfold u32. dlia.
Qed.

Lemma consoleread_spec killed target l fuel : forall R q n dst s, holds_line R q l s -> (Z.to_nat n < fuel)%nat ->
  exists s' R', loop fuel (consoleread_iter killed target) (n, dst) s = Ret (take_line killed target q n dst).1 s' /\
    holds_line R' (take_line killed target q n dst).2 l s'.
Proof.
  induction fuel as [|k IH]; intros R q n dst s Hs Hn; [lia|]. cbn [loop]. unfold bind at 1, consoleread_iter.
  destruct q as [|c q]; cbn [take_line]; destruct (Z.ltb_spec 0 n); try (by exists s, R).
  - unfold bind, get. assert (Ee : (ir s =? iw s) = true).
    { rewrite (hl_r _ _ _ _ Hs), (hl_w _ _ _ _ Hs). cbn. rewrite Z.add_0_r. apply Z.eqb_refl. }
    rewrite Ee. by exists s, R.
  - destruct (take_head R q l c s Hs) as (E1 & E2 & H1 & H2). unfold bind at 1 2, get. rewrite E1. unfold bind at 1, modify. rewrite E2.
    destruct (c =? ctrl_D); [|destruct (c =? newline)].
    + destruct (Z.ltb_spec n target); cbn; [by eexists _, R|by eexists _, (R + 1)].
    + by eexists _, (R + 1).
    + apply (IH (R + 1)); [done|lia].
Qed.

(** ** Sequences *)
Inductive cons_op := Key (c : Z) | Read (killed : bool) (target n : Z) (dst : list Z).

Definition run_cons (o : cons_op) : M console (option cread) :=
  match o with
  | Key c => modify (consoleintr_char c) ;;; ret None
  | Read killed target n dst => r <- consoleread killed target n dst ;; ret (Some r)
  end.
Fixpoint run_all (os : list cons_op) : M console (list (option cread)) :=
  match os with
  | [] => ret []
  | o :: os => r <- run_cons o ;; rs <- run_all os ;; ret (r :: rs)
  end.
Fixpoint discipline (os : list cons_op) (st : list Z * list Z) : list (option cread) * (list Z * list Z) :=
  match os with
  | [] => ([], st)
  | Key c :: os => let '(rs, st') := discipline os (key c st) in (None :: rs, st')
  | Read killed target n dst :: os =>
      let '(r, q) := take_line killed target st.1 n dst in
      let '(rs, st') := discipline os (q, st.2) in (Some r :: rs, st')
  end.

(** C30. The console is a line discipline.  Under every sequence of typed
    characters and reads, the 128-byte ring with its wrapping indices behaves
    as a queue of finished lines and one line under edit: erase and kill
    never reach a finished line, a line is passed on at a newline, at
    control-D or when the ring is full, reads return it in order and at most
    one line at a time, and control-D gives exactly one empty read. *)
Theorem console_refines os st s : Forall (fun o => match o with Key c => 0 <= c < 256 | _ => True end) os ->
  console_rel st s ->
  exists s', run_all os s = Ret (discipline os st).1 s' /\ console_rel (discipline os st).2 s'.
Proof.
  intros Hos. revert st s. induction Hos as [|o os Ho _ IH]; intros st s Hs; [by exists s|].
  cbn [run_all discipline]. destruct o as [c|killed target n dst]; cbn [run_cons].
  - destruct (IH (key c st) (consoleintr_char c s) (key_rel st c s Ho Hs)) as (s' & E & Hs').
    exists s'. unfold bind, modify, ret. rewrite E. by destruct (discipline os (key c st)).
  - destruct st as [q l], Hs as [R Hs]. cbn [fst snd] in *.
    destruct (consoleread_spec killed target l (Z.to_nat n + 1) R q n dst s Hs ltac:(lia)) as (s1 & R1 & E1 & Hs1).
    destruct (take_line killed target q n dst) as [r q1] eqn:Et. cbn [fst snd] in *.
    destruct (IH (q1, l) s1 ltac:(by exists R1)) as (s' & E & Hs').
    exists s'. unfold bind, consoleread, ret. rewrite E1, E. by destruct (discipline os (q1, l)).
Qed.

(** The indices about to wrap around; "ax", erase, newline, then a read of 10. *)
Lemma console_refines_witness : exists s', run_all [Key 97; Key 120; Key 127; Key 13; Read false 10 10 []]
    (mkconsole (replicate 128 0) 4294967295 4294967295 4294967295 []) = Ret [None; None; None; None; Some (Done 2 [97; 10])] s'
  /\ console_rel ([], []) s'.
Proof.
  apply (console_refines [Key 97; Key 120; Key 127; Key 13; Read false 10 10 []] ([], [])).
  - repeat constructor; discriminate.
  - exists 4294967295. split; try reflexivity; try discriminate; cbn; [lia|].
    intros Hx. by apply elem_of_nil in Hx.
Defined.

(** ** The screen *)

(** CGA text memory, 25 lines of 80 cells, and the cursor. *)
Record screen := mkscreen { crt : list Z; pos : Z }.
Definition cell (c : Z) : Z := Z.lor (Z.land c 0xff) 0x0700.
Definition blank : Z := Z.lor 32 0x0700.

(** The character is placed and the cursor moved ... *)
Definition cga_place (c : Z) (s : screen) : list Z * Z :=
  if c =? newline then (crt s, pos s + (80 - pos s `mod` 80))
  else if c =? BACKSPACE then (crt s, if 0 <? pos s then pos s - 1 else pos s)
  else (<[Z.to_nat (pos s) := cell c]> (crt s), pos s + 1).

(** ... and when the cursor is past line 24, the lines move up by one. *)
Definition cga_scroll (m : list Z) (p : Z) : list Z * Z :=
  if 24 <=? p / 80 then
    let m := take (23 * 80) (drop 80 m) ++ drop (23 * 80) m in
    let p := p - 80 in
    (take (Z.to_nat p) m ++ replicate (Z.to_nat (24 * 80 - p)) 0 ++ drop (24 * 80) m, p)
  else (m, p).

Definition cgaputc (c : Z) : M screen unit := fun s =>
  let '(m, p) := cga_place c s in
  if (p <? 0) || (25 * 80 <? p) then Panic "pos under/overflow" s
  else
    let '(m, p) := cga_scroll m p in
    Ret tt (mkscreen (<[Z.to_nat p := blank]> m) (u16 p)).

(** What goes to the serial port: an erase is backspace, space, backspace. *)
Definition consputc_serial (c : Z) : list Z := if c =? BACKSPACE then [8; 32; 8] else [c].

Lemma cga_place_ok c s : length (crt s) = 2000%nat -> 0 <= pos s < 24 * 80 ->
  length (cga_place c s).1 = 2000%nat /\ 0 <= (cga_place c s).2 <= 24 * 80.
Proof.
  intros Hm Hp. unfold cga_place.
  destruct (c =? newline); [|destruct (c =? BACKSPACE)]; cbn [fst snd]; rewrite ?length_insert; (split; [done|]); try dlia.
  destruct (Z.ltb_spec 0 (pos s)); lia.
Qed.

Lemma cga_scroll_ok m p : length m = 2000%nat -> 0 <= p <= 24 * 80 ->
  length (cga_scroll m p).1 = 2000%nat /\ 0 <= (cga_scroll m p).2 < 24 * 80.
Proof.
  intros Hm Hp. unfold cga_scroll. destruct (Z.leb_spec 24 (p / 80)); cbn [fst snd]; (split; [|dlia]); [|done].
  rewrite !length_app, length_replicate, length_take, length_drop, !length_app, !length_take, !length_drop, Hm. dlia.
Qed.

(** After a scroll, the lines above the cursor show what was one line below. *)
Lemma cga_scroll_lookup m p i : length m = 2000%nat -> p = 24 * 80 -> (i < 23 * 80)%nat ->
  (cga_scroll m p).1 !! i = m !! (80 + i)%nat.
Proof.
  intros Hm -> Hi. unfold cga_scroll. cbn [fst snd Z.leb]. rewrite (proj2 (Z.leb_le 24 (24 * 80 / 80))) by dlia. cbn [fst].
  rewrite lookup_app_l by (rewrite length_take, length_app, length_take, !length_drop; lia).
  rewrite lookup_take_lt by lia. rewrite lookup_app_l by (rewrite length_take, length_drop; lia).
  rewrite lookup_take_lt by lia. apply lookup_drop.
Qed.

(** The cursor never leaves the first 24 lines: [cgaputc] does not panic, keeps
    the size of the screen and shows a blank at the cursor. *)
Lemma cgaputc_stays c s : length (crt s) = 2000%nat -> 0 <= pos s < 24 * 80 ->
  runs (cgaputc c) s (fun _ s' => length (crt s') = 2000%nat /\ 0 <= pos s' < 24 * 80 /\ crt s' !! Z.to_nat (pos s') = Some blank).
Proof.
  intros Hm Hp. unfold runs, cgaputc. pose proof (cga_place_ok c s Hm Hp) as [Hl Hq].
  destruct (cga_place c s) as [m p]. cbn [fst snd] in Hl, Hq.
  destruct (Z.ltb_spec p 0); [lia|]. destruct (Z.ltb_spec (25 * 80) p); [lia|]. cbn [orb].
  pose proof (cga_scroll_ok m p Hl Hq) as [Hl' Hq']. destruct (cga_scroll m p) as [m' p']. cbn [fst snd] in *.
  eexists _, _. split; [reflexivity|]. cbn [crt pos]. rewrite length_insert. split; [done|]. unfold u16. rewrite Z.mod_small by lia. split; [done|].
  apply list_lookup_insert_eq. lia.
Qed.

(** ** cprintf *)

(** The argument of a conversion [c], and what is printed for it. *)
Definition cprintf_arg (m : mem) (bound : nat) (c : Z) (ap : list Z) : option (list Z * list Z) :=
  if c =? 100 then
    match ap with a :: ap => option_map (fun o => (o, ap)) (printint_in lower a 10 1) | [] => None end
  else if (c =? 120) || (c =? 112) then
    match ap with a :: ap => option_map (fun o => (o, ap)) (printint_in lower a 16 0) | [] => None end
  else if c =? 115 then
    match ap with
    | a :: ap => option_map (fun o => (o, ap)) (if a =? 0 then Some str_null else cstring m a bound)
    | [] => None
    end
  else if c =? 37 then Some ([37], ap)
  else Some ([37; c], ap).

Fixpoint cprintf (m : mem) (bound : nat) (fmt ap : list Z) : option (list Z) :=
  match fmt with
  | [] => Some []
  | c :: fmt =>
      if negb (c =? 37) then option_map (cons c) (cprintf m bound fmt ap)
      else match fmt with
           | [] => Some []
           | c :: fmt =>
               match cprintf_arg m bound c ap with
               | None => None
               | Some (o, ap) => option_map (app o) (cprintf m bound fmt ap)
               end
           end
  end.

(** ** Output to the terminal *)

(** The serial line, on which characters are recorded, and the screen. *)
Record tty := mktty { panicked : bool; serial : list Z; scr : screen }.

Definition consputc (c : Z) : M tty unit := fun t =>
  if panicked t then Spin
  else zoom scr (fun s t => mktty (panicked t) (serial t) s) (cgaputc c)
         (mktty (panicked t) (serial t ++ consputc_serial c) (scr t)).

Definition screen_ok (s : screen) : Prop := length (crt s) = 2000%nat /\ 0 <= pos s < 24 * 80.

Lemma consputc_ok c t : panicked t = false -> screen_ok (scr t) ->
  runs (consputc c) t (fun _ t' => panicked t' = false /\ screen_ok (scr t') /\ serial t' = serial t ++ consputc_serial c).
Proof.
  intros Hp [Hl Hq]. unfold runs, consputc. rewrite Hp. apply runs_zoom. cbn [scr].
  eapply runs_conseq; [apply (cgaputc_stays c _ Hl Hq)|]. intros _ s (? & ? & _). by cbn.
Qed.

(** What is printed, by [cprintf] or [consolewrite], appears in order on the
    serial line, and the screen never makes the kernel panic. *)
Lemma consputs_ok out t : panicked t = false -> screen_ok (scr t) ->
  runs (for_all out consputc) t (fun _ t' => panicked t' = false /\ screen_ok (scr t') /\ serial t' = serial t ++ (out ≫= consputc_serial)).
Proof.
  intros Hp Hs. apply (runs_for_all (fun pre t' => panicked t' = false /\ screen_ok (scr t') /\ serial t' = serial t ++ (pre ≫= consputc_serial))).
  - intros pre c post t' _ (Hp' & Hs' & E). eapply runs_conseq; [by apply consputc_ok|]. intros _ t2 (? & ? & E2).
    rewrite E2, E, bind_app. cbn. by rewrite app_nil_r, app_assoc.
  - done.
  - cbn. by rewrite app_nil_r.
Qed.
