(* ===== verification/Mkfs.v ===== *)
(** * mkfs.c: the image of a new file system

    The sectors of the image file, and the counters [freeinode] and
    [freeblock] from which mkfs allocates.  The files to put on the image are
    given as their names and the pieces that successive reads return.  A read
    past the end of the image and a failed assertion end mkfs with the outcome
    [Panic].  The last part shows that the image is a file system in the sense of the
    theorems about fs.c, which reads back what was put on it. *)
From stdpp Require Import base numbers list list_numbers strings.
From Stdlib Require Import ZArith Lia.
From S2P Require Import Prelude Block Bcache Log Fs FsBlock FsInode FsMap FsFile FsDir.
#[local] Open Scope Z_scope.

Definition NINODES : Z := 200.
Definition nbitmap : Z := FSSIZE / (BSIZE * 8) + 1.
Definition ninodeblocks : Z := NINODES / IPB + 1.
Definition nlog : Z := LOGSIZE.
Definition nmeta : Z := 2 + nlog + ninodeblocks + nbitmap.
Definition mkfs_sb : superblock :=
  mksuperblock FSSIZE (FSSIZE - nmeta) NINODES nlog 2 (2 + nlog) (2 + nlog + ninodeblocks).

Record image := mkimage { sects : Z -> block; nsect : Z; freeinode : Z; freeblock : Z }.

Definition wsect (sec : Z) (buf : block) : M image unit :=
  modify (fun s => mkimage (set_block sec buf (sects s)) (Z.max (nsect s) (sec + 1)) (freeinode s) (freeblock s)).
Definition rsect (sec : Z) : M image block := fun s =>
  if sec <? nsect s then Ret (sects s sec) s else Panic "read" s.

(** [freeblock++], [freeinode++] *)
Definition new_block : M image Z := fun s =>
  Ret (freeblock s) (mkimage (sects s) (nsect s) (freeinode s) (u32 (freeblock s + 1))).
Definition new_inode : M image Z := fun s =>
  Ret (freeinode s) (mkimage (sects s) (nsect s) (u32 (freeinode s + 1)) (freeblock s)).

(** A [struct dinode] is the on-disk part of an [inode] with its number. *)
Definition blank_inode (inum : Z) : inode := mkinode ROOTDEV inum 0 false false 0 0 0 0 0 (replicate 13 0).

Definition winode (ip : inode) : M image unit :=
  let bn := IBLOCK (i_inum ip) mkfs_sb in
  buf <- rsect bn ;;
  wsect bn (put_dinode ip buf).
Definition rinode (inum : Z) : M image inode :=
  buf <- rsect (IBLOCK inum mkfs_sb) ;;
  ret (get_dinode buf (blank_inode inum)).

Definition ialloc (type : Z) : M image Z :=
  inum <- new_inode ;;
  winode (with_nlink 1 (with_type type (blank_inode inum))) ;;;
  ret inum.

(** The sector of block [fbn] of a file, allocated if need be. *)
Definition iappend_block (ip : inode) (fbn : Z) : M image (inode * Z) :=
  if fbn <? NDIRECT then
    if addr_of ip fbn =? 0 then b <- new_block ;; ret (with_addr fbn b ip, b)
    else ret (ip, addr_of ip fbn)
  else
    ip <- (if addr_of ip NDIRECT =? 0 then b <- new_block ;; ret (with_addr NDIRECT b ip) else ret ip) ;;
    indirect <- rsect (addr_of ip NDIRECT) ;;
    if get32 indirect (4 * (fbn - NDIRECT)) =? 0 then
      b <- new_block ;;
      wsect (addr_of ip NDIRECT) (put32 (4 * (fbn - NDIRECT)) b indirect) ;;;
      ret (ip, b)
    else ret (ip, get32 indirect (4 * (fbn - NDIRECT))).

Definition iappend_iter (x : inode * Z * list Z) : M image (inode * Z * list Z + inode * Z) :=
  let '(ip, off, p) := x in
  if bool_decide (p = []) then ret (inr (ip, off))
  else
    let fbn := off / BSIZE in
    if MAXFILE <=? fbn then panic "assert"
    else
      r <- iappend_block ip fbn ;;
      let '(ip, x) := r in
      let n1 := Z.min (Z.of_nat (length p)) ((fbn + 1) * BSIZE - off) in
      buf <- rsect x ;;
      wsect x (splice (off - fbn * BSIZE) (take (Z.to_nat n1) p) buf) ;;;
      ret (inl (ip, u32 (off + n1), drop (Z.to_nat n1) p)).

Definition iappend (inum : Z) (p : list Z) : M image unit :=
  ip <- rinode inum ;;
  r <- loop (S (length p)) iappend_iter (ip, i_size ip, p) ;;
  winode (with_size r.2 r.1).

(** The bitmap with the first [used] bits set. *)
Definition balloc (used : Z) : M image unit :=
  if used <? BSIZE * 8 then
    wsect (bmapstart mkfs_sb)
      (foldl (fun buf i => put8 (i / 8) (Z.lor (get8 buf (i / 8)) (Z.shiftl 1 (i `mod` 8))) buf) zero_block (seqZ 0 used))
  else panic "assert".

Definition put_sb (b : superblock) (d : block) : block :=
  put32 24 (bmapstart b) (put32 20 (inodestart b) (put32 16 (logstart b) (put32 12 (Log.nlog b)
    (put32 8 (ninodes b) (put32 4 (Log.nblocks b) (put32 0 (size b) d)))))).

(** The name in the file system: the leading [_] is skipped. *)
Definition name_of (arg : list Z) : list Z := if decide (head arg = Some 95) then tail arg else arg.

(** A file: its name on the command line, and what reading it returns. *)
Definition add_file (rootino : Z) (f : list Z * list (list Z)) : M image unit :=
  if existsb (Z.eqb slash) f.1 then panic "assert"
  else
    inum <- ialloc T_FILE ;;
    iappend rootino (entry (name_of f.1) inum) ;;;
    for_all f.2 (iappend inum).

Definition start_blocks : M image unit :=
  modify (fun s => mkimage (sects s) (nsect s) (freeinode s) nmeta).

Definition main (files : list (list Z * list (list Z))) : M image unit :=
  start_blocks ;;;
  for_all (seqZ 0 FSSIZE) (fun i => wsect i zero_block) ;;;
  wsect 1 (put_sb mkfs_sb zero_block) ;;;
  rootino <- ialloc T_DIR ;;
  if negb (rootino =? ROOTINO) then panic "assert"
  else
    iappend rootino (entry [46] rootino) ;;;
    iappend rootino (entry [46; 46] rootino) ;;;
    for_all files (add_file rootino) ;;;
    din <- rinode rootino ;;
    winode (with_size ((i_size din / BSIZE + 1) * BSIZE) din) ;;;
    used <- gets freeblock ;;
    balloc used.

(** An empty file, before the first call; [nsect] guards every read. *)
Definition image0 : image := mkimage (fun _ => zero_block) 0 1 0.

(** ** The blocks of a file *)

(** The image as the disk of a booted system, inside a transaction. *)
Definition fs_of (D : Z -> block) : fs :=
  mkfs (mklogged (mkblocks FSSIZE D D [] [] []) 2 nlog 1 false []) [] mkfs_sb.
Notation mslot D := (slot (fs_of D)).

(** The slots [f] of a file with [nb] data blocks, and with an indirect block when
    [ind]: blocks between the metadata and [fb], each used once. *)
Record shape (f : Z -> Z) (fb nb : Z) (ind : bool) : Prop := {
  sh_nb : 0 <= nb <= MF;
  sh_data : forall k, 0 <= k < MF -> f k <> 0 <-> k < nb;
  sh_ind : f MF <> 0 <-> ind = true;
  sh_range : forall k, 0 <= k <= MF -> f k <> 0 -> nmeta <= f k < fb;
  sh_inj : forall k k', 0 <= k <= MF -> 0 <= k' <= MF -> f k <> 0 -> f k = f k' -> k = k' }.

Lemma shape_ext f f' fb nb ind : (forall k, 0 <= k <= MF -> f' k = f k) -> shape f fb nb ind -> shape f' fb nb ind.
Proof.
  intros E [H1 H2 H3 H4 H5]. split; unfold MF in *; [done| | | |].
  - intros k Hk. rewrite E by lia. by apply H2.
  - rewrite E by lia. done.
  - intros k Hk. rewrite E by done. by apply H4.
  - intros k k' Hk Hk'. rewrite !E by done. by apply H5.
Qed.

(** One more block: [fb] goes to slot [k0]. *)
Lemma shape_add f f' fb nb ind k0 nb' ind' : shape f fb nb ind -> nmeta <= fb -> f k0 = 0 -> 0 <= k0 <= MF ->
  (forall k, 0 <= k <= MF -> f' k = if k =? k0 then fb else f k) ->
  (k0 = MF /\ nb' = nb /\ ind' = true \/ k0 = nb /\ nb < MF /\ nb' = nb + 1 /\ ind' = ind) ->
  shape f' (fb + 1) nb' ind'.
Proof.
  intros [H1 H2 H3 H4 H5] Hfb Hz Hk0 E Hc. change nmeta with 59 in *.
  assert (Hc' : k0 = MF /\ nb' = nb \/ k0 = nb /\ nb < MF /\ nb' = nb + 1) by tauto. split; change nmeta with 59; unfold MF in *.
  - lia.
  - intros k Hk. rewrite E by lia. specialize (H2 k Hk). destruct (Z.eqb_spec k k0); [subst k; split; intros; lia|]. rewrite H2. lia.
  - rewrite E by lia. destruct (Z.eqb_spec 140 k0) as [<-|]; [|rewrite H3; intuition congruence].
    destruct Hc as [(_ & _ & ->)|?]; [split; [done|intros _; lia]|lia].
  - intros k Hk. rewrite E by done. destruct (Z.eqb_spec k k0); [lia|]. intros Hn. specialize (H4 k Hk Hn). lia.
  - intros k k' Hk Hk'. rewrite !E by done. destruct (Z.eqb_spec k k0), (Z.eqb_spec k' k0); subst; try done.
    + intros _ Ek. pose proof (H4 k' Hk'). lia.
    + intros Hn Ek. pose proof (H4 k Hk Hn). lia.
    + by apply H5.
Qed.

(** How the three kinds of update change the slots. *)
Lemma mslot_direct D ip k a j : length (i_addrs ip) = 13%nat -> 0 <= k < 12 -> 0 <= j <= MF ->
  mslot D (with_addr k a ip) j = if j =? k then a else mslot D ip j.
Proof.
  intros Hl Hk Hj. unfold slot, ind_of, MF in *. rewrite !addr_with by lia. destruct (Z.eqb_spec 12 k); [lia|].
  destruct (Z.eqb_spec j 140); [destruct (Z.eqb_spec j k); [lia|done]|]. destruct (Z.ltb_spec j 12).
  - by rewrite addr_with by lia.
  - destruct (Z.eqb_spec j k); [lia|done].
Qed.

Lemma mslot_indirect D ip a j : length (i_addrs ip) = 13%nat -> ind_of ip = 0 -> D a = zero_block -> 0 <= j <= MF ->
  mslot D (with_addr 12 a ip) j = if j =? MF then a else mslot D ip j.
Proof.
  intros Hl Hi Hz Hj. unfold slot. unfold ind_of in *. rewrite Hi. rewrite !addr_with by lia. rewrite Z.eqb_refl. unfold MF in *.
  destruct (Z.eqb_spec j 140); [done|]. destruct (Z.ltb_spec j 12).
  - rewrite addr_with by lia. by destruct (Z.eqb_spec j 12); [lia|].
  - destruct (Z.eqb_spec a 0); [done|]. change (V (fs_of D) a) with (D a). rewrite Hz.
    unfold get32. rewrite seg_zero by (unfold BSIZE; lia). done.
Qed.

Lemma mslot_entry D ip k b j : ind_of ip <> 0 -> block_ok (D (ind_of ip)) -> 12 <= k < MF -> 0 <= b < 4294967296 -> 0 <= j <= MF ->
  mslot (set_block (ind_of ip) (put32 (4 * (k - 12)) b (D (ind_of ip))) D) ip j = if j =? k then b else mslot D ip j.
Proof.
  intros Hi [Hl _] Hk Hb Hj. unfold slot, MF, BSIZE in *. destruct (Z.eqb_spec j 140); [by destruct (Z.eqb_spec j k); [lia|]|].
  destruct (Z.ltb_spec j 12); [by destruct (Z.eqb_spec j k); [lia|]|]. destruct (Z.eqb_spec (ind_of ip) 0); [done|].
  change (V (fs_of (set_block (ind_of ip) (put32 (4 * (k - 12)) b (D (ind_of ip))) D)) (ind_of ip))
    with (set_block (ind_of ip) (put32 (4 * (k - 12)) b (D (ind_of ip))) D (ind_of ip)). rewrite set_block_same.
  change (V (fs_of D) (ind_of ip)) with (D (ind_of ip)). destruct (Z.eqb_spec j k) as [->|].
  - rewrite get32_put32_same by lia. by apply u32_small.
  - apply get32_put32_diff; lia.
Qed.

(** Blocks of a file with [nb] data blocks. *)
Definition costb (nb : Z) : Z := nb + if 12 <? nb then 1 else 0.

(** What an allocation step leaves: the slots of before, new ones from [fb] on, and a
    disk that differs only in the indirect block. *)
Record allocs (D : Z -> block) (ip : inode) (fb : Z) (D' : Z -> block) (ip' : inode) (fb' : Z) : Prop := {
  al_ip : exists l, ip' = with_addrs l ip /\ length l = 13%nat;
  al_slot : forall j, 0 <= j <= MF -> mslot D' ip' j = mslot D ip j \/ mslot D ip j = 0 /\ fb <= mslot D' ip' j < fb';
  al_frame : forall b, mslot D' ip' MF = 0 \/ b <> mslot D' ip' MF -> D' b = D b;
  al_ok : forall b, block_ok (D' b) }.

Lemma with_addr_addrs k a ip : length (i_addrs ip) = 13%nat -> exists l, with_addr k a ip = with_addrs l ip /\ length l = 13%nat.
Proof. intros Hl. exists (<[Z.to_nat k := a]> (i_addrs ip)). by rewrite length_insert. Qed.

Lemma allocs_refl D ip fb : length (i_addrs ip) = 13%nat -> (forall b, block_ok (D b)) -> allocs D ip fb D ip fb.
Proof. intros Hl Hok. split; [exists (i_addrs ip); by destruct ip|by left|done|done]. Qed.

Lemma allocs_trans D ip fb D1 ip1 fb1 D2 ip2 fb2 : fb <= fb1 <= fb2 -> (forall b, D1 b = D b) ->
  allocs D ip fb D1 ip1 fb1 -> allocs D1 ip1 fb1 D2 ip2 fb2 -> allocs D ip fb D2 ip2 fb2.
Proof.
  intros Hfb HD [[l1 [-> L1]] S1 F1 O1] [[l2 [-> L2]] S2 F2 O2]. split; [by exists l2| | |done].
  - intros j Hj. destruct (S1 j Hj) as [E1|[E1 R1]], (S2 j Hj) as [E2|[E2 R2]]; rewrite ?E1, ?E2 in *; auto; right; split; lia || congruence.
  - intros b Hb. by rewrite F2.
Qed.

(** The new block [fb] in slot [k0]. *)
Lemma allocs_one D ip fb D' ip' k0 : (exists l, ip' = with_addrs l ip /\ length l = 13%nat) -> mslot D ip k0 = 0 ->
  (forall j, 0 <= j <= MF -> mslot D' ip' j = if j =? k0 then fb else mslot D ip j) ->
  (forall b, mslot D' ip' MF = 0 \/ b <> mslot D' ip' MF -> D' b = D b) -> (forall b, block_ok (D' b)) -> allocs D ip fb D' ip' (fb + 1).
Proof.
  intros Hip Hz Hs Hf Hok. split; [done| |done|done]. intros j Hj. rewrite Hs by done. destruct (Z.eqb_spec j k0); [subst; right|by left]. lia.
Qed.

Section alloc.
Context (D : Z -> block) (fi : Z) (Hok : forall b, block_ok (D b)).
Notation at_block fb := (mkimage D FSSIZE fi fb).

Lemma alloc_direct fb ip nb k : length (i_addrs ip) = 13%nat -> shape (mslot D ip) fb nb (12 <? nb) -> 59 <= fb <= FSSIZE ->
  0 <= k < 12 -> nb - 1 <= k <= nb ->
  let fb' := fb + (k + 1 - nb) in
  exists ip', iappend_block ip k (at_block fb) = Ret (ip', mslot D ip' k) (at_block fb') /\
    shape (mslot D ip') fb' (k + 1) (12 <? k + 1) /\ allocs D ip fb D ip' fb'.
Proof.
  intros Hl Hs Hfb Hk Hnb fb'. unfold iappend_block. change NDIRECT with 12. destruct (Z.ltb_spec k 12); [|lia].
  rewrite <- (slot_direct (fs_of D) ip k) by lia. pose proof (sh_data _ _ _ _ Hs k ltac:(unfold MF; lia)) as Hd.
  destruct (Z.ltb_spec 12 (k + 1)); [lia|]. destruct (Z.ltb_spec 12 nb); [lia|].
  destruct (Z.eqb_spec (mslot D ip k) 0) as [E|E].
  - assert (k = nb) by lia. subst nb. replace fb' with (fb + 1) by (unfold fb'; lia). exists (with_addr k fb ip).
    pose proof (fun j => mslot_direct D ip k fb j Hl Hk) as Hsl.
    split; [|split].
    + unfold bind, new_block, ret. cbn [freeblock sects nsect freeinode]. rewrite u32_small by (unfold FSSIZE in *; lia).
      by rewrite Hsl, Z.eqb_refl by (unfold MF; lia).
    + eapply (shape_add _ _ _ _ _ k); [exact Hs|change nmeta with 59; lia|done|unfold MF; lia|exact Hsl|right; unfold MF; lia].
    + eapply allocs_one; [by apply with_addr_addrs|exact E|exact Hsl|done|done].
  - assert (k + 1 = nb) by lia. subst nb. replace fb' with fb by (unfold fb'; lia). exists ip. split; [done|]. split; [done|].
    by apply allocs_refl.
Qed.

Lemma alloc_ind fb ip nb : length (i_addrs ip) = 13%nat -> shape (mslot D ip) fb nb (12 <? nb) -> 59 <= fb <= FSSIZE -> D fb = zero_block ->
  let fb1 := fb + if 12 <? nb then 0 else 1 in
  exists ip1, (if addr_of ip 12 =? 0 then b <- new_block ;; ret (with_addr 12 b ip) else ret ip) (at_block fb) = Ret ip1 (at_block fb1) /\
    shape (mslot D ip1) fb1 nb true /\ allocs D ip fb D ip1 fb1.
Proof.
  intros Hl Hs Hfb Hz fb1. pose proof (sh_ind _ _ _ _ Hs) as Hi. change (mslot D ip MF) with (addr_of ip 12) in Hi.
  destruct (Z.eqb_spec (addr_of ip 12) 0) as [E|E]; destruct (12 <? nb); try (exfalso; intuition congruence).
  - replace fb1 with (fb + 1) by (unfold fb1; lia). exists (with_addr 12 fb ip). pose proof (fun j => mslot_indirect D ip fb j Hl E Hz) as Hsl.
    split; [|split].
    + unfold bind, new_block, ret. cbn [freeblock sects nsect freeinode]. by rewrite u32_small by (unfold FSSIZE in *; lia).
    + eapply (shape_add _ _ _ _ _ MF); [exact Hs|change nmeta with 59; lia|done|unfold MF; lia|exact Hsl|by left].
    + eapply (allocs_one _ _ _ _ _ MF); [by apply with_addr_addrs|exact E|exact Hsl|done|done].
  - replace fb1 with fb by (unfold fb1; lia). exists ip. split; [done|]. split; [done|]. by apply allocs_refl.
Qed.

Lemma alloc_entry fb ip nb k : length (i_addrs ip) = 13%nat -> shape (mslot D ip) fb nb true -> 59 <= fb <= FSSIZE ->
  12 <= k < MF -> nb - 1 <= k <= nb ->
  let fb' := fb + (k + 1 - nb) in
  exists D', (indirect <- rsect (addr_of ip 12) ;;
    if get32 indirect (4 * (k - 12)) =? 0 then
      b <- new_block ;; wsect (addr_of ip 12) (put32 (4 * (k - 12)) b indirect) ;;; ret (ip, b)
    else ret (ip, get32 indirect (4 * (k - 12)))) (at_block fb) = Ret (ip, mslot D' ip k) (mkimage D' FSSIZE fi fb') /\
    shape (mslot D' ip) fb' (k + 1) true /\ allocs D ip fb D' ip fb'.
Proof.
  intros Hl Hs Hfb Hk Hnb fb'. assert (Hi : ind_of ip <> 0) by (by apply (sh_ind _ _ _ _ Hs)).
  pose proof (sh_range _ _ _ _ Hs MF ltac:(unfold MF; lia) Hi) as Hr. change (mslot D ip MF) with (ind_of ip) in Hr. change nmeta with 59 in Hr.
  unfold bind at 1, rsect. cbn [nsect sects]. change (addr_of ip 12) with (ind_of ip).
  destruct (Z.ltb_spec (ind_of ip) FSSIZE); [|lia]. pose proof (slot_bytes (fs_of D) ip k Hk Hi) as Eb.
  change (V (fs_of D) (ind_of ip)) with (D (ind_of ip)) in Eb. rewrite <- Eb.
  pose proof (sh_data _ _ _ _ Hs k ltac:(lia)) as Hd. destruct (Z.eqb_spec (mslot D ip k) 0) as [E|E].
  - assert (k = nb) by lia. subst nb. replace fb' with (fb + 1) by (unfold fb'; lia).
    pose proof (fun j => mslot_entry D ip k fb j Hi (Hok _) Hk ltac:(unfold FSSIZE in *; lia)) as Hsl.
    exists (set_block (ind_of ip) (put32 (4 * (k - 12)) fb (D (ind_of ip))) D). split; [|split].
    + unfold bind, new_block, wsect, modify, ret. cbn [freeblock sects nsect freeinode]. rewrite u32_small by (unfold FSSIZE in *; lia).
      rewrite Hsl, Z.eqb_refl by lia. by rewrite Z.max_l by (unfold FSSIZE in *; lia).
    + eapply (shape_add _ _ _ _ _ k); [exact Hs|change nmeta with 59; lia|done|lia|exact Hsl|right; lia].
    + eapply allocs_one; [exists (i_addrs ip); by destruct ip|exact E|exact Hsl| |].
      * intros b [Hb|Hb]; [done|]. by apply set_block_other.
      * intros b. unfold set_block. destruct (b =? ind_of ip); [apply put32_ok|]; done.
  - assert (k + 1 = nb) by lia. subst nb. replace fb' with fb by (unfold fb'; lia). exists D. split; [done|]. split; [done|].
    by apply allocs_refl.
Qed.

Lemma iappend_block_ok fb ip nb k :
  length (i_addrs ip) = 13%nat -> shape (mslot D ip) fb nb (12 <? nb) -> (forall b, fb <= b -> D b = zero_block) ->
  59 <= fb -> 0 <= k < MF -> nb - 1 <= k <= nb ->
  let fb' := fb + costb (k + 1) - costb nb in fb' <= FSSIZE ->
  exists D' ip', iappend_block ip k (at_block fb) = Ret (ip', mslot D' ip' k) (mkimage D' FSSIZE fi fb') /\
    shape (mslot D' ip') fb' (k + 1) (12 <? k + 1) /\ allocs D ip fb D' ip' fb'.
Proof.
  intros Hl Hs Hz Hfb Hk Hnb fb' Hfit. unfold costb in fb'.
  assert (Hle : 59 <= fb <= FSSIZE) by (unfold fb', FSSIZE in *; destruct (Z.ltb_spec 12 (k + 1)), (Z.ltb_spec 12 nb); lia).
  destruct (Z.ltb_spec k 12) as [Hd|Hd].
  - assert (Efb : fb' = fb + (k + 1 - nb)) by (unfold fb'; destruct (Z.ltb_spec 12 (k + 1)), (Z.ltb_spec 12 nb); lia).
    destruct (alloc_direct fb ip nb k Hl Hs) as (ip' & E & Hs' & Ha); [lia|lia|lia|]. exists D, ip'. by rewrite Efb.
  - destruct (alloc_ind fb ip nb Hl Hs Hle (Hz fb ltac:(lia))) as (ip1 & E1 & Hs1 & Ha1).
    destruct (al_ip _ _ _ _ _ _ Ha1) as (l1 & -> & Hl1). set (fb1 := fb + if 12 <? nb then 0 else 1) in *.
    destruct (alloc_entry fb1 (with_addrs l1 ip) nb k Hl1 Hs1) as (D' & E2 & Hs2 & Ha2);
      [unfold fb1, FSSIZE in *; destruct (Z.ltb_spec 12 (k + 1)), (Z.ltb_spec 12 nb); lia|lia|lia|].
    assert (Efb : fb' = fb1 + (k + 1 - nb)) by (unfold fb', fb1; destruct (Z.ltb_spec 12 (k + 1)), (Z.ltb_spec 12 nb); lia).
    rewrite Efb. exists D', (with_addrs l1 ip). split; [|split].
    + unfold iappend_block. change NDIRECT with 12. destruct (Z.ltb_spec k 12); [lia|]. unfold bind at 1. rewrite E1. exact E2.
    + destruct (Z.ltb_spec 12 (k + 1)); [done|lia].
    + eapply (allocs_trans _ _ _ D); [|done|exact Ha1|exact Ha2]. unfold fb1. destruct (12 <? nb); lia.
Qed.
End alloc.

(** ** Contents *)

(** Block [k] of a file with the bytes [C], zero after its end. *)
Definition fblock (C : list Z) (k : Z) : block := (fun o => default 0 (C !! Z.to_nat o)) <$> seqZ (512 * k) 512.
Definition nblk (C : list Z) : Z := (Z.of_nat (length C) + 511) / 512.

Record mfile (D : Z -> block) (ip : inode) (fb : Z) (C : list Z) : Prop := {
  mf_len : length (i_addrs ip) = 13%nat;
  mf_shape : shape (mslot D ip) fb (nblk C) (12 <? nblk C);
  mf_data : forall k, 0 <= k < nblk C -> D (mslot D ip k) = fblock C k;
  mf_bytes : Forall is_byte C;
  mf_max : Z.of_nat (length C) <= MF * 512 }.

Lemma fblock_lookup C k j : 0 <= k -> (j < 512)%nat -> fblock C k !! j = Some (default 0 (C !! (Z.to_nat (512 * k) + j)%nat)).
Proof.
  intros Hk Hj. unfold fblock. rewrite list_lookup_fmap, lookup_seqZ_lt by lia. cbn [fmap option_fmap option_map]. do 4 f_equal. lia.
Qed.

Lemma fblock_eq l C k : 0 <= k -> length l = 512%nat ->
  (forall j, (j < 512)%nat -> l !! j = Some (default 0 (C !! (Z.to_nat (512 * k) + j)%nat))) -> l = fblock C k.
Proof.
  intros Hk Hl H. apply list_eq. intros j. destruct (decide (j < 512)%nat) as [Hj|Hj].
  - by rewrite H, fblock_lookup by done.
  - rewrite !lookup_ge_None_2; [done| |lia]. unfold fblock. rewrite length_fmap, length_seqZ. lia.
Qed.

Lemma fblock_ok C k : Forall is_byte C -> block_ok (fblock C k).
Proof.
  intros HC. split; [unfold fblock; by rewrite length_fmap, length_seqZ|]. apply Forall_fmap, Forall_forall. intros o _. cbn.
  destruct (C !! Z.to_nat o) as [b|] eqn:E; cbn; [by eapply Forall_lookup_1|unfold is_byte; lia].
Qed.

(** Bytes added inside one block, and the blocks that do not change. *)
Lemma fblock_splice C d k : let n := Z.of_nat (length C) in 0 <= k -> 512 * k <= n -> n + Z.of_nat (length d) <= 512 * (k + 1) ->
  splice (n - 512 * k) d (fblock C k) = fblock (C ++ d) k.
Proof.
  intros n Hk Hn Hd. apply fblock_eq; [done|rewrite length_splice; unfold fblock; by rewrite length_fmap, length_seqZ|].
  intros j Hj. unfold splice. assert (Hlen : length (fblock C k) = 512%nat) by (unfold fblock; by rewrite length_fmap, length_seqZ).
  destruct (decide (j < Z.to_nat (n - 512 * k))%nat) as [H1|H1].
  { rewrite list_lookup_inserts_lt, fblock_lookup, lookup_app_l by lia. done. }
  rewrite lookup_app_r by lia. destruct (decide (j < Z.to_nat (n - 512 * k) + length d)%nat) as [H2|H2].
  - rewrite list_lookup_inserts by lia. replace (Z.to_nat (512 * k) + j - length C)%nat with (j - Z.to_nat (n - 512 * k))%nat by lia.
    destruct (lookup_lt_is_Some_2 d (j - Z.to_nat (n - 512 * k))%nat ltac:(lia)) as [x ->]. done.
  - rewrite list_lookup_inserts_ge by lia. rewrite fblock_lookup by lia. by rewrite !lookup_ge_None_2 by lia.
Qed.

Lemma fblock_app C d k : 0 <= k -> 512 * (k + 1) <= Z.of_nat (length C) -> fblock (C ++ d) k = fblock C k.
Proof.
  intros Hk Hl. symmetry. apply fblock_eq; [done|unfold fblock; by rewrite length_fmap, length_seqZ|].
  intros j Hj. by rewrite fblock_lookup, lookup_app_l by lia.
Qed.

Lemma fblock_end C k : 0 <= k -> Z.of_nat (length C) <= 512 * k -> fblock C k = zero_block.
Proof.
  intros Hk Hl. symmetry. apply fblock_eq; [done|done|]. intros j Hj. unfold zero_block. rewrite lookup_replicate_2 by done.
  by rewrite lookup_ge_None_2 by lia.
Qed.

(** A file that has grown: old slots stay, new ones come from [fb] on, and
    nothing outside the file's blocks changes. *)
Record grown (D : Z -> block) (ip : inode) (fb : Z) (C : list Z) (D' : Z -> block) (ip' : inode) (fb' : Z) (C' : list Z) : Prop := {
  gr_file : mfile D' ip' fb' C';
  gr_ip : exists l, ip' = with_addrs l ip;
  gr_fb : fb' = fb + costb (nblk C') - costb (nblk C);
  gr_slot : forall j, 0 <= j <= MF -> mslot D' ip' j = mslot D ip j \/ mslot D ip j = 0 /\ fb <= mslot D' ip' j < fb';
  gr_frame : forall b, (forall j, 0 <= j <= MF -> mslot D' ip' j <> 0 -> mslot D' ip' j <> b) -> D' b = D b;
  gr_ok : forall b, block_ok (D' b) }.

Lemma mslot_data D ip x v j : x <> ind_of ip -> mslot (set_block x v D) ip j = mslot D ip j.
Proof.
  intros Hx. assert (E : V (fs_of (set_block x v D)) (ind_of ip) = V (fs_of D) (ind_of ip)) by (by apply set_block_other).
  unfold slot. by rewrite E.
Qed.

Lemma append_block D ip fb C fi p : mfile D ip fb C -> (forall b, block_ok (D b)) -> (forall b, fb <= b -> D b = zero_block) -> 59 <= fb ->
  p <> [] -> Forall is_byte p -> Z.of_nat (length C + length p) <= MF * 512 ->
  let n := Z.of_nat (length C) in
  let n1 := Z.min (Z.of_nat (length p)) ((n / BSIZE + 1) * BSIZE - n) in
  let C' := C ++ take (Z.to_nat n1) p in
  let fb' := fb + costb (nblk C') - costb (nblk C) in fb' <= FSSIZE ->
  exists D' ip', iappend_iter (ip, n, p) (mkimage D FSSIZE fi fb) =
    Ret (inl (ip', Z.of_nat (length C'), drop (Z.to_nat n1) p)) (mkimage D' FSSIZE fi fb') /\
    1 <= n1 /\ grown D ip fb C D' ip' fb' C'.
Proof.
  intros [Hl Hs Hd Hb Hm] Hok Hz Hfb Hp Hpb Hmax n n1 C' fb' Hfit. unfold BSIZE in *. set (k := n / 512) in *.
  assert (Hlp : (0 < length p)%nat) by (destruct p; [done|cbn; lia]).
  assert (Hn1 : 1 <= n1 <= Z.of_nat (length p) /\ n1 <= (k + 1) * 512 - n) by (unfold n1, k, n; dlia).
  assert (HlC : Z.of_nat (length C') = n + n1) by (unfold C'; rewrite length_app, length_take; lia).
  assert (Hk : 0 <= k < MF) by (unfold k, n, MF in *; dlia).
  assert (HnC : nblk C - 1 <= k <= nblk C) by (unfold nblk, k, n; dlia).
  assert (HnC' : nblk C' = k + 1) by (unfold nblk; rewrite HlC; unfold k in *; dlia).
  assert (Hfb' : fb' = fb + costb (k + 1) - costb (nblk C)) by (unfold fb'; by rewrite HnC').
  destruct (iappend_block_ok D fi Hok fb ip (nblk C) k Hl Hs Hz Hfb Hk HnC ltac:(cbv zeta; lia)) as (D1 & ip' & E & Hs1 & [Hip Hsl Hfr Hok1]).
  rewrite <- Hfb' in *. set (x := mslot D1 ip' k) in *.
  assert (Hx0 : x <> 0) by (apply (sh_data _ _ _ _ Hs1 k Hk); lia).
  assert (Hxr : 59 <= x < fb') by (apply (sh_range _ _ _ _ Hs1 k); [lia|done]).
  assert (Hxi : x <> mslot D1 ip' MF) by (intros Ex; apply (sh_inj _ _ _ _ Hs1 k MF) in Ex; [lia|lia|unfold MF; lia|done]).
  assert (Hold : forall j, 0 <= j < nblk C -> mslot D1 ip' j = mslot D ip j /\ D1 (mslot D1 ip' j) = fblock C j).
  { intros j Hj. assert (Hj0 : mslot D ip j <> 0) by (apply (sh_data _ _ _ _ Hs j); lia).
    destruct (Hsl j ltac:(lia)) as [Ej|[Ej _]]; [|done]. split; [done|]. rewrite Hfr, Ej; [by apply Hd|].
    right. rewrite Ej. intros Ei. rewrite <- Ej in Ei, Hj0. apply (sh_inj _ _ _ _ Hs1 j MF) in Ei; [lia|lia|unfold MF; lia|done]. }
  assert (Hbuf : D1 x = fblock C k).
  { destruct (decide (k < nblk C)); [apply (Hold k); lia|]. rewrite Hfr by (by right). rewrite fblock_end by (unfold k, nblk, n in *; dlia).
    apply Hz. destruct (Hsl k ltac:(lia)) as [Ek|[_ Ek]]; [|fold x in Ek; lia]. exfalso. apply Hx0. unfold x. rewrite Ek.
    destruct (decide (mslot D ip k = 0)) as [|Hne]; [done|]. apply (sh_data _ _ _ _ Hs k Hk) in Hne. lia. }
  assert (Esp : splice (n - 512 * k) (take (Z.to_nat n1) p) (fblock C k) = fblock C' k).
  { apply fblock_splice; [lia|unfold k, n; dlia|]. rewrite length_take. fold n. lia. }
  set (D2 := set_block x (fblock C' k) D1). assert (Hs2 : forall j, mslot D2 ip' j = mslot D1 ip' j) by (intros j; by apply mslot_data).
  exists D2, ip'. split; [|split; [lia|split]].
  - unfold iappend_iter. rewrite bool_decide_false by done. change BSIZE with 512. change MAXFILE with MF. fold k n1.
    destruct (Z.leb_spec MF k); [lia|]. unfold bind at 1. rewrite E. unfold bind, rsect, wsect, modify, ret. cbn [nsect sects freeinode freeblock].
    destruct (Z.ltb_spec x FSSIZE); [|lia]. rewrite Hbuf, (Z.mul_comm k 512), Esp. fold D2. rewrite <- HlC, u32_small by (unfold C', MF in *; rewrite length_app, length_take; lia).
    cbn [nsect sects freeinode freeblock]. fold D2. by rewrite Z.max_l by lia.
  - split.
    + destruct Hip as (l & -> & Hl'). done.
    + rewrite HnC'. by apply (shape_ext (mslot D1 ip')).
    + rewrite HnC'. intros j Hj. rewrite Hs2. unfold D2. destruct (decide (j = k)) as [->|Hjk]; [by rewrite set_block_same|].
      destruct (Hold j ltac:(lia)) as [Ej Hj']. rewrite set_block_other.
      * rewrite Hj'. symmetry. apply fblock_app; [lia|]. unfold k, n in *. dlia.
      * intros Ex. apply (sh_inj _ _ _ _ Hs1 j k) in Ex; [lia|lia|lia|]. apply (sh_data _ _ _ _ Hs1 j); lia.
    + unfold C'. apply Forall_app. split; [done|by apply Forall_take].
    + rewrite HlC. lia.
  - destruct Hip as (l & -> & _). by exists l.
  - by rewrite HnC'.
  - intros j Hj. rewrite Hs2. by apply Hsl.
  - intros b Hbs. unfold D2. rewrite set_block_other.
    + apply Hfr. destruct (decide (mslot D1 ip' MF = 0)) as [|Hne]; [by left|right]. intros ->. by apply (Hbs MF); [unfold MF; lia|..].
    + intros ->. apply (Hbs k); [lia| |]; rewrite Hs2; done.
  - intros b. unfold D2, set_block. destruct (b =? x); [|done]. apply fblock_ok. unfold C'. apply Forall_app. split; [done|by apply Forall_take].
Qed.

Lemma costb_mono nb nb' : nb <= nb' -> costb nb <= costb nb'.
Proof. intros. unfold costb. destruct (Z.ltb_spec 12 nb), (Z.ltb_spec 12 nb'); lia. Qed.
Lemma nblk_app C d : nblk C <= nblk (C ++ d).
Proof. unfold nblk. rewrite length_app. dlia. Qed.

Lemma mgrown_refl D ip fb C : mfile D ip fb C -> (forall b, block_ok (D b)) -> grown D ip fb C D ip fb C.
Proof. intros Hf Hok. split; [done|exists (i_addrs ip); by destruct ip|lia|by left|done|done]. Qed.

Lemma grown_trans D ip fb C D1 ip1 fb1 C1 D2 ip2 fb2 C2 : fb <= fb1 <= fb2 ->
  grown D ip fb C D1 ip1 fb1 C1 -> grown D1 ip1 fb1 C1 D2 ip2 fb2 C2 -> grown D ip fb C D2 ip2 fb2 C2.
Proof.
  intros Hfb [A1 [l1 ->] A3 A4 A5 A6] [B1 [l2 ->] B3 B4 B5 B6]. split; [done|by exists l2|lia| | |done].
  - intros j Hj. destruct (A4 j Hj) as [E1|[E1 R1]], (B4 j Hj) as [E2|[E2 R2]]; rewrite ?E1, ?E2 in *; auto; right; split; lia || congruence.
  - intros b Hb. rewrite B5 by done. apply A5. intros j Hj Hne. destruct (B4 j Hj) as [E|[E _]]; [|done]. rewrite <- E in *. by apply Hb.
Qed.

Lemma grown_zero D ip fb C D' ip' fb' C' : fb <= fb' -> (forall b, fb <= b -> D b = zero_block) -> grown D ip fb C D' ip' fb' C' ->
  forall b, fb' <= b -> D' b = zero_block.
Proof.
  intros Hfb Hz G b Hb. rewrite (gr_frame _ _ _ _ _ _ _ _ G); [apply Hz; lia|]. intros j Hj Hne.
  pose proof (sh_range _ _ _ _ (mf_shape _ _ _ _ (gr_file _ _ _ _ _ _ _ _ G)) j Hj Hne). lia.
Qed.

Lemma append_loop fi p : forall n D ip fb C, mfile D ip fb C -> (forall b, block_ok (D b)) -> (forall b, fb <= b -> D b = zero_block) -> 59 <= fb ->
  Forall is_byte p -> Z.of_nat (length C + length p) <= MF * 512 -> fb + costb (nblk (C ++ p)) - costb (nblk C) <= FSSIZE -> (length p < n)%nat ->
  exists D' ip' fb', loop n iappend_iter (ip, Z.of_nat (length C), p) (mkimage D FSSIZE fi fb) =
    Ret (ip', Z.of_nat (length (C ++ p))) (mkimage D' FSSIZE fi fb') /\ grown D ip fb C D' ip' fb' (C ++ p).
Proof.
  induction p as [p IH] using (induction_ltof1 _ (@length Z)). unfold ltof in IH. intros n D ip fb C Hf Hok Hz Hfb Hb Hm Hfit Hn.
  destruct n as [|n]; [lia|]. cbn [loop]. unfold bind at 1. destruct (decide (p = [])) as [->|Hp].
  { exists D, ip, fb. rewrite app_nil_r. split; [done|by apply mgrown_refl]. }
  set (m := Z.min (Z.of_nat (length p)) ((Z.of_nat (length C) / BSIZE + 1) * BSIZE - Z.of_nat (length C))).
  set (d := take (Z.to_nat m) p). assert (Ep : p = d ++ drop (Z.to_nat m) p) by (unfold d; by rewrite take_drop).
  assert (Hc1 : costb (nblk C) <= costb (nblk (C ++ d))) by apply costb_mono, nblk_app.
  assert (Hc2 : costb (nblk (C ++ d)) <= costb (nblk (C ++ p))) by (rewrite Ep, app_assoc; apply costb_mono, nblk_app).
  destruct (append_block D ip fb C fi p Hf Hok Hz Hfb Hp Hb Hm) as (D1 & ip1 & E & Hm1 & G); [cbv zeta; fold m d; lia|].
  cbv zeta in E, Hm1, G. fold m d in E, Hm1, G. rewrite E. set (fb1 := fb + costb (nblk (C ++ d)) - costb (nblk C)) in *.
  assert (Hld : length d = Z.to_nat m) by (unfold d; rewrite length_take; lia).
  assert (Hlp : length p = (length d + length (drop (Z.to_nat m) p))%nat) by (rewrite Ep at 1; by rewrite length_app).
  destruct (IH (drop (Z.to_nat m) p) ltac:(rewrite length_drop; destruct p; [done|cbn [length]; lia]) n D1 ip1 fb1 (C ++ d)) as (D2 & ip2 & fb2 & E2 & G2).
  - apply G.
  - apply G.
  - eapply grown_zero; [|exact Hz|exact G]. unfold fb1. lia.
  - unfold fb1. lia.
  - by apply Forall_drop.
  - rewrite length_app. lia.
  - rewrite <- app_assoc, <- Ep. unfold fb1. lia.
  - lia.
  - rewrite <- app_assoc, <- Ep in E2, G2. exists D2, ip2, fb2. split; [exact E2|]. eapply grown_trans; [|exact G|exact G2].
    pose proof (gr_fb _ _ _ _ _ _ _ _ G2). unfold fb1 in *. lia.
Qed.

(** ** The image as a whole *)
Definition disk_inode (D : Z -> block) (inum : Z) : inode := get_dinode (D (IBLOCK inum mkfs_sb)) (blank_inode inum).

(** Inode [i] of [cs] has type and contents [cs !! i] (counting from inode 1). *)
Definition file_at (D : Z -> block) (fb inum t : Z) (C : list Z) : Prop :=
  let ip := disk_inode D inum in
  mfile D ip fb C /\ i_type ip = t /\ i_major ip = 0 /\ i_minor ip = 0 /\ i_nlink ip = 1 /\ i_size ip = Z.of_nat (length C).

Definition total_cost (cs : list (Z * list Z)) : Z := foldr (fun f n => costb (nblk f.2) + n) 0 cs.

Record minv (s : image) (cs : list (Z * list Z)) : Prop := {
  mi_nsect : nsect s = FSSIZE;
  mi_inode : freeinode s = Z.of_nat (length cs) + 1 /\ freeinode s <= NINODES;
  mi_ok : forall b, block_ok (sects s b);
  mi_zero : forall b, freeblock s <= b -> sects s b = zero_block;
  mi_fb : freeblock s = nmeta + total_cost cs /\ freeblock s <= FSSIZE;
  mi_type : Forall (fun f => short f.1) cs;
  mi_file : forall i t C, cs !! i = Some (t, C) -> file_at (sects s) (freeblock s) (Z.of_nat i + 1) t C;
  mi_disj : forall i j k l, i <> j -> (i < length cs)%nat -> (j < length cs)%nat -> 0 <= k <= MF -> 0 <= l <= MF ->
    mslot (sects s) (disk_inode (sects s) (Z.of_nat i + 1)) k <> 0 ->
    mslot (sects s) (disk_inode (sects s) (Z.of_nat i + 1)) k <> mslot (sects s) (disk_inode (sects s) (Z.of_nat j + 1)) l;
  mi_meta : sects s 1 = put_sb mkfs_sb zero_block /\ forall b, 2 <= b < 32 \/ b = 58 -> sects s b = zero_block }.

Lemma miblock_low inum : 0 <= inum < NINODES -> 32 <= IBLOCK inum mkfs_sb < 58.
Proof. intros H. unfold NINODES in H. unfold IBLOCK. change IPB with 8. change (inodestart mkfs_sb) with 32. dlia. Qed.

Lemma disk_inode_other D ip inum : length (i_addrs ip) = 13%nat -> 0 <= inum -> 0 <= i_inum ip -> inum <> i_inum ip ->
  disk_inode (set_block (IBLOCK (i_inum ip) mkfs_sb) (put_dinode ip (D (IBLOCK (i_inum ip) mkfs_sb))) D) inum = disk_inode D inum.
Proof.
  intros Hl H1 H2 Hne. unfold disk_inode. destruct (decide (IBLOCK inum mkfs_sb = IBLOCK (i_inum ip) mkfs_sb)) as [E|E].
  - rewrite E, set_block_same. apply get_put_dinode_other; [done|]. cbn. unfold IBLOCK in E. change IPB with 8 in *. dlia.
  - by rewrite set_block_other.
Qed.

Lemma disk_inode_same D ip : block_ok (D (IBLOCK (i_inum ip) mkfs_sb)) -> fields_ok ip -> with_disk ip (blank_inode (i_inum ip)) = ip ->
  disk_inode (set_block (IBLOCK (i_inum ip) mkfs_sb) (put_dinode ip (D (IBLOCK (i_inum ip) mkfs_sb))) D) (i_inum ip) = ip.
Proof. intros Hok Hf E. unfold disk_inode. rewrite set_block_same, get_put_dinode by done. done. Qed.

(** A file depends only on its own blocks. *)
Lemma mfile_frame D D' ip fb fb' C : mfile D ip fb C -> fb <= fb' ->
  (forall k, 0 <= k <= MF -> mslot D ip k <> 0 -> D' (mslot D ip k) = D (mslot D ip k)) ->
  mfile D' ip fb' C /\ (forall k, 0 <= k <= MF -> mslot D' ip k = mslot D ip k).
Proof.
  intros [Hl Hs Hd Hb Hm] Hfb HD.
  assert (E : forall k, mslot D' ip k = mslot D ip k).
  { assert (Ei : ind_of ip = 0 \/ V (fs_of D') (ind_of ip) = V (fs_of D) (ind_of ip)).
    { destruct (decide (ind_of ip = 0)); [by left|right]. by apply (HD MF); [unfold MF; lia|]. }
    intros k. unfold slot. destruct Ei as [-> | ->]; done. }
  split; [|by auto]. split; try done.
  - destruct Hs as [S1 S2 S3 S4 S5]. split; [done| | | |].
    + intros k. rewrite E. apply S2.
    + rewrite E. done.
    + intros k Hk. rewrite E. intros Hn. specialize (S4 k Hk Hn). lia.
    + intros k k'. rewrite !E. apply S5.
  - intros k Hk. rewrite E, HD; [by apply Hd| |]; [pose proof (sh_nb _ _ _ _ Hs); lia|].
    apply (sh_data _ _ _ _ Hs); [pose proof (sh_nb _ _ _ _ Hs)|]; lia.
Qed.

Lemma mfile_addrs D ip fb C : mfile D ip fb C -> fb <= FSSIZE -> Forall (fun a => 0 <= a < 4294967296) (i_addrs ip).
Proof.
  intros [Hl Hs _ _ _] Hfb. apply Forall_lookup. intros k a Hk. pose proof (lookup_lt_Some _ _ _ Hk) as Hlt.
  set (j := if decide (k = 12%nat) then MF else Z.of_nat k).
  assert (Ej : mslot D ip j = a).
  { assert (Ea : addr_of ip (Z.of_nat k) = a) by (unfold addr_of; rewrite Nat2Z.id; by apply list_lookup_total_correct).
    unfold j. destruct (decide (k = 12%nat)) as [->|]; [done|]. rewrite slot_direct by lia. done. }
  destruct (decide (a = 0)) as [->|Hne]; [lia|]. rewrite <- Ej in Hne |- *.
  pose proof (sh_range _ _ _ _ Hs j ltac:(unfold j, MF; destruct (decide (k = 12%nat)); lia) Hne) as Hr. change nmeta with 59 in Hr. unfold FSSIZE in *. lia.
Qed.

Lemma winode_eq D fi fb ip : 0 <= i_inum ip < NINODES ->
  winode ip (mkimage D FSSIZE fi fb) =
    Ret tt (mkimage (set_block (IBLOCK (i_inum ip) mkfs_sb) (put_dinode ip (D (IBLOCK (i_inum ip) mkfs_sb))) D) FSSIZE fi fb).
Proof.
  intros Hi. pose proof (miblock_low _ Hi). unfold winode, bind, rsect, wsect, modify. cbn [nsect sects freeinode freeblock].
  destruct (Z.ltb_spec (IBLOCK (i_inum ip) mkfs_sb) FSSIZE); [|unfold FSSIZE in *; lia].
  cbn [nsect sects freeinode freeblock]. by rewrite Z.max_l by (unfold FSSIZE; lia).
Qed.

Lemma rinode_eq D fi fb inum : 0 <= inum < NINODES -> rinode inum (mkimage D FSSIZE fi fb) = Ret (disk_inode D inum) (mkimage D FSSIZE fi fb).
Proof.
  intros Hi. pose proof (miblock_low _ Hi). unfold rinode, bind, rsect. cbn [nsect sects].
  destruct (Z.ltb_spec (IBLOCK inum mkfs_sb) FSSIZE); [done|unfold FSSIZE in *; lia].
Qed.

Lemma total_cost_cons f cs : total_cost (f :: cs) = costb (nblk f.2) + total_cost cs.
Proof. reflexivity. Qed.

Lemma total_cost_insert cs i t C C' : cs !! i = Some (t, C) ->
  total_cost (<[i := (t, C')]> cs) = total_cost cs - costb (nblk C) + costb (nblk C').
Proof.
  revert i. induction cs as [|f cs IH]; intros [|i] E; cbn in E; [done|done| |].
  - injection E as ->. change (<[0%nat := (t, C')]> ((t, C) :: cs)) with ((t, C') :: cs). rewrite !total_cost_cons. cbn [snd]. lia.
  - change (<[S i := (t, C')]> (f :: cs)) with (f :: <[i := (t, C')]> cs). rewrite !total_cost_cons, (IH i E). lia.
Qed.

Lemma costb_pos C : 0 <= costb (nblk C).
Proof. pose proof (costb_mono 0 (nblk C) ltac:(unfold nblk; dlia)) as H. change (costb 0) with 0 in H. done. Qed.
Lemma total_cost_pos cs : 0 <= total_cost cs.
Proof. induction cs as [|f cs IH]; [done|]. rewrite total_cost_cons. pose proof (costb_pos f.2). lia. Qed.

(** One file grows and its inode is rewritten. *)
Section regrow.
Context (D : Z -> block) (fb : Z) (cs : list (Z * list Z)) (i : nat) (t : Z) (C : list Z).
Context (D1 : Z -> block) (ip1 : inode) (fb1 : Z) (C1 : list Z).
Let inum := Z.of_nat i + 1.
Let ip := disk_inode D inum.
Context (Hinv : minv (mkimage D FSSIZE (Z.of_nat (length cs) + 1) fb) cs).
Context (Hi : cs !! i = Some (t, C)) (G : grown D ip fb C D1 ip1 fb1 C1) (Hfb : fb <= fb1 <= FSSIZE).
Let ip2 := with_size (Z.of_nat (length C1)) ip1.
Definition regrown : Z -> block := set_block (IBLOCK inum mkfs_sb) (put_dinode ip2 (D1 (IBLOCK inum mkfs_sb))) D1.

Lemma rg_range : 0 <= inum < NINODES.
Proof. pose proof (lookup_lt_Some _ _ _ Hi). pose proof (mi_inode _ _ Hinv) as [_ Hn]. cbn in Hn. unfold inum. lia. Qed.

Lemma rg_low b : b < nmeta -> D1 b = D b.
Proof.
  intros Hb. apply (gr_frame _ _ _ _ _ _ _ _ G). intros k Hk Hne.
  pose proof (sh_range _ _ _ _ (mf_shape _ _ _ _ (gr_file _ _ _ _ _ _ _ _ G)) k Hk Hne). lia.
Qed.

Lemma rg_high b : nmeta <= b -> regrown b = D1 b.
Proof. intros Hb. apply set_block_other. pose proof (miblock_low _ rg_range). change nmeta with 59 in Hb. lia. Qed.

Lemma rg_inum : i_inum ip2 = inum.
Proof. destruct (gr_ip _ _ _ _ _ _ _ _ G) as [l E]. unfold ip2. rewrite E. done. Qed.

Lemma rg_other j : j <> i -> (j < length cs)%nat -> disk_inode regrown (Z.of_nat j + 1) = disk_inode D (Z.of_nat j + 1).
Proof.
  intros Hne Hj. pose proof (mi_inode _ _ Hinv) as [_ Hn]. cbn in Hn.
  pose proof (disk_inode_other D1 ip2 (Z.of_nat j + 1)) as H. rewrite rg_inum in H. unfold regrown. rewrite H.
  - unfold disk_inode. rewrite rg_low; [done|]. pose proof (miblock_low (Z.of_nat j + 1) ltac:(lia)). change nmeta with 59. lia.
  - apply (mf_len _ _ _ _ (gr_file _ _ _ _ _ _ _ _ G)).
  - lia.
  - unfold inum. lia.
  - unfold inum. lia.
Qed.

Lemma rg_same : disk_inode regrown inum = ip2.
Proof.
  destruct (mi_file _ _ Hinv i t C Hi) as (Hf & Ht & Hma & Hmi & Hnl & Hsz). cbn [sects freeblock] in Hf, Ht, Hma, Hmi, Hnl, Hsz.
  fold inum in Hf, Ht, Hma, Hmi, Hnl, Hsz. fold ip in Hf, Ht, Hma, Hmi, Hnl, Hsz.
  destruct (gr_ip _ _ _ _ _ _ _ _ G) as [l El]. pose proof (gr_file _ _ _ _ _ _ _ _ G) as Hf1.
  pose proof (disk_inode_same D1 ip2) as H. rewrite rg_inum in H. apply H.
  - apply (gr_ok _ _ _ _ _ _ _ _ G).
  - pose proof (proj1 (Forall_lookup _ _) (mi_type _ _ Hinv) i _ Hi) as Hs. cbn in Hs. pose proof (mf_max _ _ _ _ Hf1). unfold ip2. split; cbn [with_size i_type i_major i_minor i_nlink i_size i_addrs].
    + rewrite El. change (short (i_type ip)). by rewrite Ht.
    + rewrite El. change (short (i_major ip)). rewrite Hma. unfold short. lia.
    + rewrite El. change (short (i_minor ip)). rewrite Hmi. unfold short. lia.
    + rewrite El. change (short (i_nlink ip)). rewrite Hnl. unfold short. lia.
    + unfold MF in *. lia.
    + split; [apply Hf1|]. eapply mfile_addrs; [exact Hf1|lia].
  - unfold ip2. rewrite El. done.
Qed.

Lemma rg_file_other j u E : j <> i -> cs !! j = Some (u, E) -> file_at regrown fb1 (Z.of_nat j + 1) u E /\
  (forall k, 0 <= k <= MF -> mslot regrown (disk_inode regrown (Z.of_nat j + 1)) k = mslot D (disk_inode D (Z.of_nat j + 1)) k).
Proof.
  intros Hne Hj. pose proof (lookup_lt_Some _ _ _ Hj) as Hlt. destruct (mi_file _ _ Hinv j u E Hj) as (Hf & Hrest).
  unfold file_at. rewrite rg_other by done. cbn [sects freeblock] in *. set (jp := disk_inode D (Z.of_nat j + 1)) in *.
  assert (Hpre : forall k, 0 <= k <= MF -> mslot D jp k <> 0 -> regrown (mslot D jp k) = D (mslot D jp k)); cycle 1.
  { destruct (mfile_frame D regrown jp fb fb1 E Hf ltac:(lia) Hpre) as [Hf' Hs']. done. }
  intros k Hk Hk0. pose proof (sh_range _ _ _ _ (mf_shape _ _ _ _ Hf) k Hk Hk0) as Hr. rewrite rg_high by lia.
  apply (gr_frame _ _ _ _ _ _ _ _ G). intros l Hl Hl0 El. destruct (gr_slot _ _ _ _ _ _ _ _ G l Hl) as [Eo|[_ Eo]]; [|lia].
  rewrite Eo in *. apply (mi_disj _ _ Hinv i j l k); cbn [sects]; try done. by eapply lookup_lt_Some.
Qed.

Lemma rg_file_same : file_at regrown fb1 inum t C1 /\
  (forall k, 0 <= k <= MF -> mslot regrown (disk_inode regrown inum) k = mslot D1 ip1 k).
Proof.
  destruct (mi_file _ _ Hinv i t C Hi) as (_ & Ht & Hma & Hmi & Hnl & _). cbn [sects freeblock] in Ht, Hma, Hmi, Hnl.
  fold inum in Ht, Hma, Hmi, Hnl. fold ip in Ht, Hma, Hmi, Hnl.
  unfold file_at. rewrite rg_same. pose proof (gr_file _ _ _ _ _ _ _ _ G) as Hf. destruct (gr_ip _ _ _ _ _ _ _ _ G) as [l El].
  assert (Hf2 : mfile D1 ip2 fb1 C1) by (destruct Hf; by split).
  assert (Hpre : forall k, 0 <= k <= MF -> mslot D1 ip2 k <> 0 -> regrown (mslot D1 ip2 k) = D1 (mslot D1 ip2 k)).
  { intros k Hk Hk0. apply rg_high. apply (sh_range _ _ _ _ (mf_shape _ _ _ _ Hf2) k Hk Hk0). }
  destruct (mfile_frame D1 regrown ip2 fb1 fb1 C1 Hf2 ltac:(lia) Hpre) as [Hf' Hs'].
  split; [|exact Hs']. split; [done|]. unfold ip2. rewrite El. done.
Qed.

(** A slot of the file and a slot of another are different. *)
Lemma rg_apart j k l : j <> i -> (j < length cs)%nat -> 0 <= k <= MF -> 0 <= l <= MF -> mslot D1 ip1 k <> 0 ->
  mslot D1 ip1 k <> mslot D (disk_inode D (Z.of_nat j + 1)) l.
Proof.
  intros Hne Hj Hk Hl Hk0. destruct (lookup_lt_is_Some_2 cs j Hj) as [[u E] Hj'].
  destruct (gr_slot _ _ _ _ _ _ _ _ G k Hk) as [Eo|[_ Eo]].
  - rewrite Eo in *. apply (mi_disj _ _ Hinv i j k l); cbn [sects]; try done. by eapply lookup_lt_Some.
  - destruct (mi_file _ _ Hinv j u E Hj') as [Hf _]. cbn [sects freeblock] in Hf.
    destruct (decide (mslot D (disk_inode D (Z.of_nat j + 1)) l = 0)) as [->|Hl0]; [done|].
    pose proof (sh_range _ _ _ _ (mf_shape _ _ _ _ Hf) l Hl Hl0). lia.
Qed.

Lemma rg_disj j j' k l : j <> j' -> (j < length cs)%nat -> (j' < length cs)%nat -> 0 <= k <= MF -> 0 <= l <= MF ->
  mslot regrown (disk_inode regrown (Z.of_nat j + 1)) k <> 0 ->
  mslot regrown (disk_inode regrown (Z.of_nat j + 1)) k <> mslot regrown (disk_inode regrown (Z.of_nat j' + 1)) l.
Proof.
  intros Hne Hj Hj' Hk Hl.
  assert (So : forall n m, n <> i -> (n < length cs)%nat -> 0 <= m <= MF ->
    mslot regrown (disk_inode regrown (Z.of_nat n + 1)) m = mslot D (disk_inode D (Z.of_nat n + 1)) m).
  { intros n m Hn Hlt Hm. destruct (lookup_lt_is_Some_2 cs n Hlt) as [[u E] Hu]. by apply (rg_file_other n u E). }
  assert (Ss : forall m, 0 <= m <= MF -> mslot regrown (disk_inode regrown (Z.of_nat i + 1)) m = mslot D1 ip1 m) by apply rg_file_same.
  destruct (decide (j = i)) as [->|Hji].
  - rewrite Ss, So by (try done; congruence). apply rg_apart; congruence || done.
  - rewrite So by done. destruct (decide (j' = i)) as [->|Hji'].
    + rewrite Ss by done. intros H0 E. apply (rg_apart j l k); try done. by rewrite <- E.
    + rewrite So by done. by apply (mi_disj _ _ Hinv).
Qed.

Lemma rg_inv : minv (mkimage regrown FSSIZE (Z.of_nat (length cs) + 1) fb1) (<[i := (t, C1)]> cs).
Proof.
  pose proof (lookup_lt_Some _ _ _ Hi) as Hlt. pose proof rg_disj as Hdisj. destruct rg_file_same as [Hsame _].
  pose proof rg_file_other as Hother. pose proof rg_low as Hlow. pose proof rg_high as Hhigh. pose proof (miblock_low _ rg_range) as Hib.
  destruct Hinv as [I1 I2 I3 I4 I5 I6 I7 I8 I9]. cbn [sects nsect freeinode freeblock] in *. pose proof (total_cost_pos cs).
  split; cbn [sects nsect freeinode freeblock]; rewrite ?length_insert; try done.
  - intros b. unfold regrown, set_block. destruct (b =? _); [apply put_dinode_ok|]; apply (gr_ok _ _ _ _ _ _ _ _ G).
  - intros b Hb. rewrite Hhigh by lia. eapply grown_zero; [|exact I4|exact G|exact Hb]. lia.
  - rewrite (total_cost_insert _ _ _ C) by done. pose proof (gr_fb _ _ _ _ _ _ _ _ G). lia.
  - apply Forall_insert; [done|]. apply (proj1 (Forall_lookup _ _) I6 i _ Hi).
  - intros j u E Hj. destruct (decide (j = i)) as [->|Hne].
    + rewrite list_lookup_insert_eq in Hj by done. injection Hj as <- <-. exact Hsame.
    + rewrite list_lookup_insert_ne in Hj by done. by apply Hother.
  - assert (Hm : forall b, b = 1 \/ 2 <= b < 32 \/ b = 58 -> regrown b = D b).
    { intros b Hb. change nmeta with 59 in *. unfold regrown. rewrite set_block_other; [apply Hlow; lia|].
      intros Eb. rewrite <- Eb in Hib. lia. }
    split; [rewrite Hm by lia; apply I9|]. intros b Hb. rewrite Hm by lia. by apply I9.
Qed.
End regrow.

Lemma iappend_ok s cs i t C p : minv s cs -> cs !! i = Some (t, C) -> Forall is_byte p -> Z.of_nat (length C + length p) <= MF * 512 ->
  freeblock s + costb (nblk (C ++ p)) - costb (nblk C) <= FSSIZE ->
  exists s', iappend (Z.of_nat i + 1) p s = Ret tt s' /\ minv s' (<[i := (t, C ++ p)]> cs).
Proof.
  intros Hinv Hi Hp Hm Hfit. destruct s as [D ns fi fb]. pose proof Hinv as [I1 [I2 I2'] I3 I4 [I5 I5'] I6 I7 I8 I9].
  cbn [sects nsect freeinode freeblock] in *. subst ns fi. destruct (I7 i t C Hi) as (Hf & _ & _ & _ & _ & Hsz).
  pose proof (lookup_lt_Some _ _ _ Hi) as Hlt. pose proof (total_cost_pos cs). change nmeta with 59 in I5.
  pose proof (costb_mono _ _ (nblk_app C p)).
  destruct (append_loop (Z.of_nat (length cs) + 1) p (S (length p)) D (disk_inode D (Z.of_nat i + 1)) fb C Hf I3 I4 ltac:(lia) Hp Hm Hfit
    ltac:(lia)) as (D1 & ip1 & fb1 & E & G).
  pose proof (gr_fb _ _ _ _ _ _ _ _ G) as Efb. pose proof (rg_inv D fb cs i t C D1 ip1 fb1 (C ++ p) Hinv Hi G ltac:(lia)) as Hinv'.
  eexists. split; [|exact Hinv']. unfold iappend, bind at 1. rewrite rinode_eq by lia. unfold bind. rewrite Hsz, E. cbn [fst snd].
  assert (En : i_inum (with_size (Z.of_nat (length (C ++ p))) ip1) = Z.of_nat i + 1) by (by destruct (gr_ip _ _ _ _ _ _ _ _ G) as [l ->]).
  rewrite winode_eq by (rewrite En; lia). by rewrite En.
Qed.

Lemma blank_slot D t inum k : 0 <= k <= MF -> mslot D (with_nlink 1 (with_type t (blank_inode inum))) k = 0.
Proof.
  intros Hk. unfold slot, ind_of, addr_of. cbn. unfold MF in *. destruct (Z.eqb_spec k 140); [done|]. destruct (Z.ltb_spec k 12); [|done].
  change (@replicate Z 13 0 !!! Z.to_nat k = 0). apply list_lookup_total_correct, lookup_replicate_2. lia.
Qed.

Lemma blank_file D t inum fb : nmeta <= fb -> mfile D (with_nlink 1 (with_type t (blank_inode inum))) fb [].
Proof.
  intros Hfb. split; [done| | |done|unfold MF; cbn; lia].
  - split; [change (nblk []) with 0; unfold MF; lia| | | |].
    + intros k Hk. rewrite blank_slot by lia. change (nblk []) with 0. lia.
    + rewrite blank_slot by (unfold MF; lia). done.
    + intros k Hk. by rewrite blank_slot.
    + intros k k' Hk Hk'. by rewrite blank_slot.
  - intros k Hk. change (nblk []) with 0 in Hk. lia.
Qed.

Lemma total_cost_app cs cs' : total_cost (cs ++ cs') = total_cost cs + total_cost cs'.
Proof. induction cs as [|f cs IH]; [done|]. cbn [app]. rewrite !total_cost_cons, IH. lia. Qed.

Lemma ialloc_ok s cs t : minv s cs -> short t -> Z.of_nat (length cs) + 2 <= NINODES ->
  exists s', ialloc t s = Ret (Z.of_nat (length cs) + 1) s' /\ freeblock s' = freeblock s /\ minv s' (cs ++ [(t, [])]).
Proof.
  intros Hinv Ht Hn. destruct s as [D ns fi fb]. destruct Hinv as [I1 [I2 I2'] I3 I4 [I5 I5'] I6 I7 I8 I9].
  cbn [sects nsect freeinode freeblock] in *. subst ns fi. set (inum := Z.of_nat (length cs) + 1) in *.
  set (ip := with_nlink 1 (with_type t (blank_inode inum))).
  set (D' := set_block (IBLOCK inum mkfs_sb) (put_dinode ip (D (IBLOCK inum mkfs_sb))) D).
  exists (mkimage D' FSSIZE (inum + 1) fb). split.
  { unfold ialloc, bind at 1, new_inode. cbn [freeinode sects nsect freeblock]. rewrite u32_small by (unfold NINODES, inum in *; lia).
    unfold bind. fold ip. by rewrite winode_eq by (unfold inum, NINODES in *; cbn; lia). }
  split; [done|].
  assert (Hib : 32 <= IBLOCK inum mkfs_sb < 58) by (apply miblock_low; unfold inum; lia).
  assert (HD : forall b, nmeta <= b \/ b = 1 \/ 2 <= b < 32 \/ b = 58 -> D' b = D b).
  { intros b Hb. apply set_block_other. change nmeta with 59 in Hb. lia. }
  assert (Hf0 : fields_ok ip).
  { split; cbn; [done|unfold short; lia..|lia|]. split; [done|]. repeat constructor; lia. }
  assert (Hold : forall j, (j < length cs)%nat -> disk_inode D' (Z.of_nat j + 1) = disk_inode D (Z.of_nat j + 1)).
  { intros j Hj. apply (disk_inode_other D ip); [done|lia|cbn; lia|cbn; lia]. }
  assert (Hnew : disk_inode D' inum = ip) by (apply (disk_inode_same D ip); done).
  assert (Hfile : forall j u E, cs !! j = Some (u, E) -> file_at D' fb (Z.of_nat j + 1) u E /\
    (forall k, 0 <= k <= MF -> mslot D' (disk_inode D' (Z.of_nat j + 1)) k = mslot D (disk_inode D (Z.of_nat j + 1)) k)).
  { intros j u E Hj. destruct (I7 j u E Hj) as [Hf Hrest]. unfold file_at. rewrite Hold by (by eapply lookup_lt_Some).
    assert (Hpre : forall k, 0 <= k <= MF -> mslot D (disk_inode D (Z.of_nat j + 1)) k <> 0 ->
      D' (mslot D (disk_inode D (Z.of_nat j + 1)) k) = D (mslot D (disk_inode D (Z.of_nat j + 1)) k)).
    { intros k Hk Hk0. apply HD. left. apply (sh_range _ _ _ _ (mf_shape _ _ _ _ Hf) k Hk Hk0). }
    destruct (mfile_frame D D' _ fb fb E Hf ltac:(lia) Hpre) as [Hf' Hs']. done. }
  pose proof (total_cost_pos cs).
  split; cbn [sects nsect freeinode freeblock]; try done.
  - rewrite length_app. cbn. unfold inum in *. lia.
  - intros b. unfold D', set_block. destruct (b =? _); [apply put_dinode_ok|]; apply I3.
  - intros b Hb. rewrite HD by lia. by apply I4.
  - rewrite total_cost_app. change (total_cost [(t, [])]) with 0. lia.
  - apply Forall_app. split; [done|]. by apply Forall_singleton.
  - intros j u E [Hj|[Hlen Hj]]%lookup_app_Some; [by apply Hfile|].
    apply list_lookup_singleton_Some in Hj as [Ej [= <- <-]]. replace (Z.of_nat j + 1) with inum by (unfold inum; lia).
    unfold file_at. rewrite Hnew. split; [apply blank_file; lia|done].
  - intros j j' k l Hne Hj Hj' Hk Hl. rewrite length_app in Hj, Hj'. cbn in Hj, Hj'.
    assert (Hs : forall j k, (j < length cs + 1)%nat -> 0 <= k <= MF -> mslot D' (disk_inode D' (Z.of_nat j + 1)) k =
      if decide (j < length cs)%nat then mslot D (disk_inode D (Z.of_nat j + 1)) k else 0).
    { intros n m Hn' Hm. destruct (decide (n < length cs)%nat) as [Hlt|Hge].
      - destruct (lookup_lt_is_Some_2 cs n Hlt) as [[u E] Hu]. by apply (Hfile n u E).
      - replace (Z.of_nat n + 1) with inum by (unfold inum; lia). rewrite Hnew. by apply blank_slot. }
    rewrite !Hs by done. destruct (decide (j < length cs)%nat); [|done]. destruct (decide (j' < length cs)%nat); [by apply I8|done].
  - split; [rewrite HD by lia; apply I9|]. intros b Hb. rewrite HD by lia. by apply I9.
Qed.

(** Appending the pieces of a file one by one. *)
Lemma pieces_ok i t ps : forall s cs C, minv s cs -> cs !! i = Some (t, C) -> Forall is_byte (mjoin ps) ->
  Z.of_nat (length C + length (mjoin ps)) <= MF * 512 -> nmeta + total_cost (<[i := (t, C ++ mjoin ps)]> cs) <= FSSIZE ->
  exists s', for_all ps (iappend (Z.of_nat i + 1)) s = Ret tt s' /\ minv s' (<[i := (t, C ++ mjoin ps)]> cs).
Proof.
  induction ps as [|p ps IH]; intros s cs C Hinv Hi Hb Hm Hfit.
  - exists s. change (mjoin []) with (@nil Z) in *. rewrite app_nil_r in *. by rewrite list_insert_id.
  - change (mjoin (p :: ps)) with (p ++ mjoin ps) in *. cbn [for_all]. apply Forall_app in Hb as [Hp Hb]. rewrite length_app in Hm. rewrite app_assoc in Hfit. pose proof (mi_fb _ _ Hinv) as [Efb _].
    rewrite (total_cost_insert _ _ _ C) in Hfit by done. pose proof (costb_mono _ _ (nblk_app (C ++ p) (mjoin ps))).
    destruct (iappend_ok s cs i t C p Hinv Hi Hp ltac:(lia) ltac:(lia)) as (s1 & E1 & Hinv1).
    assert (Hlt : (i < length cs)%nat) by (by eapply lookup_lt_Some).
    destruct (IH s1 _ (C ++ p) Hinv1) as (s2 & E2 & Hinv2); [by apply list_lookup_insert_eq|done|rewrite length_app; lia| |].
    + rewrite list_insert_insert_eq, (total_cost_insert _ _ _ C) by done. lia.
    + rewrite list_insert_insert_eq, <- app_assoc in Hinv2. exists s2. split; [|done]. unfold bind. by rewrite E1.
Qed.

(** ** What mkfs is asked to build *)
Notation src := (list Z * list (list Z))%type.

Fixpoint entries (n : Z) (files : list src) : list Z :=
  match files with
  | [] => []
  | f :: files => entry (name_of f.1) n ++ entries (n + 1) files
  end.
Definition root_bytes (files : list src) : list Z := entry [46] 1 ++ entry [46; 46] 1 ++ entries 2 files.
Definition wanted (files : list src) : list (Z * list Z) :=
  (T_DIR, root_bytes files) :: ((fun f : src => (T_FILE, mjoin f.2)) <$> files).

Definition src_ok (f : src) : Prop :=
  slash ∉ f.1 /\ Forall is_byte f.1 /\ Forall is_byte (mjoin f.2) /\ Z.of_nat (length (mjoin f.2)) <= MF * 512.

Lemma entries_app files files' : forall n, entries n (files ++ files') = entries n files ++ entries (n + Z.of_nat (length files)) files'.
Proof.
  induction files as [|f files IH]; intros n; cbn [entries app length]; [by rewrite Z.add_0_r|].
  rewrite IH, <- app_assoc. by replace (n + Z.of_nat (S (length files))) with (n + 1 + Z.of_nat (length files)) by lia.
Qed.

Lemma length_entries files : forall n, length (entries n files) = (16 * length files)%nat.
Proof. induction files as [|f files IH]; intros n; cbn [entries length]; [done|]. rewrite length_app, length_entry, IH. lia. Qed.

Lemma length_root files : Z.of_nat (length (root_bytes files)) = 16 * (Z.of_nat (length files) + 2).
Proof. unfold root_bytes. rewrite !length_app, !length_entry, length_entries. lia. Qed.

Lemma entry_bytes nm n : Forall is_byte nm -> Forall is_byte (entry nm n).
Proof. intros H. unfold entry. apply Forall_app. split; [apply le_split_bytes|by apply strncpy_byte]. Qed.

Lemma entries_bytes files : Forall src_ok files -> forall n, Forall is_byte (entries n files).
Proof.
  induction 1 as [|f files (_ & Hn & _) _ IH]; intros n; cbn [entries]; [done|]. apply Forall_app. split; [|apply IH].
  apply entry_bytes. unfold name_of. destruct (decide _); [|done]. destruct f.1; [done|]. by inversion Hn.
Qed.

Lemma wanted_snoc files f : wanted (files ++ [f]) =
  (T_DIR, root_bytes files ++ entry (name_of f.1) (Z.of_nat (length files) + 2)) :: ((fun f : src => (T_FILE, mjoin f.2)) <$> files) ++ [(T_FILE, mjoin f.2)].
Proof.
  unfold wanted, root_bytes. rewrite entries_app, fmap_app. cbn [entries]. rewrite app_nil_r, (Z.add_comm 2), <- !app_assoc. done.
Qed.

Lemma wanted_mono files files' : total_cost (wanted files) <= total_cost (wanted (files ++ files')).
Proof.
  unfold wanted. rewrite !total_cost_cons, fmap_app, total_cost_app. cbn [snd].
  pose proof (total_cost_pos ((fun f : src => (T_FILE, mjoin f.2)) <$> files')).
  assert (E : root_bytes (files ++ files') = root_bytes files ++ entries (2 + Z.of_nat (length files)) files').
  { unfold root_bytes. by rewrite entries_app, !app_assoc. }
  rewrite E. pose proof (costb_mono _ _ (nblk_app (root_bytes files) (entries (2 + Z.of_nat (length files)) files'))). lia.
Qed.

Lemma add_file_ok s files f : minv s (wanted files) -> src_ok f -> Z.of_nat (length files) + 3 <= NINODES ->
  nmeta + total_cost (wanted (files ++ [f])) <= FSSIZE ->
  exists s', add_file 1 f s = Ret tt s' /\ minv s' (wanted (files ++ [f])).
Proof.
  intros Hinv (Hsl & Hnb & Hb & Hm) Hn Hfit. set (fl := (fun f : src => (T_FILE, mjoin f.2)) <$> files).
  assert (Hlen : length (wanted files) = S (length files)) by (cbn; by rewrite length_fmap).
  destruct (ialloc_ok s (wanted files) T_FILE Hinv) as (s1 & E1 & Ef1 & Hinv1); [unfold short, T_FILE; lia|rewrite Hlen; lia|].
  rewrite Hlen in E1. replace (Z.of_nat (S (length files)) + 1) with (Z.of_nat (length files) + 2) in E1 by lia.
  change (wanted files ++ [(T_FILE, [])]) with ((T_DIR, root_bytes files) :: fl ++ [(T_FILE, [])]) in Hinv1.
  set (e := entry (name_of f.1) (Z.of_nat (length files) + 2)) in *. rewrite wanted_snoc in Hfit |- *. fold fl e in Hfit |- *.
  assert (He : Forall is_byte e).
  { apply entry_bytes. unfold name_of. destruct (decide _); [|done]. destruct f.1; [done|]. by inversion Hnb. }
  pose proof (mi_fb _ _ Hinv1) as [Efb _]. rewrite total_cost_cons, total_cost_app in Efb, Hfit. cbn [snd] in Efb, Hfit.
  change (total_cost [(T_FILE, [])]) with 0 in Efb. rewrite total_cost_cons in Hfit. change (total_cost []) with 0 in Hfit. cbn [snd] in Hfit.
  pose proof (costb_pos (mjoin f.2)) as Hpos.
  destruct (iappend_ok s1 _ 0 T_DIR (root_bytes files) e Hinv1 eq_refl He) as (s2 & E2 & Hinv2).
  { pose proof (length_root files). unfold e. rewrite length_entry. unfold NINODES, MF in *. lia. }
  { lia. }
  change (<[0%nat := _]> _) with ((T_DIR, root_bytes files ++ e) :: fl ++ [(T_FILE, [])]) in Hinv2.
  assert (Hfl : length fl = length files) by (unfold fl; by rewrite length_fmap).
  assert (Eins : <[S (length files) := (T_FILE, [] ++ mjoin f.2)]> ((T_DIR, root_bytes files ++ e) :: fl ++ [(T_FILE, [])]) =
    (T_DIR, root_bytes files ++ e) :: fl ++ [(T_FILE, mjoin f.2)]).
  { change (<[S (length files) := ?x]> (?a :: ?l)) with (a :: <[length files := x]> l). rewrite <- Hfl, insert_app_r_alt by lia.
    by rewrite Nat.sub_diag. }
  destruct (pieces_ok (S (length files)) T_FILE f.2 s2 _ [] Hinv2) as (s3 & E3 & Hinv3).
  { change ((fl ++ [(T_FILE, [])]) !! length files = Some (T_FILE, [])). by rewrite lookup_app_r, Hfl, Nat.sub_diag by lia. }
  { done. }
  { cbn. lia. }
  { rewrite Eins. rewrite total_cost_cons, total_cost_app, total_cost_cons. cbn [snd]. change (total_cost []) with 0. lia. }
  rewrite Eins in Hinv3. exists s3. split; [|done]. unfold add_file.
  assert (Ex : existsb (Z.eqb slash) f.1 = false).
  { apply not_true_iff_false. intros Hx. apply existsb_exists in Hx as (c & Hc & Ec). apply Hsl. apply list_elem_of_In. by rewrite (proj1 (Z.eqb_eq _ _) Ec). }
  rewrite Ex. unfold bind. rewrite E1. fold e. change 1 with (Z.of_nat 0 + 1). rewrite E2.
  by replace (Z.of_nat (length files) + 2) with (Z.of_nat (S (length files)) + 1) by lia.
Qed.

(** ** The finished image *)
Lemma zero_sectors : runs (for_all (seqZ 0 FSSIZE) (fun i => wsect i zero_block)) (mkimage (fun _ => zero_block) 0 1 nmeta)
  (fun _ s => nsect s = FSSIZE /\ freeinode s = 1 /\ freeblock s = nmeta /\ forall b, sects s b = zero_block).
Proof.
  apply (runs_for_all (fun pre s => nsect s = Z.of_nat (length pre) /\ freeinode s = 1 /\ freeblock s = nmeta /\ forall b, sects s b = zero_block)).
  - intros pre x post s E (H1 & H2 & H3 & H4). eexists tt, _. split; [reflexivity|]. cbn [nsect sects freeinode freeblock].
    assert (Hx : seqZ 0 FSSIZE !! length pre = Some x) by (by rewrite E, list_lookup_middle).
    apply lookup_seqZ in Hx as [-> _]. rewrite length_app. cbn. split; [lia|]. split; [done|]. split; [done|].
    intros b. unfold set_block. by destruct (b =? _).
  - intros s (H1 & H). by rewrite length_seqZ in H1.
  - done.
Qed.

Lemma start_ok : runs (start_blocks ;;; for_all (seqZ 0 FSSIZE) (fun i => wsect i zero_block) ;;; wsect 1 (put_sb mkfs_sb zero_block)) image0
  (fun _ s => minv s []).
Proof.
  apply runs_bind. apply runs_modify. cbn [sects nsect freeinode image0]. apply runs_bind.
  eapply runs_conseq; [apply zero_sectors|]. intros _ s (H1 & H2 & H3 & H4). eexists tt, _. split; [reflexivity|].
  split; cbn [sects nsect freeinode freeblock length].
  - rewrite H1. done.
  - rewrite H2. unfold NINODES. lia.
  - intros b. unfold set_block. destruct (b =? 1); [|rewrite H4; apply zero_block_ok]. unfold put_sb. auto 10 with block.
  - intros b Hb. rewrite H3 in Hb. change nmeta with 59 in Hb. rewrite set_block_other by lia. apply H4.
  - rewrite H3. change (total_cost []) with 0. change nmeta with 59. unfold FSSIZE. lia.
  - constructor.
  - intros i t C Hi. by rewrite lookup_nil in Hi.
  - intros; lia.
  - split; [apply set_block_same|]. intros b Hb. rewrite set_block_other by lia. apply H4.
Qed.

Lemma root_ok s : minv s [] -> exists s1 s2 s3, ialloc T_DIR s = Ret ROOTINO s1 /\ iappend ROOTINO (entry [46] ROOTINO) s1 = Ret tt s2 /\
  iappend ROOTINO (entry [46; 46] ROOTINO) s2 = Ret tt s3 /\ minv s3 (wanted []).
Proof.
  intros Hinv. destruct (ialloc_ok s [] T_DIR Hinv) as (s1 & E1 & Ef & Hinv1); [unfold short, T_DIR; lia|unfold NINODES; cbn; lia|].
  pose proof (mi_fb _ _ Hinv1) as [Efb1 _]. cbn [app] in Hinv1.
  assert (Hb : forall l, Forall is_byte l -> Forall is_byte (entry l ROOTINO)) by (intros; by apply entry_bytes).
  destruct (iappend_ok s1 _ 0 T_DIR [] (entry [46] ROOTINO) Hinv1 eq_refl) as (s2 & E2 & Hinv2).
  { apply Hb. repeat constructor; lia. }
  { rewrite length_entry. unfold MF. cbn. lia. }
  { rewrite Efb1. by vm_compute. }
  change (<[0%nat := _]> _) with [(T_DIR, entry [46] ROOTINO)] in Hinv2. pose proof (mi_fb _ _ Hinv2) as [Efb2 _].
  destruct (iappend_ok s2 _ 0 T_DIR (entry [46] ROOTINO) (entry [46; 46] ROOTINO) Hinv2 eq_refl) as (s3 & E3 & Hinv3).
  { apply Hb. repeat constructor; lia. }
  { rewrite !length_entry. unfold MF. cbn. lia. }
  { rewrite Efb2. by vm_compute. }
  exists s1, s2, s3. done.
Qed.

Lemma files_ok_run files s : minv s (wanted []) -> Forall src_ok files -> Z.of_nat (length files) + 2 <= NINODES ->
  nmeta + total_cost (wanted files) <= FSSIZE -> runs (for_all files (add_file ROOTINO)) s (fun _ s' => minv s' (wanted files)).
Proof.
  intros Hinv Hok Hn Hfit. apply (runs_for_all (fun pre s => minv s (wanted pre))); [|done|done].
  intros pre f post s' -> Hpre. apply Forall_app in Hok as [_ Hok]. apply Forall_inv in Hok. rewrite length_app in Hn. cbn in Hn.
  replace (pre ++ f :: post) with ((pre ++ [f]) ++ post) in Hfit by (by rewrite <- app_assoc).
  pose proof (wanted_mono (pre ++ [f]) post).
  destruct (add_file_ok s' pre f Hpre Hok ltac:(lia) ltac:(lia)) as (s2 & E & H2). by exists tt, s2.
Qed.

(** *** Reading the finished image *)
Lemma bitmap_bits n : 0 <= n <= 4096 ->
  let d := foldl (fun buf i => put8 (i / 8) (Z.lor (get8 buf (i / 8)) (Z.shiftl 1 (i `mod` 8))) buf) zero_block (seqZ 0 n) in
  block_ok d /\ forall j, 0 <= j < 4096 -> bit_set d j = (j <? n).
Proof.
  intros Hn. destruct (Z_of_nat_complete n) as [m ->]; [lia|]. induction m as [|m IH]; cbv zeta.
  - split; [apply zero_block_ok|]. intros j Hj. change (seqZ 0 (Z.of_nat 0)) with (@nil Z). cbn [foldl]. unfold bit_set. rewrite land_bit by dlia.
    assert (E : get8 zero_block (j / 8) = 0) by (apply list_lookup_total_correct, lookup_replicate_2; dlia).
    rewrite E, Z.bits_0. symmetry. apply Z.ltb_ge. lia.
  - destruct (IH ltac:(lia)) as [H1 H2]. rewrite seqZ_S, foldl_app. cbn [foldl]. set (d := foldl _ _ _) in *.
    change (0 + Z.of_nat m) with (Z.of_nat m). fold (set_bit (Z.of_nat m) d). split; [unfold set_bit; auto with block|].
    intros j Hj. rewrite bit_set_set by (done || (change BPB with 4096; lia)). rewrite H2 by done.
    destruct (Z.eqb_spec j (Z.of_nat m)), (Z.ltb_spec j (Z.of_nat m)), (Z.ltb_spec j (Z.of_nat (S m))); lia || done.
Qed.

(** The bytes of a file, and beyond its end up to its last block, zeroes. *)
Lemma mfile_contents D ip fb C n : mfile D ip fb C -> 0 <= n <= 512 * nblk C ->
  fbyte (fs_of D) ip <$> seqZ 0 n = (fun o => default 0 (C !! Z.to_nat o)) <$> seqZ 0 n.
Proof.
  intros Hf Hn. apply list_fmap_ext. intros i o [-> Ho]%lookup_seqZ. unfold fbyte. change (V (fs_of D)) with D.
  rewrite (mf_data _ _ _ _ Hf) by dlia. apply list_lookup_total_correct. rewrite fblock_lookup by dlia. do 3 f_equal. dlia.
Qed.

Lemma default_seqZ (C : list Z) n : Z.of_nat (length C) <= n ->
  (fun o => default 0 (C !! Z.to_nat o)) <$> seqZ 0 n = C ++ replicate (Z.to_nat n - length C) 0.
Proof.
  intros Hn. apply list_eq. intros i. destruct (decide (i < Z.to_nat n)%nat) as [Hi|Hi].
  - rewrite list_lookup_fmap, lookup_seqZ_lt by lia. cbn. rewrite Z.add_0_l, Nat2Z.id. destruct (decide (i < length C)%nat).
    + rewrite lookup_app_l by done. destruct (lookup_lt_is_Some_2 C i ltac:(done)) as [x ->]. done.
    + rewrite lookup_app_r, lookup_replicate_2 by lia. by rewrite lookup_ge_None_2 by lia.
  - rewrite !lookup_ge_None_2; [done| |]; rewrite ?length_fmap, ?length_seqZ, ?length_app, ?length_replicate; lia.
Qed.

Lemma mfile_inode_ok D ip fb C : mfile D ip fb C -> fb <= FSSIZE -> 0 <= i_inum ip < NINODES -> Z.of_nat (length C) <= i_size ip <= 512 * nblk C ->
  (forall b, nmeta <= b < fb -> used (fs_of D) b = true) -> inode_ok (fs_of D) ip.
Proof.
  intros [Hl Hs Hd Hb Hm] Hfb Hn Hsz Hu. pose proof (sh_nb _ _ _ _ Hs) as Hnb. split; [done|done|unfold MF in *; lia| | |].
  - intros k Hk Hk0. pose proof (sh_range _ _ _ _ Hs k Hk Hk0) as Hr. split; [|by apply Hu].
    change (dstart (sb (fs_of D))) with nmeta. change (size (sb (fs_of D))) with FSSIZE. lia.
  - apply (sh_inj _ _ _ _ Hs).
  - intros k Hk Hlt. apply (sh_data _ _ _ _ Hs k); unfold MF in *; dlia.
Qed.

(** *** The last steps: the size of the root directory, and the bitmap *)
Section finish.
Context (files : list src) (D : Z -> block) (fi fb : Z).
Context (Hinv : minv (mkimage D FSSIZE fi fb) (wanted files)).
Let root := with_size ((i_size (disk_inode D 1) / BSIZE + 1) * BSIZE) (disk_inode D 1).
Definition bitmap : block :=
  foldl (fun buf i => put8 (i / 8) (Z.lor (get8 buf (i / 8)) (Z.shiftl 1 (i `mod` 8))) buf) zero_block (seqZ 0 fb).
Definition finished : Z -> block :=
  set_block 58 bitmap (set_block (IBLOCK 1 mkfs_sb) (put_dinode root (D (IBLOCK 1 mkfs_sb))) D).

Lemma fin_root : mfile D (disk_inode D 1) fb (root_bytes files) /\ i_type root = T_DIR /\ fields_ok root /\
  i_size (disk_inode D 1) = 16 * (Z.of_nat (length files) + 2) /\ Z.of_nat (length files) + 2 <= NINODES.
Proof.
  destruct (mi_file _ _ Hinv 0%nat T_DIR (root_bytes files) eq_refl) as (Hf & Ht & Hma & Hmi & Hnl & Hsz). cbn [sects freeblock] in *.
  change (Z.of_nat 0 + 1) with 1 in *. rewrite length_root in Hsz. pose proof (mi_inode _ _ Hinv) as [E1 E2].
  pose proof (mi_fb _ _ Hinv) as [_ Efb]. cbn in Efb.
  assert (Hlen : length (wanted files) = S (length files)) by (cbn; by rewrite length_fmap). rewrite Hlen in E1. cbn [freeinode] in *.
  split; [done|]. split; [done|]. split; [|split; [done|lia]]. unfold root, NINODES in *. split; cbn [with_size i_type i_major i_minor i_nlink i_size i_addrs].
  - rewrite Ht. unfold short, T_DIR. lia.
  - rewrite Hma. unfold short. lia.
  - rewrite Hmi. unfold short. lia.
  - rewrite Hnl. unfold short. lia.
  - rewrite Hsz. unfold BSIZE. dlia.
  - split; [apply Hf|]. by eapply mfile_addrs.
Qed.

Lemma fin_blocks b : nmeta <= b \/ b = 1 \/ 2 <= b < 32 -> finished b = D b.
Proof.
  intros Hb. change nmeta with 59 in Hb. unfold finished. rewrite set_block_other by lia. apply set_block_other.
  change (IBLOCK 1 mkfs_sb) with 32. lia.
Qed.

Lemma fin_inode_other inum : 1 < inum < NINODES -> disk_inode finished inum = disk_inode D inum.
Proof.
  intros Hi. unfold disk_inode at 1, finished. pose proof (miblock_low inum ltac:(lia)). rewrite set_block_other by lia.
  pose proof (disk_inode_other D root inum (proj1 (fd_addrs _ (proj1 (proj2 (proj2 fin_root)))))) as H2.
  change (i_inum root) with 1 in H2. apply H2; lia.
Qed.

Lemma fin_inode_root : disk_inode finished 1 = root.
Proof.
  unfold disk_inode at 1, finished. rewrite set_block_other by done.
  apply (disk_inode_same D root); [apply (mi_ok _ _ Hinv)|apply fin_root|done].
Qed.

Lemma fin_ok : forall b, block_ok (finished b).
Proof.
  pose proof (mi_ok _ _ Hinv) as Hok. cbn [sects] in Hok. pose proof (mi_fb _ _ Hinv) as [Efb Hfb]. pose proof (total_cost_pos (wanted files)).
  cbn [freeblock] in *. change nmeta with 59 in Efb. unfold FSSIZE in Hfb.
  intros b. unfold finished, set_block. destruct (b =? 58); [apply bitmap_bits; lia|]. destruct (b =? _); [|done]. by apply put_dinode_ok.
Qed.

Lemma fin_used b : 0 <= b < FSSIZE -> used (fs_of finished) b = (b <? fb).
Proof.
  intros Hb. pose proof (mi_fb _ _ Hinv) as [Efb Hfb]. pose proof (total_cost_pos (wanted files)). cbn [freeblock] in *. change nmeta with 59 in Efb.
  unfold FSSIZE in *. unfold used. change (V (fs_of finished)) with finished. unfold BBLOCK. change BPB with 4096.
  rewrite Z.div_small, Z.mod_small by lia. change (0 + bmapstart (sb (fs_of finished))) with 58. unfold finished at 1. rewrite set_block_same.
  apply bitmap_bits; lia.
Qed.

Lemma fin_fs_ok : fs_ok (fs_of finished).
Proof.
  pose proof (mi_fb _ _ Hinv) as [Efb Hfb]. pose proof (total_cost_pos (wanted files)). cbn [freeblock] in *. split.
  - split; cbn; [constructor|constructor|done|done|apply fin_ok].
  - split; cbn; unfold FSSIZE, NINODES; change (inodestart mkfs_sb) with 32; by vm_compute.
  - intros b Hb. change (dstart (sb (fs_of finished))) with nmeta in Hb. change nmeta with 59 in *. unfold FSSIZE in *.
    rewrite fin_used by (unfold FSSIZE; lia). apply Z.ltb_lt. lia.
Qed.

(** Every file keeps its blocks and contents. *)
Lemma fin_file ip C : mfile D ip fb C -> mfile finished ip fb C /\ (forall k, 0 <= k <= MF -> mslot finished ip k = mslot D ip k).
Proof.
  intros Hf. apply (mfile_frame D finished ip fb fb C Hf ltac:(lia)). intros k Hk Hk0. apply fin_blocks. left.
  apply (sh_range _ _ _ _ (mf_shape _ _ _ _ Hf) k Hk Hk0).
Qed.

Lemma fin_file_ok k f : files !! k = Some f -> let ip := disk_inode finished (Z.of_nat k + 2) in
  inode_ok (fs_of finished) ip /\ i_type ip = T_FILE /\ i_nlink ip = 1 /\ contents (fs_of finished) ip = mjoin f.2.
Proof.
  intros Hk ip. destruct fin_root as (_ & _ & _ & _ & Hn). pose proof (lookup_lt_Some _ _ _ Hk) as Hlt.
  pose proof (mi_fb _ _ Hinv) as [Efb Hfb]. cbn [freeblock] in *.
  assert (Hw : wanted files !! S k = Some (T_FILE, mjoin f.2)).
  { change (((fun f : src => (T_FILE, mjoin f.2)) <$> files) !! k = Some (T_FILE, mjoin f.2)). by rewrite list_lookup_fmap, Hk. }
  destruct (mi_file _ _ Hinv (S k) _ _ Hw) as (Hf & Ht & _ & _ & Hnl & Hsz). cbn [sects freeblock] in *.
  replace (Z.of_nat (S k) + 1) with (Z.of_nat k + 2) in * by lia.
  assert (Eip : ip = disk_inode D (Z.of_nat k + 2)) by (apply fin_inode_other; lia). rewrite Eip. clear Eip ip.
  set (ip := disk_inode D (Z.of_nat k + 2)) in *. destruct (fin_file ip _ Hf) as [Hf' _].
  assert (Hcov : Z.of_nat (length (mjoin f.2)) <= 512 * nblk (mjoin f.2)) by (unfold nblk; dlia).
  split; [|split; [done|split; [done|]]].
  - eapply mfile_inode_ok; [exact Hf'|done|cbn; lia|rewrite Hsz; lia|].
    intros b Hb. rewrite fin_used by (change nmeta with 59 in Hb; lia). apply Z.ltb_lt. lia.
  - unfold contents. rewrite Hsz, (mfile_contents _ _ _ _ _ Hf'), default_seqZ by lia.
    rewrite Nat2Z.id, Nat.sub_diag. apply app_nil_r.
Qed.

Lemma fin_root_ok : let ip := disk_inode finished 1 in let n := Z.of_nat (length files) + 2 in
  i_type ip = T_DIR /\ i_size ip = 512 * (n / 32 + 1) /\
  (n `mod` 32 <> 0 -> inode_ok (fs_of finished) ip /\
    contents (fs_of finished) ip = root_bytes files ++ replicate (Z.to_nat (512 * (n / 32 + 1)) - length (root_bytes files)) 0) /\
  (n `mod` 32 = 0 -> slot (fs_of finished) ip (n / 32) = 0).
Proof.
  cbv zeta. rewrite fin_inode_root. destruct fin_root as (Hf & Ht & _ & Hsz & Hn). set (n := Z.of_nat (length files) + 2) in *.
  pose proof (mi_fb _ _ Hinv) as [Efb Hfb]. cbn [freeblock] in *. pose proof (length_root files) as Hl. fold n in Hl.
  assert (Esz : i_size root = 512 * (n / 32 + 1)) by (unfold root; cbn [with_size i_size]; rewrite Hsz; unfold BSIZE; dlia).
  assert (Hnb : nblk (root_bytes files) = (16 * n + 511) / 512) by (unfold nblk; by rewrite Hl).
  destruct (fin_file (disk_inode D 1) _ Hf) as [Hf' _]. assert (Hf2 : mfile finished root fb (root_bytes files)) by (destruct Hf'; by split).
  assert (Hn0 : 2 <= n) by (unfold n; lia).
  split; [done|]. split; [done|]. split.
  - intros Hm. assert (Hcov : 16 * n <= 512 * (n / 32 + 1) <= 512 * nblk (root_bytes files)) by (rewrite Hnb; dlia). split.
    + eapply mfile_inode_ok; [exact Hf2|done|unfold NINODES; cbn; lia|rewrite Esz; lia|].
      intros b Hb. rewrite fin_used by (change nmeta with 59 in Hb; lia). apply Z.ltb_lt. lia.
    + unfold contents. rewrite Esz, (mfile_contents _ _ _ _ _ Hf2), default_seqZ by lia. done.
  - intros Hm. destruct (decide (slot (fs_of finished) root (n / 32) = 0)) as [|Hne]; [done|exfalso].
    apply (sh_data _ _ _ _ (mf_shape _ _ _ _ Hf2)) in Hne; [|unfold MF, NINODES in *; dlia]. rewrite Hnb in Hne. dlia.
Qed.

Lemma fin_disjoint i j k l : 1 <= i < fi -> 1 <= j < fi -> i <> j -> 0 <= k <= MF -> 0 <= l <= MF ->
  slot (fs_of finished) (disk_inode finished i) k <> 0 ->
  slot (fs_of finished) (disk_inode finished i) k <> slot (fs_of finished) (disk_inode finished j) l.
Proof.
  intros Hi Hj Hne Hk Hl. pose proof (mi_inode _ _ Hinv) as [Efi Hfi]. cbn [freeinode] in *.
  assert (Hs : forall i k, 1 <= i < fi -> 0 <= k <= MF -> slot (fs_of finished) (disk_inode finished i) k = mslot D (disk_inode D i) k).
  { intros i' k' Hi' Hk'. assert (Hlt : (Z.to_nat (i' - 1) < length (wanted files))%nat) by lia.
    destruct (lookup_lt_is_Some_2 _ _ Hlt) as [[u E] Hu]. destruct (mi_file _ _ Hinv _ u E Hu) as [Hf _]. cbn [sects freeblock] in Hf.
    replace (Z.of_nat (Z.to_nat (i' - 1)) + 1) with i' in Hf by lia. destruct (fin_file _ _ Hf) as [_ Hs'].
    destruct (decide (i' = 1)) as [->|]; [rewrite fin_inode_root; by apply Hs'|]. rewrite fin_inode_other by lia. by apply Hs'. }
  rewrite !Hs by done. pose proof (mi_disj _ _ Hinv (Z.to_nat (i - 1)) (Z.to_nat (j - 1)) k l ltac:(lia) ltac:(lia) ltac:(lia) Hk Hl) as H.
  cbn [sects] in H. replace (Z.of_nat (Z.to_nat (i - 1)) + 1) with i in H by lia. by replace (Z.of_nat (Z.to_nat (j - 1)) + 1) with j in H by lia.
Qed.

Lemma fin_log : disk_ok 2 nlog FSSIZE finished /\ decode (finished 2) = [] /\
  mksuperblock (get32 (finished 1) 0) (get32 (finished 1) 4) (get32 (finished 1) 8) (get32 (finished 1) 12) (get32 (finished 1) 16)
    (get32 (finished 1) 20) (get32 (finished 1) 24) = mkfs_sb.
Proof.
  destruct (mi_meta _ _ Hinv) as [H1 H2]. cbn [sects] in *. rewrite !fin_blocks by lia. rewrite H1. split; [|split].
  - split; [by vm_compute|apply fin_ok|]. rewrite fin_blocks, H2 by lia.
    assert (E : decode zero_block = []) by (by vm_compute). split; [apply zero_block_ok|by vm_compute|rewrite E; constructor|by rewrite E].
  - rewrite H2 by lia. by vm_compute.
  - by vm_compute.
Qed.
End finish.

(** A file system with the sources [files] in it: what a booted kernel reads. *)
Record built (files : list src) (D : Z -> block) : Prop := {
  bu_sb : mksuperblock (get32 (D 1) 0) (get32 (D 1) 4) (get32 (D 1) 8) (get32 (D 1) 12) (get32 (D 1) 16) (get32 (D 1) 20) (get32 (D 1) 24)
    = mkfs_sb;
  bu_log : disk_ok 2 nlog FSSIZE D /\ decode (D 2) = [];
  bu_fs : fs_ok (fs_of D);
  bu_used : forall b, 0 <= b < FSSIZE -> used (fs_of D) b = (b <? nmeta + total_cost (wanted files));
  bu_file : forall k f, files !! k = Some f -> let ip := disk_inode D (Z.of_nat k + 2) in
    inode_ok (fs_of D) ip /\ i_type ip = T_FILE /\ i_nlink ip = 1 /\ contents (fs_of D) ip = mjoin f.2;
  bu_root : let ip := disk_inode D 1 in let n := Z.of_nat (length files) + 2 in
    i_type ip = T_DIR /\ i_size ip = 512 * (n / 32 + 1) /\
    (n `mod` 32 <> 0 -> inode_ok (fs_of D) ip /\
      contents (fs_of D) ip = root_bytes files ++ replicate (Z.to_nat (512 * (n / 32 + 1)) - length (root_bytes files)) 0) /\
    (n `mod` 32 = 0 -> slot (fs_of D) ip (n / 32) = 0);
  bu_disjoint : forall i j k l, 1 <= i < Z.of_nat (length files) + 2 -> 1 <= j < Z.of_nat (length files) + 2 -> i <> j ->
    0 <= k <= MF -> 0 <= l <= MF -> slot (fs_of D) (disk_inode D i) k <> 0 ->
    slot (fs_of D) (disk_inode D i) k <> slot (fs_of D) (disk_inode D j) l }.

Lemma finished_built files D fi fb : minv (mkimage D FSSIZE fi fb) (wanted files) -> built files (finished D fb).
Proof.
  intros Hinv. pose proof (mi_fb _ _ Hinv) as [Efb _]. pose proof (mi_inode _ _ Hinv) as [Efi _]. cbn [freeblock freeinode] in *.
  assert (Hfi : fi = Z.of_nat (length files) + 2) by (rewrite Efi; cbn; rewrite length_fmap; lia).
  destruct (fin_log files D fi fb Hinv) as (H1 & H2 & H3). split; [done|done|by eapply fin_fs_ok| | | |].
  - intros b Hb. rewrite <- Efb. by eapply fin_used.
  - intros k f Hk. by eapply fin_file_ok.
  - by eapply fin_root_ok.
  - rewrite <- Hfi. intros. by eapply fin_disjoint.
Qed.

Lemma runs_eq_bind {A B} (c : M image A) (f : A -> M image B) s a s1 Q : c s = Ret a s1 -> runs (f a) s1 Q -> runs (bind c f) s Q.
Proof. intros E H. apply runs_bind. by exists a, s1. Qed.

(** The last three statements of [main]: the root's size and the bitmap. *)
Lemma tail_ok files s : minv s (wanted files) ->
  runs (din <- rinode ROOTINO ;; winode (with_size ((i_size din / BSIZE + 1) * BSIZE) din) ;;; used <- gets freeblock ;; balloc used) s
    (fun _ s' => built files (sects s')).
Proof.
  destruct s as [D ns fi fb]. intros Hinv. pose proof (mi_nsect _ _ Hinv) as En. cbn in En. subst ns.
  pose proof (finished_built _ _ _ _ Hinv) as Hb. pose proof (mi_fb _ _ Hinv) as [_ Hfb]. cbn [freeblock] in Hfb.
  eapply runs_eq_bind; [by apply rinode_eq; vm_compute|]. eapply runs_eq_bind; [by apply winode_eq; vm_compute|].
  eapply runs_eq_bind; [reflexivity|]. unfold balloc. cbn [freeblock]. destruct (Z.ltb_spec fb (BSIZE * 8)); [|unfold BSIZE, FSSIZE in *; lia].
  eexists tt, _. split; [reflexivity|exact Hb].
Qed.

Lemma runs_prefix {B C} (a b : M image unit) (c : M image B) (k : M image C) s P Q :
  runs (a ;;; b ;;; c) s P -> (forall x s', P x s' -> runs k s' Q) -> runs (a ;;; b ;;; c ;;; k) s Q.
Proof.
  intros (x & s' & E & HP) Hk. destruct (Hk x s' HP) as (y & s2 & E2 & HQ). exists y, s2. split; [|done]. unfold bind in *.
  destruct (a s); try done. destruct (b _); try done. destruct (c _); try done. by simplify_eq.
Qed.

(** C13. Whatever files it is given, as long as they fit, [mkfs] terminates and leaves an
    image the kernel can boot from: the superblock reads back as written and agrees with
    the layout the block and inode layers assume, the log is empty and well formed, the
    bitmap marks exactly the metadata and the blocks handed out, inode [k + 2] is a
    well-formed file of link count one with the bytes of the [k]-th argument, the root
    directory holds ["."], [".."] and one entry per argument in order followed by empty
    entries, and no block belongs to two files.  When the entries fill the root's blocks
    exactly, the rounding of its size goes one block past what was allocated. *)
Theorem mkfs_correct (files : list src) :
  Forall src_ok files -> Z.of_nat (length files) + 2 <= NINODES -> nmeta + total_cost (wanted files) <= FSSIZE ->
  runs (main files) image0 (fun _ s => built files (sects s)).
Proof.
  intros Hok Hn Hfit. unfold main. eapply runs_prefix; [apply start_ok|]. intros [] s Hs.
  destruct (root_ok s Hs) as (s1 & s2 & s3 & E1 & E2 & E3 & H3). eapply runs_eq_bind; [exact E1|].
  change (negb (ROOTINO =? ROOTINO)) with false. cbv iota. eapply runs_eq_bind; [exact E2|]. eapply runs_eq_bind; [exact E3|].
  apply runs_bind. eapply runs_conseq; [by apply (files_ok_run files)|]. intros [] s4 H4. by apply tail_ok.
Qed.

Lemma mkfs_correct_witness : exists s, main [([95; 99; 97; 116], [[1; 2; 3]; [4; 5]]); ([82], [])] image0 = Ret tt s /\
  contents (fs_of (sects s)) (disk_inode (sects s) 2) = [1; 2; 3; 4; 5].
Proof.
  destruct (mkfs_correct [([95; 99; 97; 116], [[1; 2; 3]; [4; 5]]); ([82], [])]) as ([] & s & E & H).
  - repeat first [apply Forall_nil_2 | apply Forall_cons_2]; (split; [by apply (bool_decide_unpack _); vm_compute|]; split_and!);
      first [by apply Z.leb_le; vm_compute | cbn; repeat first [apply Forall_nil_2 | apply Forall_cons_2]; unfold is_byte; lia].
  - cbn. unfold NINODES. lia.
  - by vm_compute.
  - exists s. split; [exact E|]. by apply (bu_file _ _ H 0%nat _ eq_refl).
Defined.
